(* ===== verification/_CoqProject ===== *)
-Q . S2P
Prelude.v
RbTree.v
RbInv.v
RbRotate.v
RbInsert.v
RbWalk.v
RbErase.v
RbDelete.v
RbProps.v
Bytes.v
KString.v
UString.v
StringProps.v
MemProps.v
StringContract.v
Cfs.v
CfsQueue.v
CfsTime.v
CfsSteps.v
CfsContract.v
Fs.v
FsProps.v
FsContract.v
Kmalloc.v
KmallocRing.v
KmallocBuddy.v
KmallocBits.v
KmallocPages.v
KmallocAlloc.v
KmallocFree.v
KmallocInit.v
KmallocSource.v
KmallocContract.v
KmallocSlab.v
KmallocSlabOps.v
KmallocSlabFree.v
KmallocHeap.v
KmallocHeapFree.v
KmallocHeapContract.v
KmallocHeapSafe.v
KHeap.v
Device.v
DeviceContract.v
Kernel.v
Console.v
ConsoleProps.v
Terminal.v
TerminalProps.v
TerminalKeys.v
TerminalContract.v
Vfs.v
VfsProps.v
VfsContract.v
VfsTyping.v
Vm.v
VmProps.v
VmWalk.v
VmInit.v
VmContract.v
Tasks.v
Args.v
Unistd.v
Words.v
UserHeap.v
UserHeapProps.v
UserHeapContract.v
Stdio.v
StdioProps.v
Shell.v
VmSwitch.v
MemCalls.v
MemCallsProps.v
Process.v
ProcessProps.v
Idt.v
IdtProps.v
Entry.v
EntryProps.v
EntryContract.v
SwitchProps.v
