(* ===== verification/Prelude.v ===== *)
(** * The Illinix kernel, verified: the library's root

    Illinix is a 32-bit x86 teaching kernel in C (sources under
    [student-distrib/]) with a small user library ([lib/]).  This library
    translates its core into executable functions and proves what they do.

    ** The program and the files

    - Red-black trees, [lib/rbtree.c] and [include/rbtree.h]: [RbTree] has one
      definition per function over a store of nodes by address; [RbInv] says
      which tree a store holds; [RbRotate], [RbInsert], [RbErase], [RbDelete]
      and [RbWalk] prove the functions and [RbProps] states their contract:
      insertion and deletion keep the red-black invariants and the in-order
      sequence, and end.
    - Strings and memory blocks, [lib/lib.c] (kernel) and [lib/string.c]
      (user): [Bytes] is byte-addressed memory, [KString] and [UString] the
      routines (the assembly ones by their instructions), [StringProps],
      [MemProps] and [StringContract] what they compute, at any alignment and
      overlap, with faults on bytes that are not mapped.
    - The fair scheduler, [kernel/cfs.c]: [Cfs] has the run queue and the
      entities, over the tree of [RbTree]; [CfsQueue] relates them to a list
      sorted by virtual time, [CfsTime] is the fixed-point arithmetic,
      [CfsSteps] and [CfsContract] the scheduler's decisions.
    - The file system, [drivers/fs.c]: [Fs], and [FsProps] and [FsContract]
      against the bytes of a well-formed image.
    - The allocators, [kernel/kmalloc.c] and the user pages of [kernel/vm.c]:
      [Kmalloc] is the code on the words of memory it manages, the free lists
      inside the free memory.  The page allocator: [KmallocRing] (rings),
      [KmallocBits] (bitmaps), [KmallocBuddy] and [KmallocPages] (what a state
      means), [KmallocAlloc], [KmallocFree] and [KmallocInit] (the simulations
      of [get_page], [free_page] and [kmalloc_init]) and [KmallocContract]: in
      every reachable state the pages that are out do not overlap.  The slab
      allocator on it, and [kmalloc] and [kfree]: [KmallocSlab],
      [KmallocSlabOps] and [KmallocSlabFree] (lists of slots), [KmallocHeap]
      and [KmallocHeapFree] (blocks), [KmallocHeapContract], and
      [KmallocHeapSafe]: in every reachable state the blocks that the kernel
      holds do not overlap.
    - The interfaces of the allocators: [PageSource] of [KmallocSource], a
      source of pages, and [KernelHeap] of [KHeap], pages and blocks.  The
      slabs, the page tables, the memory calls and the processes are proved
      against them; the buddy allocator implements the first, and so does the
      heap on top of it, which also implements the second.
    - Virtual memory, [kernel/vm.c] and [kernel/access.c]: [Vm] is the code on
      the same memory; [VmProps], [VmWalk], [VmInit] and [VmContract] prove
      [page_init], [mmap] and [freemap] against abstract address spaces, and
      [VmSwitch] that [__umap] exchanges those of two processes.
    - The memory system calls of [kernel/syscall.c], [vmcopy], [show_mmap] and
      [do_page_fault]: [MemCalls], [MemCallsProps].
    - Devices, [kernel/i8259.c], [drivers/rtc.c], [drivers/time.c]: [Device]
      and [DeviceContract], as the bytes that go through the ports.
    - The rest of the kernel's state, [Kernel]: memory, devices, scheduler,
      terminals, processes and file tables; [do_timer].
    - Text output, [drivers/vga.c] and [lib/io.c]: [Console], [ConsoleProps].
    - Terminals, [drivers/terminal.c] and [drivers/keyboard.c]: [Terminal];
      [TerminalProps] has the abstract line editor, [TerminalKeys] proves that
      the interrupt handler implements it, [TerminalContract] adds [read] and
      [write].
    - Open files, [kernel/vfs.c], [kernel/file.c] and the file system calls of
      [kernel/syscall.c]: [Vfs], [VfsProps], [VfsContract]; [VfsTyping] proves
      that in any history of system calls and interrupts a descriptor reaches
      the operations of the kind of file it was opened as.
    - Processes, [kernel/process.c], [kernel/pid.c], [include/list.h] and their
      system calls: [Tasks] (numbers and task lists), [Args] ([parse_arg]),
      [Process] (creating, cloning, forking, exiting, the lists of children,
      [sched_init]) and [ProcessProps].
    - Entering and leaving the kernel: [Idt] and [IdtProps] are the descriptor
      table of [kernel/idt.c] and the handlers of [kernel/exception.c]; [Entry]
      is the assembly of [kernel/handler.S], [kernel/switch.S], [lib/main.S]
      and [switch_to_user] as lists of instructions on registers and memory;
      [EntryProps] has stacks and calls, [EntryContract] what a program sees of
      an interrupt, a page fault and a system call, [SwitchProps] what a thread
      sees of [swtch] and how a program starts.
    - The user library: [Unistd] ([lib/unistd.c]), [UserHeap] with
      [UserHeapProps] and [UserHeapContract] ([lib/stdlib.c], over the words of
      [Words]), [Stdio] and [StdioProps] ([lib/stdio.c]); and the shell
      [src/bsh.c], [Shell].

    The scheduler calls the tree; the terminals and the file table use the
    scheduler's thread records, the string routines, the screen and the file
    system; page tables come from the page allocator; processes use the heap,
    the page tables, the task lists and the scheduler.

    ** Conventions

    Definitions keep the names of the source.  A C function is a computation in
    the monad [M] below; a loop is [iter] with a fuel.  Integers are [Z] with
    the wrap-around of their C type written where an operation can leave it
    ([u32], [i32], ...).  Pointers are addresses.  Undefined behaviour is the
    fault [Undef].  There are two views of memory: bytes ([Bytes]) where the
    code handles text and files, and 32-bit words ([Kmalloc]) where it handles
    linked structures.

    Fuel is part of the definition only: it is derived from the bound of the
    loop (the length of the memory for a scan, the number of bits or orders,
    the 8-byte nodes that fit in the heap for a list, the 2^20 pages of an
    address space), and the theorems state that a result is returned, so that
    none of them holds for want of fuel.  The exceptions are loops that wait
    for an interrupt, where the theorem says which interrupts end the wait,
    and the invariant of [VfsTyping], which is about every call that returns.

    ** Parameters

    [Layout], [Tables_at] and [Process_env] are the addresses at which the
    linker puts static objects; [LayoutOk] and [TablesOk] say that those
    objects are aligned, in the kernel's image and apart.  [Env] of [Vfs] and
    [Shell_env] have the addresses of string literals, [Env] also the
    allocator's answers to the requests for file tables.  [Process_calls] of
    [UserHeap] and [syscall] of [Unistd] are the kernel as a program sees it.
    In [Idt], [link] gives the addresses of the handlers; in [Entry], the C
    functions that the assembly calls are functions on the processor's state,
    of which [cdecl] says that they keep to the calling convention.
    Interrupts and the hardware's answers are lists and functions that a
    definition takes as arguments.  Every theorem with a hypothesis that
    states a property of the program is applied to a concrete case in a lemma
    of the same name with the ending [_witness].

    ** Kinds of theorems

    Refinements of abstract operations: [get_page_correct],
    [free_page_correct], [mmap_correct], [umap_switches], [keyboard_refines],
    [heap_page_source].  Invariants of all reachable states: [kmalloc_safe],
    [pages_never_overlap], [enqueue_entity_sorted], [kmalloc_init_correct], and
    [calls_keep_types] for the types of files.  Round trips:
    [swtch_roundtrip], [freemap_correct], [open_close_reopen],
    [typed_line_is_read], [itoa_atoi_roundtrip].  What a program cannot see:
    [irq_transparent].  Termination and waiting: [read_to_end],
    [terminal_read_correct].  Bounds: [calc_delta_accurate].  The others give
    the result of an operation on every branch.  Some theorems state a defect
    exactly as the code has it, such as [page_fault_shifts],
    [sys_munmap_faults], [slab_split_overruns], [free_then_malloc_overlaps],
    [timeslice_grows], [open_when_full] and the second half of
    [freemap_correct] (page tables are never given back).

    ** Not modelled

    [__exec], [do_execute], [do_execv] and [console_init] of
    [kernel/process.c]: they compose [parse_arg], [pro_loader] and [fd_init],
    which are here on bytes or records, with the words of [Process], and leave
    through inline assembly in the middle of the function.  [sys_stat] counts
    in a variable that is not initialised, and [sys_execute] and [sys_execv]
    stand on the functions above.  [enable_paging] and [flush_tlb] load control
    registers that are not part of the model.  [kernel.c] reads the boot loader's
    records and calls the initialisers, which are here one by one; [x86_desc.S]
    and [boot.S] are tables and the loading of registers.  [sched.c] is
    commented out.  [usr/stdlib/alloc.c] and [usr/app] are an experiment that
    no build target uses.  The other programs under [src/], [syscalls/] and
    [fish/] and the tests run on the kernel and are not part of it. *)
From stdpp Require Export base gmap sets list numbers strings.
#[export] Set Default Goal Selector "!".
Open Scope Z_scope.

(** ** Machine integers

    A [w]-bit C integer is a [Z]; the functions below are the conversions
    the compiler inserts (reduction modulo [2^w], and the two's complement
    reading for the signed types).  Constants are written out so that every
    function computes. *)
Definition u8  (x : Z) : Z := x mod 256.
Definition u16 (x : Z) : Z := x mod 65536.
Definition u32 (x : Z) : Z := x mod 4294967296.
Definition u64 (x : Z) : Z := x mod 18446744073709551616.
Definition i8  (x : Z) : Z := (x + 128) mod 256 - 128.
Definition i32 (x : Z) : Z := (x + 2147483648) mod 4294967296 - 2147483648.
Definition i64 (x : Z) : Z :=
  (x + 9223372036854775808) mod 18446744073709551616 - 9223372036854775808.

(** The null pointer of [types.h]. *)
Definition NULL : Z := 0.
Definition nl : string := String (Ascii.ascii_of_nat 10) "".

(** [lia] with quotients and remainders by constants. *)
Ltac lia_mod := Z.to_euclidean_division_equations; lia.

Section words.
Implicit Types x : Z.

Lemma u8_range x : 0 <= u8 x < 256.
Proof. unfold u8. lia_mod. Qed.
Lemma u32_range x : 0 <= u32 x < 4294967296.
Proof. unfold u32. lia_mod. Qed.
Lemma u64_range x : 0 <= u64 x < 18446744073709551616.
Proof. unfold u64. lia_mod. Qed.
Lemma i32_range x : -2147483648 <= i32 x < 2147483648.
Proof. unfold i32. lia_mod. Qed.
Lemma i64_range x : -9223372036854775808 <= i64 x < 9223372036854775808.
Proof. unfold i64. lia_mod. Qed.
Lemma u8_id x : 0 <= x < 256 -> u8 x = x.
Proof. unfold u8. lia_mod. Qed.
Lemma u32_id x : 0 <= x < 4294967296 -> u32 x = x.
Proof. unfold u32. lia_mod. Qed.
Lemma u64_id x : 0 <= x < 18446744073709551616 -> u64 x = x.
Proof. unfold u64. lia_mod. Qed.
Lemma i32_id x : -2147483648 <= x < 2147483648 -> i32 x = x.
Proof. unfold i32. lia_mod. Qed.
Lemma i64_id x : -9223372036854775808 <= x < 9223372036854775808 -> i64 x = x.
Proof. unfold i64. lia_mod. Qed.
End words.

(** ** Results and the state-and-fault monad

    A kernel function is a function from the state it reads and writes to a
    result.  [Bad Undef] is an access the C semantics gives no meaning to (a
    null or dangling pointer, an index outside an array); [Bad Panic] is
    [panic] of [io.c], which never returns; [Bad Halted] is the [hlt] loop of
    [pause]; [Bad NoFuel] says that a loop did not finish within its fuel. *)
Inductive fault := Undef | Panic | Halted | NoFuel.

Inductive res (A : Type) :=
  | Ok (a : A)
  | Bad (f : fault).
Arguments Ok {A} a.
Arguments Bad {A} f.

Definition M (S A : Type) : Type := S -> res (A * S).

#[export] Instance M_ret S : MRet (M S) := λ A a s, Ok (a, s).
#[export] Instance M_bind S : MBind (M S) := λ A B k m s,
  match m s with
  | Ok (a, s') => k a s'
  | Bad f => Bad f
  end.

Definition raise {S A} (f : fault) : M S A := λ _, Bad f.
Definition gets {S A} (g : S -> A) : M S A := λ s, Ok (g s, s).
Definition modify {S} (g : S -> S) : M S unit := λ s, Ok (tt, g s).
(** Reading a partial value of the state: [Undef] when it is not there. *)
Definition gets_opt {S A} (g : S -> option A) : M S A := λ s,
  match g s with Some a => Ok (a, s) | None => Bad Undef end.
(** [if (c) m], the one-armed conditional. *)
Definition when {S} (c : bool) (m : M S unit) : M S unit :=
  if c then m else mret ().

(** Running a computation over one component of a larger state. *)
Definition zoom {S T A} (get : T -> S) (put : S -> T -> T) (m : M S A) : M T A := λ t,
  match m (get t) with
  | Ok (a, s) => Ok (a, put s t)
  | Bad f => Bad f
  end.

(** A loop: [body x] either goes on with a new loop state ([inl]) or leaves
    the loop with a result ([inr]).  The fuel bounds the iterations. *)
Fixpoint iter {S X A} (fuel : nat) (body : X -> M S (X + A)) (x : X) : M S A :=
  match fuel with
  | O => raise NoFuel
  | S n => r ← body x; match r with inl y => iter n body y | inr a => mret a end
  end.

(** [for (i = lo; i < lo + n; ++i) body i]. *)
Fixpoint for_loop {S} (lo : Z) (n : nat) (body : Z -> M S unit) : M S unit :=
  match n with
  | O => mret ()
  | S n' => body lo ;; for_loop (lo + 1) n' body
  end.

(** ** Weakest preconditions (total correctness)

    [wp s m Q]: from [s], [m] returns, without a fault and within its fuel,
    a value and a state that satisfy [Q]. *)
Definition wp {S A} (s : S) (m : M S A) (Q : A -> S -> Prop) : Prop :=
  match m s with
  | Ok (a, s') => Q a s'
  | Bad _ => False
  end.

Section wp.
Context {S : Type}.
Implicit Types s : S.

Lemma wp_iff {A} s (m : M S A) Q :
  wp s m Q <-> exists a s', m s = Ok (a, s') /\ Q a s'.
Proof. unfold wp. destruct (m s) as [[a s']|f]; naive_solver. Qed.

(** A computation whose result is known. *)
Lemma wp_ok {A} s (m : M S A) a s1 : wp s m (λ x s', x = a /\ s' = s1) <-> m s = Ok (a, s1).
Proof. unfold wp. destruct (m s) as [[b s']|f]; naive_solver. Qed.
Lemma wp_run_ok {A} s (m : M S A) a s1 (Q : A -> S -> Prop) :
  m s = Ok (a, s1) -> Q a s1 -> wp s m Q.
Proof. unfold wp. by intros ->. Qed.

(** Running a sequence whose head is known. *)
Lemma bind_ok {A B} s (m : M S A) (k : A -> M S B) a s1 :
  m s = Ok (a, s1) -> (m ≫= k) s = k a s1.
Proof. unfold mbind, M_bind. by intros ->. Qed.
Lemma bind_bad {A B} s (m : M S A) (k : A -> M S B) f : m s = Bad f -> (m ≫= k) s = Bad f.
Proof. unfold mbind, M_bind. by intros ->. Qed.
Lemma iter_bad {X A} s n (body : X -> M S (X + A)) x f :
  body x s = Bad f -> iter (1 + n) body x s = Bad f.
Proof. intros H. simpl. by apply bind_bad. Qed.

(** One iteration whose result is known. *)
Lemma iter_next {X A} s s1 n (body : X -> M S (X + A)) x y :
  body x s = Ok (inl y, s1) -> iter (Datatypes.S n) body x s = iter n body y s1.
Proof. intros H. simpl. by erewrite bind_ok by exact H. Qed.
Lemma iter_stop {X A} s s1 n (body : X -> M S (X + A)) x a :
  body x s = Ok (inr a, s1) -> iter (Datatypes.S n) body x s = Ok (a, s1).
Proof. intros H. simpl. by erewrite bind_ok by exact H. Qed.

Lemma wp_ret {A} s (a : A) (Q : A -> S -> Prop) : Q a s -> wp s (mret a) Q.
Proof. done. Qed.

Lemma wp_bind {A B} s (m : M S A) (k : A -> M S B) Q :
  wp s m (λ a s', wp s' (k a) Q) -> wp s (m ≫= k) Q.
Proof. unfold wp, mbind, M_bind. by destruct (m s) as [[a s']|f]. Qed.

Lemma wp_mono {A} s (m : M S A) (P Q : A -> S -> Prop) :
  wp s m P -> (forall a s', P a s' -> Q a s') -> wp s m Q.
Proof. unfold wp. destruct (m s) as [[a s']|f]; auto. Qed.

(** The rule the proofs use: run [m] by its specification, go on from any
    result the specification allows. *)
Lemma wp_seq {A B} s (m : M S A) (k : A -> M S B) P Q :
  wp s m P -> (forall a s', P a s' -> wp s' (k a) Q) -> wp s (m ≫= k) Q.
Proof. intros Hm Hk. apply wp_bind. by eapply wp_mono. Qed.

Lemma wp_gets {A} s (g : S -> A) (Q : A -> S -> Prop) :
  Q (g s) s -> wp s (gets g) Q.
Proof. done. Qed.

Lemma wp_modify s (g : S -> S) (Q : unit -> S -> Prop) :
  Q tt (g s) -> wp s (modify g) Q.
Proof. done. Qed.

(** A computation on a component of the state. *)
Lemma wp_zoom {T A} (t : T) (get : T -> S) (put : S -> T -> T) (m : M S A) Q :
  wp (get t) m (λ a s, Q a (put s t)) -> wp t (zoom get put m) Q.
Proof. unfold wp, zoom. by destruct (m (get t)) as [[a s]|f]. Qed.

Lemma wp_gets_opt {A} s (g : S -> option A) a (Q : A -> S -> Prop) :
  g s = Some a -> Q a s -> wp s (gets_opt g) Q.
Proof. intros H HQ. unfold wp, gets_opt. by rewrite H. Qed.

Lemma wp_when s (c : bool) (m : M S unit) (Q : unit -> S -> Prop) :
  (c = true -> wp s m Q) -> (c = false -> Q tt s) -> wp s (when c m) Q.
Proof. destruct c; simpl; intros H1 H2; [by apply H1|by apply H2]. Qed.

(** One unfolding of a loop. *)
Lemma wp_iter_step {X A} s n (body : X -> M S (X + A)) x Q :
  wp s (body x) (λ r s', match r with
                         | inl y => wp s' (iter n body y) Q
                         | inr a => Q a s'
                         end) ->
  wp s (iter (1 + n) body x) Q.
Proof.
  intros H. simpl. eapply wp_seq; [exact H|].
  intros [y|a] s' Hr; [exact Hr|by apply wp_ret].
Qed.

(** Loops by a decreasing index: an invariant [I i x s] whose index [i]
    goes down at every iteration, and fuel above the first index. *)
Lemma wp_iter {X A} (I : nat -> X -> S -> Prop) (body : X -> M S (X + A)) Q i n x s :
  (forall j y s1, I j y s1 ->
     wp s1 (body y) (λ r s2, match r with
                             | inl z => exists j', (j' < j)%nat /\ I j' z s2
                             | inr a => Q a s2
                             end)) ->
  I i x s -> (i < n)%nat -> wp s (iter n body x) Q.
Proof.
  intros Hbody. revert i x s. induction n as [|n IH]; intros i x s HI Hn; [lia|].
  apply (wp_iter_step s n). eapply wp_mono; [by eapply Hbody|].
  intros [z|a] s2; [|done]. intros (j & Hj & HI2). eapply IH; [done|lia].
Qed.

(** Counted loops: an invariant [I i s] at the head of iteration [i]. *)
Lemma wp_for (I : Z -> S -> Prop) body n lo s Q :
  (forall i s1, lo <= i < lo + Z.of_nat n -> I i s1 -> wp s1 (body i) (λ _, I (i + 1))) ->
  I lo s -> (forall s1, I (lo + Z.of_nat n) s1 -> Q tt s1) ->
  wp s (for_loop lo n body) Q.
Proof.
  revert lo s. induction n as [|n IH]; intros lo s Hb Hlo HQ; simpl.
  { apply wp_ret, HQ. by rewrite Z.add_0_r. }
  eapply wp_seq; [apply Hb; [lia|done]|]. intros [] s1 H1. apply IH; [|done|].
  - intros i s2 Hi. apply Hb. lia.
  - intros s2. replace (lo + 1 + Z.of_nat n) with (lo + Z.of_nat (1 + n)) by lia. apply HQ.
Qed.
End wp.

(** The step of a computation at the head of a [wp] goal; [wp_run H] runs the
    head by the specification [H]. *)
Ltac wp_run H := eapply wp_seq; [eapply H; eauto|].
Ltac wp_pure :=
  repeat (first [ apply wp_bind | apply wp_ret | apply wp_gets | apply wp_modify ]; cbn beta).

(** ** Generic lemmas on lists *)

(** Equations between concatenations, by right-associating both sides. *)
Ltac solve_app := cbn; repeat (progress (rewrite <-?app_assoc; cbn [app])); reflexivity.

Lemma NoDup_app_comm' {A} (l k : list A) : NoDup (l ++ k) -> NoDup (k ++ l).
Proof. intros H. by rewrite (Permutation_app_comm k l). Qed.

Lemma NoDup_drop_middle {A} (l m r : list A) : NoDup (l ++ m ++ r) -> NoDup (l ++ r).
Proof.
  rewrite !NoDup_app. setoid_rewrite elem_of_app. naive_solver.
Qed.

Lemma take_S_snoc {A} (l : list A) n x :
  l !! n = Some x -> take (S n) l = take n l ++ [x].
Proof. apply take_S_r. Qed.

(** A relation between any two elements of a list at different places. *)
Section pairwise.
Context {A : Type} (R : A -> A -> Prop).
Fixpoint pairwise (l : list A) : Prop :=
  match l with [] => True | x :: l => Forall (R x) l /\ pairwise l end.

Lemma pairwise_app l l' :
  pairwise (l ++ l') <-> pairwise l /\ pairwise l' /\ forall x y, x ∈ l -> y ∈ l' -> R x y.
Proof.
  induction l as [|z l IH]; simpl; [set_solver|]. rewrite Forall_app, IH, !Forall_forall. set_solver.
Qed.

Hypothesis R_sym : forall x y, R x y -> R y x.
Lemma pairwise_perm l l' : l ≡ₚ l' -> pairwise l -> pairwise l'.
Proof using R_sym.
  induction 1 as [|x l l' Hp IH|x y l|l l' l'' _ IH1 _ IH2]; simpl; auto.
  - intros [H1 H2]. split; [|auto]. by rewrite <-Hp.
  - rewrite !Forall_cons. intuition auto.
Qed.
Lemma pairwise_in l x y : pairwise l -> x ∈ l -> y ∈ l -> x = y \/ R x y.
Proof using R_sym.
  induction l as [|z l IH]; simpl; [set_solver|]. rewrite Forall_forall. intros [H1 H2] Hx Hy.
  apply elem_of_cons in Hx as [->|Hx], Hy as [->|Hy]; auto.
Qed.
Lemma pairwise_NoDup l : (forall x, ~ R x x) -> pairwise l -> NoDup l.
Proof using Type.
  intros Hi. induction l as [|x l IH]; simpl; [by constructor|]. rewrite Forall_forall.
  intros [H1 H2]. constructor; [|auto]. intros Hx. by apply (Hi x), H1.
Qed.
End pairwise.

(** Checking a range of integers by computation. *)
Lemma forall_seqZ (P : Z -> bool) n :
  forallb P (seqZ 0 n) = true -> forall k, 0 <= k < n -> P k = true.
Proof.
  rewrite forallb_forall. intros H k Hk. apply H, list_elem_of_In, elem_of_seqZ. lia.
Qed.
