(* ===== verification/RbTree.v ===== *)
(** * The red-black tree of [lib/rbtree.c] and [include/rbtree.h]

    The nodes are a store from addresses to [rb_node] structs, whose
    [rb_parent_color] word packs the parent's address with the colour in bit
    0, as the header does.  Every function of [rbtree.c] is a computation on
    that store and the root pointer, one write per assignment of the source.
    The file [RbInv] says what trees the store holds and [RbInsert], [RbErase]
    and [RbWalk] prove the functions. *)
From S2P Require Import Prelude.

(** [struct _rb_node] *)
Record rb_node := Rb_node {
  rb_parent_color : Z;
  rb_right : Z;
  rb_left : Z
}.

(** The nodes in memory and [struct _rb_root] ([root->rb_node]). *)
Record rb_state := Rb_state {
  rb_nodes : gmap Z rb_node;
  rb_root : Z
}.

Definition RB_BLACK : Z := 1.
Definition RB_RED : Z := 0.

(** The macros [rb_parent], [rb_color], [rb_is_red], [rb_is_black]. *)
Definition rb_parent (r : rb_node) : Z :=
  Z.land (rb_parent_color r) (u32 (Z.lnot 3)).
Definition rb_color (r : rb_node) : Z := Z.land (rb_parent_color r) 1.
Definition rb_is_red (r : rb_node) : bool := rb_color r =? 0.
Definition rb_is_black (r : rb_node) : bool := negb (rb_color r =? 0).

Section access.
(** Dereferencing a pointer: no struct lives at [NULL]. *)
Definition rb_deref (p : Z) : M rb_state rb_node := λ s,
  if decide (p = NULL) then Bad Undef
  else match rb_nodes s !! p with
       | Some n => Ok (n, s)
       | None => Bad Undef
       end.

Definition rb_update (p : Z) (f : rb_node -> rb_node) : M rb_state unit :=
  n ← rb_deref p;
  modify (λ s, Rb_state (<[p := f n]> (rb_nodes s)) (rb_root s)).

Definition set_left (p v : Z) : M rb_state unit :=
  rb_update p (λ n, Rb_node (rb_parent_color n) (rb_right n) v).
Definition set_right (p v : Z) : M rb_state unit :=
  rb_update p (λ n, Rb_node (rb_parent_color n) v (rb_left n)).
Definition set_parent_color (p v : Z) : M rb_state unit :=
  rb_update p (λ n, Rb_node v (rb_right n) (rb_left n)).

(** [root->rb_node], read and written. *)
Definition get_root : M rb_state Z := gets rb_root.
Definition set_root (v : Z) : M rb_state unit :=
  modify (λ s, Rb_state (rb_nodes s) v).
End access.

(** The macros [rb_set_red], [rb_set_black] and the inline functions
    [rb_set_parent], [rb_set_color]. *)
Definition rb_set_red (p : Z) : M rb_state unit :=
  n ← rb_deref p; set_parent_color p (Z.land (rb_parent_color n) (u32 (Z.lnot 1))).
Definition rb_set_black (p : Z) : M rb_state unit :=
  n ← rb_deref p; set_parent_color p (Z.lor (rb_parent_color n) 1).
Definition rb_set_parent (p parent : Z) : M rb_state unit :=
  n ← rb_deref p;
  set_parent_color p (Z.lor (Z.land (rb_parent_color n) 3) (u32 parent)).
Definition rb_set_color (p color : Z) : M rb_state unit :=
  n ← rb_deref p;
  set_parent_color p (Z.lor (Z.land (rb_parent_color n) (u32 (Z.lnot 1))) (u32 color)).

(** [RB_EMPTY_ROOT], [RB_EMPTY_NODE], [RB_CLEAR_NODE], [rb_init_node]. *)
Definition RB_EMPTY_ROOT : M rb_state bool := gets (λ s, rb_root s =? NULL).
Definition RB_EMPTY_NODE (p : Z) : M rb_state bool :=
  n ← rb_deref p; mret (rb_parent n =? p).
Definition RB_CLEAR_NODE (p : Z) : M rb_state unit := rb_set_parent p p.
Definition rb_init_node (rb : Z) : M rb_state unit :=
  set_parent_color rb 0 ;;
  set_right rb NULL ;;
  set_left rb NULL ;;
  RB_CLEAR_NODE rb.

(** [rb_node **link]: the three places a link can point to. *)
Inductive rb_link :=
  | LinkRoot
  | LinkLeft (p : Z)
  | LinkRight (p : Z).

Definition read_link (l : rb_link) : M rb_state Z :=
  match l with
  | LinkRoot => get_root
  | LinkLeft p => n ← rb_deref p; mret (rb_left n)
  | LinkRight p => n ← rb_deref p; mret (rb_right n)
  end.
Definition write_link (l : rb_link) (v : Z) : M rb_state unit :=
  match l with
  | LinkRoot => set_root v
  | LinkLeft p => set_left p v
  | LinkRight p => set_right p v
  end.

Definition rb_link_node (node parent : Z) (link : rb_link) : M rb_state unit :=
  set_parent_color node (u32 parent) ;;
  set_right node NULL ;;
  set_left node NULL ;;
  write_link link node.

Definition rb_rotate_left (node : Z) : M rb_state unit :=
  nd ← rb_deref node;
  let right := rb_right nd in
  let parent := rb_parent nd in
  rn ← rb_deref right;
  set_right node (rb_left rn) ;;
  when (negb (rb_left rn =? NULL))
    (rn ← rb_deref right; rb_set_parent (rb_left rn) node) ;;
  set_left right node ;;
  rb_set_parent right parent ;;
  (if negb (parent =? NULL) then
     pn ← rb_deref parent;
     if node =? rb_left pn then set_left parent right
     else set_right parent right
   else set_root right) ;;
  rb_set_parent node right.

Definition rb_rotate_right (node : Z) : M rb_state unit :=
  nd ← rb_deref node;
  let left := rb_left nd in
  let parent := rb_parent nd in
  ln ← rb_deref left;
  set_left node (rb_right ln) ;;
  when (negb (rb_right ln =? NULL))
    (ln ← rb_deref left; rb_set_parent (rb_right ln) node) ;;
  set_right left node ;;
  rb_set_parent left parent ;;
  (if negb (parent =? NULL) then
     pn ← rb_deref parent;
     if node =? rb_right pn then set_right parent left
     else set_left parent left
   else set_root left) ;;
  rb_set_parent node left.

(** [p && rb_is_red(p)] *)
Definition nonnull_red (p : Z) : M rb_state bool :=
  if p =? NULL then mret false
  else n ← rb_deref p; mret (rb_is_red n).

(** [!p || rb_is_black(p)] *)
Definition null_or_black (p : Z) : M rb_state bool :=
  if p =? NULL then mret true
  else n ← rb_deref p; mret (rb_is_black n).

(** [(!l || black(l)) && (!r || black(r))] for the two children. *)
Definition both_black (n : rb_node) : M rb_state bool :=
  lb ← null_or_black (rb_left n);
  if (lb : bool) then null_or_black (rb_right n) else mret false.

(** The loops walk a path of the tree, so the number of nodes in memory
    bounds their iterations. *)
Definition rb_fuel (s : rb_state) : nat := S (S (size (rb_nodes s))).

(** One iteration of the loop of [rb_insert_color]. *)
Definition insert_color_body (node : Z) : M rb_state (Z + unit) :=
  nd ← rb_deref node;
  let parent := rb_parent nd in
  c ← nonnull_red parent;
  if negb c then mret (inr ()) else
  pn ← rb_deref parent;
  let gparent := rb_parent pn in
  gn ← rb_deref gparent;
  if parent =? rb_left gn then
    let uncle := rb_right gn in
    ur ← nonnull_red uncle;
    if (ur : bool) then
      rb_set_black uncle ;;
      rb_set_black parent ;;
      rb_set_red gparent ;;
      mret (inl gparent)
    else
      pn ← rb_deref parent;
      np ← (if rb_right pn =? node
            then rb_rotate_left parent ;; mret (parent, node)
            else mret (node, parent));
      rb_set_black np.2 ;;
      rb_set_red gparent ;;
      rb_rotate_right gparent ;;
      mret (inl np.1)
  else
    let uncle := rb_left gn in
    ur ← nonnull_red uncle;
    if (ur : bool) then
      rb_set_black uncle ;;
      rb_set_black parent ;;
      rb_set_red gparent ;;
      mret (inl gparent)
    else
      pn ← rb_deref parent;
      np ← (if rb_left pn =? node
            then rb_rotate_right parent ;; mret (parent, node)
            else mret (node, parent));
      rb_set_black np.2 ;;
      rb_set_red gparent ;;
      rb_rotate_left gparent ;;
      mret (inl np.1).

Definition rb_insert_color (node : Z) : M rb_state unit :=
  fuel ← gets rb_fuel;
  iter fuel insert_color_body node ;;
  root ← get_root;
  rb_set_black root.

(** The loop of [__rb_erase_color]; its state is the pair [(node, parent)].
    [erase_left_red] is the [if (rb_is_red(other))] block when [node] is a left
    child, [erase_left_black] the rest of that branch, whose last statements,
    up to the [break], are [erase_left_finish]; the other three are the branch
    for a right child. *)
Definition erase_left_red (parent : Z) : M rb_state Z :=
  pn ← rb_deref parent;
  let other := rb_right pn in
  on ← rb_deref other;
  if rb_is_red on then
    rb_set_black other ;;
    rb_set_red parent ;;
    rb_rotate_left parent ;;
    pn ← rb_deref parent;
    mret (rb_right pn)
  else mret other.

Definition erase_left_finish (parent other : Z) : M rb_state ((Z * Z) + Z) :=
  pn ← rb_deref parent;
  rb_set_color other (rb_color pn) ;;
  rb_set_black parent ;;
  on ← rb_deref other;
  rb_set_black (rb_right on) ;;
  rb_rotate_left parent ;;
  root ← get_root;
  mret (inr root).

Definition erase_left_black (parent other : Z) : M rb_state ((Z * Z) + Z) :=
  on ← rb_deref other;
  bb ← both_black on;
  if (bb : bool) then
    rb_set_red other ;;
    pn ← rb_deref parent;
    mret (inl (parent, rb_parent pn))
  else
    on ← rb_deref other;
    fb ← null_or_black (rb_right on);
    other ← (if (fb : bool) then
               rb_set_black (rb_left on) ;;
               rb_set_red other ;;
               rb_rotate_right other ;;
               pn ← rb_deref parent;
               mret (rb_right pn)
             else mret other);
    erase_left_finish parent other.

Definition erase_right_red (parent : Z) : M rb_state Z :=
  pn ← rb_deref parent;
  let other := rb_left pn in
  on ← rb_deref other;
  if rb_is_red on then
    rb_set_black other ;;
    rb_set_red parent ;;
    rb_rotate_right parent ;;
    pn ← rb_deref parent;
    mret (rb_left pn)
  else mret other.

Definition erase_right_finish (parent other : Z) : M rb_state ((Z * Z) + Z) :=
  pn ← rb_deref parent;
  rb_set_color other (rb_color pn) ;;
  rb_set_black parent ;;
  on ← rb_deref other;
  rb_set_black (rb_left on) ;;
  rb_rotate_right parent ;;
  root ← get_root;
  mret (inr root).

Definition erase_right_black (parent other : Z) : M rb_state ((Z * Z) + Z) :=
  on ← rb_deref other;
  bb ← both_black on;
  if (bb : bool) then
    rb_set_red other ;;
    pn ← rb_deref parent;
    mret (inl (parent, rb_parent pn))
  else
    on ← rb_deref other;
    fb ← null_or_black (rb_left on);
    other ← (if (fb : bool) then
               rb_set_black (rb_right on) ;;
               rb_set_red other ;;
               rb_rotate_left other ;;
               pn ← rb_deref parent;
               mret (rb_left pn)
             else mret other);
    erase_right_finish parent other.

Definition erase_color_body (np : Z * Z) : M rb_state ((Z * Z) + Z) :=
  let '(node, parent) := np in
  b ← null_or_black node;
  root ← get_root;
  if negb (b && negb (node =? root)) then mret (inr node) else
  pn ← rb_deref parent;
  if rb_left pn =? node then
    other ← erase_left_red parent;
    erase_left_black parent other
  else
    other ← erase_right_red parent;
    erase_right_black parent other.

Definition rb_erase_color (node parent : Z) : M rb_state unit :=
  fuel ← gets rb_fuel;
  node ← iter fuel erase_color_body (node, parent);
  when (negb (node =? NULL)) (rb_set_black node).

(** [while (n->rb_left) n = n->rb_left;] and its mirror. *)
Definition go_left_body (n : Z) : M rb_state (Z + Z) :=
  nd ← rb_deref n;
  mret (if rb_left nd =? NULL then inr n else inl (rb_left nd)).
Definition go_right_body (n : Z) : M rb_state (Z + Z) :=
  nd ← rb_deref n;
  mret (if rb_right nd =? NULL then inr n else inl (rb_right nd)).
Definition go_left (n : Z) : M rb_state Z :=
  fuel ← gets rb_fuel; iter fuel go_left_body n.
Definition go_right (n : Z) : M rb_state Z :=
  fuel ← gets rb_fuel; iter fuel go_right_body n.

(** The branch of [rb_erase] for a node with at most one child. *)
Definition rb_erase_simple (node child : Z) : M rb_state unit :=
  nd ← rb_deref node;
  let parent := rb_parent nd in
  let color := rb_color nd in
  when (negb (child =? NULL)) (rb_set_parent child parent) ;;
  (if negb (parent =? NULL) then
     pn ← rb_deref parent;
     if rb_left pn =? node then set_left parent child
     else set_right parent child
   else set_root child) ;;
  when (color =? RB_BLACK) (rb_erase_color child parent).

(** Its branch for a node with two children: the in-order successor takes the
    node's place. *)
Definition rb_erase_two (old : Z) : M rb_state unit :=
  on ← rb_deref old;
  node ← go_left (rb_right on);
  (if negb (rb_parent on =? NULL) then
     pn ← rb_deref (rb_parent on);
     if rb_left pn =? old then set_left (rb_parent on) node
     else set_right (rb_parent on) node
   else set_root node) ;;
  nd ← rb_deref node;
  let child := rb_right nd in
  let parent := rb_parent nd in
  let color := rb_color nd in
  parent ← (if parent =? old then mret node
            else
              when (negb (child =? NULL)) (rb_set_parent child parent) ;;
              set_left parent child ;;
              on ← rb_deref old;
              set_right node (rb_right on) ;;
              on ← rb_deref old;
              rb_set_parent (rb_right on) node ;;
              mret parent);
  on ← rb_deref old;
  set_parent_color node (rb_parent_color on) ;;
  set_left node (rb_left on) ;;
  rb_set_parent (rb_left on) node ;;
  when (color =? RB_BLACK) (rb_erase_color child parent).

Definition rb_erase (node : Z) : M rb_state unit :=
  nd ← rb_deref node;
  if rb_left nd =? NULL then rb_erase_simple node (rb_right nd)
  else if rb_right nd =? NULL then rb_erase_simple node (rb_left nd)
  else rb_erase_two node.

Definition rb_first : M rb_state Z :=
  n ← get_root;
  if n =? NULL then mret NULL else go_left n.

Definition rb_last : M rb_state Z :=
  n ← get_root;
  if n =? NULL then mret NULL else go_right n.

(** The climbing loops of [rb_next] and [rb_prev]. *)
Definition next_up_body (node : Z) : M rb_state (Z + Z) :=
  nd ← rb_deref node;
  let parent := rb_parent nd in
  if parent =? NULL then mret (inr parent) else
  pn ← rb_deref parent;
  mret (if node =? rb_right pn then inl parent else inr parent).
Definition prev_up_body (node : Z) : M rb_state (Z + Z) :=
  nd ← rb_deref node;
  let parent := rb_parent nd in
  if parent =? NULL then mret (inr parent) else
  pn ← rb_deref parent;
  mret (if node =? rb_left pn then inl parent else inr parent).

Definition rb_next (node : Z) : M rb_state Z :=
  nd ← rb_deref node;
  if rb_parent nd =? node then mret NULL
  else if negb (rb_right nd =? NULL) then go_left (rb_right nd)
  else fuel ← gets rb_fuel; iter fuel next_up_body node.

Definition rb_prev (node : Z) : M rb_state Z :=
  nd ← rb_deref node;
  if rb_parent nd =? node then mret NULL
  else if negb (rb_left nd =? NULL) then go_right (rb_left nd)
  else fuel ← gets rb_fuel; iter fuel prev_up_body node.
