(* ===== verification/RbInv.v ===== *)
(** * What the red-black store holds: trees, contexts, invariants

    [tree] is the shape of a red-black tree whose nodes carry their
    addresses; [Rep h0 s t] says that the store [s] holds exactly [t] (every
    link and every parent pointer) and agrees with [h0] elsewhere.  A context
    is the path from a node up to the root, so that the functions of
    [rbtree.c], which climb parent pointers, are specified at their focus. *)
From S2P Require Import Prelude RbTree.

Inductive color := Red | Black.
#[export] Instance color_eq_dec : EqDecision color.
Proof. solve_decision. Defined.

Inductive tree :=
  | E
  | T (c : color) (l : tree) (a : Z) (r : tree).

Definition cz (c : color) : Z := match c with Red => RB_RED | Black => RB_BLACK end.
Definition pack (par : Z) (c : color) : Z := Z.lor par (cz c).
Definition mk_node (par : Z) (c : color) (r l : Z) : rb_node := Rb_node (pack par c) r l.
Definition ptr (t : tree) : Z := match t with E => NULL | T _ _ a _ => a end.
Definition tcolor (t : tree) : color := match t with E => Black | T c _ _ _ => c end.

(** The addresses in sort order. *)
Fixpoint inorder (t : tree) : list Z :=
  match t with E => [] | T _ l a r => inorder l ++ a :: inorder r end.

(** A struct address: not null, a 32-bit multiple of four (the [aligned]
    attribute of [struct _rb_node]); a pointer may also be null. *)
Definition addr (a : Z) : Prop := 0 < a < 4294967296 /\ a mod 4 = 0.
Definition pointer (a : Z) : Prop := 0 <= a < 4294967296 /\ a mod 4 = 0.

(** Contexts: innermost frame first. *)
Inductive frame :=
  | FL (c : color) (a : Z) (r : tree)
  | FR (c : color) (l : tree) (a : Z).
Definition fill (f : frame) (t : tree) : tree :=
  match f with FL c a r => T c t a r | FR c l a => T c l a t end.
Fixpoint plug (k : list frame) (t : tree) : tree :=
  match k with [] => t | f :: k => plug k (fill f t) end.
Definition faddr (f : frame) : Z := match f with FL _ a _ => a | FR _ _ a => a end.
Definition fcolor (f : frame) : color := match f with FL c _ _ => c | FR c _ _ => c end.
Definition kaddr (k : list frame) : Z := match k with [] => NULL | f :: _ => faddr f end.
(** The addresses before and after the focus in sort order. *)
Fixpoint kleft (k : list frame) : list Z :=
  match k with
  | [] => []
  | FL _ _ _ :: k => kleft k
  | FR _ l a :: k => kleft k ++ inorder l ++ [a]
  end.
Fixpoint kright (k : list frame) : list Z :=
  match k with
  | [] => []
  | FL _ a r :: k => a :: inorder r ++ kright k
  | FR _ _ _ :: k => kright k
  end.

(** [rep h par t]: the store [h] holds [t] under the parent [par]. *)
Fixpoint rep (h : gmap Z rb_node) (par : Z) (t : tree) : Prop :=
  match t with
  | E => True
  | T c l a r => h !! a = Some (mk_node par c (ptr r) (ptr l)) /\ rep h a l /\ rep h a r
  end.
(** [repk h k p root]: it holds the context [k] around the focus [p]. *)
Fixpoint repk (h : gmap Z rb_node) (k : list frame) (p root : Z) : Prop :=
  match k with
  | [] => root = p
  | FL c a r :: k =>
      h !! a = Some (mk_node (kaddr k) c (ptr r) p) /\ rep h a r /\ repk h k a root
  | FR c l a :: k =>
      h !! a = Some (mk_node (kaddr k) c p (ptr l)) /\ rep h a l /\ repk h k a root
  end.

Record Rep (h0 : gmap Z rb_node) (s : rb_state) (t : tree) : Prop := {
  Rep_tree : rep (rb_nodes s) NULL t;
  Rep_root : rb_root s = ptr t;
  Rep_nodup : NoDup (inorder t);
  Rep_addr : Forall addr (inorder t);
  Rep_frame : forall a, a ∉ inorder t -> rb_nodes s !! a = h0 !! a
}.

(** ** The packed word *)
Section pack.
Implicit Types (p q : Z) (c d : color).

Lemma addr_pointer a : addr a -> pointer a.
Proof. unfold addr, pointer. lia. Qed.
Lemma null_pointer : pointer NULL.
Proof. unfold pointer, NULL. done. Qed.

Lemma pack_add p c : pointer p -> pack p c = p + cz c.
Proof.
  intros [_ Hp].
  assert (Z.land p (cz c) = 0) as Hz.
  { destruct c; simpl; [apply Z.land_0_r|].
    change RB_BLACK with (Z.ones 1). rewrite Z.land_ones by lia. change (2 ^ 1) with 2.
    lia_mod. }
  unfold pack. rewrite <-Z.lxor_lor by done. by rewrite <-Z.add_nocarry_lxor.
Qed.

Lemma land_low3 x : Z.land x 3 = x mod 4.
Proof. exact (Z.land_ones x 2 ltac:(lia)). Qed.
Lemma land_not3 x : 0 <= x < 4294967296 -> Z.land x (u32 (Z.lnot 3)) = x - x mod 4.
Proof.
  intros Hx. change (u32 (Z.lnot 3)) with (Z.land (Z.ones 32) (Z.lnot 3)).
  rewrite Z.land_assoc, Z.land_ones, Z.mod_small by (simpl; lia).
  rewrite <-Z.ldiff_land. change 3 with (Z.ones 2). rewrite Z.ldiff_ones_r by lia.
  rewrite Z.shiftl_mul_pow2, Z.shiftr_div_pow2 by lia. simpl. lia_mod.
Qed.
Lemma land_not1 x : 0 <= x < 4294967296 -> Z.land x (u32 (Z.lnot 1)) = x - x mod 2.
Proof.
  intros Hx. change (u32 (Z.lnot 1)) with (Z.land (Z.ones 32) (Z.lnot 1)).
  rewrite Z.land_assoc, Z.land_ones, Z.mod_small by (simpl; lia).
  rewrite <-Z.ldiff_land. change 1 with (Z.ones 1) at 1. rewrite Z.ldiff_ones_r by lia.
  rewrite Z.shiftl_mul_pow2, Z.shiftr_div_pow2 by lia. simpl. lia_mod.
Qed.

Lemma rb_parent_mk p c r l : pointer p -> rb_parent (mk_node p c r l) = p.
Proof.
  intros Hp. unfold rb_parent. simpl. rewrite pack_add by done. destruct Hp.
  rewrite land_not3 by (destruct c; simpl; unfold RB_RED, RB_BLACK; lia_mod).
  destruct c; simpl; unfold RB_RED, RB_BLACK; lia_mod.
Qed.
Lemma rb_color_mk p c r l : pointer p -> rb_color (mk_node p c r l) = cz c.
Proof.
  intros Hp. unfold rb_color. simpl. rewrite pack_add by done. destruct Hp.
  change 1 with (Z.ones 1). rewrite Z.land_ones by lia.
  destruct c; simpl; unfold RB_RED, RB_BLACK; lia_mod.
Qed.
Lemma pack_set_parent p q c : pointer p -> pointer q ->
  Z.lor (Z.land (pack p c) 3) (u32 q) = pack q c.
Proof.
  intros Hp Hq. rewrite land_low3, pack_add by done.
  rewrite u32_id by apply Hq.
  replace ((p + cz c) mod 4) with (cz c)
    by (destruct Hp, c; simpl; unfold RB_RED, RB_BLACK; lia_mod).
  apply Z.lor_comm.
Qed.
Lemma pack_set_red p c : pointer p -> Z.land (pack p c) (u32 (Z.lnot 1)) = pack p Red.
Proof.
  intros Hp. rewrite !pack_add by done. destruct Hp.
  rewrite land_not1 by (destruct c; simpl; unfold RB_RED, RB_BLACK; lia_mod).
  destruct c; simpl; unfold RB_RED, RB_BLACK; lia_mod.
Qed.
Lemma pack_set_black p c : pointer p -> Z.lor (pack p c) 1 = pack p Black.
Proof.
  intros _. unfold pack. rewrite <-Z.lor_assoc. by destruct c.
Qed.
Lemma pack_set_color p c d : pointer p ->
  Z.lor (Z.land (pack p c) (u32 (Z.lnot 1))) (u32 (cz d)) = pack p d.
Proof.
  intros Hp. rewrite pack_set_red by done. unfold pack. rewrite <-Z.lor_assoc. by destruct d.
Qed.
Lemma pack_red p : pointer p -> u32 p = pack p Red.
Proof. intros [Hp _]. rewrite u32_id by done. unfold pack. by rewrite Z.lor_0_r. Qed.
End pack.

(** ** Framing and focusing *)
Lemma inorder_plug k t : inorder (plug k t) = kleft k ++ inorder t ++ kright k.
Proof.
  revert t. induction k as [|[c a r|c l a] k IH]; intros t; simpl.
  - by rewrite app_nil_r.
  - rewrite IH. simpl. by rewrite <-app_assoc.
  - rewrite IH. simpl. by rewrite <-!app_assoc.
Qed.

Lemma rep_agree h h' par t :
  rep h par t -> (forall a, a ∈ inorder t -> h' !! a = h !! a) -> rep h' par t.
Proof.
  revert par. induction t as [|c l IHl a r IHr]; intros par; simpl; [done|].
  intros (Ha & Hl & Hr) Hag. split_and!.
  - rewrite Hag; [done|]. set_solver.
  - apply IHl; [done|]. set_solver.
  - apply IHr; [done|]. set_solver.
Qed.

Lemma repk_agree h h' k p root :
  repk h k p root ->
  (forall a, a ∈ kleft k ++ kright k -> h' !! a = h !! a) -> repk h' k p root.
Proof.
  revert p. induction k as [|[c a r|c l a] k IH]; intros p; simpl; [done|..].
  all: intros (Ha & Ht & Hk) Hag; split_and!;
    [rewrite Hag; [done|set_solver]|eapply rep_agree; [done|set_solver]|apply IH; [done|set_solver]].
Qed.

(** The pieces of [Rep] at a focus. *)
Record Zip (h0 : gmap Z rb_node) (s : rb_state) (k : list frame) (t : tree) : Prop := {
  Zip_k : repk (rb_nodes s) k (ptr t) (rb_root s);
  Zip_t : rep (rb_nodes s) (kaddr k) t;
  Zip_nodup : NoDup (kleft k ++ inorder t ++ kright k);
  Zip_addr : Forall addr (kleft k ++ inorder t ++ kright k);
  Zip_frame : forall a, a ∉ kleft k ++ inorder t ++ kright k -> rb_nodes s !! a = h0 !! a
}.

Lemma rep_plug_aux h k t root :
  rep h NULL (plug k t) /\ root = ptr (plug k t) <->
  repk h k (ptr t) root /\ rep h (kaddr k) t.
Proof.
  revert t. induction k as [|[c a r|c l a] k IH]; intros t; simpl; [tauto|..].
  all: rewrite IH; simpl; tauto.
Qed.

Lemma Rep_plug h0 s k t : Rep h0 s (plug k t) <-> Zip h0 s k t.
Proof.
  pose proof (rep_plug_aux (rb_nodes s) k t (rb_root s)) as [H1 H2].
  split; intros [Ht Hr Hnd Ha Hf].
  - rewrite inorder_plug in Hnd, Ha, Hf. destruct H1 as [? ?]; [done|]. by constructor.
  - destruct H2 as [? ?]; [done|]. constructor; rewrite ?inorder_plug; done.
Qed.

(** Membership facts, for the separation side conditions. *)
Lemma kaddr_elem k : kaddr k = NULL \/ kaddr k ∈ kleft k ++ kright k.
Proof. destruct k as [|[]]; simpl; [by left|right; set_solver..]. Qed.
Lemma ptr_elem t : ptr t = NULL \/ ptr t ∈ inorder t.
Proof. destruct t; simpl; [by left|right; set_solver]. Qed.
Lemma Forall_addr_pointer l p : Forall addr l -> p = NULL \/ p ∈ l -> pointer p.
Proof.
  intros Hl [->|Hp]; [apply null_pointer|]. apply addr_pointer. by eapply Forall_forall in Hl.
Qed.
Lemma addr_not_null a : addr a -> a <> NULL.
Proof. unfold addr, NULL. lia. Qed.

(** ** Rules for the elementary accesses *)
Definition put (s : rb_state) (p : Z) (n : rb_node) : rb_state :=
  Rb_state (<[p := n]> (rb_nodes s)) (rb_root s).

Section access.
Implicit Types (s : rb_state).

Lemma wp_deref s p n (Q : rb_node -> rb_state -> Prop) :
  rb_nodes s !! p = Some n -> p <> NULL -> Q n s -> wp s (rb_deref p) Q.
Proof. intros Hn Hp HQ. unfold wp, rb_deref. rewrite decide_False by done. by rewrite Hn. Qed.

Lemma wp_update s p n f (Q : unit -> rb_state -> Prop) :
  rb_nodes s !! p = Some n -> p <> NULL -> Q tt (put s p (f n)) -> wp s (rb_update p f) Q.
Proof.
  intros Hn Hp HQ. unfold rb_update. apply wp_bind. eapply wp_deref; [done..|]. done.
Qed.

Lemma wp_set_left s p par c r l v (Q : unit -> rb_state -> Prop) :
  rb_nodes s !! p = Some (mk_node par c r l) -> p <> NULL ->
  Q tt (put s p (mk_node par c r v)) -> wp s (set_left p v) Q.
Proof. intros. by eapply wp_update. Qed.
Lemma wp_set_right s p par c r l v (Q : unit -> rb_state -> Prop) :
  rb_nodes s !! p = Some (mk_node par c r l) -> p <> NULL ->
  Q tt (put s p (mk_node par c v l)) -> wp s (set_right p v) Q.
Proof. intros. by eapply wp_update. Qed.
Lemma wp_set_parent s p par c r l q (Q : unit -> rb_state -> Prop) :
  rb_nodes s !! p = Some (mk_node par c r l) -> p <> NULL -> pointer par -> pointer q ->
  Q tt (put s p (mk_node q c r l)) -> wp s (rb_set_parent p q) Q.
Proof.
  intros. unfold rb_set_parent. apply wp_bind. eapply wp_deref; [done..|].
  eapply wp_update; [done..|]. simpl. by rewrite pack_set_parent.
Qed.
Lemma wp_set_red s p par c r l (Q : unit -> rb_state -> Prop) :
  rb_nodes s !! p = Some (mk_node par c r l) -> p <> NULL -> pointer par ->
  Q tt (put s p (mk_node par Red r l)) -> wp s (rb_set_red p) Q.
Proof.
  intros. unfold rb_set_red. apply wp_bind. eapply wp_deref; [done..|].
  eapply wp_update; [done..|]. simpl. by rewrite pack_set_red.
Qed.
Lemma wp_set_black s p par c r l (Q : unit -> rb_state -> Prop) :
  rb_nodes s !! p = Some (mk_node par c r l) -> p <> NULL -> pointer par ->
  Q tt (put s p (mk_node par Black r l)) -> wp s (rb_set_black p) Q.
Proof.
  intros. unfold rb_set_black. apply wp_bind. eapply wp_deref; [done..|].
  eapply wp_update; [done..|]. simpl. by rewrite pack_set_black.
Qed.
Lemma wp_set_color s p par c r l d (Q : unit -> rb_state -> Prop) :
  rb_nodes s !! p = Some (mk_node par c r l) -> p <> NULL -> pointer par ->
  Q tt (put s p (mk_node par d r l)) -> wp s (rb_set_color p (cz d)) Q.
Proof.
  intros. unfold rb_set_color. apply wp_bind. eapply wp_deref; [done..|].
  eapply wp_update; [done..|]. simpl. by rewrite pack_set_color.
Qed.
End access.

(** ** Separation by regions

    Side conditions "this address is not that one" are decided by the piece
    of the tree an address belongs to: [region ls e] is the index of the
    piece, and the pieces of a duplicate-free list are disjoint. *)
Fixpoint region (ls : list (list Z)) (e : Z) : nat :=
  match ls with
  | [] => O
  | l :: ls => if decide (e ∈ l) then O else S (region ls e)
  end.

Lemma region_in ls i l e :
  NoDup (concat ls) -> ls !! i = Some l -> e ∈ l -> region ls e = i.
Proof.
  revert i. induction ls as [|l' ls IH]; intros i Hnd Hi He; [done|].
  simpl in *. apply NoDup_app in Hnd as (_ & Hdisj & Hnd).
  destruct i as [|i]; simpl in Hi.
  - injection Hi as ->. by rewrite decide_True.
  - rewrite decide_False; [f_equal; by eapply IH|].
    intros He'. apply (Hdisj e He'). apply list_elem_of_In, in_concat.
    exists l. split; apply list_elem_of_In; [by eapply list_elem_of_lookup_2|done].
Qed.

Lemma region_null ls : Forall addr (concat ls) -> region ls NULL = length ls.
Proof.
  induction ls as [|l ls IH]; simpl; [done|]. intros H. apply Forall_app in H as [H1 H2].
  rewrite decide_False; [by rewrite IH|].
  intros Hin. eapply Forall_forall in H1; [|done]. by apply addr_not_null in H1.
Qed.

(** [different] closes [p <> q] when the regions in the context differ. *)
Ltac different := let H := fresh in intros H; subst; simplify_eq; congruence.

(** ** Moving subtrees *)

(** The store after the parent of [t]'s root has been set to [q]. *)
Definition reparent (t : tree) (q : Z) (s : rb_state) : rb_state :=
  match t with E => s | T c l a r => put s a (mk_node q c (ptr r) (ptr l)) end.
(** The store after the link to the focus of [k] has been set to [p]. *)
Definition relink (k : list frame) (p : Z) (s : rb_state) : rb_state :=
  match k with
  | [] => Rb_state (rb_nodes s) p
  | FL c a r :: k => put s a (mk_node (kaddr k) c (ptr r) p)
  | FR c l a :: k => put s a (mk_node (kaddr k) c p (ptr l))
  end.

Section moves.
Implicit Types (s : rb_state) (k : list frame) (t : tree).

Lemma reparent_root t q s : rb_root (reparent t q s) = rb_root s.
Proof. by destruct t. Qed.
Lemma reparent_ne t q s e : e <> ptr t -> rb_nodes (reparent t q s) !! e = rb_nodes s !! e.
Proof. destruct t; simpl; [done|]. intros. by rewrite lookup_insert_ne. Qed.
Lemma relink_ne k p s e : e <> kaddr k -> rb_nodes (relink k p s) !! e = rb_nodes s !! e.
Proof. destruct k as [|[]]; simpl; [done|..]; intros; by rewrite lookup_insert_ne. Qed.

Lemma reparent_out t q s e :
  e ∉ inorder t -> rb_nodes (reparent t q s) !! e = rb_nodes s !! e.
Proof. destruct t; simpl; [done|]. intros. rewrite lookup_insert_ne; [done|set_solver]. Qed.
Lemma relink_out k p s e :
  e ∉ kleft k ++ kright k -> rb_nodes (relink k p s) !! e = rb_nodes s !! e.
Proof.
  destruct k as [|[]]; simpl; [done|..]; intros; (rewrite lookup_insert_ne; [done|set_solver]).
Qed.

Lemma rep_reparent s p q t :
  rep (rb_nodes s) p t -> NoDup (inorder t) -> rep (rb_nodes (reparent t q s)) q t.
Proof.
  destruct t as [|c l a r]; simpl; [done|].
  intros (_ & Hl & Hr) (_ & Hd & [Ha _]%NoDup_cons)%NoDup_app.
  split_and!; [by rewrite lookup_insert_eq|..]; (eapply rep_agree; [done|]);
    intros e He; apply lookup_insert_ne; intros <-; [by apply (Hd a He); left|done].
Qed.

Lemma repk_relink k p q s :
  repk (rb_nodes s) k p (rb_root s) -> NoDup (kleft k ++ kright k) ->
  repk (rb_nodes (relink k q s)) k q (rb_root (relink k q s)).
Proof.
  destruct k as [|[c a r|c l a] k]; simpl; [done|..]; intros (_ & Ht & Hk) Hnd.
  all: split_and!; [by rewrite lookup_insert_eq|..].
  - eapply rep_agree; [done|]. intros e He. apply lookup_insert_ne. intros <-.
    apply NoDup_app in Hnd as (_ & _ & [Ha _]%NoDup_cons). set_solver.
  - eapply repk_agree; [done|]. intros e He. apply lookup_insert_ne. intros <-.
    rewrite <-Permutation_middle in Hnd. apply NoDup_cons in Hnd as [Ha _]. set_solver.
  - eapply rep_agree; [done|]. intros e He. apply lookup_insert_ne. intros <-.
    rewrite <-!app_assoc in Hnd. apply NoDup_app in Hnd as (_ & _ & Hnd).
    apply NoDup_app in Hnd as (_ & Hd & _). apply (Hd a He). left.
  - eapply repk_agree; [done|]. intros e He. apply lookup_insert_ne. intros <-.
    rewrite <-!app_assoc, app_assoc in Hnd. simpl in Hnd.
    rewrite <-Permutation_middle in Hnd. apply NoDup_cons in Hnd as [Ha _]. set_solver.
Qed.
End moves.
