(* ===== verification/RbRotate.v ===== *)
(** * Rotations and colour changes of [lib/rbtree.c], specified at a focus *)
From S2P Require Import Prelude RbTree RbInv.

Section snippets.
Implicit Types (s : rb_state) (k : list frame) (t : tree).

(** [if (child) rb_set_parent(child, q);] *)
Lemma wp_reparent s p t q :
  rep (rb_nodes s) p t -> pointer p -> pointer q -> Forall addr (inorder t) ->
  wp s (when (negb (ptr t =? NULL)) (rb_set_parent (ptr t) q))
    (λ _ s', s' = reparent t q s).
Proof.
  intros Ht Hp Hq Had. destruct t as [|c l a r]; simpl; [done|].
  destruct Ht as [Ha _]. apply Forall_app in Had as [_ [Haa _]%Forall_cons].
  apply addr_not_null in Haa. rewrite (proj2 (Z.eqb_neq _ _)) by done. simpl.
  by eapply wp_set_parent.
Qed.

(** The same with the child read again: [if (p->f) rb_set_parent(p->f, q);] *)
Lemma wp_reparent_field s p t q o n (field : rb_node -> Z) :
  rb_nodes s !! o = Some n -> o <> NULL -> field n = ptr t ->
  rep (rb_nodes s) p t -> pointer p -> pointer q -> Forall addr (inorder t) ->
  wp s (when (negb (ptr t =? NULL)) (n ← rb_deref o; rb_set_parent (field n) q))
    (λ _ s', s' = reparent t q s).
Proof.
  intros Ho Hon Hfield Ht Hp Hq Had.
  pose proof (wp_reparent s p t q Ht Hp Hq Had) as H.
  destruct (negb (ptr t =? NULL)); simpl in *; [|done].
  apply wp_bind. eapply wp_deref; [done..|]. by rewrite Hfield.
Qed.

(** [if (parent) { if (node == parent->rb_left) ... } else root = ...] *)
Lemma wp_relink_left s k x q :
  repk (rb_nodes s) k x (rb_root s) -> Forall addr (kleft k ++ kright k) ->
  x <> NULL -> x ∉ kleft k ++ kright k ->
  wp s (if negb (kaddr k =? NULL) then
          pn ← rb_deref (kaddr k);
          if x =? rb_left pn then set_left (kaddr k) q else set_right (kaddr k) q
        else set_root q) (λ _ s', s' = relink k q s).
Proof.
  intros Hk Had Hx Hxk. destruct k as [|[c a r|c l a] k]; simpl in *; [done|..].
  all: destruct Hk as (Ha & _ & _).
  all: assert (a <> NULL) as Hnull
    by (apply addr_not_null; eapply Forall_forall; [exact Had|set_solver]).
  all: rewrite (proj2 (Z.eqb_neq _ _)) by done; simpl.
  all: apply wp_bind; eapply wp_deref; [done..|]; simpl.
  - rewrite Z.eqb_refl. by eapply wp_set_left.
  - rewrite (proj2 (Z.eqb_neq _ _)); [by eapply wp_set_right|].
    intros ->. destruct (ptr_elem l); [done|set_solver].
Qed.

Lemma wp_relink_right s k x q :
  repk (rb_nodes s) k x (rb_root s) -> Forall addr (kleft k ++ kright k) ->
  x <> NULL -> x ∉ kleft k ++ kright k ->
  wp s (if negb (kaddr k =? NULL) then
          pn ← rb_deref (kaddr k);
          if x =? rb_right pn then set_right (kaddr k) q else set_left (kaddr k) q
        else set_root q) (λ _ s', s' = relink k q s).
Proof.
  intros Hk Had Hx Hxk. destruct k as [|[c a r|c l a] k]; simpl in *; [done|..].
  all: destruct Hk as (Ha & _ & _).
  all: assert (a <> NULL) as Hnull
    by (apply addr_not_null; eapply Forall_forall; [exact Had|set_solver]).
  all: rewrite (proj2 (Z.eqb_neq _ _)) by done; simpl.
  all: apply wp_bind; eapply wp_deref; [done..|]; simpl.
  - rewrite (proj2 (Z.eqb_neq _ _)); [by eapply wp_set_left|].
    intros ->. destruct (ptr_elem r); [done|set_solver].
  - rewrite Z.eqb_refl. by eapply wp_set_right.
Qed.
End snippets.

(** Facts about the regions of two linked nodes [x], [y] in a context. *)
Record regions (tag : Z -> nat) (k : list frame) (a : tree) (x : Z) (b : tree) (y : Z)
    (c : tree) : Prop := {
  reg_l : forall e, e ∈ kleft k -> tag e = 0%nat;
  reg_a : forall e, e ∈ inorder a -> tag e = 1%nat;
  reg_x : tag x = 2%nat;
  reg_b : forall e, e ∈ inorder b -> tag e = 3%nat;
  reg_y : tag y = 4%nat;
  reg_c : forall e, e ∈ inorder c -> tag e = 5%nat;
  reg_r : forall e, e ∈ kright k -> tag e = 6%nat;
  reg_null : tag NULL = 7%nat
}.

Lemma regions_intro k a x b y c :
  NoDup (kleft k ++ (inorder a ++ x :: inorder b ++ y :: inorder c) ++ kright k) ->
  Forall addr (kleft k ++ (inorder a ++ x :: inorder b ++ y :: inorder c) ++ kright k) ->
  exists tag, regions tag k a x b y c.
Proof.
  set (ls := [kleft k; inorder a; [x]; inorder b; [y]; inorder c; kright k]).
  intros Hnd Had.
  assert (kleft k ++ (inorder a ++ x :: inorder b ++ y :: inorder c) ++ kright k = concat ls)
    as Heq.
  { simpl. rewrite app_nil_r. repeat (simpl; rewrite <-app_assoc). done. }
  rewrite Heq in Hnd, Had. exists (region ls).
  constructor; intros; try (eapply region_in; [done|reflexivity|set_solver]).
  by apply region_null.
Qed.

Lemma regions_middle (l : list Z) (a : tree) (x : Z) (b : tree) (r : list Z) :
  NoDup (l ++ (inorder a ++ x :: inorder b ++ r)) -> NoDup (inorder b).
Proof.
  intros (_ & _ & (_ & _ & (_ & (H & _)%NoDup_app)%NoDup_cons)%NoDup_app)%NoDup_app. done.
Qed.

Lemma rotate_inorder a x b y z :
  (inorder a ++ x :: inorder b) ++ y :: inorder z = inorder a ++ x :: inorder b ++ y :: inorder z.
Proof. by rewrite <-app_assoc. Qed.

Lemma regions_more tag k a x b y c : regions tag k a x b y c ->
  (tag (kaddr k) = 0 \/ tag (kaddr k) = 6 \/ tag (kaddr k) = 7)%nat /\
  (tag (ptr b) = 3 \/ tag (ptr b) = 7)%nat.
Proof.
  intros []. split.
  - destruct (kaddr_elem k) as [->|[?|?]%elem_of_app]; auto.
  - destruct (ptr_elem b) as [->|?]; auto.
Qed.

(** [p <> q] because they live in different regions. *)
Ltac tagged tag :=
  repeat match goal with
    | He : ?e ∈ ?l, H : forall e', e' ∈ ?l -> tag e' = _ |- _ => apply H in He
    end.
Ltac neq tag :=
  let E := fresh in intros E; apply (f_equal tag) in E; tagged tag; lia.
(** Lookups past writes to other regions. *)
Ltac past tag :=
  cbn [put rb_nodes rb_root];
  repeat first
    [ rewrite lookup_insert_eq
    | rewrite lookup_insert_ne by neq tag
    | rewrite relink_ne by neq tag
    | rewrite reparent_ne by neq tag
    | progress cbn [put rb_nodes rb_root] ].

Lemma regions_addr k a x b y c :
  Forall addr (kleft k ++ (inorder a ++ x :: inorder b ++ y :: inorder c) ++ kright k) ->
  pointer (kaddr k) /\ Forall addr (kleft k ++ kright k) /\ Forall addr (inorder b) /\
  addr x /\ addr y.
Proof.
  rewrite Forall_forall. intros H.
  assert (Forall addr (kleft k ++ kright k)) as Hk
    by (apply Forall_forall; intros e He; apply H; set_solver).
  split_and!; [eapply Forall_addr_pointer; [exact Hk|apply kaddr_elem]|done|..].
  - apply Forall_forall; intros e He; apply H; set_solver.
  - apply H; set_solver.
  - apply H; set_solver.
Qed.

(** ** Left rotation: the writes, and what they build *)
Definition rotated_left (s : rb_state) (k : list frame) (c : color) (a : tree) (x : Z)
    (d : color) (b : tree) (y : Z) (z : tree) : rb_state :=
  let s := reparent b x (put s x (mk_node (kaddr k) c (ptr b) (ptr a))) in
  let s := put (put s y (mk_node x d (ptr z) x)) y (mk_node (kaddr k) d (ptr z) x) in
  put (relink k y s) x (mk_node y c (ptr b) (ptr a)).

Section rotate_left.
Context (h0 : gmap Z rb_node) (s : rb_state) (k : list frame).
Context (c : color) (a : tree) (x : Z) (d : color) (b : tree) (y : Z) (z : tree).
Hypothesis HRep : Rep h0 s (plug k (T c a x (T d b y z))).

Lemma rotated_left_context tag : regions tag k a x b y z ->
  let s1 := reparent b x (put s x (mk_node (kaddr k) c (ptr b) (ptr a))) in
  let s4 := put (put s1 y (mk_node x d (ptr z) x)) y (mk_node (kaddr k) d (ptr z) x) in
  repk (rb_nodes s4) k x (rb_root s4) /\ rep (rb_nodes s1) x b.
Proof using HRep.
  intros R. destruct (regions_more _ _ _ _ _ _ _ R) as [Rk Rb]. destruct R.
  apply Rep_plug in HRep as [Hk Ht Hnd _ _].
  assert (rep (rb_nodes s) y b /\ NoDup (inorder b)) as [Hb Hndb].
  { split; [apply Ht|]. cbn [inorder] in Hnd. rewrite ?rotate_inorder in Hnd.
    eapply regions_middle with (r := y :: inorder z ++ kright k).
    rewrite <-app_assoc in Hnd. simpl in Hnd. by rewrite <-app_assoc in Hnd. }
  cbn zeta. split.
  - cbn [put rb_root]. rewrite reparent_root. eapply repk_agree; [exact Hk|].
    intros e [He|He]%elem_of_app; by past tag.
  - eapply rep_reparent; [|done]. eapply rep_agree; [exact Hb|]. intros e He. by past tag.
Qed.

Lemma rotated_left_rep :
  Rep h0 (rotated_left s k c a x d b y z) (plug k (T d (T c a x b) y z)).
Proof using HRep.
  pose proof (proj1 (Rep_plug _ _ _ _) HRep) as [Hk Ht Hnd Had Hf].
  cbn [inorder] in Hnd, Had, Hf. rewrite ?rotate_inorder in Hnd, Had, Hf.
  destruct (regions_intro _ _ _ _ _ _ Hnd Had) as [tag R].
  destruct (rotated_left_context tag R) as [Hk4 Hb1]. unfold rotated_left.
  destruct (regions_more _ _ _ _ _ _ _ R) as [Rk Rb]. destruct R.
  apply Rep_plug. constructor; cbn [inorder ptr]; rewrite ?rotate_inorder; [| |done|done|].
  - eapply repk_agree; [apply (repk_relink k x); [exact Hk4|by eapply NoDup_drop_middle]|].
    intros e [He|He]%elem_of_app; by past tag.
  - cbn [rep ptr] in *. destruct_and! Ht.
    split_and!; try (by past tag); (eapply rep_agree; [eassumption|]);
      intros e He; by past tag.
  - intros e He. rewrite <-Hf by done.
    rewrite !elem_of_app, !elem_of_cons, !elem_of_app, !elem_of_cons in He.
    cbn [put rb_nodes]. rewrite lookup_insert_ne by naive_solver.
    rewrite relink_out by (rewrite elem_of_app; naive_solver). cbn [put rb_nodes].
    rewrite !lookup_insert_ne by naive_solver. rewrite reparent_out by naive_solver.
    cbn [put rb_nodes]. by rewrite lookup_insert_ne by naive_solver.
Qed.

Lemma rotate_left_run :
  wp s (rb_rotate_left x) (λ _ s', s' = rotated_left s k c a x d b y z).
Proof using HRep.
  pose proof (proj1 (Rep_plug _ _ _ _) HRep) as [Hk Ht Hnd Had _].
  cbn [inorder] in Hnd, Had. rewrite ?rotate_inorder in Hnd, Had.
  destruct (regions_intro _ _ _ _ _ _ Hnd Had) as [tag R].
  destruct (rotated_left_context tag R) as [Hk4 _].
  destruct (regions_more _ _ _ _ _ _ _ R) as [Rk Rb]. destruct R.
  destruct (regions_addr _ _ _ _ _ _ Had) as (Hpk & Hadk & Hadb & Hax & Hay).
  cbn [rep ptr] in Ht. destruct_and! Ht.
  assert (x <> NULL) as Hxn by neq tag. assert (y <> NULL) as Hyn by neq tag.
  apply addr_pointer in Hax, Hay.
  unfold rb_rotate_left.
  apply wp_bind. eapply wp_deref; [eassumption|done|].
  rewrite rb_parent_mk by done. cbn [rb_right rb_left mk_node].
  apply wp_bind. eapply wp_deref; [eassumption|done|]. cbn [rb_right rb_left mk_node].
  apply wp_bind. eapply wp_set_right; [eassumption|done|].
  eapply wp_seq.
  { eapply (wp_reparent_field _ y b x y _ rb_left);
      [past tag; eassumption|done|done| |done..].
    eapply rep_agree; [eassumption|]. intros e He. by past tag. }
  intros [] s2 ->.
  apply wp_bind. eapply wp_set_left; [past tag; eassumption|done|].
  apply wp_bind. eapply wp_set_parent; [past tag; reflexivity|done..|].
  eapply wp_seq.
  { eapply (wp_relink_left _ k x y); [done..|].
    intros [He|He]%elem_of_app; tagged tag; lia. }
  intros [] s3 ->. eapply wp_set_parent; [past tag; reflexivity|done..].
Qed.

Lemma rotate_left_spec :
  wp s (rb_rotate_left x) (λ _ s', Rep h0 s' (plug k (T d (T c a x b) y z))).
Proof using HRep.
  eapply wp_mono; [apply rotate_left_run|]. intros [] s' ->. apply rotated_left_rep.
Qed.
End rotate_left.

(** ** Right rotation: the writes, and what they build *)
Definition rotated_right (s : rb_state) (k : list frame) (c : color) (a : tree) (x : Z)
    (d : color) (b : tree) (y : Z) (z : tree) : rb_state :=
  let s := reparent b x (put s x (mk_node (kaddr k) c (ptr z) (ptr b))) in
  let s := put (put s y (mk_node x d x (ptr a))) y (mk_node (kaddr k) d x (ptr a)) in
  put (relink k y s) x (mk_node y c (ptr z) (ptr b)).

Section rotate_right.
Context (h0 : gmap Z rb_node) (s : rb_state) (k : list frame).
Context (c : color) (a : tree) (x : Z) (d : color) (b : tree) (y : Z) (z : tree).
Hypothesis HRep : Rep h0 s (plug k (T c (T d a y b) x z)).

Lemma rotated_right_context tag : regions tag k a y b x z ->
  let s1 := reparent b x (put s x (mk_node (kaddr k) c (ptr z) (ptr b))) in
  let s4 := put (put s1 y (mk_node x d x (ptr a))) y (mk_node (kaddr k) d x (ptr a)) in
  repk (rb_nodes s4) k x (rb_root s4) /\ rep (rb_nodes s1) x b.
Proof using HRep.
  intros R. destruct (regions_more _ _ _ _ _ _ _ R) as [Rk Rb]. destruct R.
  apply Rep_plug in HRep as [Hk Ht Hnd _ _].
  assert (rep (rb_nodes s) y b /\ NoDup (inorder b)) as [Hb Hndb].
  { split; [apply Ht|]. cbn [inorder] in Hnd. rewrite ?rotate_inorder in Hnd.
    eapply regions_middle with (r := x :: inorder z ++ kright k).
    rewrite <-app_assoc in Hnd. simpl in Hnd. by rewrite <-app_assoc in Hnd. }
  cbn zeta. split.
  - cbn [put rb_root]. rewrite reparent_root. eapply repk_agree; [exact Hk|].
    intros e [He|He]%elem_of_app; by past tag.
  - eapply rep_reparent; [|done]. eapply rep_agree; [exact Hb|]. intros e He. by past tag.
Qed.

Lemma rotated_right_rep :
  Rep h0 (rotated_right s k c a x d b y z) (plug k (T d a y (T c b x z))).
Proof using HRep.
  pose proof (proj1 (Rep_plug _ _ _ _) HRep) as [Hk Ht Hnd Had Hf].
  cbn [inorder] in Hnd, Had, Hf. rewrite ?rotate_inorder in Hnd, Had, Hf.
  destruct (regions_intro _ _ _ _ _ _ Hnd Had) as [tag R].
  destruct (rotated_right_context tag R) as [Hk4 Hb1]. unfold rotated_right.
  destruct (regions_more _ _ _ _ _ _ _ R) as [Rk Rb]. destruct R.
  apply Rep_plug. constructor; cbn [inorder ptr]; rewrite ?rotate_inorder; [| |done|done|].
  - eapply repk_agree; [apply (repk_relink k x); [exact Hk4|by eapply NoDup_drop_middle]|].
    intros e [He|He]%elem_of_app; by past tag.
  - cbn [rep ptr] in *. destruct_and! Ht.
    split_and!; try (by past tag); (eapply rep_agree; [eassumption|]);
      intros e He; by past tag.
  - intros e He. rewrite <-Hf by done.
    rewrite !elem_of_app, !elem_of_cons, !elem_of_app, !elem_of_cons in He.
    cbn [put rb_nodes]. rewrite lookup_insert_ne by naive_solver.
    rewrite relink_out by (rewrite elem_of_app; naive_solver). cbn [put rb_nodes].
    rewrite !lookup_insert_ne by naive_solver. rewrite reparent_out by naive_solver.
    cbn [put rb_nodes]. by rewrite lookup_insert_ne by naive_solver.
Qed.

Lemma rotate_right_run :
  wp s (rb_rotate_right x) (λ _ s', s' = rotated_right s k c a x d b y z).
Proof using HRep.
  pose proof (proj1 (Rep_plug _ _ _ _) HRep) as [Hk Ht Hnd Had _].
  cbn [inorder] in Hnd, Had. rewrite ?rotate_inorder in Hnd, Had.
  destruct (regions_intro _ _ _ _ _ _ Hnd Had) as [tag R].
  destruct (rotated_right_context tag R) as [Hk4 _].
  destruct (regions_more _ _ _ _ _ _ _ R) as [Rk Rb]. destruct R.
  destruct (regions_addr _ _ _ _ _ _ Had) as (Hpk & Hadk & Hadb & Hay & Hax).
  cbn [rep ptr] in Ht. destruct_and! Ht.
  assert (x <> NULL) as Hxn by neq tag. assert (y <> NULL) as Hyn by neq tag.
  apply addr_pointer in Hax, Hay.
  unfold rb_rotate_right.
  apply wp_bind. eapply wp_deref; [eassumption|done|].
  rewrite rb_parent_mk by done. cbn [rb_right rb_left mk_node].
  apply wp_bind. eapply wp_deref; [eassumption|done|]. cbn [rb_right rb_left mk_node].
  apply wp_bind. eapply wp_set_left; [eassumption|done|].
  eapply wp_seq.
  { eapply (wp_reparent_field _ y b x y _ rb_right);
      [past tag; eassumption|done|done| |done..].
    eapply rep_agree; [eassumption|]. intros e He. by past tag. }
  intros [] s2 ->.
  apply wp_bind. eapply wp_set_right; [past tag; eassumption|done|].
  apply wp_bind. eapply wp_set_parent; [past tag; reflexivity|done..|].
  eapply wp_seq.
  { eapply (wp_relink_right _ k x y); [done..|].
    intros [He|He]%elem_of_app; tagged tag; lia. }
  intros [] s3 ->. eapply wp_set_parent; [past tag; reflexivity|done..].
Qed.

Lemma rotate_right_spec :
  wp s (rb_rotate_right x) (λ _ s', Rep h0 s' (plug k (T d a y (T c b x z)))).
Proof using HRep.
  eapply wp_mono; [apply rotate_right_run|]. intros [] s' ->. apply rotated_right_rep.
Qed.
End rotate_right.

(** ** Reads and colour changes at a focus *)
Section focus.
Context (h0 : gmap Z rb_node).
Implicit Types (s : rb_state) (k : list frame).

Lemma Rep_lookup s k c l a r :
  Rep h0 s (plug k (T c l a r)) ->
  rb_nodes s !! a = Some (mk_node (kaddr k) c (ptr r) (ptr l)) /\
  a <> NULL /\ pointer (kaddr k).
Proof.
  rewrite Rep_plug. intros [_ Ht _ Had _]. rewrite Forall_forall in Had.
  split_and!; [apply Ht|apply addr_not_null, Had; set_solver|].
  destruct (kaddr_elem k) as [->|Hk]; [apply null_pointer|].
  apply addr_pointer, Had. set_solver.
Qed.

Lemma wp_deref_at s k c l a r (Q : rb_node -> rb_state -> Prop) :
  Rep h0 s (plug k (T c l a r)) ->
  Q (mk_node (kaddr k) c (ptr r) (ptr l)) s -> wp s (rb_deref a) Q.
Proof. intros (? & ? & _)%Rep_lookup ?. by eapply wp_deref. Qed.

Lemma recolor_rep s k c d l a r :
  Rep h0 s (plug k (T c l a r)) ->
  Rep h0 (put s a (mk_node (kaddr k) d (ptr r) (ptr l))) (plug k (T d l a r)).
Proof.
  rewrite !Rep_plug. intros [Hk (Ha & Hl & Hr) Hnd Had Hf]. cbn [inorder] in *.
  pose proof Hnd as Hnd'. rewrite <-!app_assoc in Hnd'. cbn in Hnd'.
  rewrite app_assoc, <-Permutation_middle in Hnd'. apply NoDup_cons in Hnd' as [Hna _].
  rewrite <-app_assoc in Hna.
  constructor; [| |done|done|].
  - eapply repk_agree; [exact Hk|]. intros e He. apply lookup_insert_ne. set_solver.
  - split_and!; [by apply lookup_insert_eq|..]; (eapply rep_agree; [done|]);
      intros e He; apply lookup_insert_ne; set_solver.
  - intros e He. rewrite <-Hf by done. apply lookup_insert_ne. set_solver.
Qed.

Lemma wp_set_black_at s k c l a r (Q : unit -> rb_state -> Prop) :
  Rep h0 s (plug k (T c l a r)) ->
  (forall s', Rep h0 s' (plug k (T Black l a r)) -> Q tt s') ->
  wp s (rb_set_black a) Q.
Proof.
  intros H HQ. pose proof (Rep_lookup _ _ _ _ _ _ H) as (? & ? & ?).
  eapply wp_set_black; [done..|]. apply HQ. by apply recolor_rep with c.
Qed.
Lemma wp_set_red_at s k c l a r (Q : unit -> rb_state -> Prop) :
  Rep h0 s (plug k (T c l a r)) ->
  (forall s', Rep h0 s' (plug k (T Red l a r)) -> Q tt s') ->
  wp s (rb_set_red a) Q.
Proof.
  intros H HQ. pose proof (Rep_lookup _ _ _ _ _ _ H) as (? & ? & ?).
  eapply wp_set_red; [done..|]. apply HQ. by apply recolor_rep with c.
Qed.
Lemma wp_set_color_at s k c d l a r (Q : unit -> rb_state -> Prop) :
  Rep h0 s (plug k (T c l a r)) ->
  (forall s', Rep h0 s' (plug k (T d l a r)) -> Q tt s') ->
  wp s (rb_set_color a (cz d)) Q.
Proof.
  intros H HQ. pose proof (Rep_lookup _ _ _ _ _ _ H) as (? & ? & ?).
  eapply wp_set_color; [done..|]. apply HQ. by apply recolor_rep with c.
Qed.
Lemma wp_rotate_left_at s k c a x d b y z (Q : unit -> rb_state -> Prop) :
  Rep h0 s (plug k (T c a x (T d b y z))) ->
  (forall s', Rep h0 s' (plug k (T d (T c a x b) y z)) -> Q tt s') ->
  wp s (rb_rotate_left x) Q.
Proof. intros H HQ. eapply wp_mono; [by eapply rotate_left_spec|]. intros []. apply HQ. Qed.
Lemma wp_rotate_right_at s k c a x d b y z (Q : unit -> rb_state -> Prop) :
  Rep h0 s (plug k (T c (T d a y b) x z)) ->
  (forall s', Rep h0 s' (plug k (T d a y (T c b x z))) -> Q tt s') ->
  wp s (rb_rotate_right x) Q.
Proof. intros H HQ. eapply wp_mono; [by eapply rotate_right_spec|]. intros []. apply HQ. Qed.

Lemma rb_is_red_mk p c r l : pointer p ->
  rb_is_red (mk_node p c r l) = bool_decide (c = Red).
Proof. intros Hp. unfold rb_is_red. rewrite rb_color_mk by done. by destruct c. Qed.
Lemma rb_is_black_mk p c r l : pointer p ->
  rb_is_black (mk_node p c r l) = bool_decide (c = Black).
Proof. intros Hp. unfold rb_is_black. rewrite rb_color_mk by done. by destruct c. Qed.

(** The two colour tests of a pointer that may be null. *)
Lemma wp_nonnull_red s k t (Q : bool -> rb_state -> Prop) :
  Rep h0 s (plug k t) -> Q (bool_decide (tcolor t = Red)) s -> wp s (nonnull_red (ptr t)) Q.
Proof.
  intros H HQ. unfold nonnull_red. destruct t as [|c l a r]; simpl in *.
  { by apply wp_ret. }
  pose proof (Rep_lookup _ _ _ _ _ _ H) as (? & ? & ?).
  rewrite (proj2 (Z.eqb_neq _ _)) by done. apply wp_bind.
  eapply wp_deref_at; [done|]. apply wp_ret. by rewrite rb_is_red_mk.
Qed.
Lemma wp_null_or_black s k t (Q : bool -> rb_state -> Prop) :
  Rep h0 s (plug k t) -> Q (bool_decide (tcolor t = Black)) s ->
  wp s (null_or_black (ptr t)) Q.
Proof.
  intros H HQ. unfold null_or_black. destruct t as [|c l a r]; simpl in *.
  { by apply wp_ret. }
  pose proof (Rep_lookup _ _ _ _ _ _ H) as (? & ? & ?).
  rewrite (proj2 (Z.eqb_neq _ _)) by done. apply wp_bind.
  eapply wp_deref_at; [done|]. apply wp_ret. by rewrite rb_is_black_mk.
Qed.
End focus.
