(* ===== verification/RbInsert.v ===== *)
(** * Insertion: [rb_link_node] and [rb_insert_color] *)
From S2P Require Import Prelude RbTree RbInv RbRotate.

(** ** The red-black invariants *)

(** No red node has a red child and every path crosses [n] black nodes. *)
Fixpoint rb (n : nat) (t : tree) : Prop :=
  match t with
  | E => n = O
  | T Red l _ r => rb n l /\ rb n r /\ tcolor l = Black /\ tcolor r = Black
  | T Black l _ r => match n with O => False | S m => rb m l /\ rb m r end
  end.
(** A red-black tree: its root is black. *)
Definition rbtree (t : tree) : Prop := (exists n, rb n t) /\ tcolor t = Black.

(** The colour of the node above the focus; a red frame may not be on top. *)
Definition kcolor (k : list frame) : color := match k with [] => Red | f :: _ => fcolor f end.
Definition fsib (f : frame) : tree := match f with FL _ _ r => r | FR _ l _ => l end.
(** The context of a subtree of black height [n]. *)
Fixpoint kok (n : nat) (k : list frame) : Prop :=
  match k with
  | [] => True
  | f :: k =>
      rb n (fsib f) /\
      match fcolor f with
      | Red => tcolor (fsib f) = Black /\ kcolor k = Black /\ kok n k
      | Black => kok (S n) k
      end
  end.

Lemma rb_plug n k t :
  rb n t -> kok n k -> (k = [] \/ kcolor k = Black \/ tcolor t = Black) ->
  exists m, rb m (plug k t) /\ (k <> [] \/ tcolor t = Black -> tcolor (plug k t) = Black).
Proof.
  revert n t. induction k as [|f k IH]; intros n t Ht Hk Hc; simpl in *.
  - exists n. split; [done|]. intros [?|?]; done.
  - destruct Hk as [Hs Hk]. destruct (fcolor f) eqn:Hf.
    + destruct Hk as (Hsc & Hkc & Hk).
      destruct (IH n (fill f t)) as (m & Hm & Hb).
      * destruct f; simpl in *; subst; simpl; naive_solver.
      * done.
      * naive_solver.
      * exists m. split; [done|]. intros _. apply Hb. left. by intros ->.
    + destruct (IH (S n) (fill f t)) as (m & Hm & Hb).
      * destruct f; simpl in *; subst; simpl; naive_solver.
      * done.
      * right; right. destruct f; simpl in *; by subst.
      * exists m. split; [done|]. intros _. apply Hb. right. destruct f; simpl in *; by subst.
Qed.

Lemma rb_unplug m k t :
  rb m (plug k t) -> tcolor (plug k t) = Black ->
  exists n, rb n t /\ kok n k /\ (k = [] \/ kcolor k = Black \/ tcolor t = Black).
Proof.
  revert t. induction k as [|f k IH]; intros t Hm Hb; simpl in *.
  - exists m. naive_solver.
  - destruct (IH (fill f t)) as (n & Hn & Hk & Hc); [done..|].
    assert (fcolor f = tcolor (fill f t)) as Hf by (by destruct f).
    destruct (fcolor f) eqn:Hfc.
    + assert (kcolor k = Black).
      { destruct Hc as [->|[?|?]]; [|done|congruence]. simpl in Hb. congruence. }
      exists n. destruct f; simpl in *; subst; naive_solver.
    + destruct f, n; simpl in *; subst; try naive_solver; exists n; naive_solver.
Qed.

(** [step_at R lem K t]: run the next operation by the focus rule [lem], on
    the tree of the [Rep] hypothesis [R] seen as [t] in the context [K]. *)
Ltac refocus H K t := match type of H with Rep ?h ?s _ => change (Rep h s (plug K t)) in H end.
Ltac step_at H lem K t :=
  refocus H K t; try apply wp_bind; first [eapply (lem _ _ K t) | eapply lem]; [exact H|];
  lazymatch goal with
  | |- forall s', Rep _ s' _ -> _ => clear H; intros ? H; cbn [plug fill] in H
  | _ => idtac
  end; cbn [mk_node rb_right rb_left ptr tcolor].

Lemma Rep_sib_ne h0 s f k c l a r :
  Rep h0 s (plug (f :: k) (T c l a r)) -> ptr (fsib f) <> a.
Proof.
  intros HR. pose proof (Rep_lookup _ _ _ _ _ _ _ HR) as (_ & Hn & _).
  apply Rep_plug in HR as [_ _ Hnd _ _]. intros Heq.
  destruct (ptr_elem (fsib f)) as [|Hin]; [congruence|]. rewrite Heq in Hin.
  cbn [inorder] in Hnd. rewrite <-app_assoc, app_assoc in Hnd. simpl in Hnd.
  rewrite <-Permutation_middle in Hnd. apply NoDup_cons in Hnd as [Hni _].
  apply Hni. destruct f; simpl in *; set_solver.
Qed.

Section insert.
Context (h0 : gmap Z rb_node).

(** The invariant of the loop: the focus is red, and only its parent may
    break the invariants. *)
Definition insert_inv (L : list Z) (i : nat) (x : Z) (s : rb_state) : Prop :=
  exists k l r n, i = length k /\ Rep h0 s (plug k (T Red l x r)) /\
    inorder (plug k (T Red l x r)) = L /\ rb n (T Red l x r) /\ kok n k.
Definition insert_post (L : list Z) (s : rb_state) : Prop :=
  exists t n, Rep h0 s t /\ inorder t = L /\ rb n t.

Lemma insert_inv_intro L k l x r n s :
  Rep h0 s (plug k (T Red l x r)) -> inorder (plug k (T Red l x r)) = L ->
  rb n (T Red l x r) -> kok n k -> insert_inv L (length k) x s.
Proof. intros. by exists k, l, r, n. Qed.

(** The four positions of a red focus under a red parent. *)
Definition insert_goal (L : list Z) (i : nat) : Z + unit -> rb_state -> Prop := λ r s',
  match r with
  | inl y => exists j, (j < i)%nat /\ insert_inv L j y s'
  | inr _ => insert_post L s'
  end.

Lemma insert_goal_intro L i k l x r n s :
  Rep h0 s (plug k (T Red l x r)) -> inorder (plug k (T Red l x r)) = L ->
  rb n (T Red l x r) -> kok n k -> (length k < i)%nat -> insert_goal L i (inl x) s.
Proof. intros. exists (length k). split; [done|]. by exists k, l, r, n. Qed.

Lemma insert_body_left_left L k p w g u l x r n s :
  Rep h0 s (plug (FL Red p w :: FL Black g u :: k) (T Red l x r)) ->
  inorder (plug (FL Red p w :: FL Black g u :: k) (T Red l x r)) = L ->
  rb n (T Red l x r) -> kok n (FL Red p w :: FL Black g u :: k) ->
  wp s (insert_color_body x) (insert_goal L (S (S (length k)))).
Proof.
  intros HR HL Hrb (Hw & Hwb & _ & Hu & Hk). cbn [fsib] in *.
  pose proof (Rep_sib_ne _ _ _ _ _ _ _ _ HR) as Hne. cbn [fsib] in Hne.
  pose proof (Rep_lookup _ _ _ _ _ _ _ HR) as (_ & _ & Hpk).
  pose proof (Rep_lookup _ _ (FL Black g u :: k) _ _ _ _ HR) as (_ & _ & Hpk2).
  pose proof (Rep_sib_ne _ _ (FL Black g u) k _ _ _ _ HR) as Hne2. cbn [fsib] in Hne2.
  rewrite inorder_plug in HL. cbn in HL.
  unfold insert_color_body.
  step_at HR wp_deref_at (FL Red p w :: FL Black g u :: k) (T Red l x r).
  rewrite rb_parent_mk by done. cbn [kaddr faddr].
  step_at HR wp_nonnull_red (FL Black g u :: k) (T Red (T Red l x r) p w). cbn.
  step_at HR wp_deref_at (FL Black g u :: k) (T Red (T Red l x r) p w).
  rewrite rb_parent_mk by done. cbn [kaddr faddr].
  step_at HR wp_deref_at k (T Black (T Red (T Red l x r) p w) g u).
  rewrite Z.eqb_refl.
  step_at HR wp_nonnull_red (FR Black (T Red (T Red l x r) p w) g :: k) u.
  destruct (tcolor u) eqn:Hcu; cbn.
  - destruct u as [|[] ul ua ur]; try done.
    step_at HR wp_set_black_at (FR Black (T Red (T Red l x r) p w) g :: k) (T Red ul ua ur).
    step_at HR wp_set_black_at (FL Black g (T Black ul ua ur) :: k) (T Red (T Red l x r) p w).
    step_at HR wp_set_red_at k (T Black (T Black (T Red l x r) p w) g (T Black ul ua ur)).
    apply wp_ret. eapply insert_goal_intro with (n := S n); [exact HR| |naive_solver|done|lia].
    rewrite inorder_plug, <-HL. solve_app.
  - step_at HR wp_deref_at (FL Black g u :: k) (T Red (T Red l x r) p w).
    rewrite (proj2 (Z.eqb_neq _ _)) by done. cbn [fst snd].
    apply wp_bind, wp_ret. cbn [fst snd].
    step_at HR wp_set_black_at (FL Black g u :: k) (T Red (T Red l x r) p w).
    step_at HR wp_set_red_at k (T Black (T Black (T Red l x r) p w) g u).
    step_at HR wp_rotate_right_at k (T Red (T Black (T Red l x r) p w) g u).
    apply wp_ret. refocus HR (FL Black p (T Red w g u) :: k) (T Red l x r).
    eapply insert_goal_intro with (n := n); [exact HR| |done|naive_solver|simpl; lia].
    rewrite inorder_plug, <-HL. solve_app.
Qed.

Lemma insert_body_right_left L k p w g u l x r n s :
  Rep h0 s (plug (FL Red p w :: FR Black u g :: k) (T Red l x r)) ->
  inorder (plug (FL Red p w :: FR Black u g :: k) (T Red l x r)) = L ->
  rb n (T Red l x r) -> kok n (FL Red p w :: FR Black u g :: k) ->
  wp s (insert_color_body x) (insert_goal L (S (S (length k)))).
Proof.
  intros HR HL Hrb (Hw & Hwb & _ & Hu & Hk). cbn [fsib] in *.
  pose proof (Rep_sib_ne _ _ _ _ _ _ _ _ HR) as Hne. cbn [fsib] in Hne.
  pose proof (Rep_lookup _ _ _ _ _ _ _ HR) as (_ & _ & Hpk).
  pose proof (Rep_lookup _ _ (FR Black u g :: k) _ _ _ _ HR) as (_ & _ & Hpk2).
  pose proof (Rep_sib_ne _ _ (FR Black u g) k _ _ _ _ HR) as Hne2. cbn [fsib] in Hne2.
  rewrite inorder_plug in HL. cbn in HL.
  unfold insert_color_body.
  step_at HR wp_deref_at (FL Red p w :: FR Black u g :: k) (T Red l x r).
  rewrite rb_parent_mk by done. cbn [kaddr faddr].
  step_at HR wp_nonnull_red (FR Black u g :: k) (T Red (T Red l x r) p w). cbn.
  step_at HR wp_deref_at (FR Black u g :: k) (T Red (T Red l x r) p w).
  rewrite rb_parent_mk by done. cbn [kaddr faddr].
  step_at HR wp_deref_at k (T Black u g (T Red (T Red l x r) p w)).
  rewrite (proj2 (Z.eqb_neq _ _)) by done.
  step_at HR wp_nonnull_red (FL Black g (T Red (T Red l x r) p w) :: k) u.
  destruct (tcolor u) eqn:Hcu; cbn.
  - destruct u as [|[] ul ua ur]; try done.
    step_at HR wp_set_black_at (FL Black g (T Red (T Red l x r) p w) :: k) (T Red ul ua ur).
    step_at HR wp_set_black_at (FR Black (T Black ul ua ur) g :: k) (T Red (T Red l x r) p w).
    step_at HR wp_set_red_at k (T Black (T Black ul ua ur) g (T Black (T Red l x r) p w)).
    apply wp_ret. eapply insert_goal_intro with (n := S n); [exact HR| |naive_solver|done|lia].
    rewrite inorder_plug, <-HL. solve_app.
  - step_at HR wp_deref_at (FR Black u g :: k) (T Red (T Red l x r) p w).
    rewrite Z.eqb_refl. apply wp_bind.
    step_at HR wp_rotate_right_at (FR Black u g :: k) (T Red (T Red l x r) p w). apply wp_ret. cbn [fst snd].
    step_at HR wp_set_black_at (FR Black u g :: k) (T Red l x (T Red r p w)).
    step_at HR wp_set_red_at k (T Black u g (T Black l x (T Red r p w))).
    step_at HR wp_rotate_left_at k (T Red u g (T Black l x (T Red r p w))).
    apply wp_ret. refocus HR (FR Black (T Red u g l) x :: k) (T Red r p w).
    eapply insert_goal_intro with (n := n); [exact HR| |naive_solver|naive_solver|simpl; lia].
    rewrite inorder_plug, <-HL. solve_app.
Qed.

Lemma insert_body_left_right L k p w g u l x r n s :
  Rep h0 s (plug (FR Red w p :: FL Black g u :: k) (T Red l x r)) ->
  inorder (plug (FR Red w p :: FL Black g u :: k) (T Red l x r)) = L ->
  rb n (T Red l x r) -> kok n (FR Red w p :: FL Black g u :: k) ->
  wp s (insert_color_body x) (insert_goal L (S (S (length k)))).
Proof.
  intros HR HL Hrb (Hw & Hwb & _ & Hu & Hk). cbn [fsib] in *.
  pose proof (Rep_sib_ne _ _ _ _ _ _ _ _ HR) as Hne. cbn [fsib] in Hne.
  pose proof (Rep_lookup _ _ _ _ _ _ _ HR) as (_ & _ & Hpk).
  pose proof (Rep_lookup _ _ (FL Black g u :: k) _ _ _ _ HR) as (_ & _ & Hpk2).
  pose proof (Rep_sib_ne _ _ (FL Black g u) k _ _ _ _ HR) as Hne2. cbn [fsib] in Hne2.
  rewrite inorder_plug in HL. cbn in HL.
  unfold insert_color_body.
  step_at HR wp_deref_at (FR Red w p :: FL Black g u :: k) (T Red l x r).
  rewrite rb_parent_mk by done. cbn [kaddr faddr].
  step_at HR wp_nonnull_red (FL Black g u :: k) (T Red w p (T Red l x r)). cbn.
  step_at HR wp_deref_at (FL Black g u :: k) (T Red w p (T Red l x r)).
  rewrite rb_parent_mk by done. cbn [kaddr faddr].
  step_at HR wp_deref_at k (T Black (T Red w p (T Red l x r)) g u).
  rewrite Z.eqb_refl.
  step_at HR wp_nonnull_red (FR Black (T Red w p (T Red l x r)) g :: k) u.
  destruct (tcolor u) eqn:Hcu; cbn.
  - destruct u as [|[] ul ua ur]; try done.
    step_at HR wp_set_black_at (FR Black (T Red w p (T Red l x r)) g :: k) (T Red ul ua ur).
    step_at HR wp_set_black_at (FL Black g (T Black ul ua ur) :: k) (T Red w p (T Red l x r)).
    step_at HR wp_set_red_at k (T Black (T Black w p (T Red l x r)) g (T Black ul ua ur)).
    apply wp_ret. eapply insert_goal_intro with (n := S n); [exact HR| |naive_solver|done|lia].
    rewrite inorder_plug, <-HL. solve_app.
  - step_at HR wp_deref_at (FL Black g u :: k) (T Red w p (T Red l x r)).
    rewrite Z.eqb_refl. apply wp_bind.
    step_at HR wp_rotate_left_at (FL Black g u :: k) (T Red w p (T Red l x r)). apply wp_ret. cbn [fst snd].
    step_at HR wp_set_black_at (FL Black g u :: k) (T Red (T Red w p l) x r).
    step_at HR wp_set_red_at k (T Black (T Black (T Red w p l) x r) g u).
    step_at HR wp_rotate_right_at k (T Red (T Black (T Red w p l) x r) g u).
    apply wp_ret. refocus HR (FL Black x (T Red r g u) :: k) (T Red w p l).
    eapply insert_goal_intro with (n := n); [exact HR| |naive_solver|naive_solver|simpl; lia].
    rewrite inorder_plug, <-HL. solve_app.
Qed.

Lemma insert_body_right_right L k p w g u l x r n s :
  Rep h0 s (plug (FR Red w p :: FR Black u g :: k) (T Red l x r)) ->
  inorder (plug (FR Red w p :: FR Black u g :: k) (T Red l x r)) = L ->
  rb n (T Red l x r) -> kok n (FR Red w p :: FR Black u g :: k) ->
  wp s (insert_color_body x) (insert_goal L (S (S (length k)))).
Proof.
  intros HR HL Hrb (Hw & Hwb & _ & Hu & Hk). cbn [fsib] in *.
  pose proof (Rep_sib_ne _ _ _ _ _ _ _ _ HR) as Hne. cbn [fsib] in Hne.
  pose proof (Rep_lookup _ _ _ _ _ _ _ HR) as (_ & _ & Hpk).
  pose proof (Rep_lookup _ _ (FR Black u g :: k) _ _ _ _ HR) as (_ & _ & Hpk2).
  pose proof (Rep_sib_ne _ _ (FR Black u g) k _ _ _ _ HR) as Hne2. cbn [fsib] in Hne2.
  rewrite inorder_plug in HL. cbn in HL.
  unfold insert_color_body.
  step_at HR wp_deref_at (FR Red w p :: FR Black u g :: k) (T Red l x r).
  rewrite rb_parent_mk by done. cbn [kaddr faddr].
  step_at HR wp_nonnull_red (FR Black u g :: k) (T Red w p (T Red l x r)). cbn.
  step_at HR wp_deref_at (FR Black u g :: k) (T Red w p (T Red l x r)).
  rewrite rb_parent_mk by done. cbn [kaddr faddr].
  step_at HR wp_deref_at k (T Black u g (T Red w p (T Red l x r))).
  rewrite (proj2 (Z.eqb_neq _ _)) by done.
  step_at HR wp_nonnull_red (FL Black g (T Red w p (T Red l x r)) :: k) u.
  destruct (tcolor u) eqn:Hcu; cbn.
  - destruct u as [|[] ul ua ur]; try done.
    step_at HR wp_set_black_at (FL Black g (T Red w p (T Red l x r)) :: k) (T Red ul ua ur).
    step_at HR wp_set_black_at (FR Black (T Black ul ua ur) g :: k) (T Red w p (T Red l x r)).
    step_at HR wp_set_red_at k (T Black (T Black ul ua ur) g (T Black w p (T Red l x r))).
    apply wp_ret. eapply insert_goal_intro with (n := S n); [exact HR| |naive_solver|done|lia].
    rewrite inorder_plug, <-HL. solve_app.
  - step_at HR wp_deref_at (FR Black u g :: k) (T Red w p (T Red l x r)).
    rewrite (proj2 (Z.eqb_neq _ _)) by done. cbn [fst snd].
    apply wp_bind, wp_ret. cbn [fst snd].
    step_at HR wp_set_black_at (FR Black u g :: k) (T Red w p (T Red l x r)).
    step_at HR wp_set_red_at k (T Black u g (T Black w p (T Red l x r))).
    step_at HR wp_rotate_left_at k (T Red u g (T Black w p (T Red l x r))).
    apply wp_ret. refocus HR (FR Black (T Red u g w) p :: k) (T Red l x r).
    eapply insert_goal_intro with (n := n); [exact HR| |done|naive_solver|simpl; lia].
    rewrite inorder_plug, <-HL. solve_app.
Qed.

Lemma insert_body_spec L i x s :
  insert_inv L i x s -> wp s (insert_color_body x) (insert_goal L i).
Proof.
  intros (k & l & r & n & -> & HR & HL & Hrb & Hk).
  destruct (decide (kcolor k = Black \/ k = [])) as [Hex|Hred].
  - (* the parent is black, or the focus is the root *)
    pose proof (Rep_lookup _ _ _ _ _ _ _ HR) as (_ & _ & Hpk).
    unfold insert_color_body. apply wp_bind. eapply wp_deref_at; [exact HR|].
    rewrite rb_parent_mk by done. eapply wp_seq with (P := λ b s', b = false /\ s' = s).
    { destruct k as [|[c a t|c t a] k]; [done|..]; simpl in *.
      all: assert (c = Black) as -> by naive_solver.
      - by eapply (wp_nonnull_red h0 s k (T Black (T Red l x r) a t)).
      - by eapply (wp_nonnull_red h0 s k (T Black t a (T Red l x r))). }
    intros b s' [-> ->]. simpl. apply wp_ret.
    destruct (rb_plug n k (T Red l x r)) as (m & Hm & _); [done|done|naive_solver|].
    by exists (plug k (T Red l x r)), m.
  - destruct k as [|f1 [|f2 k]]; simpl in *; [naive_solver|..].
    + destruct Hk as [_ Hk]. destruct (fcolor f1); naive_solver.
    + destruct f1 as [[] p w|[] w p], f2 as [[] g u|[] u g]; simpl in *; try naive_solver.
      * by eapply insert_body_left_left.
      * by eapply insert_body_right_left.
      * by eapply insert_body_left_right.
      * by eapply insert_body_right_right.
Qed.
End insert.

(** ** The whole insertion *)
Lemma Rep_size h0 s t : Rep h0 s t -> (length (inorder t) <= size (rb_nodes s))%nat.
Proof.
  intros [Ht _ Hnd _ _].
  rewrite <-(size_list_to_set (C := gset Z)) by done. rewrite <-size_dom.
  apply subseteq_size. intros a Ha%elem_of_list_to_set. apply elem_of_dom.
  clear Hnd. revert Ht Ha. generalize NULL.
  induction t as [|c l IHl e r IHr]; simpl; [set_solver|].
  intros p (He & Hl & Hr) [Ha|[->|Ha]%elem_of_cons]%elem_of_app; eauto.
Qed.

Lemma ctx_length k t : (length k <= length (inorder (plug k t)))%nat.
Proof.
  rewrite inorder_plug, !length_app.
  induction k as [|[] k IH]; simpl; rewrite ?length_app; simpl; lia.
Qed.

(** The link the focus of a context hangs from. *)
Definition klink (k : list frame) : rb_link :=
  match k with
  | [] => LinkRoot
  | FL _ a _ :: _ => LinkLeft a
  | FR _ _ a :: _ => LinkRight a
  end.

Lemma link_node_spec h0 s k a :
  Rep h0 s (plug k E) -> addr a -> a ∉ inorder (plug k E) -> is_Some (rb_nodes s !! a) ->
  wp s (rb_link_node a (kaddr k) (klink k)) (λ _ s', Rep h0 s' (plug k (T Red E a E))).
Proof.
  rewrite Rep_plug, inorder_plug. cbn [inorder app].
  intros [Hk _ Hnd Had Hf] Ha Hni [n Hn]. cbn [inorder app ptr] in *.
  assert (pointer (kaddr k)) as Hpk by (eapply Forall_addr_pointer; [exact Had|apply kaddr_elem]).
  pose proof (addr_not_null a Ha) as Han.
  unfold rb_link_node.
  apply wp_bind. eapply wp_update; [exact Hn|done|]. rewrite pack_red by done.
  apply wp_bind. eapply wp_update; [apply lookup_insert_eq|done|].
  apply wp_bind. eapply wp_update; [apply lookup_insert_eq|done|].
  cbn [rb_parent_color rb_right rb_left].
  set (s3 := put _ a (Rb_node (pack (kaddr k) Red) NULL NULL)).
  assert (forall e, e ∈ kleft k ++ kright k -> rb_nodes s3 !! e = rb_nodes s !! e) as Hag.
  { intros e He. assert (e <> a) by set_solver. subst s3. cbn [put rb_nodes].
    by rewrite !lookup_insert_ne by done. }
  assert (repk (rb_nodes s3) k NULL (rb_root s3)) as Hk3 by (by eapply repk_agree).
  eapply wp_mono with (P := λ _ s', s' = relink k a s3).
  { destruct k as [|[c p t|c t p] k]; [done|..].
    all: assert (p <> NULL) by
      (apply addr_not_null; eapply Forall_forall; [exact Had|simpl; set_solver]).
    all: destruct Hk3 as (Hp &  _ ).
    - by eapply wp_set_left.
    - by eapply wp_set_right. }
  intros [] s' ->. apply Rep_plug. constructor; cbn [inorder app ptr].
  - by eapply repk_relink.
  - split_and!; [|done|done]. rewrite relink_ne; [subst s3; apply lookup_insert_eq|].
    intros ->. destruct (kaddr_elem k); [done|set_solver].
  - rewrite <-Permutation_middle. by constructor.
  - apply Forall_app in Had as [? ?]. apply Forall_app. split; [done|]. by constructor.
  - intros e He. rewrite relink_out by set_solver. subst s3. cbn [put rb_nodes].
    rewrite !lookup_insert_ne by set_solver. apply Hf. set_solver.
Qed.

(** Insertion, as the wp rule its callers use. *)
Lemma rb_insert_spec h0 s k a :
  Rep h0 s (plug k E) -> rbtree (plug k E) -> addr a -> a ∉ inorder (plug k E) ->
  is_Some (rb_nodes s !! a) ->
  wp s (rb_link_node a (kaddr k) (klink k) ;; rb_insert_color a)
    (λ _ s', exists t', Rep h0 s' t' /\ rbtree t' /\ inorder t' = kleft k ++ a :: kright k).
Proof.
  intros HR [[m Hm] Hb] Ha Hni Hs.
  destruct (rb_unplug _ _ _ Hm Hb) as (n & Hn & Hk & _).
  eapply wp_seq; [by apply link_node_spec|]. intros [] s1 HR1.
  set (L := inorder (plug k (T Red E a E))).
  unfold rb_insert_color. apply wp_bind, wp_gets.
  eapply wp_seq.
  { eapply (wp_iter (insert_inv h0 L) _ (λ _ s', insert_post h0 L s') (length k)).
    - intros j y s2 Hj. eapply wp_mono; [by apply insert_body_spec|]. by intros [z|[]] s3 H.
    - exists k, E, E, n. by split_and!.
    - pose proof (Rep_size _ _ _ HR1). pose proof (ctx_length k (T Red E a E)).
      unfold rb_fuel. lia. }
  intros [] s2 (t & q & HR2 & HL & Hq). apply wp_bind, wp_gets.
  assert (inorder t = kleft k ++ a :: kright k) as HL'
    by (rewrite HL; subst L; rewrite inorder_plug; done).
  destruct t as [|c l e r]; [by destruct (kleft k)|].
  replace (rb_root s2) with e by (symmetry; apply HR2).
  eapply (wp_set_black_at _ _ []); [exact HR2|]. intros s3 HR3.
  exists (T Black l e r). split_and!; [done| |done].
  split; [|done]. destruct c; simpl in Hq.
  - exists (S q). simpl. naive_solver.
  - by exists q.
Qed.
