(* ===== verification/RbWalk.v ===== *)
(** * Walking: [rb_first], [rb_last], [rb_next], [rb_prev]

    The four functions return the neighbours of a node in the in-order list
    of the tree, and leave the tree alone. *)
From S2P Require Import Prelude RbTree RbInv RbRotate RbInsert.

Definition is_FL (f : frame) : bool := match f with FL _ _ _ => true | _ => false end.
Definition is_FR (f : frame) : bool := match f with FR _ _ _ => true | _ => false end.

Lemma plug_app k1 k2 t : plug (k1 ++ k2) t = plug k2 (plug k1 t).
Proof. revert t. induction k1 as [|f k1 IH]; intros t; simpl; auto. Qed.
Lemma kleft_FL k : Forall is_FL k -> kleft k = [].
Proof. induction 1 as [|[] k Hf _ IH]; simpl in *; try done. Qed.
Lemma kright_FR k : Forall is_FR k -> kright k = [].
Proof. induction 1 as [|[] k Hf _ IH]; simpl in *; try done. Qed.

(** Every address of a tree is in focus somewhere. *)
Lemma inorder_focus t a :
  a ∈ inorder t -> exists k c l r, t = plug k (T c l a r).
Proof.
  induction t as [|c l IHl e r IHr]; simpl; [set_solver|].
  intros [Ha|[->|Ha]%elem_of_cons]%elem_of_app.
  - destruct (IHl Ha) as (k & c' & l' & r' & ->).
    exists (k ++ [FL c e r]), c', l', r'. by rewrite plug_app.
  - by exists [], c, l, r.
  - destruct (IHr Ha) as (k & c' & l' & r' & ->).
    exists (k ++ [FR c l e]), c', l', r'. by rewrite plug_app.
Qed.

(** A duplicate-free list splits at an element in one way. *)
Lemma NoDup_split {A} (l1 r1 l2 r2 : list A) a :
  NoDup (l1 ++ a :: r1) -> l1 ++ a :: r1 = l2 ++ a :: r2 -> l1 = l2 /\ r1 = r2.
Proof.
  revert l2. induction l1 as [|x l1 IH]; intros [|y l2]; simpl; intros Hnd [=]; subst; try done.
  - exfalso. apply NoDup_cons in Hnd as [H _]. set_solver.
  - exfalso. apply NoDup_cons in Hnd as [H _]. set_solver.
  - apply NoDup_cons in Hnd as [_ Hnd]. edestruct IH; [done..|]. by subst.
Qed.

Section walk.
Context (h0 : gmap Z rb_node).
Implicit Types (s : rb_state) (k : list frame).

Lemma fuel_focus s k c l a r n :
  Rep h0 s (plug k (T c l a r)) -> (n <= length (inorder (T c l a r)))%nat ->
  (length k < rb_fuel s)%nat /\ (n < rb_fuel s)%nat.
Proof.
  intros HR Hn. pose proof (Rep_size _ _ _ HR) as Hs. pose proof (ctx_length k (T c l a r)).
  rewrite inorder_plug, !length_app in *. unfold rb_fuel. lia.
Qed.

Lemma go_left_spec s k c l a r :
  Rep h0 s (plug k (T c l a r)) ->
  wp s (go_left a) (λ x s', s' = s /\ exists k2 c2 r2,
    T c l a r = plug k2 (T c2 E x r2) /\ Forall is_FL k2).
Proof.
  intros HR. unfold go_left. apply wp_bind, wp_gets.
  set (I := λ (i : nat) (x : Z) (s' : rb_state), s' = s /\ exists k2 c2 l2 r2,
    T c l a r = plug k2 (T c2 l2 x r2) /\ Forall is_FL k2 /\ i = length (inorder (T c2 l2 x r2))).
  eapply (wp_iter I _ _ (length (inorder (T c l a r)))).
  - intros i x s' (-> & k2 & c2 & l2 & r2 & Heq & Hk2 & ->). unfold go_left_body.
    rewrite Heq, <-plug_app in HR.
    step_at HR wp_deref_at (k2 ++ k) (T c2 l2 x r2). apply wp_ret.
    destruct l2 as [|c3 l3 y r3]; cbn [ptr].
    + by exact (conj eq_refl (ex_intro _ k2 (ex_intro _ c2 (ex_intro _ r2 (conj Heq Hk2))))).
    + pose proof (Rep_lookup _ _ (FL c2 x r2 :: k2 ++ k) _ _ _ _ HR) as (_ & Hy & _).
      rewrite (proj2 (Z.eqb_neq _ _)) by done.
      exists (length (inorder (T c3 l3 y r3))). split.
      { simpl. rewrite !length_app. simpl. rewrite ?length_app. simpl. lia. }
      split; [done|]. exists (FL c2 x r2 :: k2), c3, l3, r3. split_and!; [done| |done].
      by constructor.
  - split; [done|]. by exists [], c, l, r.
  - by eapply fuel_focus.
Qed.

Lemma go_right_spec s k c l a r :
  Rep h0 s (plug k (T c l a r)) ->
  wp s (go_right a) (λ x s', s' = s /\ exists k2 c2 l2,
    T c l a r = plug k2 (T c2 l2 x E) /\ Forall is_FR k2).
Proof.
  intros HR. unfold go_right. apply wp_bind, wp_gets.
  set (I := λ (i : nat) (x : Z) (s' : rb_state), s' = s /\ exists k2 c2 l2 r2,
    T c l a r = plug k2 (T c2 l2 x r2) /\ Forall is_FR k2 /\ i = length (inorder (T c2 l2 x r2))).
  eapply (wp_iter I _ _ (length (inorder (T c l a r)))).
  - intros i x s' (-> & k2 & c2 & l2 & r2 & Heq & Hk2 & ->). unfold go_right_body.
    rewrite Heq, <-plug_app in HR.
    step_at HR wp_deref_at (k2 ++ k) (T c2 l2 x r2). apply wp_ret.
    destruct r2 as [|c3 l3 y r3]; cbn [ptr].
    + by exact (conj eq_refl (ex_intro _ k2 (ex_intro _ c2 (ex_intro _ l2 (conj Heq Hk2))))).
    + pose proof (Rep_lookup _ _ (FR c2 l2 x :: k2 ++ k) _ _ _ _ HR) as (_ & Hy & _).
      rewrite (proj2 (Z.eqb_neq _ _)) by done.
      exists (length (inorder (T c3 l3 y r3))). split.
      { simpl. rewrite !length_app. simpl. rewrite ?length_app. simpl. lia. }
      split; [done|]. exists (FR c2 l2 x :: k2), c3, l3, r3. split_and!; [done| |done].
      by constructor.
  - split; [done|]. by exists [], c, l, r.
  - by eapply fuel_focus.
Qed.

(** The first and last address of what a descent ends at. *)
Lemma plug_FL_hd k2 c2 x r2 rest :
  Forall is_FL k2 -> hd NULL (inorder (plug k2 (T c2 E x r2)) ++ rest) = x.
Proof. intros Hk. rewrite inorder_plug, kleft_FL by done. done. Qed.
Lemma plug_FR_last k2 c2 l2 x pre :
  Forall is_FR k2 -> List.last (pre ++ inorder (plug k2 (T c2 l2 x E))) NULL = x.
Proof.
  intros Hk. rewrite inorder_plug, kright_FR by done. simpl.
  by rewrite app_nil_r, !app_assoc, List.last_last.
Qed.

Lemma first_spec s t :
  Rep h0 s t -> wp s rb_first (λ x s', s' = s /\ x = hd NULL (inorder t)).
Proof.
  intros HR. unfold rb_first. apply wp_bind, wp_gets. rewrite (Rep_root _ _ _ HR).
  destruct t as [|c l a r]; [by apply wp_ret|].
  pose proof (Rep_lookup _ _ [] _ _ _ _ HR) as (_ & Ha & _). cbn [ptr].
  rewrite (proj2 (Z.eqb_neq _ _)) by done.
  eapply wp_mono; [by eapply (go_left_spec s [] c l a r)|].
  intros x s' (-> & k2 & c2 & r2 & -> & Hk2). split; [done|].
  pose proof (plug_FL_hd k2 c2 x r2 [] Hk2) as H. by rewrite app_nil_r in H.
Qed.

Lemma last_spec s t :
  Rep h0 s t -> wp s rb_last (λ x s', s' = s /\ x = List.last (inorder t) NULL).
Proof.
  intros HR. unfold rb_last. apply wp_bind, wp_gets. rewrite (Rep_root _ _ _ HR).
  destruct t as [|c l a r]; [by apply wp_ret|].
  pose proof (Rep_lookup _ _ [] _ _ _ _ HR) as (_ & Ha & _). cbn [ptr].
  rewrite (proj2 (Z.eqb_neq _ _)) by done.
  eapply wp_mono; [by eapply (go_right_spec s [] c l a r)|].
  intros x s' (-> & k2 & c2 & l2 & -> & Hk2). split; [done|].
  by pose proof (plug_FR_last k2 c2 l2 x [] Hk2).
Qed.

Lemma kaddr_ne s k c l a r : Rep h0 s (plug k (T c l a r)) -> kaddr k <> a.
Proof.
  intros HR Heq. pose proof (Rep_lookup _ _ _ _ _ _ _ HR) as (_ & Ha & _).
  apply Rep_plug in HR as [_ _ Hnd _ _].
  destruct (kaddr_elem k) as [Hn|Hk]; [congruence|]. rewrite Heq in Hk.
  cbn [inorder] in Hnd. rewrite <-app_assoc in Hnd. simpl in Hnd.
  rewrite app_assoc, <-Permutation_middle in Hnd. apply NoDup_cons in Hnd as [Hn _].
  set_solver.
Qed.

Lemma next_up_spec s k c l a r :
  Rep h0 s (plug k (T c l a r)) ->
  wp s (iter (rb_fuel s) next_up_body a) (λ x s', s' = s /\ x = hd NULL (kright k)).
Proof.
  intros HR.
  set (I := λ (i : nat) (x : Z) (s' : rb_state), s' = s /\ exists k' c' l' r',
    Rep h0 s (plug k' (T c' l' x r')) /\ kright k' = kright k /\ i = length k').
  eapply (wp_iter I _ _ (length k)); [|split; [done|by exists k, c, l, r]|by eapply (fuel_focus s k c l a r 0); [|lia]].
  clear HR. intros i x s' (-> & k' & c' & l' & r' & HR & Hkr & ->). unfold next_up_body.
  pose proof (Rep_lookup _ _ _ _ _ _ _ HR) as (_ & _ & Hp).
  step_at HR wp_deref_at k' (T c' l' x r'). rewrite rb_parent_mk by done.
  destruct k' as [|f k']; [apply wp_ret; by rewrite <-Hkr|].
  assert (kaddr (f :: k') <> NULL) as Hn.
  { destruct f; simpl; by eapply (Rep_lookup h0 s k'). }
  rewrite (proj2 (Z.eqb_neq _ _)) by done.
  destruct f as [d e w|d w e]; cbn [kaddr faddr] in *.
  - pose proof (Rep_sib_ne _ _ _ _ _ _ _ _ HR) as Hs. cbn [fsib] in Hs.
    step_at HR wp_deref_at k' (T d (T c' l' x r') e w). apply wp_ret.
    rewrite (proj2 (Z.eqb_neq _ _)) by congruence. split; [done|]. by rewrite <-Hkr.
  - step_at HR wp_deref_at k' (T d w e (T c' l' x r')). apply wp_ret. rewrite Z.eqb_refl.
    exists (length k'). split; [simpl; lia|]. split; [done|].
    by exists k', d, w, (T c' l' x r').
Qed.

Lemma prev_up_spec s k c l a r :
  Rep h0 s (plug k (T c l a r)) ->
  wp s (iter (rb_fuel s) prev_up_body a) (λ x s', s' = s /\ x = List.last (kleft k) NULL).
Proof.
  intros HR.
  set (I := λ (i : nat) (x : Z) (s' : rb_state), s' = s /\ exists k' c' l' r',
    Rep h0 s (plug k' (T c' l' x r')) /\ kleft k' = kleft k /\ i = length k').
  eapply (wp_iter I _ _ (length k)); [|split; [done|by exists k, c, l, r]|by eapply (fuel_focus s k c l a r 0); [|lia]].
  clear HR. intros i x s' (-> & k' & c' & l' & r' & HR & Hkr & ->). unfold prev_up_body.
  pose proof (Rep_lookup _ _ _ _ _ _ _ HR) as (_ & _ & Hp).
  step_at HR wp_deref_at k' (T c' l' x r'). rewrite rb_parent_mk by done.
  destruct k' as [|f k']; [apply wp_ret; by rewrite <-Hkr|].
  assert (kaddr (f :: k') <> NULL) as Hn.
  { destruct f; simpl; by eapply (Rep_lookup h0 s k'). }
  rewrite (proj2 (Z.eqb_neq _ _)) by done.
  destruct f as [d e w|d w e]; cbn [kaddr faddr] in *.
  - step_at HR wp_deref_at k' (T d (T c' l' x r') e w). apply wp_ret. rewrite Z.eqb_refl.
    exists (length k'). split; [simpl; lia|]. split; [done|].
    by exists k', d, (T c' l' x r'), w.
  - pose proof (Rep_sib_ne _ _ _ _ _ _ _ _ HR) as Hs. cbn [fsib] in Hs.
    step_at HR wp_deref_at k' (T d w e (T c' l' x r')). apply wp_ret.
    rewrite (proj2 (Z.eqb_neq _ _)) by congruence. split; [done|].
    rewrite <-Hkr. simpl. by rewrite app_assoc, List.last_last.
Qed.

Lemma next_spec s k c l a r :
  Rep h0 s (plug k (T c l a r)) ->
  wp s (rb_next a) (λ x s', s' = s /\ x = hd NULL (inorder r ++ kright k)).
Proof.
  intros HR. unfold rb_next.
  pose proof (Rep_lookup _ _ _ _ _ _ _ HR) as (_ & _ & Hp).
  pose proof (kaddr_ne _ _ _ _ _ _ HR) as Hka.
  step_at HR wp_deref_at k (T c l a r). rewrite rb_parent_mk by done.
  rewrite (proj2 (Z.eqb_neq _ _)) by done.
  destruct r as [|c' l' y r']; cbn [ptr].
  { apply wp_bind, wp_gets. by eapply next_up_spec. }
  pose proof (Rep_lookup _ _ (FR c l a :: k) _ _ _ _ HR) as (_ & Hy & _).
  rewrite (proj2 (Z.eqb_neq _ _)) by done. cbn [negb].
  eapply wp_mono; [by eapply (go_left_spec s (FR c l a :: k))|].
  intros x s' (-> & k2 & c2 & r2 & -> & Hk2). split; [done|]. by rewrite plug_FL_hd.
Qed.

Lemma prev_spec s k c l a r :
  Rep h0 s (plug k (T c l a r)) ->
  wp s (rb_prev a) (λ x s', s' = s /\ x = List.last (kleft k ++ inorder l) NULL).
Proof.
  intros HR. unfold rb_prev.
  pose proof (Rep_lookup _ _ _ _ _ _ _ HR) as (_ & _ & Hp).
  pose proof (kaddr_ne _ _ _ _ _ _ HR) as Hka.
  step_at HR wp_deref_at k (T c l a r). rewrite rb_parent_mk by done.
  rewrite (proj2 (Z.eqb_neq _ _)) by done.
  destruct l as [|c' l' y r']; cbn [ptr].
  { cbn [inorder]. rewrite app_nil_r. apply wp_bind, wp_gets. by eapply prev_up_spec. }
  pose proof (Rep_lookup _ _ (FL c a r :: k) _ _ _ _ HR) as (_ & Hy & _).
  rewrite (proj2 (Z.eqb_neq _ _)) by done. cbn [negb].
  eapply wp_mono; [by eapply (go_right_spec s (FL c a r :: k))|].
  intros x s' (-> & k2 & c2 & l2 & -> & Hk2). split; [done|]. by rewrite plug_FR_last.
Qed.
End walk.
