(* ===== verification/RbErase.v ===== *)
(** * Deletion: [__rb_erase_color] and [rb_erase] *)
From S2P Require Import Prelude RbTree RbInv RbRotate RbInsert.

(** A subtree that is one black node short, or that becomes right once its
    red root is made black. *)
Definition deficit (n : nat) (t : tree) : Prop :=
  match t with T Red l _ r => rb n l /\ rb n r | _ => rb n t end.
Definition blacken (t : tree) : tree :=
  match t with E => E | T _ l a r => T Black l a r end.
(** What the context above a node of colour [c] must satisfy. *)
Definition kfit (c : color) (m : nat) (k : list frame) : Prop :=
  match c with Red => kcolor k = Black /\ kok m k | Black => kok (S m) k end.
Definition cbit (c : color) : nat := match c with Red => 0%nat | Black => 1%nat end.

Lemma inorder_blacken t : inorder (blacken t) = inorder t.
Proof. by destruct t. Qed.

Lemma kok_cons n f k :
  kok n (f :: k) <->
  rb n (fsib f) /\ (fcolor f = Red -> tcolor (fsib f) = Black) /\ kfit (fcolor f) n k.
Proof. simpl. destruct (fcolor f); simpl; naive_solver. Qed.

Lemma kfit_plug c m k t :
  rb (if decide (c = Red) then m else S m) t /\ tcolor t = c -> kfit c m k -> rbtree (plug k t).
Proof.
  intros [Ht Hc] Hk. destruct c; simpl in *.
  - destruct Hk as [Hkc Hk]. destruct (rb_plug m k t) as (q & Hq & Hb); [done|done|tauto|].
    split; [by exists q|]. apply Hb. left. by intros ->.
  - destruct (rb_plug (S m) k t) as (q & Hq & Hb); [done|done|tauto|].
    split; [by exists q|]. apply Hb. by right.
Qed.

Section erase.
Context (h0 : gmap Z rb_node).

Definition erase_inv (L : list Z) (i : nat) (np : Z * Z) (s : rb_state) : Prop :=
  exists k t n, i = (length k + cbit (tcolor t))%nat /\ Rep h0 s (plug k t) /\
    inorder (plug k t) = L /\ np = (ptr t, kaddr k) /\ deficit n t /\ kok (S n) k.
Definition erase_post (L : list Z) (x : Z) (s : rb_state) : Prop :=
  exists k t, Rep h0 s (plug k t) /\ inorder (plug k t) = L /\ x = ptr t /\
    rbtree (plug k (blacken t)).
Definition erase_goal (L : list Z) (i : nat) : (Z * Z) + Z -> rb_state -> Prop := λ r s',
  match r with
  | inl np => exists j, (j < i)%nat /\ erase_inv L j np s'
  | inr x => erase_post L x s'
  end.

Lemma erase_post_eq L L' x s : erase_post L x s -> L = L' -> erase_post L' x s.
Proof. by intros ? <-. Qed.
Lemma erase_post_root L t s :
  Rep h0 s t -> inorder t = L -> rbtree t -> erase_post L (rb_root s) s.
Proof.
  intros HR HL Ht. exists [], t. split_and!; [done|done|by apply HR|].
  destruct t as [|[] l a r]; [done|by destruct Ht|done].
Qed.
Lemma erase_goal_up L n c p l r k s i :
  Rep h0 s (plug k (T c l p r)) -> inorder (plug k (T c l p r)) = L -> kfit c (S n) k ->
  (length k + cbit c < i)%nat -> deficit (if decide (c = Red) then n else S n) (T c l p r) ->
  erase_goal L i (inl (p, kaddr k)) s.
Proof.
  intros HR HL Hk Hi Hd. exists (length k + cbit c)%nat. split; [done|].
  exists k, (T c l p r), (if decide (c = Red) then n else S n). split_and!; try done.
  destruct c; simpl in *; [by destruct Hk|done].
Qed.

Lemma wp_both_black s k c l a r (Q : bool -> rb_state -> Prop) :
  Rep h0 s (plug k (T c l a r)) ->
  (tcolor l = Black -> tcolor r = Black -> Q true s) ->
  (tcolor l = Red \/ tcolor r = Red -> Q false s) ->
  wp s (both_black (mk_node (kaddr k) c (ptr r) (ptr l))) Q.
Proof.
  intros HR HQ HQ'. unfold both_black. cbn [mk_node rb_left rb_right].
  apply wp_bind. eapply (wp_null_or_black h0 s (FL c a r :: k) l); [exact HR|].
  destruct (tcolor l) eqn:Hl; cbn; [by apply wp_ret, HQ'; left|].
  eapply (wp_null_or_black h0 s (FR c l a :: k) r); [exact HR|].
  destruct (tcolor r); cbn; [by apply HQ'; right|by apply HQ].
Qed.

(** *** [node] is a left child *)
Lemma erase_left_finish_spec L n c p a z b1 e b2 t k s :
  Rep h0 s (plug (FL c p (T Black a z (T Red b1 e b2)) :: k) t) ->
  inorder (plug (FL c p (T Black a z (T Red b1 e b2)) :: k) t) = L ->
  rb n t -> rb n a -> rb n (T Red b1 e b2) -> kfit c (S n) k ->
  wp s (erase_left_finish p z) (λ r s', exists x, r = inr x /\ erase_post L x s').
Proof.
  intros HR HL Ht Ha Hb Hk. rewrite inorder_plug in HL. cbn in HL.
  pose proof (Rep_lookup _ _ k _ _ _ _ HR) as (_ & _ & Hpk).
  unfold erase_left_finish.
  step_at HR wp_deref_at k (T c t p (T Black a z (T Red b1 e b2))).
  rewrite rb_color_mk by done.
  step_at HR wp_set_color_at (FR c t p :: k) (T Black a z (T Red b1 e b2)).
  step_at HR wp_set_black_at k (T c t p (T c a z (T Red b1 e b2))).
  step_at HR wp_deref_at (FR Black t p :: k) (T c a z (T Red b1 e b2)).
  step_at HR wp_set_black_at (FR c a z :: FR Black t p :: k) (T Red b1 e b2).
  step_at HR wp_rotate_left_at k (T Black t p (T c a z (T Black b1 e b2))).
  apply wp_bind, wp_gets, wp_ret. eexists; split; [done|].
  eapply erase_post_root; [exact HR| |].
  - rewrite inorder_plug, <-HL. solve_app.
  - eapply kfit_plug; [|exact Hk]. destruct c; naive_solver.
Qed.

Lemma erase_left_black_spec L n c p a z b t k s i :
  Rep h0 s (plug (FL c p (T Black a z b) :: k) t) ->
  inorder (plug (FL c p (T Black a z b) :: k) t) = L ->
  rb n t -> tcolor t = Black -> rb n a -> rb n b -> kfit c (S n) k ->
  (length k + cbit c < i)%nat ->
  wp s (erase_left_black p z) (erase_goal L i).
Proof.
  intros HR HL Ht Htb Ha Hb Hk Hi. pose proof HL as HL0. rewrite inorder_plug in HL. cbn in HL.
  pose proof (Rep_lookup _ _ k _ _ _ _ HR) as (_ & _ & Hpk).
  unfold erase_left_black.
  step_at HR wp_deref_at (FR c t p :: k) (T Black a z b).
  apply wp_bind. eapply wp_both_black; [exact HR|..].
  - intros ? ?.
    step_at HR wp_set_red_at (FR c t p :: k) (T Black a z b).
    step_at HR wp_deref_at k (T c t p (T Red a z b)).
    rewrite rb_parent_mk by done. apply wp_ret.
    eapply erase_goal_up with (n := n); [exact HR| |exact Hk|exact Hi|destruct c; naive_solver].
    rewrite inorder_plug, <-HL. solve_app.
  - intros Hbb.
    step_at HR wp_deref_at (FR c t p :: k) (T Black a z b).
    step_at HR wp_null_or_black (FR Black a z :: FR c t p :: k) b.
    destruct (tcolor b) eqn:Hcb; cbn.
    + destruct b as [|[] b1 e b2]; try done. apply wp_bind, wp_ret.
      eapply wp_mono; [by eapply erase_left_finish_spec|].
      intros ? ? (x & -> & Hx). exact Hx.
    + destruct a as [|[] a1 y a2]; try naive_solver. apply wp_bind.
      step_at HR wp_set_black_at (FL Black z b :: FR c t p :: k) (T Red a1 y a2).
      step_at HR wp_set_red_at (FR c t p :: k) (T Black (T Black a1 y a2) z b).
      step_at HR wp_rotate_right_at (FR c t p :: k) (T Red (T Black a1 y a2) z b).
      step_at HR wp_deref_at k (T c t p (T Black a1 y (T Red a2 z b))). apply wp_ret.
      eapply wp_mono; [eapply erase_left_finish_spec with (n := n); [exact HR|reflexivity|..]|].
      * done.
      * naive_solver.
      * naive_solver.
      * done.
      * intros ? ? (x & -> & Hx). cbn. eapply erase_post_eq; [exact Hx|].
        rewrite !inorder_plug, <-HL. solve_app.
Qed.

(** The red-sibling block: afterwards the sibling is black. *)
Lemma erase_left_red_spec L n c p w t k s :
  Rep h0 s (plug (FL c p w :: k) t) -> inorder (plug (FL c p w :: k) t) = L ->
  rb (S n) w -> (c = Red -> tcolor w = Black) -> kfit c (S n) k ->
  wp s (erase_left_red p) (λ z s', exists c' a b k',
    Rep h0 s' (plug (FL c' p (T Black a z b) :: k') t) /\
    inorder (plug (FL c' p (T Black a z b) :: k') t) = L /\
    rb n a /\ rb n b /\ kfit c' (S n) k' /\ (length k' + cbit c' <= S (length k))%nat).
Proof.
  intros HR HL Hw Hcw Hk. rewrite inorder_plug in HL. cbn in HL.
  unfold erase_left_red.
  step_at HR wp_deref_at k (T c t p w).
  destruct w as [|[] a z b]; [done|..]; cbn [ptr].
  - pose proof (Rep_lookup _ _ (FR c t p :: k) _ _ _ _ HR) as (_ & _ & Hpk).
    destruct c; [by specialize (Hcw eq_refl)|].
    step_at HR wp_deref_at (FR Black t p :: k) (T Red a z b).
    rewrite rb_is_red_mk by done. cbn [bool_decide decide color_eq_dec].
    step_at HR wp_set_black_at (FR Black t p :: k) (T Red a z b).
    step_at HR wp_set_red_at k (T Black t p (T Black a z b)).
    step_at HR wp_rotate_left_at k (T Red t p (T Black a z b)).
    step_at HR wp_deref_at (FL Black z b :: k) (T Red t p a).
    destruct Hw as (Hra & Hrb & Hca & Hcb). 
    apply wp_ret. destruct a as [|[] a1 y a2]; try naive_solver.
    exists Red, a1, a2, (FL Black z b :: k). split_and!; [exact HR| |naive_solver..|simpl; lia].
    rewrite inorder_plug, <-HL. solve_app.
  - pose proof (Rep_lookup _ _ (FR c t p :: k) _ _ _ _ HR) as (_ & _ & Hpk).
    step_at HR wp_deref_at (FR c t p :: k) (T Black a z b).
    rewrite rb_is_red_mk by done. cbn [bool_decide decide color_eq_dec].
    apply wp_ret. exists c, a, b, k.
    split_and!; [exact HR| |naive_solver..|destruct c; simpl; lia].
    rewrite inorder_plug, <-HL. solve_app.
Qed.

(** *** [node] is a right child *)
Lemma erase_right_finish_spec L n c p a z b1 e b2 t k s :
  Rep h0 s (plug (FR c (T Black (T Red b2 e b1) z a) p :: k) t) ->
  inorder (plug (FR c (T Black (T Red b2 e b1) z a) p :: k) t) = L ->
  rb n t -> rb n a -> rb n (T Red b2 e b1) -> kfit c (S n) k ->
  wp s (erase_right_finish p z) (λ r s', exists x, r = inr x /\ erase_post L x s').
Proof.
  intros HR HL Ht Ha Hb Hk. rewrite inorder_plug in HL. cbn in HL.
  pose proof (Rep_lookup _ _ k _ _ _ _ HR) as (_ & _ & Hpk).
  unfold erase_right_finish.
  step_at HR wp_deref_at k (T c (T Black (T Red b2 e b1) z a) p t).
  rewrite rb_color_mk by done.
  step_at HR wp_set_color_at (FL c p t :: k) (T Black (T Red b2 e b1) z a).
  step_at HR wp_set_black_at k (T c (T c (T Red b2 e b1) z a) p t).
  step_at HR wp_deref_at (FL Black p t :: k) (T c (T Red b2 e b1) z a).
  step_at HR wp_set_black_at (FL c z a :: FL Black p t :: k) (T Red b2 e b1).
  step_at HR wp_rotate_right_at k (T Black (T c (T Black b2 e b1) z a) p t).
  apply wp_bind, wp_gets, wp_ret. eexists; split; [done|].
  eapply erase_post_root; [exact HR| |].
  - rewrite inorder_plug, <-HL. solve_app.
  - eapply kfit_plug; [|exact Hk]. destruct c; naive_solver.
Qed.

Lemma erase_right_black_spec L n c p a z b t k s i :
  Rep h0 s (plug (FR c (T Black b z a) p :: k) t) ->
  inorder (plug (FR c (T Black b z a) p :: k) t) = L ->
  rb n t -> tcolor t = Black -> rb n a -> rb n b -> kfit c (S n) k ->
  (length k + cbit c < i)%nat ->
  wp s (erase_right_black p z) (erase_goal L i).
Proof.
  intros HR HL Ht Htb Ha Hb Hk Hi. pose proof HL as HL0. rewrite inorder_plug in HL. cbn in HL.
  pose proof (Rep_lookup _ _ k _ _ _ _ HR) as (_ & _ & Hpk).
  unfold erase_right_black.
  step_at HR wp_deref_at (FL c p t :: k) (T Black b z a).
  apply wp_bind. eapply wp_both_black; [exact HR|..].
  - intros ? ?.
    step_at HR wp_set_red_at (FL c p t :: k) (T Black b z a).
    step_at HR wp_deref_at k (T c (T Red b z a) p t).
    rewrite rb_parent_mk by done. apply wp_ret.
    eapply erase_goal_up with (n := n); [exact HR| |exact Hk|exact Hi|destruct c; naive_solver].
    rewrite inorder_plug, <-HL. solve_app.
  - intros Hbb.
    step_at HR wp_deref_at (FL c p t :: k) (T Black b z a).
    step_at HR wp_null_or_black (FL Black z a :: FL c p t :: k) b.
    destruct (tcolor b) eqn:Hcb; cbn.
    + destruct b as [|[] b2 e b1]; try done. apply wp_bind, wp_ret.
      eapply wp_mono; [by eapply erase_right_finish_spec|].
      intros ? ? (x & -> & Hx). exact Hx.
    + destruct a as [|[] a2 y a1]; try naive_solver. apply wp_bind.
      step_at HR wp_set_black_at (FR Black b z :: FL c p t :: k) (T Red a2 y a1).
      step_at HR wp_set_red_at (FL c p t :: k) (T Black b z (T Black a2 y a1)).
      step_at HR wp_rotate_left_at (FL c p t :: k) (T Red b z (T Black a2 y a1)).
      step_at HR wp_deref_at k (T c (T Black (T Red b z a2) y a1) p t). apply wp_ret.
      eapply wp_mono; [eapply erase_right_finish_spec with (n := n); [exact HR|reflexivity|..]|].
      * done.
      * naive_solver.
      * naive_solver.
      * done.
      * intros ? ? (x & -> & Hx). cbn. eapply erase_post_eq; [exact Hx|].
        rewrite !inorder_plug, <-HL. solve_app.
Qed.

(** The red-sibling block: afterwards the sibling is black. *)
Lemma erase_right_red_spec L n c p w t k s :
  Rep h0 s (plug (FR c w p :: k) t) -> inorder (plug (FR c w p :: k) t) = L ->
  rb (S n) w -> (c = Red -> tcolor w = Black) -> kfit c (S n) k ->
  wp s (erase_right_red p) (λ z s', exists c' a b k',
    Rep h0 s' (plug (FR c' (T Black b z a) p :: k') t) /\
    inorder (plug (FR c' (T Black b z a) p :: k') t) = L /\
    rb n a /\ rb n b /\ kfit c' (S n) k' /\ (length k' + cbit c' <= S (length k))%nat).
Proof.
  intros HR HL Hw Hcw Hk. rewrite inorder_plug in HL. cbn in HL.
  unfold erase_right_red.
  step_at HR wp_deref_at k (T c w p t).
  destruct w as [|[] b z a]; [done|..]; cbn [ptr].
  - pose proof (Rep_lookup _ _ (FL c p t :: k) _ _ _ _ HR) as (_ & _ & Hpk).
    destruct c; [by specialize (Hcw eq_refl)|].
    step_at HR wp_deref_at (FL Black p t :: k) (T Red b z a).
    rewrite rb_is_red_mk by done. cbn [bool_decide decide color_eq_dec].
    step_at HR wp_set_black_at (FL Black p t :: k) (T Red b z a).
    step_at HR wp_set_red_at k (T Black (T Black b z a) p t).
    step_at HR wp_rotate_right_at k (T Red (T Black b z a) p t).
    step_at HR wp_deref_at (FR Black b z :: k) (T Red a p t).
    destruct Hw as (Hra & Hrb & Hca & Hcb). 
    apply wp_ret. destruct a as [|[] a2 y a1]; try naive_solver.
    exists Red, a1, a2, (FR Black b z :: k). split_and!; [exact HR| |naive_solver..|simpl; lia].
    rewrite inorder_plug, <-HL. solve_app.
  - pose proof (Rep_lookup _ _ (FL c p t :: k) _ _ _ _ HR) as (_ & _ & Hpk).
    step_at HR wp_deref_at (FL c p t :: k) (T Black b z a).
    rewrite rb_is_red_mk by done. cbn [bool_decide decide color_eq_dec].
    apply wp_ret. exists c, a, b, k.
    split_and!; [exact HR| |naive_solver..|destruct c; simpl; lia].
    rewrite inorder_plug, <-HL. solve_app.
Qed.

(** *** One iteration *)
Lemma plug_root_elem f k t : ptr (plug (f :: k) t) ∈ kleft (f :: k) ++ kright (f :: k).
Proof.
  revert f t. induction k as [|g k IH]; intros f t; [destruct f; simpl; set_solver|].
  change (plug (f :: g :: k) t) with (plug (g :: k) (fill f t)).
  specialize (IH g (fill f t)). destruct f; simpl in *; set_solver.
Qed.

Lemma Rep_root_ne s f k t : Rep h0 s (plug (f :: k) t) -> ptr t <> rb_root s.
Proof.
  intros HR Heq. pose proof (plug_root_elem f k t) as Hin.
  rewrite <-(Rep_root _ _ _ HR), <-Heq in Hin.
  apply Rep_plug in HR as [_ _ Hnd Had _].
  destruct (ptr_elem t) as [Hn|Ht].
  - rewrite Hn in Hin. rewrite Forall_forall in Had.
    apply (addr_not_null NULL); [apply Had; set_solver|done].
  - rewrite (Permutation_app_comm (inorder t)), app_assoc in Hnd.
    apply NoDup_app in Hnd as (_ & Hd & _). by apply (Hd _ Hin).
Qed.

Lemma Rep_sib_ptr_ne s f k t :
  Rep h0 s (plug (f :: k) t) -> fsib f <> E -> ptr (fsib f) <> ptr t.
Proof.
  intros HR Hs. destruct t as [|c l a r]; [|by eapply Rep_sib_ne].
  apply Rep_plug in HR as [_ _ _ Had _]. rewrite Forall_forall in Had.
  destruct (fsib f) as [|c l a r] eqn:Hf; [done|]. apply addr_not_null, Had.
  destruct f; simpl in *; subst; simpl; set_solver.
Qed.

Lemma deficit_blacken n t k :
  deficit n t -> kok (S n) k -> tcolor t = Red -> rbtree (plug k (blacken t)).
Proof.
  intros Hd Hk Hc. destruct t as [|[] l a r]; try done. simpl in Hd.
  destruct (rb_plug (S n) k (T Black l a r)) as (q & Hq & Hb); [done|done|tauto|].
  split; [by exists q|]. apply Hb. by right.
Qed.

Lemma erase_body_spec L i np s :
  erase_inv L i np s -> wp s (erase_color_body np) (erase_goal L i).
Proof.
  intros (k & t & n & -> & HR & HL & -> & Hd & Hk). unfold erase_color_body.
  step_at HR wp_null_or_black k t. apply wp_bind, wp_gets.
  destruct (tcolor t) eqn:Hct; cbn [bool_decide decide decide_rel color_eq_dec andb].
  { apply wp_ret. exists k, t. split_and!; [done..|]. by eapply deficit_blacken. }
  destruct k as [|f k].
  { rewrite (Rep_root _ _ _ HR). cbn [plug]. rewrite Z.eqb_refl. apply wp_ret.
    exists [], t. split_and!; [done..|]. simpl.
    destruct t as [|[] l a r]; try done; split; naive_solver. }
  rewrite (proj2 (Z.eqb_neq _ _)) by (by eapply Rep_root_ne). cbn [negb].
  apply kok_cons in Hk as (Hs & Hcs & Hk).
  assert (fsib f <> E) as Hne by (intros Hf; by rewrite Hf in Hs).
  pose proof (Rep_sib_ptr_ne _ _ _ _ HR Hne) as Hpn.
  assert (rb n t) as Ht by (by destruct t as [|[] ???]). clear Hd.
  destruct f as [c p w|c w p]; cbn [fsib fcolor kaddr faddr] in *.
  - step_at HR wp_deref_at k (T c t p w). rewrite Z.eqb_refl.
    eapply wp_seq; [by eapply (erase_left_red_spec L n c p w t k)|].
    intros z s' (c' & a & b & k' & HR' & HL' & Ha & Hb & Hk' & Hlen).
    eapply erase_left_black_spec; [exact HR'|exact HL'|done..|simpl in *; lia].
  - step_at HR wp_deref_at k (T c w p t). rewrite (proj2 (Z.eqb_neq _ _)) by done.
    eapply wp_seq; [by eapply (erase_right_red_spec L n c p w t k)|].
    intros z s' (c' & a & b & k' & HR' & HL' & Ha & Hb & Hk' & Hlen).
    eapply erase_right_black_spec; [exact HR'|exact HL'|done..|simpl in *; lia].
Qed.

(** [__rb_erase_color] repairs a subtree [t] that is one black node short. *)
Lemma erase_color_spec s k t n :
  Rep h0 s (plug k t) -> deficit n t -> kok (S n) k ->
  wp s (rb_erase_color (ptr t) (kaddr k))
    (λ _ s', exists t', Rep h0 s' t' /\ inorder t' = inorder (plug k t) /\ rbtree t').
Proof.
  intros HR Hd Hk. unfold rb_erase_color. apply wp_bind, wp_gets.
  eapply wp_seq.
  { eapply (wp_iter (erase_inv (inorder (plug k t)))); [apply erase_body_spec|by exists k, t, n|].
    pose proof (ctx_length k t). pose proof (Rep_size h0 s _ HR).
    unfold rb_fuel. destruct t as [|[] ???]; simpl in *; lia. }
  intros x s' (k' & t' & HR' & HL' & -> & Hrb).
  destruct t' as [|c l a r]; cbn [ptr].
  - apply wp_ret. exists (plug k' E). done.
  - pose proof (Rep_lookup _ _ _ _ _ _ _ HR') as (_ & Hn & _).
    rewrite (proj2 (Z.eqb_neq _ _)) by done. cbn [negb when].
    eapply (wp_set_black_at h0 s' k'); [exact HR'|]. intros s2 HR2.
    exists (plug k' (T Black l a r)). split_and!; [done| |done].
    rewrite <-HL', !inorder_plug. done.
Qed.
End erase.
