(* ===== verification/RbDelete.v ===== *)
(** * Deletion: [rb_erase]

    Unlinking a node with at most one child, replacing a node with two
    children by its in-order successor, and the whole of [rb_erase]. *)
From S2P Require Import Prelude RbTree RbInv RbRotate RbInsert RbWalk RbErase.

Lemma NoDup_mid_out {A} (l m r : list A) e : NoDup (l ++ m ++ r) -> e ∈ m -> e ∉ l ++ r.
Proof.
  rewrite !NoDup_app. setoid_rewrite elem_of_app. intros (_ & H1 & _ & H2 & _) He [Hl|Hr].
  - apply (H1 e Hl). by left.
  - by apply (H2 e He).
Qed.

(** [if (p->rb_left == node) ...], the test the other way round. *)
Lemma wp_relink_erase s k x q :
  repk (rb_nodes s) k x (rb_root s) -> Forall addr (kleft k ++ kright k) ->
  x <> NULL -> x ∉ kleft k ++ kright k ->
  wp s (if negb (kaddr k =? NULL) then
          pn ← rb_deref (kaddr k);
          if rb_left pn =? x then set_left (kaddr k) q else set_right (kaddr k) q
        else set_root q) (λ _ s', s' = relink k q s).
Proof.
  intros Hk Ha Hx Hn. pose proof (wp_relink_left s k x q Hk Ha Hx Hn) as H.
  destruct (negb (kaddr k =? NULL)); [|done].
  unfold wp, mbind, M_bind in *. destruct (rb_deref (kaddr k) s) as [[pn s']|]; [|done].
  by rewrite Z.eqb_sym.
Qed.

(** A subtree put in the place of the focus. *)
Lemma graft_rep h1 s k x t :
  repk (rb_nodes s) k x (rb_root s) -> rep (rb_nodes s) (kaddr k) t ->
  NoDup (kleft k ++ inorder t ++ kright k) ->
  Forall addr (kleft k ++ inorder t ++ kright k) ->
  (forall e, e ∉ kleft k ++ inorder t ++ kright k -> rb_nodes s !! e = h1 !! e) ->
  Rep h1 (relink k (ptr t) s) (plug k t).
Proof.
  intros Hk Ht Hnd Had Hf. apply Rep_plug. constructor; [| |done|done|].
  - eapply repk_relink; [done|]. by eapply NoDup_drop_middle.
  - eapply rep_agree; [done|]. intros e He. apply relink_out. by eapply NoDup_mid_out.
  - intros e He. rewrite relink_out by set_solver. by apply Hf.
Qed.

(** What [rb_erase] promises: the node is gone, nothing else has moved, and
    its own fields are the only memory outside the tree that may differ. *)
Definition erased (h0 : gmap Z rb_node) (a : Z) (L : list Z) (s : rb_state) : Prop :=
  exists h1 t, (forall e, e <> a -> h1 !! e = h0 !! e) /\ is_Some (h1 !! a) /\ Rep h1 s t /\ rbtree t /\ inorder t = L.

Lemma rb_deficit n t : rb n t -> deficit n t.
Proof. by destruct t as [|[] ???]; simpl; [|intros (? & ? & _)|]. Qed.

(** The colour bookkeeping after a node of colour [c] has left the path. *)
Lemma erase_tail h1 h0 s k c a t L m :
  (forall e, e <> a -> h1 !! e = h0 !! e) -> is_Some (h1 !! a) ->
  Rep h1 s (plug k t) -> inorder (plug k t) = L ->
  rb m t -> (c = Red -> tcolor t = Black) -> kok (m + cbit c) k ->
  (c = Red -> kcolor k = Black) ->
  wp s (when (cz c =? RB_BLACK) (rb_erase_color (ptr t) (kaddr k))) (λ _ s', erased h0 a L s').
Proof.
  intros Hh Hha HR HL Ht Htc Hk Hkc. destruct c; simpl in *.
  - apply wp_ret. exists h1, (plug k t). split_and!; [done|done|done| |done].
    rewrite Nat.add_0_r in Hk.
    destruct (rb_plug m k t) as (q & Hq & Hb); [done|done|tauto|].
    split; [by exists q|]. apply Hb. right. tauto.
  - rewrite Nat.add_1_r in Hk.
    eapply wp_mono; [eapply erase_color_spec; [done|by apply rb_deficit|done]|].
    intros [] s' (t' & HR' & HL' & Hrb). exists h1, t'. by rewrite HL', HL.
Qed.

Section simple.
Context (h0 : gmap Z rb_node) (s : rb_state) (k : list frame).
Context (c : color) (l : tree) (a : Z) (r : tree).
Hypothesis HR : Rep h0 s (plug k (T c l a r)).

Definition only_child (ch : tree) : Prop := l = E /\ ch = r \/ r = E /\ ch = l.

(** What is known of the store once the child has its new parent. *)
Lemma unlink_facts ch : only_child ch ->
  inorder l ++ inorder r = inorder ch /\
  (a ∉ kleft k ++ inorder ch ++ kright k) /\
  NoDup (kleft k ++ inorder ch ++ kright k) /\
  Forall addr (kleft k ++ inorder ch ++ kright k) /\ addr a /\
  rep (rb_nodes s) a ch /\
  repk (rb_nodes (reparent ch (kaddr k) s)) k a (rb_root (reparent ch (kaddr k) s)).
Proof using HR.
  intros Hch. assert (inorder l ++ inorder r = inorder ch) as Hin.
  { destruct Hch as [[-> ->]|[-> ->]]; simpl; [done|by rewrite app_nil_r]. }
  apply Rep_plug in HR as [Hk Ht Hnd Had _]. cbn [inorder] in *.
  rewrite <-app_assoc, app_assoc in Hnd. simpl in Hnd.
  rewrite <-Permutation_middle in Hnd. apply NoDup_cons in Hnd as [Hn Hnd].
  rewrite <-!app_assoc, (app_assoc (inorder l)), Hin in Hn, Hnd.
  rewrite Forall_forall in Had. split_and!; [done..| | | |].
  - rewrite <-Hin. apply Forall_forall. set_solver.
  - set_solver.
  - destruct Ht as (_ & ? & ?). by destruct Hch as [[_ ->]|[_ ->]].
  - rewrite reparent_root. eapply repk_agree; [exact Hk|].
    intros e He. apply reparent_out. intros Hec. by eapply NoDup_mid_out in Hec.
Qed.

Lemma unlink_rep ch : only_child ch ->
  Rep (<[a := mk_node (kaddr k) c (ptr r) (ptr l)]> h0)
    (relink k (ptr ch) (reparent ch (kaddr k) s)) (plug k ch).
Proof using HR.
  intros Hch. destruct (unlink_facts ch Hch) as (Hin & Hna & Hnd & Had & Haa & Hc & Hk).
  pose proof (Rep_lookup _ _ _ _ _ _ _ HR) as (Ha & _ & _).
  apply (graft_rep _ _ k a ch); [done| |done|done|].
  - eapply rep_reparent; [done|]. rewrite !NoDup_app in Hnd. tauto.
  - intros e He. rewrite reparent_out by set_solver.
    destruct (decide (e = a)) as [->|Hea]; [by rewrite lookup_insert_eq|].
    rewrite lookup_insert_ne by done. apply HR.
    intros H. apply He. rewrite <-Hin. rewrite inorder_plug in H. set_solver.
Qed.

(** The balance of a context once the node above the focus is gone. *)
Lemma unlink_balance ch : only_child ch -> rbtree (plug k (T c l a r)) ->
  exists m, rb m ch /\ (c = Red -> tcolor ch = Black) /\ kok (m + cbit c) k /\
    (c = Red -> kcolor k = Black).
Proof using Type.
  clear HR. intros Hch [[q Hq] Hqb]. destruct (rb_unplug _ _ _ Hq Hqb) as (n & Hn & Hkn & Hkc).
  assert (c = Red -> kcolor k = Black) as Hkc'.
  { intros ->. destruct Hkc as [->|[?|?]]; done. }
  destruct c; simpl in Hn.
  - exists n. rewrite Nat.add_0_r. destruct Hch as [[-> ->]|[-> ->]]; naive_solver.
  - destruct n as [|m]; [done|]. exists m. rewrite Nat.add_1_r.
    destruct Hch as [[-> ->]|[-> ->]]; naive_solver.
Qed.

Lemma erase_simple_spec ch : only_child ch -> rbtree (plug k (T c l a r)) ->
  wp s (rb_erase_simple a (ptr ch))
    (λ _ s', erased h0 a (kleft k ++ inorder l ++ inorder r ++ kright k) s').
Proof using HR.
  intros Hch Hrb. destruct (unlink_facts ch Hch) as (Hin & Hna & Hnd & Had & Haa & Hc & Hk).
  rewrite (app_assoc (inorder l)), Hin.
  pose proof (Rep_lookup _ _ _ _ _ _ _ HR) as (Ha & Han & Hp).
  assert (Forall addr (kleft k ++ kright k) /\ Forall addr (inorder ch)) as [Hadk Hadc].
  { rewrite !Forall_app in Had. rewrite Forall_app. tauto. }
  unfold rb_erase_simple.
  apply wp_bind. eapply wp_deref; [done..|]. rewrite rb_parent_mk, rb_color_mk by done.
  eapply wp_seq; [apply (wp_reparent _ _ _ _ Hc); [by apply addr_pointer|done..]|]. intros [] s1 ->.
  eapply wp_seq; [apply wp_relink_erase; [exact Hk|done|done|set_solver]|]. intros [] s2 ->.
  destruct (unlink_balance ch Hch Hrb) as (m & Hm & Hmc & Hkm & Hkc).
  eapply erase_tail; [| |by apply unlink_rep|apply inorder_plug|done..].
  - intros e He. by apply lookup_insert_ne.
  - by rewrite lookup_insert_eq.
Qed.
End simple.

(** The last statements of the two-child branch: the successor [n] takes the
    colour, the parent and the left subtree of the node [o] it replaces. *)
Section adopt.
Context (h1 : gmap Z rb_node) (s : rb_state) (k : list frame).
Context (c : color) (l r : tree) (o n ro : Z) (nn : rb_node).
Hypothesis Hk : repk (rb_nodes s) k n (rb_root s).
Hypothesis Ho : rb_nodes s !! o = Some (mk_node (kaddr k) c ro (ptr l)).
Hypothesis Hl : rep (rb_nodes s) o l.
Hypothesis Hle : l <> E.
Hypothesis Hn : rb_nodes s !! n = Some nn.
Hypothesis Hnr : rb_right nn = ptr r.
Hypothesis Hr : rep (rb_nodes s) n r.
Hypothesis Hnd : NoDup (kleft k ++ (inorder l ++ n :: inorder r) ++ kright k).
Hypothesis Had : Forall addr (kleft k ++ (inorder l ++ n :: inorder r) ++ kright k).
Hypothesis Hao : addr o.
Hypothesis Hon : o <> n.
Hypothesis Hf : forall e, e ∉ kleft k ++ (inorder l ++ n :: inorder r) ++ kright k ->
  rb_nodes s !! e = h1 !! e.

Lemma adopt_spec (m : M rb_state unit) (Q : unit -> rb_state -> Prop) :
  (forall s', Rep h1 s' (plug k (T c l n r)) -> wp s' m Q) ->
  wp s (on ← rb_deref o;
        set_parent_color n (rb_parent_color on) ;;
        set_left n (rb_left on) ;;
        rb_set_parent (rb_left on) n ;;
        m) Q.
Proof using All.
  intros HQ. rewrite Forall_forall in Had.
  assert (NoDup (inorder l) /\ n ∉ kleft k ++ inorder l ++ inorder r ++ kright k) as [Hndl Hnn].
  { pose proof Hnd as (_ & _ & (H & _)%NoDup_app)%NoDup_app. apply NoDup_app in H as (H & _).
    split; [done|]. clear H. pose proof Hnd as H. rewrite <-app_assoc, app_assoc in H. simpl in H.
    rewrite <-Permutation_middle in H. apply NoDup_cons in H as [H _].
    by rewrite <-app_assoc in H. }
  assert (addr n) as Han by (apply Had; set_solver).
  assert (forall e, e ∈ inorder l -> (e ∉ inorder r) /\ e ∉ kleft k ++ kright k) as Hlr.
  { intros e He. split.
    - pose proof Hnd as (_ & _ & (H & _)%NoDup_app)%NoDup_app.
      apply NoDup_app in H as (_ & H & _). specialize (H e He). set_solver.
    - eapply NoDup_mid_out; [exact Hnd|set_solver]. }
  apply wp_bind. eapply wp_deref; [exact Ho|by apply addr_not_null|].
  apply wp_bind. eapply wp_update; [exact Hn|by apply addr_not_null|].
  apply wp_bind. eapply wp_update; [apply lookup_insert_eq|by apply addr_not_null|].
  cbn [rb_parent_color rb_right rb_left mk_node]. rewrite Hnr.
  set (s2 := put _ n (Rb_node (pack (kaddr k) c) (ptr r) (ptr l))).
  assert (forall e, e <> n -> rb_nodes s2 !! e = rb_nodes s !! e) as Hag.
  { intros e He. subst s2. cbn [put rb_nodes]. by rewrite !lookup_insert_ne. }
  assert (rep (rb_nodes s2) o l) as Hl2.
  { eapply rep_agree; [exact Hl|]. intros e He. apply Hag. intros ->. set_solver. }
  eapply wp_seq with (P := λ _ s', s' = reparent l n s2).
  { destruct l as [|cl ll la lr]; [done|]. destruct Hl2 as [Hla _].
    eapply wp_set_parent; [exact Hla| |by apply addr_pointer|by apply addr_pointer|done].
    apply addr_not_null, Had. set_solver. }
  intros [] s' ->. apply HQ. apply Rep_plug. constructor; cbn [inorder ptr].
  - rewrite reparent_root. eapply repk_agree; [exact Hk|]. intros e He.
    rewrite reparent_out by (intros Hel; by apply Hlr in Hel as [_ []]).
    apply Hag. intros ->. set_solver.
  - split_and!.
    + rewrite reparent_out by set_solver. apply lookup_insert_eq.
    + by eapply rep_reparent.
    + eapply rep_agree; [exact Hr|]. intros e He.
      rewrite reparent_out by (intros Hel; by apply Hlr in Hel as [[] _]).
      apply Hag. intros ->. set_solver.
  - exact Hnd.
  - by apply Forall_forall.
  - intros e He. rewrite reparent_out by set_solver. rewrite Hag by set_solver. by apply Hf.
Qed.
End adopt.

Lemma ptr_plug k t t' : ptr t = ptr t' -> ptr (plug k t) = ptr (plug k t').
Proof.
  revert t t'. induction k as [|f k IH]; intros t t' Ht; simpl; [done|]. apply IH. by destruct f.
Qed.

(** ** A node [o] with two children: its successor [n], found down the left
    spine [k2] of the right subtree, takes its place. *)
Lemma kok_addr m k2 c l a b k : kok m (k2 ++ FR c l a :: k) <-> kok m (k2 ++ FR c l b :: k).
Proof.
  revert m. induction k2 as [|f k2 IH]; intros m; simpl; [done|].
  assert (kcolor (k2 ++ FR c l a :: k) = kcolor (k2 ++ FR c l b :: k)) as -> by (by destruct k2).
  pose proof (IH m). pose proof (IH (S m)). destruct (fcolor f); tauto.
Qed.
Lemma kcolor_addr k2 c l a b k : kcolor (k2 ++ FR c l a :: k) = kcolor (k2 ++ FR c l b :: k).
Proof. by destruct k2. Qed.

Section two.
Context (h0 : gmap Z rb_node) (s : rb_state) (k k2 : list frame).
Context (c cn : color) (l rn : tree) (o n : Z).
Hypothesis HFL : Forall is_FL k2.
Hypothesis Hle : l <> E.
Let r := plug k2 (T cn E n rn).
Let K := k2 ++ FR c l o :: k.
Let r' := plug k2 rn.
Hypothesis HR : Rep h0 s (plug k (T c l o r)).
Hypothesis Hrb : rbtree (plug k (T c l o r)).
Let h1 := <[o := mk_node (kaddr k) c (ptr r) (ptr l)]> h0.
Let L := kleft k ++ inorder l ++ inorder r ++ kright k.

Lemma two_focus : plug k (T c l o r) = plug K (T cn E n rn).
Proof. unfold K, r. by rewrite plug_app. Qed.
Lemma two_inorder : inorder r = n :: inorder r'.
Proof using HFL. unfold r, r'. by rewrite !inorder_plug, kleft_FL by done. Qed.

Lemma two_regions :
  NoDup (kleft k ++ (inorder l ++ o :: n :: inorder r') ++ kright k) /\
  Forall addr (kleft k ++ (inorder l ++ o :: n :: inorder r') ++ kright k).
Proof using All.
  apply Rep_plug in HR as [_ _ Hnd Had _]. cbn [inorder] in *.
  by rewrite two_inorder in Hnd, Had.
Qed.

(** The pieces of the tree are disjoint. *)
Lemma two_disjoint :
  NoDup (kleft k ++ kright k) /\
  NoDup (kleft k ++ (inorder l ++ n :: inorder r') ++ kright k) /\
  (o ∉ kleft k ++ (inorder l ++ n :: inorder r') ++ kright k) /\
  (forall e, e ∈ o :: inorder l -> (e ∉ n :: inorder r') /\ e ∉ kleft k ++ kright k) /\
  (forall e, e ∈ n :: inorder r' -> e ∉ kleft k ++ kright k) /\
  (n ∉ inorder r') /\ NoDup (inorder r').
Proof using All.
  destruct two_regions as [Hnd _]. split; [by eapply NoDup_drop_middle|].
  pose proof Hnd as (_ & _ & (Hm & _)%NoDup_app)%NoDup_app.
  apply NoDup_app in Hm as (_ & Hl & Hm). apply NoDup_cons in Hm as [Ho Hm].
  apply NoDup_cons in Hm as [Hn Hr].
  assert (NoDup (o :: kleft k ++ (inorder l ++ n :: inorder r') ++ kright k)) as Hp.
  { rewrite <-app_assoc, app_assoc in Hnd. simpl in Hnd.
    rewrite <-Permutation_middle in Hnd. rewrite <-!app_assoc in *. done. }
  apply NoDup_cons in Hp as [Hop Hp]. split_and!; [done|done| | |done|done].
  - intros e He. split; [|eapply NoDup_mid_out; [exact Hnd|set_solver]].
    apply elem_of_cons in He as [->|He]; [done|]. specialize (Hl e He). set_solver.
  - intros e He. eapply NoDup_mid_out; [exact Hnd|set_solver].
Qed.

Lemma two_facts :
  rb_nodes s !! o = Some (mk_node (kaddr k) c (ptr r) (ptr l)) /\ o <> NULL /\ addr o /\
  rb_nodes s !! n = Some (mk_node (kaddr K) cn (ptr rn) NULL) /\ n <> NULL /\ addr n /\
  pointer (kaddr k) /\ pointer (kaddr K).
Proof using All.
  pose proof (Rep_lookup _ _ _ _ _ _ _ HR) as (Ho & Hon & Hpk).
  pose proof HR as HK. rewrite two_focus in HK.
  pose proof (Rep_lookup _ _ _ _ _ _ _ HK) as (Hn & Hnn & HpK).
  destruct two_regions as [_ Had]. rewrite Forall_forall in Had.
  split_and!; try done; apply Had; set_solver.
Qed.

(** The repair, in the context the successor has been adopted into. *)
Lemma two_finish s' p :
  Rep h1 s' (plug k (T c l n r')) -> p = kaddr (k2 ++ FR c l n :: k) ->
  wp s' (when (cz cn =? RB_BLACK) (rb_erase_color (ptr rn) p)) (λ _ s', erased h0 o L s').
Proof using All.
  intros HR' ->.
  destruct (unlink_balance K cn E n rn rn) as (m & Hm & Hmc & Hkm & Hkc);
    [by left|by rewrite <-two_focus|].
  assert (plug k (T c l n r') = plug (k2 ++ FR c l n :: k) rn) as Heq
    by (unfold r'; by rewrite plug_app).
  rewrite Heq in HR'.
  eapply (erase_tail h1 h0 s' _ _ o); [| |exact HR'| |exact Hm|exact Hmc| |].
  - intros e He. by apply lookup_insert_ne.
  - unfold h1. by rewrite lookup_insert_eq.
  - rewrite <-Heq, inorder_plug. cbn [inorder]. unfold L. rewrite two_inorder. solve_app.
  - eapply kok_addr. exact Hkm.
  - rewrite (kcolor_addr _ _ _ _ o). exact Hkc.
Qed.


Lemma two_go_left : wp s (go_left (ptr r)) (λ x s', s' = s /\ x = n).
Proof using All.
  assert (exists cr lr ar rr, r = T cr lr ar rr) as (cr & lr & ar & rr & Hr).
  { unfold r. destruct k2 as [|f k' _] using rev_ind; [by repeat eexists|].
    rewrite plug_app. destruct f; by repeat eexists. }
  pose proof HR as HR2. rewrite Hr in HR2 |- *. cbn [ptr].
  eapply wp_mono; [by eapply (go_left_spec h0 s (FR c l o :: k) cr lr ar rr)|].
  intros x s' (-> & k3 & c3 & r3 & Heq & Hk3). split; [done|].
  pose proof (plug_FL_hd k3 c3 x r3 [] Hk3) as Hx.
  rewrite <-Heq, <-Hr, two_inorder in Hx. by simpl in Hx.
Qed.

(** The first statements: find the successor and link it below [o]'s parent. *)
Lemma two_start (m : Z -> rb_node -> M rb_state unit) Q :
  wp (relink k n s) (m n (mk_node (kaddr K) cn (ptr rn) NULL)) Q ->
  wp s (node ← go_left (ptr r);
        (if negb (kaddr k =? NULL) then
           pn ← rb_deref (kaddr k);
           if rb_left pn =? o then set_left (kaddr k) node
           else set_right (kaddr k) node
         else set_root node) ;;
        nd ← rb_deref node;
        m node nd) Q.
Proof using All.
  intros Hm. pose proof two_disjoint as (Hndk & Hnd & Hno & Hol & Hnr & Hn' & Hndr).
  pose proof two_regions as [_ Had]. rewrite Forall_forall in Had.
  destruct two_facts as (Ho & Hon & Hoa & Hn & Hnn & Hna & Hpk & HpK).
  eapply wp_seq; [apply two_go_left|]. intros x s' [-> ->].
  eapply wp_seq.
  { apply wp_relink_erase; [apply Rep_plug in HR; apply HR|..].
    - apply Forall_forall. set_solver.
    - done.
    - apply Hol. left. }
  intros [] s' ->. apply wp_bind. eapply wp_deref; [|done|exact Hm].
  rewrite relink_out; [exact Hn|]. apply Hnr. left.
Qed.

(** The last statements, from a store in which the right subtree without
    [n] hangs from [n]. *)
Lemma two_end s' n1 p :
  (forall e, e ∉ n :: inorder r' -> rb_nodes s' !! e = rb_nodes (relink k n s) !! e) ->
  rb_root s' = rb_root (relink k n s) ->
  rb_nodes s' !! n = Some n1 -> rb_right n1 = ptr r' -> rep (rb_nodes s') n r' ->
  p = kaddr (k2 ++ FR c l n :: k) ->
  wp s' (on ← rb_deref o;
         set_parent_color n (rb_parent_color on) ;;
         set_left n (rb_left on) ;;
         rb_set_parent (rb_left on) n ;;
         when (cz cn =? RB_BLACK) (rb_erase_color (ptr rn) p)) (λ _ s2, erased h0 o L s2).
Proof using All.
  intros Hag Hroot Hs Hsr Hrep Hp.
  pose proof two_disjoint as (Hndk & Hnd & Hno & Hol & Hnr & Hn' & Hndr).
  pose proof two_regions as [_ Had]. rewrite Forall_forall in Had.
  destruct two_facts as (Ho & Hon & Hoa & Hn & Hnn & Hna & Hpk & HpK).
  destruct (proj1 (Rep_plug _ _ _ _) HR) as [Hk (_ & Hl & Hrr) _ _ Hf]. cbn [inorder ptr] in *.
  assert (forall e, e ∈ o :: inorder l -> rb_nodes s' !! e = rb_nodes s !! e) as Hag'.
  { intros e He. destruct (Hol e He). rewrite Hag by done. by apply relink_out. }
  eapply (adopt_spec h1 s' k c l r' o n (ptr r) n1); try done.
  - rewrite Hroot. eapply repk_agree; [by eapply repk_relink|].
    intros e He. apply Hag. intros Hx. by apply Hnr in Hx.
  - rewrite Hag' by left. exact Ho.
  - eapply rep_agree; [exact Hl|]. intros e He. apply Hag'. by right.
  - apply Forall_forall. set_solver.
  - intros ->. set_solver.
  - intros e He. unfold h1. destruct (decide (e = o)) as [->|Hne].
    { rewrite lookup_insert_eq, Hag' by left. exact Ho. }
    rewrite lookup_insert_ne, Hag, relink_out by set_solver. apply Hf.
    rewrite two_inorder. set_solver.
  - intros s2 HR2. by apply two_finish.
Qed.

(** The successor is [o]'s right child. *)
Lemma two_near : k2 = [] -> wp s (rb_erase_two o) (λ _ s', erased h0 o L s').
Proof using All.
  intros Hk2. destruct two_facts as (Ho & Hon & Hoa & Hn & Hnn & Hna & Hpk & HpK).
  unfold rb_erase_two. apply wp_bind. eapply wp_deref; [done..|].
  rewrite rb_parent_mk by done. cbn [mk_node rb_right rb_left].
  apply (two_start (λ node nd, _ )).
  rewrite rb_parent_mk, rb_color_mk by done. cbn [rb_right mk_node].
  assert (kaddr K = o) as HK by (unfold K; by rewrite Hk2).
  rewrite HK, Z.eqb_refl. apply wp_bind, wp_ret.
  eapply two_end; [done|done| |cbn|..].
  - rewrite relink_out; [exact Hn|]. apply two_disjoint. left.
  - unfold r'. by rewrite Hk2.
  - destruct (proj1 (Rep_plug _ _ _ _) HR) as [_ (_ & _ & Hrr) _ _ _].
    unfold r in Hrr. rewrite Hk2 in Hrr. destruct Hrr as (_ & _ & Hrr).
    unfold r'. rewrite Hk2. eapply rep_agree; [exact Hrr|].
    intros e He. apply relink_out. apply two_disjoint. unfold r'. rewrite Hk2. by right.
  - by rewrite Hk2.
Qed.

(** The successor is further down: it leaves its parent [p] first. *)
Section far.
Context (cp : color) (p : Z) (tp : tree) (k3 : list frame).
Hypothesis Hk2 : k2 = FL cp p tp :: k3.

Definition detached : rb_state :=
  put (reparent rn p (relink k n s)) p
    (mk_node (kaddr (k3 ++ FR c l o :: k)) cp (ptr tp) (ptr rn)).

Lemma two_far_in : p ∈ inorder r' /\ forall e, e ∈ inorder rn -> e ∈ inorder r'.
Proof using All.
  unfold r'. rewrite Hk2, inorder_plug. simpl. split; [|intros e He]; set_solver.
Qed.

Lemma detached_out e : e ∉ inorder r' -> rb_nodes detached !! e = rb_nodes (relink k n s) !! e.
Proof using All.
  intros He. destruct two_far_in as [Hp Hrn]. unfold detached. cbn [put rb_nodes].
  rewrite lookup_insert_ne by (intros <-; done). apply reparent_out. naive_solver.
Qed.

(** The right subtree, without the successor, is in place. *)
Lemma detached_rep : rep (rb_nodes detached) o r'.
Proof using All.
  pose proof two_disjoint as (Hndk & Hnd & Hno & Hol & Hnr & Hn' & Hndr).
  pose proof HR as HK. rewrite two_focus in HK.
  pose proof (unlink_rep _ _ _ _ _ _ _ HK rn (or_introl (conj eq_refl eq_refl))) as Hv.
  assert (plug K rn = plug (FR c l o :: k) r') as HKr by (unfold K, r'; by rewrite plug_app).
  rewrite HKr in Hv. apply Rep_plug in Hv as [_ Hv _ _ _]. cbn [kaddr faddr] in Hv.
  eapply rep_agree; [exact Hv|]. intros e He. unfold detached, K. rewrite Hk2.
  cbn [app relink put rb_nodes kaddr faddr].
  destruct (decide (e = p)) as [->|Hep]; [by rewrite !lookup_insert_eq|].
  rewrite !lookup_insert_ne by done.
  assert (rb_nodes (relink k n s) !! e = rb_nodes s !! e) as Hag.
  { apply relink_out, Hnr. by right. }
  destruct rn as [|cr lr ar rr]; cbn [reparent put rb_nodes]; [done|].
  destruct (decide (e = ar)) as [->|Hea]; [by rewrite !lookup_insert_eq|].
  by rewrite !lookup_insert_ne.
Qed.

Lemma two_far : wp s (rb_erase_two o) (λ _ s', erased h0 o L s').
Proof using All.
  pose proof two_disjoint as (Hndk & Hnd & Hno & Hol & Hnr & Hn' & Hndr).
  pose proof two_regions as [_ Had]. rewrite Forall_forall in Had.
  destruct two_facts as (Ho & Hon & Hoa & Hn & Hnn & Hna & Hpk & HpK).
  destruct two_far_in as [Hpr Hrnr].
  assert (p <> NULL) as Hpn by (apply addr_not_null, Had; set_solver).
  assert (p <> o) as Hpo by (intros ->; set_solver).
  assert (kaddr K = p) as HK by (unfold K; by rewrite Hk2).
  pose proof (relink_out k n s o (proj2 (Hol o ltac:(by left)))) as Hor.
  pose proof (detached_out o (λ H, proj1 (Hol o ltac:(by left)) ltac:(by right))) as Hod.
  rewrite Hor, Ho in Hod. rewrite HK in *.
  unfold rb_erase_two. apply wp_bind. eapply wp_deref; [done..|].
  rewrite rb_parent_mk by done. cbn [mk_node rb_right rb_left].
  apply (two_start (λ node nd, _ )). rewrite HK.
  rewrite rb_parent_mk, rb_color_mk by done. cbn [rb_right mk_node].
  rewrite (proj2 (Z.eqb_neq p o)) by done. apply wp_bind.
  pose proof HR as HRK. rewrite two_focus in HRK. unfold K in HRK. rewrite Hk2 in HRK.
  apply Rep_plug in HRK as [(Hp & _ & _) (_ & _ & Hrn) _ _ _].
  assert (forall e, e ∈ n :: inorder r' -> rb_nodes (relink k n s) !! e = rb_nodes s !! e) as Hrel.
  { intros e He. by apply relink_out, Hnr. }
  assert (p ∉ inorder rn) as Hprn.
  { pose proof Hndr as H. unfold r' in H. rewrite Hk2, inorder_plug in H. simpl in H.
    apply NoDup_app in H as (_ & _ & (_ & H & _)%NoDup_app). intros He.
    apply (H p He). left. }
  assert (ptr r = ptr r') as Hrr' by (unfold r, r'; rewrite Hk2; simpl; by apply ptr_plug).
  eapply wp_seq; [apply (wp_reparent _ n)|].
  { eapply rep_agree; [exact Hrn|]. intros e He. apply Hrel. right. by apply Hrnr. }
  { by apply addr_pointer. }
  { done. }
  { apply Forall_forall. intros e He. apply Had. set_solver. }
  intros [] s1 ->.
  apply wp_bind. eapply wp_set_left; [|done|].
  { rewrite reparent_out by done. rewrite Hrel by (by right). exact Hp. }
  change (put _ p _) with detached. cbn [kaddr faddr].
  apply wp_bind. eapply wp_deref; [exact Hod|done|]. cbn [rb_right mk_node].
  apply wp_bind. eapply wp_set_right; [|done|].
  { rewrite detached_out by done. rewrite Hrel by left. exact Hn. }
  set (s4 := put detached n _).
  apply wp_bind. eapply wp_deref; [|done|].
  { subst s4. cbn [put rb_nodes]. rewrite lookup_insert_ne; [exact Hod|]. intros ->. set_solver. }
  cbn [rb_right mk_node].
  assert (rep (rb_nodes s4) o r') as Hr4.
  { eapply rep_agree; [apply detached_rep|]. intros e He. apply lookup_insert_ne. by intros ->. }
  apply wp_bind. eapply wp_mono with (P := λ _ s', s' = reparent r' n s4).
  { rewrite Hrr'. destruct r' as [|cr lr ar rr] eqn:Hr'; [by set_solver|].
    destruct Hr4 as [Har _]. eapply wp_set_parent; [exact Har| | | |done].
    - apply addr_not_null, Had. set_solver.
    - by apply addr_pointer.
    - by apply addr_pointer. }
  intros [] s5 ->. apply wp_ret.
  eapply two_end.
  - intros e He. rewrite reparent_out by set_solver. subst s4. cbn [put rb_nodes].
    rewrite lookup_insert_ne by set_solver. apply detached_out. set_solver.
  - rewrite reparent_root. unfold s4, detached. cbn [put rb_root]. by rewrite reparent_root.
  - rewrite reparent_out by done. apply lookup_insert_eq.
  - done.
  - by eapply rep_reparent.
  - by rewrite Hk2.
Qed.
End far.
End two.

(** [rb_erase]: the node leaves the tree, the tree stays red-black. *)
Lemma rb_erase_spec h0 s k c l a r :
  Rep h0 s (plug k (T c l a r)) -> rbtree (plug k (T c l a r)) ->
  wp s (rb_erase a) (λ _ s', erased h0 a (kleft k ++ inorder l ++ inorder r ++ kright k) s').
Proof.
  intros HR Hrb. unfold rb_erase.
  pose proof (Rep_lookup _ _ _ _ _ _ _ HR) as (Ha & Han & _).
  apply wp_bind. eapply wp_deref; [done..|]. cbn [mk_node rb_left rb_right].
  destruct l as [|cl ll la lr]; cbn [ptr].
  { eapply (erase_simple_spec _ _ _ _ _ _ _ HR r); [by left|done]. }
  pose proof (Rep_lookup _ _ (FL c a r :: k) _ _ _ _ HR) as (_ & Hla & _).
  rewrite (proj2 (Z.eqb_neq _ _)) by done.
  destruct r as [|cr rl ra rr]; cbn [ptr].
  { eapply (erase_simple_spec _ _ _ _ _ _ _ HR (T cl ll la lr)); [by right|done]. }
  pose proof (Rep_lookup _ _ (FR c (T cl ll la lr) a :: k) _ _ _ _ HR) as (_ & Hra & _).
  rewrite (proj2 (Z.eqb_neq _ _)) by done.
  pose proof (go_left_spec h0 s (FR c (T cl ll la lr) a :: k) cr rl ra rr HR) as Hgo.
  apply wp_iff in Hgo as (n & _ & _ & -> & k2 & cn & rn & Heq & HFL).
  rewrite Heq in *. destruct k2 as [|f k3] eqn:Hk2.
  - by eapply (two_near h0 s k [] c cn _ rn a n).
  - pose proof HFL as [Hf _]%Forall_cons. destruct f as [cp p tp|]; [|done].
    by eapply (two_far h0 s k (FL cp p tp :: k3) c cn _ rn a n).
Qed.
