(* ===== verification/RbProps.v ===== *)
(** * The contract of [lib/rbtree.c]

    The theorems a client of the tree relies on, for every tree the store
    represents, with the trees they are tried on. *)
From S2P Require Import Prelude RbTree RbInv RbRotate RbInsert RbWalk RbErase RbDelete.

(** ** A tree in memory to try the theorems on *)
Section sample.
Definition leaf (c : color) (a : Z) : tree := T c E a E.
(** [t] stored at [par], over the nodes [h]. *)
Fixpoint store (par : Z) (t : tree) (h : gmap Z rb_node) : gmap Z rb_node :=
  match t with
  | E => h
  | T c l a r => <[a := mk_node par c (ptr r) (ptr l)]> (store a l (store a r h))
  end.
Definition sample_tree : tree :=
  T Black (T Black E 16 (leaf Red 24)) 32 (T Red (leaf Black 48) 64 (leaf Black 80)).
(** The tree and one node, at 96, that is not linked yet. *)
Definition sample_state : rb_state :=
  Rb_state (store NULL sample_tree {[96 := Rb_node 0 0 0]}) (ptr sample_tree).
End sample.

Lemma sample_rep : Rep (rb_nodes sample_state) sample_state sample_tree.
Proof.
  constructor; [|done| | |done].
  - repeat split; vm_compute; reflexivity.
  - apply (bool_decide_unpack _). vm_compute. exact I.
  - cbn. repeat (constructor; [unfold addr; repeat split; vm_compute; congruence|]). constructor.
Defined.

Lemma sample_rbtree : rbtree sample_tree.
Proof. split; [exists 2%nat|]; vm_compute; tauto. Defined.

(** ** The properties *)

(** C3: inserting a new node at the empty place the caller has found
    ([rb_link_node] then [rb_insert_color]) never faults and ends within its
    fuel; the store then represents a red-black tree whose in-order sequence
    is the old one with the node at that place, and no memory outside the
    tree and the node has changed. *)
Theorem rb_insert_correct h0 s k a :
  Rep h0 s (plug k E) -> rbtree (plug k E) -> addr a -> a ∉ inorder (plug k E) ->
  is_Some (rb_nodes s !! a) ->
  exists s' t', (rb_link_node a (kaddr k) (klink k) ;; rb_insert_color a) s = Ok (tt, s') /\
    Rep h0 s' t' /\ rbtree t' /\ inorder t' = kleft k ++ a :: kright k.
Proof.
  intros HR Hrb Ha Hn Hs.
  pose proof (rb_insert_spec h0 s k a HR Hrb Ha Hn Hs) as H.
  apply wp_iff in H as ([] & s' & He & t' & H1 & H2 & H3). by exists s', t'.
Qed.

Definition sample_context : list frame :=
  [FR Black E 80; FR Red (leaf Black 48) 64; FR Black (T Black E 16 (leaf Red 24)) 32].

Lemma rb_insert_correct_witness :
  exists s' t', (rb_link_node 96 80 (LinkRight 80) ;; rb_insert_color 96) sample_state = Ok (tt, s') /\
    Rep (rb_nodes sample_state) s' t' /\ rbtree t' /\ inorder t' = [16; 24; 32; 48; 64; 80; 96].
Proof.
  apply (rb_insert_correct (rb_nodes sample_state) sample_state sample_context 96).
  - exact sample_rep.
  - exact sample_rbtree.
  - unfold addr. repeat split; vm_compute; congruence.
  - apply (bool_decide_unpack _). vm_compute. exact I.
  - eexists. vm_compute. reflexivity.
Defined.

(** C4: [rb_erase] removes the node and nothing else: it never faults, ends
    within its fuel, and leaves a red-black tree with the same in-order
    sequence less the node; outside the tree only the node itself may differ. *)
Theorem rb_erase_correct h0 s t L a R :
  Rep h0 s t -> rbtree t -> inorder t = L ++ a :: R ->
  exists s' h1 t', rb_erase a s = Ok (tt, s') /\ Rep h1 s' t' /\ rbtree t' /\
    inorder t' = L ++ R /\ (forall e, e <> a -> h1 !! e = h0 !! e).
Proof.
  intros HR Hrb HL.
  destruct (inorder_focus t a) as (k & c & l & r & ->); [rewrite HL; set_solver|].
  pose proof (Rep_nodup _ _ _ HR) as Hnd. rewrite HL in Hnd.
  pose proof (rb_erase_spec h0 s k c l a r HR Hrb) as H.
  apply wp_iff in H as ([] & s' & He & h1 & t' & Hh & _ & HR' & Hrb' & HL').
  exists s', h1, t'. split_and!; [done..| |done].
  rewrite HL'. rewrite inorder_plug in HL. cbn [inorder] in HL.
  destruct (NoDup_split L R (kleft k ++ inorder l) (inorder r ++ kright k) a) as [-> ->];
    [done| |by rewrite <-!app_assoc].
  rewrite <-HL. solve_app.
Qed.

Lemma rb_erase_correct_witness :
  exists s' h1 t', rb_erase 32 sample_state = Ok (tt, s') /\ Rep h1 s' t' /\ rbtree t' /\
    inorder t' = [16; 24; 48; 64; 80] /\
    (forall e, e <> 32 -> h1 !! e = rb_nodes sample_state !! e).
Proof.
  apply (rb_erase_correct (rb_nodes sample_state) sample_state sample_tree [16; 24] 32 [48; 64; 80]).
  - exact sample_rep.
  - exact sample_rbtree.
  - reflexivity.
Defined.

(** [rb_next] and [rb_prev] return the in-order neighbours of a node
    ([NULL] at the ends) and change nothing. *)
Theorem rb_next_prev_correct h0 s t L a R :
  Rep h0 s t -> inorder t = L ++ a :: R ->
  rb_next a s = Ok (hd NULL R, s) /\ rb_prev a s = Ok (List.last L NULL, s).
Proof.
  intros HR HL.
  destruct (inorder_focus t a) as (k & c & l & r & ->); [rewrite HL; set_solver|].
  pose proof (Rep_nodup _ _ _ HR) as Hnd. rewrite HL in Hnd.
  rewrite inorder_plug in HL. cbn [inorder] in HL.
  destruct (NoDup_split L R (kleft k ++ inorder l) (inorder r ++ kright k) a) as [-> ->];
    [done|rewrite <-HL; solve_app|].
  pose proof (next_spec h0 s k c l a r HR) as H1.
  pose proof (prev_spec h0 s k c l a r HR) as H2.
  apply wp_iff in H1 as (x & s1 & -> & -> & ->).
  apply wp_iff in H2 as (y & s2 & -> & -> & ->). done.
Qed.

Lemma rb_next_prev_correct_witness :
  rb_next 24 sample_state = Ok (32, sample_state) /\ rb_prev 24 sample_state = Ok (16, sample_state).
Proof.
  apply (rb_next_prev_correct (rb_nodes sample_state) sample_state sample_tree [16] 24 [32; 48; 64; 80]).
  - exact sample_rep.
  - reflexivity.
Defined.

(** [rb_first] and [rb_last] return the ends of the in-order sequence
    ([NULL] for the empty tree) and change nothing. *)
Theorem rb_first_last_correct h0 s t :
  Rep h0 s t ->
  rb_first s = Ok (hd NULL (inorder t), s) /\ rb_last s = Ok (List.last (inorder t) NULL, s).
Proof.
  intros HR. pose proof (first_spec h0 s t HR) as H1. pose proof (last_spec h0 s t HR) as H2.
  apply wp_iff in H1 as (x & s1 & -> & -> & ->).
  apply wp_iff in H2 as (y & s2 & -> & -> & ->). done.
Qed.

Lemma rb_first_last_correct_witness :
  rb_first sample_state = Ok (16, sample_state) /\ rb_last sample_state = Ok (80, sample_state).
Proof.
  apply (rb_first_last_correct (rb_nodes sample_state) sample_state sample_tree). exact sample_rep.
Defined.
