(* ===== verification/Bytes.v ===== *)
(** * Byte-addressed memory

    The memory the string routines of [lib/lib.c] and [lib/string.c] read and
    write: a finite map from 32-bit addresses to bytes.  An access outside the
    map faults. *)
From S2P Require Import Prelude.

Abbreviation mem := (gmap Z Z).

(** One byte, read as [unsigned char], read as [char], written. *)
Definition ld8 (p : Z) : M mem Z := gets_opt (λ m, m !! u32 p).
Definition ldc (p : Z) : M mem Z := b ← ld8 p; mret (i8 b).
Definition st8 (p v : Z) : M mem unit := ld8 p ;; modify <[u32 p := u8 v]>.

(** Every loop below touches a new address at each iteration. *)
Definition mem_fuel (m : mem) : nat := S (size m).

(** The bytes of a string literal, without the terminating zero. *)
Definition lit (s : string) : list Z :=
  map (λ c, Z.of_N (Ascii.N_of_ascii c)) (String.list_ascii_of_string s).

(** ** What the memory holds *)

(** [l] lies at [p]. *)
Definition bytes_at (m : mem) (p : Z) (l : list Z) : Prop :=
  forall i x, l !! i = Some x -> m !! u32 (p + Z.of_nat i) = Some x.
(** A C string: [l] without zeros, then a zero. *)
Definition cstr (m : mem) (p : Z) (l : list Z) : Prop :=
  bytes_at m p (l ++ [0]) /\ Forall (λ b, 0 < b < 256) l /\ Z.of_nat (length l) < 2147483647.
(** [n] bytes at [p] are there. *)
Definition mapped (m : mem) (p : Z) (n : nat) : Prop :=
  forall i, (i < n)%nat -> is_Some (m !! u32 (p + Z.of_nat i)).
(** The ranges do not meet. *)
Definition apart (p : Z) (n : nat) (q : Z) (k : nat) : Prop :=
  forall i j, (i < n)%nat -> (j < k)%nat -> u32 (p + Z.of_nat i) <> u32 (q + Z.of_nat j).

(** The memory with [l] written at [p]. *)
Fixpoint poke (p : Z) (l : list Z) (m : mem) : mem :=
  match l with [] => m | b :: l => poke (p + 1) l (<[u32 p := b]> m) end.

(** ** Addresses *)
Lemma u32_add_inj p i j :
  u32 (p + i) = u32 (p + j) -> 0 <= i < 4294967296 -> 0 <= j < 4294967296 -> i = j.
Proof. unfold u32. lia_mod. Qed.
Lemma u32_u32_add p i : u32 (u32 p + i) = u32 (p + i).
Proof. unfold u32. lia_mod. Qed.
Lemma i8_range b : -128 <= i8 b < 128.
Proof. unfold i8. lia_mod. Qed.
Lemma i8_zero b : 0 <= b < 256 -> (i8 b =? 0) = (b =? 0).
Proof. intros. unfold i8. destruct (Z.eqb_spec b 0); [by subst|]. apply Z.eqb_neq. lia_mod. Qed.
Lemma i8_inj a b : 0 <= a < 256 -> 0 <= b < 256 -> i8 a = i8 b -> a = b.
Proof. unfold i8. lia_mod. Qed.
Lemma u8_i8 b : 0 <= b < 256 -> u8 (i8 b) = b.
Proof. unfold u8, i8. lia_mod. Qed.

Lemma in_range p n a :
  (exists j, (j < n)%nat /\ u32 (p + Z.of_nat j) = a) \/
  (forall j, (j < n)%nat -> u32 (p + Z.of_nat j) <> a).
Proof.
  induction n as [|n [(j & Hj & Ha)|IH]]; [right; lia|left; exists j; split; [lia|done]|].
  destruct (decide (u32 (p + Z.of_nat n) = a)) as [Ha|Ha]; [left; by exists n; split; [lia|]|].
  right. intros j Hj. destruct (decide (j = n)) as [->|]; [done|]. apply IH. lia.
Qed.

(** ** Reading and writing *)
Lemma bytes_at_app m p l k :
  bytes_at m p (l ++ k) <-> bytes_at m p l /\ bytes_at m (p + Z.of_nat (length l)) k.
Proof.
  unfold bytes_at. split.
  - intros H. split; intros i x Hi.
    + apply H. by apply lookup_app_l_Some.
    + replace (p + Z.of_nat (length l) + Z.of_nat i) with (p + Z.of_nat (length l + i)) by lia.
      apply H. rewrite lookup_app_r by lia. by replace (length l + i - length l)%nat with i by lia.
  - intros [H1 H2] i x [Hi|[Hle Hi]]%lookup_app_Some; [by apply H1|].
    specialize (H2 _ _ Hi). by replace (p + Z.of_nat i)
      with (p + Z.of_nat (length l) + Z.of_nat (i - length l)) by lia.
Qed.

Lemma bytes_at_cons m p b l :
  bytes_at m p (b :: l) <-> m !! u32 p = Some b /\ bytes_at m (p + 1) l.
Proof.
  change (b :: l) with ([b] ++ l). rewrite bytes_at_app. simpl.
  assert (bytes_at m p [b] <-> m !! u32 p = Some b) as ->; [|done].
  split; [intros H; rewrite <-(H O b eq_refl); f_equal; f_equal; lia|].
  intros H [|i] x; simpl; [intros [= ->]|done]. by rewrite Z.add_0_r.
Qed.

Lemma bytes_at_lookup m p l i x : bytes_at m p l -> l !! i = Some x -> m !! u32 (p + Z.of_nat i) = Some x.
Proof. auto. Qed.

Lemma bytes_at_mapped m p l : bytes_at m p l -> mapped m p (length l).
Proof.
  intros H i Hi. destruct (lookup_lt_is_Some_2 l i Hi) as [x Hx]. exists x. by apply H.
Qed.

Lemma mapped_fuel m p n : mapped m p n -> Z.of_nat n <= 4294967296 -> (n <= size m)%nat.
Proof.
  intros Hm Hn. set (ads := map (λ i, u32 (p + Z.of_nat i)) (seq 0 n)).
  assert (NoDup ads) as Hnd.
  { apply NoDup_fmap_2_strong; [|apply NoDup_seq].
    intros i j Hi%elem_of_seq Hj%elem_of_seq H. apply u32_add_inj in H; lia. }
  replace n with (length ads) by (unfold ads; by rewrite length_map, length_seq).
  rewrite <-(size_list_to_set (C := gset Z)) by done. rewrite <-size_dom.
  apply subseteq_size. intros a Ha%elem_of_list_to_set. apply elem_of_dom.
  apply list_elem_of_fmap in Ha as (i & -> & Hi%elem_of_seq). apply Hm. lia.
Qed.

Lemma wp_ld8 (m : mem) p b (Q : Z -> mem -> Prop) : m !! u32 p = Some b -> Q b m -> wp m (ld8 p) Q.
Proof. intros H HQ. unfold wp, ld8, gets_opt. by rewrite H. Qed.
Lemma wp_ldc (m : mem) p b (Q : Z -> mem -> Prop) : m !! u32 p = Some b -> Q (i8 b) m -> wp m (ldc p) Q.
Proof. intros H HQ. unfold ldc. apply wp_bind. by eapply wp_ld8. Qed.
Lemma wp_st8 (m : mem) p v (Q : unit -> mem -> Prop) :
  is_Some (m !! u32 p) -> Q tt (<[u32 p := u8 v]> m) -> wp m (st8 p v) Q.
Proof. intros [b H] HQ. unfold st8. apply wp_bind. eapply wp_ld8; [done|]. by apply wp_modify. Qed.

Lemma poke_app p l k m : poke p (l ++ k) m = poke (p + Z.of_nat (length l)) k (poke p l m).
Proof.
  revert p m. induction l as [|b l IH]; intros p m; simpl; [by rewrite Z.add_0_r|].
  rewrite IH. f_equal. lia.
Qed.
Lemma poke_snoc p l b m : poke p (l ++ [b]) m = <[u32 (p + Z.of_nat (length l)) := b]> (poke p l m).
Proof. by rewrite poke_app. Qed.

Lemma poke_out p l m a :
  (forall i, (i < length l)%nat -> u32 (p + Z.of_nat i) <> a) -> poke p l m !! a = m !! a.
Proof.
  revert p m. induction l as [|b l IH]; intros p m H; simpl; [done|].
  rewrite IH.
  - apply lookup_insert_ne. specialize (H O ltac:(simpl; lia)). by rewrite Z.add_0_r in H.
  - intros i Hi. replace (p + 1 + Z.of_nat i) with (p + Z.of_nat (S i)) by lia. apply H. simpl. lia.
Qed.

Lemma poke_mapped p l m q n : mapped m q n -> mapped (poke p l m) q n.
Proof.
  revert p m. induction l as [|b l IH]; intros p m H; simpl; [done|].
  apply IH. intros i Hi. destruct (decide (u32 p = u32 (q + Z.of_nat i))) as [->|Hne].
  - by rewrite lookup_insert_eq.
  - rewrite lookup_insert_ne by done. by apply H.
Qed.

Lemma bytes_at_poke p l m : Z.of_nat (length l) <= 4294967296 -> bytes_at (poke p l m) p l.
Proof.
  revert p m. induction l as [|b l IH]; intros p m H; [done|]. simpl in *.
  apply bytes_at_cons. split; [|apply IH; lia].
  rewrite poke_out; [by rewrite lookup_insert_eq|].
  intros i Hi Heq. replace (p + 1 + Z.of_nat i) with (p + (1 + Z.of_nat i)) in Heq by lia.
  rewrite <-(Z.add_0_r p) in Heq at 2. apply u32_add_inj in Heq; lia.
Qed.

Lemma bytes_at_poke_apart p l m q k :
  bytes_at m q k -> apart p (length l) q (length k) -> bytes_at (poke p l m) q k.
Proof.
  intros H Ha i x Hi. rewrite poke_out; [by apply H|].
  intros j Hj. apply Ha; [done|]. by eapply lookup_lt_Some.
Qed.

Lemma poke_same p l m : bytes_at m p l -> poke p l m = m.
Proof.
  revert p m. induction l as [|b l IH]; intros p m H; simpl; [done|].
  apply bytes_at_cons in H as [Hb Hl]. rewrite (insert_id m) by done. by apply IH.
Qed.

Lemma cstr_byte m p l i b :
  cstr m p l -> l !! i = Some b -> m !! u32 (p + Z.of_nat i) = Some b /\ 0 < b < 256.
Proof.
  intros (Hm & Hl & _) Hi. split; [apply Hm; by apply lookup_app_l_Some|].
  by apply (Forall_lookup_1 _ _ _ _ Hl Hi).
Qed.
Lemma cstr_end m p l : cstr m p l -> m !! u32 (p + Z.of_nat (length l)) = Some 0.
Proof. intros (Hm & _). apply Hm. rewrite lookup_app_r, Nat.sub_diag by lia. done. Qed.
Lemma cstr_fuel m p l : cstr m p l -> (S (length l) <= size m)%nat.
Proof.
  intros (Hm & _ & Hl). apply bytes_at_mapped in Hm.
  apply mapped_fuel in Hm; rewrite length_app in *; simpl in *; lia.
Qed.
(** A tail of a string is a string. *)
Lemma cstr_tail m p b l : cstr m p (b :: l) -> cstr m (p + 1) l.
Proof.
  intros (Hm & Hl & Hn). apply bytes_at_cons in Hm as [_ Hm]. apply Forall_cons in Hl as [_ Hl].
  split_and!; [done|done|simpl in Hn; lia].
Qed.

Lemma apart_ranges p n q k :
  0 <= p -> 0 <= q -> p + Z.of_nat n <= q \/ q + Z.of_nat k <= p ->
  p + Z.of_nat n <= 4294967296 -> q + Z.of_nat k <= 4294967296 -> apart p n q k.
Proof. intros Hp Hq H Hn Hk i j Hi Hj. unfold u32. rewrite !Z.mod_small by lia. lia. Qed.

(** ** Checkers, for concrete memories *)
Fixpoint bytes_atb (m : mem) (p : Z) (l : list Z) : bool :=
  match l with
  | [] => true
  | b :: l => bool_decide (m !! u32 p = Some b) && bytes_atb m (p + 1) l
  end.
Lemma bytes_atb_ok m p l : bytes_atb m p l = true -> bytes_at m p l.
Proof.
  revert p. induction l as [|b l IH]; intros p H; [done|]. simpl in H.
  apply andb_true_iff in H as [H1 H2]. apply bytes_at_cons.
  split; [by apply bool_decide_eq_true in H1|by apply IH].
Qed.
Definition cstrb (m : mem) (p : Z) (l : list Z) : bool :=
  bytes_atb m p (l ++ [0]) && forallb (λ b, (0 <? b) && (b <? 256)) l &&
  (Z.of_nat (length l) <? 2147483647).
Lemma cstrb_ok m p l : cstrb m p l = true -> cstr m p l.
Proof.
  intros ((H1 & H2)%andb_true_iff & H3)%andb_true_iff. split_and!.
  - by apply bytes_atb_ok.
  - apply Forall_forall. intros b Hb. rewrite forallb_forall in H2.
    specialize (H2 b (proj1 (list_elem_of_In _ _) Hb)).
    by apply andb_true_iff in H2 as [?%Z.ltb_lt ?%Z.ltb_lt].
  - by apply Z.ltb_lt.
Qed.
Definition mappedb (m : mem) (p : Z) (n : nat) : bool :=
  forallb (λ i, bool_decide (is_Some (m !! u32 (p + Z.of_nat i)))) (seq 0 n).
Lemma mappedb_ok m p n : mappedb m p n = true -> mapped m p n.
Proof.
  intros H i Hi. unfold mappedb in H. rewrite forallb_forall in H.
  specialize (H i (proj2 (in_seq n 0 i) ltac:(lia))). by apply bool_decide_eq_true in H.
Qed.
Definition apartb (p : Z) (n : nat) (q : Z) (k : nat) : bool :=
  forallb (λ i, forallb (λ j, negb (u32 (p + Z.of_nat i) =? u32 (q + Z.of_nat j))) (seq 0 k)) (seq 0 n).
Lemma apartb_ok p n q k : apartb p n q k = true -> apart p n q k.
Proof.
  intros H i j Hi Hj. unfold apartb in H. rewrite forallb_forall in H.
  specialize (H i (proj2 (in_seq n 0 i) ltac:(lia))). cbn beta in H. rewrite forallb_forall in H.
  specialize (H j (proj2 (in_seq k 0 j) ltac:(lia))). apply negb_true_iff, Z.eqb_neq in H. exact H.
Qed.
