(* ===== verification/KString.v ===== *)
(** * The kernel's string routines: [student-distrib/lib/lib.c]

    Each function is a computation on the byte memory of [Bytes].  The four
    routines written in assembly are modelled by their instructions: the
    registers are the loop's state. *)
From S2P Require Import Prelude Bytes.

Module KString.

Definition strlen (s : Z) : M mem Z :=
  fuel ← gets mem_fuel;
  iter fuel (λ len,
    c ← ldc (s + len);
    mret (if negb (c =? 0) then inl (u32 (len + 1)) else inr len)) 0.

Definition strrev_body (s : Z) (be : Z * Z) : M mem ((Z * Z) + unit) :=
  let '(beg, end_) := be in
  if beg <? end_ then
    tmp ← ldc (s + end_);
    c ← ldc (s + beg);
    st8 (s + end_) c ;;
    st8 (s + beg) tmp ;;
    mret (inl (i32 (beg + 1), i32 (end_ - 1)))
  else mret (inr ()).
Definition strrev (s : Z) : M mem Z :=
  len ← strlen s;
  fuel ← gets mem_fuel;
  iter fuel (strrev_body s) (0, i32 (u32 (len - 1))) ;;
  mret s.

(** [itoa]'s table of digits, with its terminating zero. *)
Definition digits : list Z := lit "0123456789ABCDEFGHIJKLMNOPQRSTUVWXYZ" ++ [0].

(** The loop of [itoa]; its state is [(newval, newbuf)]. *)
Definition itoa_body (radix : Z) (vb : Z * Z) : M mem ((Z * Z) + Z) :=
  let '(newval, newbuf) := vb in
  if 0 <? newval then
    if u32 radix =? 0 then raise Undef else
    let i := i32 (newval mod u32 radix) in
    c ← gets_opt (λ _, if i <? 0 then None else digits !! Z.to_nat i);
    st8 newbuf c ;;
    mret (inl (newval / u32 radix, u32 (newbuf + 1)))
  else mret (inr newbuf).
Definition itoa (value buf radix : Z) : M mem Z :=
  if value =? 0 then
    st8 buf 48 ;;
    st8 (buf + 1) 0 ;;
    mret buf
  else
    fuel ← gets mem_fuel;
    newbuf ← iter fuel (itoa_body radix) (value, buf);
    st8 newbuf 0 ;;
    strrev buf.

(** *** The assembly routines *)

(** [stosb]-style byte loops: [(edi, count)]. *)
Definition set_bytes (al : Z) (edi n : Z) : M mem unit :=
  for_loop 0 (Z.to_nat n) (λ i, st8 (edi + i) al).
Definition st16 (p v : Z) : M mem unit :=
  st8 p v ;; st8 (p + 1) (Z.shiftr v 8).
Definition st32 (p v : Z) : M mem unit :=
  st8 p v ;; st8 (p + 1) (Z.shiftr v 8) ;;
  st8 (p + 2) (Z.shiftr v 16) ;; st8 (p + 3) (Z.shiftr v 24).
Definition ld32 (p : Z) : M mem Z :=
  b0 ← ld8 p; b1 ← ld8 (p + 1); b2 ← ld8 (p + 2); b3 ← ld8 (p + 3);
  mret (b0 + 256 * b1 + 65536 * b2 + 16777216 * b3).

(** [.memset_top]: single bytes until [edi] is aligned or [ecx] is 0. *)
Definition memset_top (al : Z) (ec : Z * Z) : M mem ((Z * Z) + (Z * Z)) :=
  let '(edi, ecx) := ec in
  if (ecx =? 0) || (Z.land edi 3 =? 0) then mret (inr (edi, ecx))
  else
    st8 edi al ;;
    mret (inl (u32 (edi + 1), ecx - 1)).
Definition memset (s c n : Z) : M mem Z :=
  let c := Z.land c 255 in
  let eax := u32 (Z.lor (Z.lor (Z.lor (Z.shiftl c 24) (Z.shiftl c 16)) (Z.shiftl c 8)) c) in
  ec ← iter 4 (memset_top eax) (u32 s, u32 n);
  let '(edi, ecx) := ec in
  if ecx =? 0 then mret s
  else
    let edx := Z.land ecx 3 in
    let ecx := Z.shiftr ecx 2 in
    for_loop 0 (Z.to_nat ecx) (λ i, st32 (edi + 4 * i) eax) ;;
    set_bytes eax (edi + 4 * ecx) edx ;;
    mret s.

Definition memset_word (s c n : Z) : M mem Z :=
  for_loop 0 (Z.to_nat (u32 n)) (λ i, st16 (s + 2 * i) c) ;; mret s.
Definition memset_dword (s c n : Z) : M mem Z :=
  for_loop 0 (Z.to_nat (u32 n)) (λ i, st32 (s + 4 * i) c) ;; mret s.

(** [.memcpy_top]; the state is [(esi, edi, ecx)]. *)
Definition copy_byte (dst src : Z) : M mem unit := al ← ld8 src; st8 dst al.
Definition memcpy_top (x : Z * Z * Z) : M mem ((Z * Z * Z) + (Z * Z * Z)) :=
  let '(esi, edi, ecx) := x in
  if (ecx =? 0) || (Z.land edi 3 =? 0) then mret (inr (esi, edi, ecx))
  else
    copy_byte edi esi ;;
    mret (inl (u32 (esi + 1), u32 (edi + 1), ecx - 1)).
Definition memcpy (dest src n : Z) : M mem Z :=
  x ← iter 4 memcpy_top (u32 src, u32 dest, u32 n);
  let '(esi, edi, ecx) := x in
  if ecx =? 0 then mret dest
  else
    let edx := Z.land ecx 3 in
    let ecx := Z.shiftr ecx 2 in
    for_loop 0 (Z.to_nat ecx) (λ i, v ← ld32 (esi + 4 * i); st32 (edi + 4 * i) v) ;;
    for_loop 0 (Z.to_nat edx)
      (λ i, copy_byte (edi + 4 * ecx + i) (esi + 4 * ecx + i)) ;;
    mret dest.

(** [rep movsb], upwards when the source is not below the destination and
    downwards (the direction flag set) otherwise. *)
Definition memmove (dest src n : Z) : M mem Z :=
  (if u32 dest <=? u32 src then
     for_loop 0 (Z.to_nat (u32 n)) (λ i, copy_byte (dest + i) (src + i))
   else
     let esi := u32 (src + u32 n - 1) in
     let edi := u32 (dest + u32 n - 1) in
     for_loop 0 (Z.to_nat (u32 n)) (λ i, copy_byte (edi - i) (esi - i))) ;;
  mret dest.

(** *** Comparing and copying *)
Definition strncmp_body (s1 s2 n : Z) (i : Z) : M mem (Z + Z) :=
  if u32 i <? n then
    a ← ldc (s1 + i);
    b ← ldc (s2 + i);
    mret (if negb (a =? b) || (a =? 0) then inr (a - b) else inl (i32 (i + 1)))
  else mret (inr 0).
Definition strncmp (s1 s2 n : Z) : M mem Z :=
  fuel ← gets mem_fuel; iter fuel (strncmp_body s1 s2 n) 0.

Definition strcmp_body (s1 s2 : Z) (i : Z) : M mem (Z + Z) :=
  a ← ldc (s1 + i);
  if a =? 0 then mret (inr 0) else
  b ← ldc (s2 + i);
  mret (if b =? 0 then inr 0
        else if negb (a =? b) then inr (a - b) else inl (i32 (i + 1))).
Definition strcmp (s1 s2 : Z) : M mem Z :=
  fuel ← gets mem_fuel; iter fuel (strcmp_body s1 s2) 0.

Definition strcpy_body (dest src : Z) (i : Z) : M mem (Z + Z) :=
  c ← ldc (src + i);
  if c =? 0 then mret (inr i) else
  st8 (dest + i) c ;;
  mret (inl (i32 (i + 1))).
Definition strcpy (dest src : Z) : M mem Z :=
  fuel ← gets mem_fuel;
  i ← iter fuel (strcpy_body dest src) 0;
  st8 (dest + i) 0 ;;
  mret dest.

Definition strncpy_copy (dest src n : Z) (i : Z) : M mem (Z + Z) :=
  c ← ldc (src + i);
  if negb (c =? 0) && (u32 i <? n) then
    st8 (dest + i) c ;;
    mret (inl (i32 (i + 1)))
  else mret (inr i).
Definition strncpy_pad (dest n : Z) (i : Z) : M mem (Z + unit) :=
  if u32 i <? n then
    st8 (dest + i) 0 ;;
    mret (inl (i32 (i + 1)))
  else mret (inr ()).
Definition strncpy (dest src n : Z) : M mem Z :=
  fuel ← gets mem_fuel;
  i ← iter fuel (strncpy_copy dest src n) 0;
  iter fuel (strncpy_pad dest n) i ;;
  mret dest.

(** [-a] of the least integer overflows. *)
Definition abs (a : Z) : Z := if 0 <=? a then a else i32 (- a).

Definition strchr_body (c : Z) (s : Z) : M mem (Z + Z) :=
  x ← ldc s;
  mret (if x =? 0 then inr NULL
        else if x =? c then inr s else inl (u32 (s + 1))).
Definition strchr (s c : Z) : M mem Z :=
  fuel ← gets mem_fuel; iter fuel (strchr_body c) s.

Definition strcat (dest src : Z) : M mem Z :=
  fuel ← gets mem_fuel;
  d ← iter fuel (λ d, x ← ldc d; mret (if x =? 0 then inr d else inl (u32 (d + 1)))) dest;
  strcpy d src.

End KString.
