(* ===== verification/UString.v ===== *)
(** * The user library's string routines: [lib/string.c]

    Where the text of a function is the kernel's, word for word, the
    definition is the kernel's; [strrev], [itoa], [strcpy] differ, and the
    rest is only here. *)
From S2P Require Import Prelude Bytes KString.

Module UString.

Definition strlen (s : Z) : M mem Z := KString.strlen s.
Definition strcmp (s1 s2 : Z) : M mem Z := KString.strcmp s1 s2.
Definition strncmp (s1 s2 n : Z) : M mem Z := KString.strncmp s1 s2 n.

(** The indices are unsigned here: an empty string gives [end = 2^32 - 1]. *)
Definition strrev_body (s : Z) (be : Z * Z) : M mem ((Z * Z) + unit) :=
  let '(beg, end_) := be in
  if beg <? end_ then
    tmp ← ldc (s + end_);
    c ← ldc (s + beg);
    st8 (s + end_) c ;;
    st8 (s + beg) tmp ;;
    mret (inl (u32 (beg + 1), u32 (end_ - 1)))
  else mret (inr ()).
Definition strrev (s : Z) : M mem Z :=
  len ← strlen s;
  fuel ← gets mem_fuel;
  iter fuel (strrev_body s) (0, u32 (len - 1)) ;;
  mret s.

Definition strchr (s c : Z) : M mem Z := KString.strchr s c.
Definition strrchr (s c : Z) : M mem Z :=
  t1 ← strrev s;
  t2 ← strchr t1 c;
  r ← strrev s;
  len ← strlen t2;
  mret (u32 (r + len - 1)).

(** The loop that moves [dest] to the end of its string. *)
Definition seek_end (dest : Z) : M mem Z :=
  fuel ← gets mem_fuel;
  iter fuel (λ d, x ← ldc d; mret (if x =? 0 then inr d else inl (u32 (d + 1)))) dest.

(** The copying loop of [strcpy] and [stpcpy]: [(dest, src)]. *)
Definition copy_body (ds : Z * Z) : M mem ((Z * Z) + Z) :=
  let '(dest, src) := ds in
  c ← ldc src;
  if c =? 0 then mret (inr dest) else
  st8 dest c ;;
  mret (inl (u32 (dest + 1), u32 (src + 1))).
Definition strcpy (dest src : Z) : M mem Z :=
  fuel ← gets mem_fuel;
  d ← iter fuel copy_body (dest, src);
  st8 d 0 ;;
  mret dest.
Definition stpcpy (dest src : Z) : M mem Z :=
  fuel ← gets mem_fuel;
  d ← iter fuel copy_body (dest, src);
  st8 d 0 ;;
  mret d.
Definition strncpy (dest src n : Z) : M mem Z := KString.strncpy dest src n.

Definition strcat (dest src : Z) : M mem Z := d ← seek_end dest; strcpy d src.
Definition strncat (dest src n : Z) : M mem Z := d ← seek_end dest; strncpy d src n.

Definition memset (s c n : Z) : M mem Z := KString.memset s c n.
Definition memcpy (dest src n : Z) : M mem Z := KString.memcpy dest src n.
Definition memmove (dest src n : Z) : M mem Z := KString.memmove dest src n.

(** [itoa] as in the kernel, with this library's [strrev]. *)
Definition itoa (value buf radix : Z) : M mem Z :=
  if value =? 0 then
    st8 buf 48 ;;
    st8 (buf + 1) 0 ;;
    mret buf
  else
    fuel ← gets mem_fuel;
    newbuf ← iter fuel (KString.itoa_body radix) (value, buf);
    st8 newbuf 0 ;;
    strrev buf.

(** The loop of [atoi]: [(number, nptr)]. *)
Definition atoi_body (np : Z * Z) : M mem ((Z * Z) + Z) :=
  let '(number, nptr) := np in
  c ← ldc nptr;
  mret (if c =? 0 then inr number
        else if (48 <=? c) && (c <=? 57)
             then inl (i32 (number * 10 + (c - 48)), u32 (nptr + 1))
             else inr number).
Definition atoi (nptr : Z) : M mem Z :=
  c ← ldc nptr;
  let '(sign, nptr) := if c =? 45 then (-1, u32 (nptr + 1)) else (1, nptr) in
  fuel ← gets mem_fuel;
  number ← iter fuel atoi_body (0, nptr);
  mret (i32 (sign * number)).

End UString.
