(* ===== verification/StringProps.v ===== *)
(** * What the string routines compute *)
From S2P Require Import Prelude Bytes KString UString.

(** ** Scanning *)
(** The byte at an index of a string, the terminating zero included. *)
Lemma cstr_at m p l i :
  cstr m p l -> (i <= length l)%nat ->
  exists b, (l ++ [0]) !! i = Some b /\ m !! u32 (p + Z.of_nat i) = Some b /\ 0 <= b < 256 /\
    (b = 0 <-> i = length l).
Proof.
  intros Hc Hi. destruct (decide (i = length l)) as [->|Hne].
  - exists 0. split_and!; try done; [by rewrite lookup_app_r, Nat.sub_diag by lia|by apply cstr_end].
  - destruct (lookup_lt_is_Some_2 l i) as [b Hb]; [lia|].
    destruct (cstr_byte _ _ _ _ _ Hc Hb) as [Hm Hr]. exists b.
    split_and!; try done; [by apply lookup_app_l_Some|lia|lia|lia].
Qed.

(** A loop that walks an index up a string. *)
Ltac at_index Hc i :=
  let b := fresh "b" in let Hb := fresh "Hb" in let Hm := fresh "Hm" in
  let Hr := fresh "Hr" in let Hz := fresh "Hz" in
  destruct (cstr_at _ _ _ i Hc ltac:(lia)) as (b & Hb & Hm & Hr & Hz).

Lemma strlen_spec m p l : cstr m p l -> KString.strlen p m = Ok (Z.of_nat (length l), m).
Proof.
  intros Hc. apply wp_ok. unfold KString.strlen. apply wp_bind, wp_gets.
  pose proof (cstr_fuel _ _ _ Hc) as Hfuel.
  set (I := λ (j : nat) (x : Z) (m' : mem), m' = m /\ exists i, x = Z.of_nat i /\
    (i <= length l)%nat /\ j = (length l - i)%nat).
  eapply (wp_iter I _ _ (length l)); [|split; [done|exists O; split_and!; lia]|unfold mem_fuel; lia].
  intros j x m' (-> & i & -> & Hi & ->). at_index Hc i.
  apply wp_bind. eapply wp_ldc; [done|]. apply wp_ret. rewrite i8_zero by done.
  destruct (Z.eqb_spec b 0) as [->|Hne]; cbn [negb].
  - split; [|done]. f_equal. by apply Hz.
  - exists (length l - S i)%nat. split; [lia|]. split; [done|]. exists (S i).
    destruct Hc as (_ & _ & Hlen). rewrite u32_id by lia. lia.
Qed.

(** ** Comparing *)
Section compare.
Context (m : mem) (s1 s2 : Z) (l1 l2 : list Z).
Hypothesis H1 : cstr m s1 l1.
Hypothesis H2 : cstr m s2 l2.

(** The strings agree up to [i] and differ there; [x] is the difference. *)
Definition differ_at (i : nat) (x : Z) : Prop :=
  take i l1 = take i l2 /\ exists a b,
    (l1 ++ [0]) !! i = Some a /\ (l2 ++ [0]) !! i = Some b /\ a <> b /\ x = i8 a - i8 b.

Lemma agree_step i a :
  take i l1 = take i l2 -> (l1 ++ [0]) !! i = Some a -> (l2 ++ [0]) !! i = Some a ->
  (i < length l1)%nat -> (i < length l2)%nat -> take (S i) l1 = take (S i) l2.
Proof.
  intros Ht Ha Hb Hi1 Hi2. rewrite lookup_app_l in Ha, Hb by lia.
  by rewrite (take_S_snoc l1 i a), (take_S_snoc l2 i a), Ht.
Qed.

Lemma strcmp_spec :
  wp m (KString.strcmp s1 s2) (λ x m', m' = m /\
    (x = 0 /\ (l1 `prefix_of` l2 \/ l2 `prefix_of` l1) \/
     exists i, (i < length l1)%nat /\ (i < length l2)%nat /\ differ_at i x)).
Proof using H1 H2.
  unfold KString.strcmp. apply wp_bind, wp_gets. pose proof (cstr_fuel _ _ _ H1) as Hfuel.
  set (I := λ (j : nat) (x : Z) (m' : mem), m' = m /\ exists i, x = Z.of_nat i /\
    (i <= length l1)%nat /\ (i <= length l2)%nat /\ take i l1 = take i l2 /\
    j = (length l1 - i)%nat).
  eapply (wp_iter I _ _ (length l1));
    [|split; [done|exists O; split_and!; done || lia]|unfold mem_fuel; lia].
  intros j x m' (-> & i & -> & Hi1 & Hi2 & Ht & ->). unfold KString.strcmp_body.
  at_index H1 i. apply wp_bind. eapply wp_ldc; [done|]. rewrite i8_zero by done.
  destruct (Z.eqb_spec b 0) as [->|Hne].
  { apply wp_ret. split; [done|]. left. split; [done|]. left. exists (drop i l2).
    rewrite <-(take_drop i l2) at 1. rewrite <-Ht. f_equal. apply take_ge.
    rewrite (proj1 Hz eq_refl). done. }
  at_index H2 i. apply wp_bind. eapply wp_ldc; [done|]. rewrite i8_zero by done. apply wp_ret.
  destruct (Z.eqb_spec b0 0) as [->|Hne0].
  { split; [done|]. left. split; [done|]. right. exists (drop i l1).
    rewrite <-(take_drop i l1) at 1. rewrite Ht. f_equal. apply take_ge.
    rewrite (proj1 Hz0 eq_refl). done. }
  assert (i < length l1)%nat by lia. assert (i < length l2)%nat by lia.
  destruct (Z.eqb_spec (i8 b) (i8 b0)) as [He|He]; cbn [negb].
  - apply i8_inj in He; [|done..]. subst b0. exists (length l1 - S i)%nat. split; [lia|].
    split; [done|]. exists (S i). destruct H1 as (_ & _ & Hlen). rewrite i32_id by lia.
    split_and!; [lia..| |lia]. by eapply agree_step.
  - split; [done|]. right. exists i. split; [done|]. split; [done|]. split; [done|].
    exists b, b0.
    split_and!; try done. congruence.
Qed.

Lemma strncmp_spec n :
  0 <= n < 2147483648 ->
  wp m (KString.strncmp s1 s2 n) (λ x m', m' = m /\
    (x = 0 /\ take (Z.to_nat n) l1 = take (Z.to_nat n) l2 \/
     exists i, Z.of_nat i < n /\ differ_at i x)).
Proof using H1 H2.
  intros Hn. unfold KString.strncmp. apply wp_bind, wp_gets.
  pose proof (cstr_fuel _ _ _ H1) as Hfuel.
  set (I := λ (j : nat) (x : Z) (m' : mem), m' = m /\ exists i, x = Z.of_nat i /\
    (i <= length l1)%nat /\ (i <= length l2)%nat /\ take i l1 = take i l2 /\
    j = (length l1 - i)%nat).
  eapply (wp_iter I _ _ (length l1));
    [|split; [done|exists O; split_and!; done || lia]|unfold mem_fuel; lia].
  intros j x m' (-> & i & -> & Hi1 & Hi2 & Ht & ->). unfold KString.strncmp_body.
  destruct H1 as (_ & _ & Hlen). rewrite u32_id by lia.
  destruct (Z.ltb_spec (Z.of_nat i) n) as [Hin|Hin].
  2:{ apply wp_ret. split; [done|]. left. split; [done|].
      assert (forall l : list Z, take (Z.to_nat n) l = take (Z.to_nat n) (take i l)) as E
        by (intros; rewrite take_take; f_equal; lia).
      by rewrite (E l1), (E l2), Ht. }
  at_index H1 i. apply wp_bind. eapply wp_ldc; [done|].
  at_index H2 i. apply wp_bind. eapply wp_ldc; [done|]. apply wp_ret.
  rewrite i8_zero by done.
  destruct (Z.eqb_spec (i8 b) (i8 b0)) as [He|He]; cbn [negb orb].
  - apply i8_inj in He; [|done..]. subst b0. destruct (Z.eqb_spec b 0) as [->|Hne].
    + split; [done|]. left. split; [lia|].
      assert (i = length l1) by (by apply Hz). assert (i = length l2) by (by apply Hz0).
      rewrite !firstn_all2 in Ht by lia. by rewrite Ht.
    + exists (length l1 - S i)%nat. split; [lia|]. split; [done|]. exists (S i).
      rewrite i32_id by lia. split_and!; [lia..| |lia]. eapply agree_step; [done..|lia|lia].
  - split; [done|]. right. exists i. split; [done|]. split; [done|]. exists b, b0.
    split_and!; try done. congruence.
Qed.
End compare.

Lemma differ_nonzero l1 l2 i x :
  Forall (λ b, 0 < b < 256) l1 -> Forall (λ b, 0 < b < 256) l2 -> differ_at l1 l2 i x -> x <> 0.
Proof.
  intros H1 H2 (_ & a & b & Ha & Hb & Hab & ->) H.
  assert (forall l c, Forall (λ b, 0 < b < 256) l -> (l ++ [0]) !! i = Some c -> 0 <= c < 256) as Hr.
  { intros l c Hl Hc. apply lookup_app_Some in Hc as [Hc|[_ Hc]].
    - apply (Forall_lookup_1 _ _ _ _ Hl) in Hc. lia.
    - apply list_lookup_singleton_Some in Hc as [_ <-]. lia. }
  apply Hab, i8_inj; [by eapply (Hr l1)|by eapply (Hr l2)|lia].
Qed.

Lemma differ_take l1 l2 i x n :
  Forall (λ b, 0 < b < 256) l1 -> Forall (λ b, 0 < b < 256) l2 ->
  differ_at l1 l2 i x -> (i < n)%nat -> take n l1 <> take n l2.
Proof.
  intros H1 H2 (_ & a & b & Ha & Hb & Hab & _) Hi Ht.
  assert (forall c, l2 !! i = Some c <-> l1 !! i = Some c) as Heq.
  { intros c. rewrite <-(lookup_take_lt l1 n), <-(lookup_take_lt l2 n) by done. by rewrite Ht. }
  apply lookup_app_Some in Ha as [Ha|[Hla Ha]]; apply lookup_app_Some in Hb as [Hb|[Hlb Hb]].
  - apply Heq in Hb. congruence.
  - apply Heq in Ha. apply lookup_lt_Some in Ha. lia.
  - apply Heq in Hb. apply lookup_lt_Some in Hb. lia.
  - apply list_lookup_singleton_Some in Ha as [_ <-], Hb as [_ <-]. done.
Qed.

Lemma strncmp_eq m s1 s2 l1 l2 n :
  cstr m s1 l1 -> cstr m s2 l2 -> 0 <= n < 2147483648 ->
  exists x, KString.strncmp s1 s2 n m = Ok (x, m) /\
    (x =? 0) = bool_decide (take (Z.to_nat n) l1 = take (Z.to_nat n) l2).
Proof.
  intros H1 H2 Hn. pose proof (strncmp_spec m s1 s2 l1 l2 H1 H2 n Hn) as H.
  apply wp_iff in H as (x & m' & He & -> & Hcase). exists x. split; [done|].
  destruct H1 as (_ & Hl1 & _), H2 as (_ & Hl2 & _).
  destruct Hcase as [[-> Ht]|(i & Hi & Hd)]; [by rewrite bool_decide_eq_true_2|].
  rewrite bool_decide_eq_false_2 by (eapply differ_take; [exact Hl1|exact Hl2|exact Hd|lia]).
  apply Z.eqb_neq. exact (differ_nonzero _ _ _ _ Hl1 Hl2 Hd).
Qed.

(** ** Writing *)
Lemma cstr_poke_apart m p l q k :
  cstr m q l -> apart p (length k) q (S (length l)) -> cstr (poke p k m) q l.
Proof.
  intros (Hm & Hl & Hn) Ha. split_and!; [|done|done].
  apply bytes_at_poke_apart; [done|]. rewrite length_app. simpl. by rewrite Nat.add_1_r.
Qed.

Lemma apart_le p n n' q k k' : apart p n q k -> (n' <= n)%nat -> (k' <= k)%nat -> apart p n' q k'.
Proof. intros H Hn Hk i j Hi Hj. apply H; lia. Qed.

Lemma poke_mapped_at p l m q n i :
  mapped m q n -> (i < n)%nat -> is_Some (poke p l m !! u32 (q + Z.of_nat i)).
Proof. intros H Hi. exact (poke_mapped p l m q n H i Hi). Qed.

Lemma take_snoc_poke p l m i b :
  l !! i = Some b -> poke p (take (S i) l) m = <[u32 (p + Z.of_nat i) := b]> (poke p (take i l) m).
Proof.
  intros Hb. rewrite (take_S_snoc _ _ _ Hb), poke_snoc, length_take.
  apply lookup_lt_Some in Hb. do 3 f_equal. lia.
Qed.

Lemma poke_insert p l m i b :
  (i < length l)%nat -> Z.of_nat (length l) <= 4294967296 ->
  poke p (<[i := b]> l) m = <[u32 (p + Z.of_nat i) := b]> (poke p l m).
Proof.
  intros Hi Hlen. apply map_eq. intros a.
  destruct (in_range p (length l) a) as [(j & Hj & <-)|Hn].
  - destruct (lookup_lt_is_Some_2 l j Hj) as [x Hx].
    assert (Z.of_nat (length (<[i:=b]> l)) <= 4294967296) as Hlen' by (by rewrite length_insert).
    destruct (decide (j = i)) as [->|Hne].
    + rewrite lookup_insert_eq. apply (bytes_at_poke p (<[i:=b]> l) m Hlen').
      by apply list_lookup_insert_eq.
    + rewrite lookup_insert_ne by (intros He; apply u32_add_inj in He; lia).
      rewrite (bytes_at_poke p l m Hlen j x Hx).
      apply (bytes_at_poke p (<[i:=b]> l) m Hlen'). by rewrite list_lookup_insert_ne.
  - rewrite lookup_insert_ne by (by apply Hn).
    rewrite !poke_out; [done|..]; intros j Hj; apply Hn; by rewrite ?length_insert in Hj.
Qed.

Lemma poke_poke p l k m :
  length l = length k -> Z.of_nat (length l) <= 4294967296 -> poke p l (poke p k m) = poke p l m.
Proof.
  intros Hlk Hlen. apply map_eq. intros a.
  destruct (in_range p (length l) a) as [(j & Hj & <-)|Hn].
  - destruct (lookup_lt_is_Some_2 l j Hj) as [x Hx].
    by rewrite (bytes_at_poke p l (poke p k m) Hlen j x Hx), (bytes_at_poke p l m Hlen j x Hx).
  - rewrite !poke_out; [done|..]; intros j Hj; apply Hn; lia.
Qed.

(** [strcpy], kernel version: an exact description of the memory after. *)
Lemma strcpy_spec m dest src l :
  cstr m src l -> mapped m dest (S (length l)) ->
  apart dest (S (length l)) src (S (length l)) ->
  KString.strcpy dest src m = Ok (dest, poke dest (l ++ [0]) m).
Proof.
  intros Hc Hd Ha. apply wp_ok. unfold KString.strcpy. apply wp_bind, wp_gets.
  pose proof (cstr_fuel _ _ _ Hc) as Hfuel. pose proof Hc as (_ & Hl & Hlen).
  set (I := λ (j : nat) (x : Z) (m' : mem), exists i, x = Z.of_nat i /\
    m' = poke dest (take i l) m /\ (i <= length l)%nat /\ j = (length l - i)%nat).
  eapply wp_seq.
  { eapply (wp_iter I _ (λ x m', x = Z.of_nat (length l) /\ m' = poke dest l m) (length l));
      [|exists O; split_and!; done || lia|unfold mem_fuel; lia].
    intros j x m' (i & -> & -> & Hi & ->). unfold KString.strcpy_body.
    assert (cstr (poke dest (take i l) m) src l) as Hc'.
    { apply cstr_poke_apart; [done|]. eapply apart_le; [exact Ha|rewrite length_take; lia|lia]. }
    at_index Hc' i. apply wp_bind. eapply wp_ldc; [done|]. rewrite i8_zero by done.
    destruct (Z.eqb_spec b 0) as [->|Hne].
    { apply wp_ret. assert (i = length l) as -> by (by apply Hz).
      split; [done|]. by rewrite firstn_all. }
    assert (i < length l)%nat by lia. rewrite lookup_app_l in Hb by lia.
    apply wp_bind. eapply wp_st8; [eapply poke_mapped_at; [done|lia]|]. apply wp_ret.
    exists (length l - S i)%nat. split; [lia|]. exists (S i). rewrite i32_id by lia.
    split_and!; [lia| |lia|lia]. rewrite u8_i8 by done. symmetry. by apply take_snoc_poke. }
  intros x m' [-> ->].
  apply wp_bind. eapply wp_st8; [eapply poke_mapped_at; [done|lia]|]. apply wp_ret.
  split; [done|]. by rewrite poke_snoc.
Qed.

(** Reversal in place, for either index type: [norm] is the conversion. *)
Section strrev.
Context (norm : Z -> Z) (m : mem) (p : Z) (l : list Z).
Hypothesis Hnorm : forall x, 0 <= x < 2147483648 -> norm x = x.
Hypothesis Hc : cstr m p l.

Definition rev_body (be : Z * Z) : M mem ((Z * Z) + unit) :=
  let '(beg, end_) := be in
  if beg <? end_ then
    tmp ← ldc (p + end_);
    c ← ldc (p + beg);
    st8 (p + end_) c ;;
    st8 (p + beg) tmp ;;
    mret (inl (norm (beg + 1), norm (end_ - 1)))
  else mret (inr ()).

(** [k] is [l] with its outer [i] pairs exchanged. *)
Definition swapped (i : nat) (k : list Z) : Prop :=
  length k = length l /\ forall j, (j < length l)%nat ->
    k !! j = if decide (j < i \/ length l - i <= j)%nat then l !! (length l - S j)%nat else l !! j.

Lemma swapped_step i k a b :
  (2 * i + 1 < length l)%nat -> swapped i k ->
  k !! (length l - S i)%nat = Some a -> k !! i = Some b ->
  swapped (S i) (<[i := a]> (<[(length l - S i)%nat := b]> k)).
Proof.
  intros Hi [Hlen Hk] Ha Hb. split; [by rewrite !length_insert|].
  intros j Hj. rewrite Hk in Ha, Hb by lia. rewrite decide_False in Ha by lia. rewrite decide_False in Hb by lia.
  destruct (decide (j = i)) as [->|Hji].
  { rewrite list_lookup_insert_eq by (rewrite length_insert; lia).
    rewrite decide_True by lia. done. }
  rewrite list_lookup_insert_ne by done.
  destruct (decide (j = length l - S i)%nat) as [->|Hje].
  { rewrite list_lookup_insert_eq by lia. rewrite decide_True by lia. rewrite <-Hb. f_equal. lia. }
  rewrite list_lookup_insert_ne, Hk by done. apply decide_ext. lia.
Qed.

Lemma swapped_end i k : (length l <= 2 * i + 1)%nat -> swapped i k -> k = reverse l.
Proof.
  intros Hi [Hlen Hk]. apply list_eq. intros j.
  destruct (decide (j < length l)%nat) as [Hj|Hj].
  - rewrite Hk, reverse_lookup by done. destruct (decide _); [done|]. f_equal. lia.
  - rewrite !lookup_ge_None_2; [done|rewrite length_reverse; lia|lia].
Qed.

Lemma rev_spec :
  l <> [] ->
  wp m (iter (mem_fuel m) rev_body (0, Z.of_nat (length l) - 1))
    (λ _ m', m' = poke p (reverse l) m).
Proof using Hnorm Hc.
  intros Hne. pose proof (cstr_fuel _ _ _ Hc) as Hfuel. destruct Hc as (Hm & Hl & Hlen).
  apply bytes_at_app in Hm as [Hm _]. assert (0 < length l)%nat by (destruct l; simpl in *; [done|lia]).
  set (I := λ (j : nat) (be : Z * Z) (m' : mem), exists i k,
    be = (Z.of_nat i, Z.of_nat (length l) - 1 - Z.of_nat i) /\ (2 * i <= length l)%nat /\
    swapped i k /\ m' = poke p k m /\ j = (length l - i)%nat).
  eapply (wp_iter I _ _ (length l)); [| |unfold mem_fuel; lia].
  2:{ exists O, l. split_and!; [f_equal; lia|lia| |by rewrite poke_same|lia].
      split; [done|]. intros j Hj. by rewrite decide_False by lia. }
  intros j be m' (i & k & -> & Hi & Hk & -> & ->). unfold rev_body.
  pose proof Hk as [Hkl Hkj].
  destruct (Z.ltb_spec (Z.of_nat i) (Z.of_nat (length l) - 1 - Z.of_nat i)) as [Hlt|Hge].
  2:{ apply wp_ret. f_equal. apply (swapped_end i); [lia|done]. }
  replace (Z.of_nat (length l) - 1 - Z.of_nat i) with (Z.of_nat (length l - S i)) by lia.
  assert (bytes_at (poke p k m) p k) as Hpk by (apply bytes_at_poke; lia).
  destruct (lookup_lt_is_Some_2 k (length l - S i)) as [a Ha]; [lia|].
  destruct (lookup_lt_is_Some_2 k i) as [b Hb]; [lia|].
  assert (forall j' x, k !! j' = Some x -> 0 <= x < 256) as Hrange.
  { intros j' x Hx. assert (j' < length l)%nat by (apply lookup_lt_Some in Hx; lia).
    rewrite Hkj in Hx by done. destruct (decide _) in Hx;
      apply (Forall_lookup_1 _ _ _ _ Hl) in Hx; lia. }
  apply wp_bind. eapply wp_ldc; [by apply Hpk|]. apply wp_bind. eapply wp_ldc; [by apply Hpk|].
  assert (mapped (poke p k m) p (length l)) as Hmap by (apply poke_mapped; by apply bytes_at_mapped).
  apply wp_bind. eapply wp_st8; [apply Hmap; lia|].
  apply wp_bind. eapply wp_st8.
  { rewrite lookup_insert_ne by (intros He; apply u32_add_inj in He; lia). apply Hmap. lia. }
  apply wp_ret. rewrite !u8_i8 by eauto.
  exists (length l - S i)%nat. split; [lia|].
  exists (S i), (<[i := a]> (<[(length l - S i)%nat := b]> k)).
  rewrite !Hnorm by lia. split_and!; [f_equal; lia|lia|by apply swapped_step; [lia|..]| |lia].
  rewrite !poke_insert by (rewrite ?length_insert; lia). done.
Qed.
End strrev.

Lemma strrev_kernel_spec m p l :
  cstr m p l -> KString.strrev p m = Ok (p, poke p (reverse l) m).
Proof.
  intros Hc. apply wp_ok. unfold KString.strrev. apply wp_bind.
  eapply wp_run_ok; [by apply strlen_spec|]. apply wp_bind, wp_gets.
  destruct l as [|b l']; [by vm_compute|].
  assert (i32 (u32 (Z.of_nat (length (b :: l')) - 1)) = Z.of_nat (length (b :: l')) - 1) as ->.
  { destruct Hc as (_ & _ & Hlen). cbn [length] in *. rewrite u32_id, i32_id by lia. done. }
  eapply wp_seq; [apply (rev_spec i32); [intros; apply i32_id; lia|done|done]|].
  intros [] m' ->. by apply wp_ret.
Qed.

Lemma strrev_user_spec m p l :
  cstr m p l -> l <> [] -> UString.strrev p m = Ok (p, poke p (reverse l) m).
Proof.
  intros Hc Hl. apply wp_ok. unfold UString.strrev. apply wp_bind.
  eapply wp_run_ok; [by apply strlen_spec|]. apply wp_bind, wp_gets.
  assert (u32 (Z.of_nat (length l) - 1) = Z.of_nat (length l) - 1) as ->.
  { destruct Hc as (_ & _ & Hlen), l; [done|]. cbn [length] in *. rewrite u32_id by lia. done. }
  eapply wp_seq; [apply (rev_spec u32); [intros; apply u32_id; lia|done|done]|].
  intros [] m' ->. by apply wp_ret.
Qed.

(** On the empty string the user library's [end] is [2^32 - 1]. *)
Lemma strrev_body_empty m p :
  m !! u32 (p - 1) = None -> UString.strrev_body p (0, u32 (Z.of_nat 0 - 1)) m = Bad Undef.
Proof.
  intros Hn. unfold UString.strrev_body. change (u32 (Z.of_nat 0 - 1)) with 4294967295.
  change (0 <? 4294967295) with true. cbn iota. apply bind_bad. unfold ldc. apply bind_bad.
  unfold ld8, gets_opt. assert (u32 (p + 4294967295) = u32 (p - 1)) as -> by (unfold u32; lia_mod).
  by rewrite Hn.
Qed.

(** ** Numbers *)

(** The digits of [v], least significant first, and their value. *)
Fixpoint lows (fuel : nat) (r v : Z) : list Z :=
  match fuel with
  | O => []
  | S n => if 0 <? v then v mod r :: lows n r (v / r) else []
  end.
Fixpoint low_value (r : Z) (ds : list Z) : Z :=
  match ds with [] => 0 | d :: ds => d + r * low_value r ds end.
(** The usual reading, most significant digit first. *)
Definition value (r : Z) (ds : list Z) : Z := fold_left (λ acc d, acc * r + d) ds 0.
Definition digit (d : Z) : Z := default 0 (KString.digits !! Z.to_nat d).

Lemma value_reverse r ds : value r (reverse ds) = low_value r ds.
Proof.
  unfold value. induction ds as [|d ds IH]; [done|].
  rewrite reverse_cons, fold_left_app. simpl. rewrite IH. lia.
Qed.

Lemma digit_ok d : 0 <= d < 36 ->
  KString.digits !! Z.to_nat d = Some (digit d) /\ 0 < digit d < 128.
Proof.
  intros Hd. unfold digit.
  assert (Forall (λ b, 0 < b < 128) (take 36 KString.digits)) as Hall.
  { apply (bool_decide_unpack _). vm_compute. exact I. }
  destruct (lookup_lt_is_Some_2 KString.digits (Z.to_nat d)) as [b Hb].
  { change (length KString.digits) with 37%nat. lia. }
  rewrite Hb. split; [done|]. simpl.
  apply (Forall_lookup_1 _ _ (Z.to_nat d) b Hall). rewrite lookup_take_lt by lia. done.
Qed.
Lemma digit_decimal d : 0 <= d < 10 -> digit d = 48 + d.
Proof.
  intros Hd. assert (forallb (λ n, digit (Z.of_nat n) =? 48 + Z.of_nat n) (seq 0 10) = true) as H
    by (vm_compute; reflexivity).
  rewrite forallb_forall in H. specialize (H (Z.to_nat d)). rewrite Z2Nat.id in H by lia.
  apply Z.eqb_eq, H, in_seq. lia.
Qed.

Lemma div_lt_pow v r n : 2 <= r -> 0 <= v < 2 ^ Z.of_nat (S n) -> 0 <= v / r < 2 ^ Z.of_nat n.
Proof.
  intros Hr Hv. rewrite Nat2Z.inj_succ, Z.pow_succ_r in Hv by lia. split; [apply Z.div_pos; lia|].
  apply Z.div_lt_upper_bound; nia.
Qed.

Lemma lows_ok n r v : 2 <= r -> 0 <= v < 2 ^ Z.of_nat n ->
  low_value r (lows n r v) = v /\ Forall (λ d, 0 <= d < r) (lows n r v) /\
  (length (lows n r v) <= n)%nat /\ (0 < v -> lows n r v <> []).
Proof.
  intros Hr. revert v. induction n as [|n IH]; intros v Hv; simpl.
  { simpl in Hv. split_and!; [lia|done|done|intros; lia]. }
  destruct (Z.ltb_spec 0 v) as [Hp|Hp]; [|split_and!; simpl; [lia|done|lia|intros; lia]].
  destruct (IH (v / r)) as (Hval & Hall & Hlen & _); [by apply div_lt_pow|].
  simpl. rewrite Hval. split_and!; [|constructor; [|done]|lia|done].
  - pose proof (Z.div_mod v r). lia.
  - apply Z.mod_pos_bound. lia.
Qed.

Section itoa.
Context (m : mem) (buf r : Z) (ds : list Z) (k : nat).
Hypothesis Hr : 2 <= r <= 36.
Hypothesis Hk : (k <= 32)%nat.
Hypothesis Hmap : mapped m buf (S k).

(** The loop writes the digits from the least significant one. *)
Lemma itoa_loop v n :
  0 <= v < 2 ^ Z.of_nat 32 -> (length (lows 32 r v) <= k)%nat -> (k < n)%nat ->
  wp m (iter n (KString.itoa_body r) (v, buf))
    (λ x m', u32 x = u32 (buf + Z.of_nat (length (lows 32 r v))) /\
             m' = poke buf (map digit (lows 32 r v)) m).
Proof using Hr Hk Hmap.
  intros Hv Hl Hn. set (L := lows 32 r v) in *.
  set (I := λ (j : nat) (vb : Z * Z) (m' : mem), exists i w f, j = (length L - i)%nat /\
    vb.1 = w /\ u32 vb.2 = u32 (buf + Z.of_nat i) /\ (i <= length L)%nat /\
    0 <= w < 2 ^ Z.of_nat f /\ (f <= 32)%nat /\ drop i L = lows f r w /\
    m' = poke buf (map digit (take i L)) m).
  eapply (wp_iter I _ _ (length L)).
  - intros j [w q] m' (i & w' & f & -> & <- & Hq & Hi & Hw & Hf & Hd & ->). cbn [fst snd] in *.
    unfold KString.itoa_body. destruct (Z.ltb_spec 0 w) as [Hp|Hp].
    2:{ assert (w = 0) as -> by lia. assert (length L = i) as HiL.
        { apply (f_equal length) in Hd. rewrite length_drop in Hd.
          destruct f; simpl in Hd; lia. }
        apply wp_ret. rewrite <-HiL in *. rewrite firstn_all. done. }
    destruct f as [|f]; [simpl in Hw; lia|]. simpl in Hd.
    destruct (Z.ltb_spec 0 w) as [_|]; [|lia].
    assert (L !! i = Some (w mod r)) as Hli.
    { rewrite <-(Nat.add_0_r i), <-lookup_drop, Hd. done. }
    pose proof (Z.mod_pos_bound w r ltac:(lia)) as Hmod. pose proof (lookup_lt_Some _ _ _ Hli).
    destruct (digit_ok (w mod r)) as [Hdig Hdr]; [lia|].
    rewrite (u32_id r) by lia. destruct (Z.eqb_spec r 0); [lia|].
    rewrite i32_id by lia. apply wp_bind. unfold wp, gets_opt.
    destruct (Z.ltb_spec (w mod r) 0); [lia|]. rewrite Hdig.
    apply wp_bind. eapply wp_st8; [rewrite Hq; eapply poke_mapped_at; [done|lia]|]. apply wp_ret.
    exists (length L - S i)%nat. split; [lia|]. exists (S i), (w / r), f. cbn [fst snd].
    split; [done|]. split; [done|]. split.
    { rewrite (u32_id (u32 _)) by apply u32_range. rewrite <-u32_u32_add, Hq, u32_u32_add.
      f_equal. lia. }
    split; [lia|]. split; [apply div_lt_pow; lia|]. split; [lia|]. split.
    { by rewrite <-(Nat.add_1_r i), <-drop_drop, Hd. }
    rewrite Hq, u8_id by lia. rewrite (take_S_snoc _ _ _ Hli), map_app. cbn [map].
    rewrite poke_snoc, length_map, length_take. do 3 f_equal. lia.
  - exists O, v, 32%nat. split; [lia|]. split; [done|]. split; [by rewrite Z.add_0_r|].
    split; [lia|]. split; [done|]. by split_and!.
  - lia.
Qed.

Lemma poke_reversed (a b : list Z) c :
  length a = length b -> Z.of_nat (length a) < 4294967296 ->
  poke buf a (poke buf (b ++ [c]) m) = poke buf (a ++ [c]) m.
Proof.
  intros Hab Ha.
  rewrite <-(poke_poke buf (a ++ [c]) (b ++ [c]) m) by (rewrite !length_app; simpl; lia).
  rewrite (poke_snoc buf a), insert_id; [done|].
  rewrite poke_out by (intros j Hj He; apply u32_add_inj in He; lia).
  rewrite Hab, poke_snoc. apply lookup_insert_eq.
Qed.

(** Everything of [itoa] for a positive number up to the call of [strrev]. *)
Lemma itoa_write v (rev : Z -> M mem Z) :
  (forall m' l, cstr m' buf l -> l <> [] -> rev buf m' = Ok (buf, poke buf (reverse l) m')) ->
  0 < v < 2 ^ Z.of_nat 32 -> (length (lows 32 r v) <= k)%nat ->
  wp m (fuel ← gets mem_fuel;
        newbuf ← iter fuel (KString.itoa_body r) (v, buf);
        st8 newbuf 0 ;;
        rev buf)
    (λ x m', x = buf /\ m' = poke buf (map digit (reverse (lows 32 r v)) ++ [0]) m).
Proof using Hr Hk Hmap.
  intros Hrev Hv Hl. apply wp_bind, wp_gets.
  pose proof (mapped_fuel _ _ _ Hmap ltac:(lia)) as Hfuel.
  destruct (lows_ok 32 r v) as (_ & Hds & _ & Hne); [lia|lia|].
  eapply wp_seq; [apply itoa_loop; [lia|done|unfold mem_fuel; lia]|].
  intros q m' [Hq ->]. set (L := lows 32 r v) in *.
  apply wp_bind. eapply wp_st8; [rewrite Hq; eapply poke_mapped_at; [done|lia]|].
  rewrite Hq. replace (length L) with (length (map digit L)) by apply length_map.
  change (u8 0) with 0. rewrite <-poke_snoc.
  eapply wp_run_ok; [apply (Hrev _ (map digit L))|].
  - split_and!.
    + apply bytes_at_poke. rewrite length_app, length_map. simpl. lia.
    + apply Forall_map. eapply Forall_impl; [exact Hds|]. intros d Hd. cbn beta in *.
      destruct (digit_ok d) as [_ ?]; lia.
    + rewrite length_map. lia.
  - intros H. apply map_eq_nil in H. apply Hne; [lia|done].
  - split; [done|]. rewrite poke_reversed; rewrite ?length_reverse, ?length_map; [|lia|lia].
    do 2 f_equal. unfold reverse. rewrite !rev_append_rev, !app_nil_r. by rewrite map_rev.
Qed.
End itoa.

(** The digits [itoa] writes, most significant first. *)
Definition digits_of (r v : Z) : list Z := if v =? 0 then [0] else reverse (lows 32 r v).

Lemma digits_of_ok r v : 2 <= r -> 0 <= v < 4294967296 ->
  value r (digits_of r v) = v /\ Forall (λ d, 0 <= d < r) (digits_of r v).
Proof.
  intros Hr Hv. unfold digits_of. destruct (Z.eqb_spec v 0) as [->|Hne].
  - split; [done|]. repeat constructor; lia.
  - destruct (lows_ok 32 r v) as (Hval & Hall & _); [lia|done|].
    rewrite value_reverse. split; [done|]. by apply Forall_reverse.
Qed.

Lemma itoa_zero m buf (Q : Z -> mem -> Prop) :
  mapped m buf 2 -> Q buf (poke buf [48; 0] m) -> wp m (st8 buf 48 ;; st8 (buf + 1) 0 ;; mret buf) Q.
Proof.
  intros Hm HQ. destruct (Hm O) as [x Hx]; [lia|]. rewrite Z.add_0_r in Hx.
  apply wp_bind. eapply wp_st8; [by rewrite Hx|]. apply wp_bind. eapply wp_st8; [|by apply wp_ret].
  destruct (decide (u32 buf = u32 (buf + 1))) as [<-|Hne]; [by rewrite lookup_insert_eq|].
  rewrite lookup_insert_ne by done. exact (Hm 1%nat ltac:(lia)).
Qed.

Section itoa_spec.
Context (m : mem) (v buf r : Z).
Hypothesis Hr : 2 <= r <= 36.
Hypothesis Hv : 0 <= v < 4294967296.
Hypothesis Hmap : mapped m buf (S (length (digits_of r v))).

Lemma itoa_digits_len : 0 < v -> (length (lows 32 r v) <= length (digits_of r v) <= 32)%nat.
Proof using Hr Hv.
  intros Hp. unfold digits_of. destruct (Z.eqb_spec v 0); [lia|].
  destruct (lows_ok 32 r v) as (_ & _ & Hlen & _); [lia|done|]. rewrite length_reverse. lia.
Qed.

Lemma itoa_kernel_spec :
  KString.itoa v buf r m = Ok (buf, poke buf (map digit (digits_of r v) ++ [0]) m).
Proof using All.
  apply wp_ok. unfold KString.itoa. pose proof itoa_digits_len as Hlen.
  destruct (Z.eqb_spec v 0) as [->|Hne].
  - apply itoa_zero; [done|]. by split.
  - eapply wp_mono; [eapply (itoa_write m buf r (length (digits_of r v))); [done|lia|done| |
      change (2 ^ Z.of_nat 32) with 4294967296; lia|lia]|].
    + intros m' l Hl _. by apply strrev_kernel_spec.
    + intros x m' [-> ->]. split; [done|]. unfold digits_of. by destruct (Z.eqb_spec v 0).
Qed.

Lemma itoa_user_spec :
  UString.itoa v buf r m = Ok (buf, poke buf (map digit (digits_of r v) ++ [0]) m).
Proof using All.
  apply wp_ok. unfold UString.itoa. pose proof itoa_digits_len as Hlen.
  destruct (Z.eqb_spec v 0) as [->|Hne].
  - apply itoa_zero; [done|]. by split.
  - eapply wp_mono; [eapply (itoa_write m buf r (length (digits_of r v))); [done|lia|done| |
      change (2 ^ Z.of_nat 32) with 4294967296; lia|lia]|].
    + intros m' l Hl Hl0. by apply strrev_user_spec.
    + intros x m' [-> ->]. split; [done|]. unfold digits_of. by destruct (Z.eqb_spec v 0).
Qed.
End itoa_spec.

(** [atoi] reads a decimal numeral. *)
Lemma fold_value_ge ds acc : Forall (λ d, 0 <= d < 10) ds -> 0 <= acc ->
  acc <= fold_left (λ acc d, acc * 10 + d) ds acc.
Proof.
  revert acc. induction ds as [|d ds IH]; intros acc Hall Ha; [done|].
  apply Forall_cons in Hall as [Hd Hall]. cbn [fold_left].
  specialize (IH (acc * 10 + d) Hall ltac:(lia)). lia.
Qed.
Lemma value_snoc r ds d : value r (ds ++ [d]) = value r ds * r + d.
Proof. unfold value. by rewrite fold_left_app. Qed.
Lemma value_take_le ds i : Forall (λ d, 0 <= d < 10) ds -> 0 <= value 10 (take i ds) <= value 10 ds.
Proof.
  intros Hall. assert (0 <= value 10 (take i ds)).
  { apply fold_value_ge; [by apply Forall_take|done]. }
  split; [done|]. rewrite <-(take_drop i ds) at 2. unfold value at 2. rewrite fold_left_app.
  apply fold_value_ge; [by apply Forall_drop|done].
Qed.

Lemma atoi_spec m p ds :
  cstr m p (map (Z.add 48) ds) -> Forall (λ d, 0 <= d < 10) ds -> value 10 ds < 2147483648 ->
  UString.atoi p m = Ok (value 10 ds, m).
Proof.
  intros Hc Hall Hv. apply wp_ok. unfold UString.atoi.
  pose proof (cstr_fuel _ _ _ Hc) as Hfuel. rewrite length_map in Hfuel.
  assert (forall i, (i <= length ds)%nat -> exists c, m !! u32 (p + Z.of_nat i) = Some c /\
    (i = length ds /\ c = 0 \/ exists d, ds !! i = Some d /\ c = 48 + d /\ 0 <= d < 10)) as Hat.
  { intros i Hi. destruct (cstr_at _ _ _ i Hc) as (c & Hlc & Hmc & _ & Hz); [by rewrite length_map|].
    exists c. split; [done|]. rewrite length_map in Hz. destruct (decide (i = length ds)); [naive_solver|].
    right. rewrite lookup_app_l in Hlc by (rewrite length_map; lia).
    apply list_lookup_fmap_Some in Hlc as (d & -> & Hd). exists d. split_and!; try done;
      by apply (Forall_lookup_1 _ _ _ _ Hall Hd). }
  destruct (Hat O) as (c & Hc0 & Hcase); [lia|]. rewrite Z.add_0_r in Hc0.
  apply wp_bind. eapply wp_ldc; [done|].
  assert (i8 c = c) as -> by (unfold i8; destruct Hcase as [[_ ->]|(d & _ & -> & ?)]; lia_mod).
  destruct (Z.eqb_spec c 45); [destruct Hcase as [[_ ->]|(d & _ & -> & ?)]; lia|].
  apply wp_bind, wp_gets.
  set (I := λ (j : nat) (x : Z * Z) (m' : mem), m' = m /\ exists i, (i <= length ds)%nat /\
    x.1 = value 10 (take i ds) /\ u32 x.2 = u32 (p + Z.of_nat i) /\ j = (length ds - i)%nat).
  eapply wp_seq.
  { eapply (wp_iter I _ (λ x m', m' = m /\ x = value 10 ds) (length ds));
      [|split; [done|exists O; split_and!; rewrite ?Z.add_0_r; done || lia]|unfold mem_fuel; lia].
    intros j [num q] m' (-> & i & Hi & Hnum & Hq & ->). unfold UString.atoi_body.
    cbn [fst snd] in Hnum, Hq. subst num.
    destruct (Hat i Hi) as (b & Hb & Hcs). apply wp_bind. eapply wp_ldc; [by rewrite Hq|].
    apply wp_ret. destruct Hcs as [[-> ->]|(d & Hd & -> & Hdr)]; [by rewrite firstn_all|].
    assert (i8 (48 + d) = 48 + d) as -> by (unfold i8; lia_mod).
    destruct (Z.eqb_spec (48 + d) 0); [lia|]. destruct (Z.leb_spec 48 (48 + d)); [|lia].
    destruct (Z.leb_spec (48 + d) 57); [|lia]. cbn [andb]. pose proof (lookup_lt_Some _ _ _ Hd).
    exists (length ds - S i)%nat. split; [lia|]. split; [done|]. exists (S i). cbn [fst snd].
    rewrite (take_S_snoc _ _ _ Hd), value_snoc.
    pose proof (value_take_le ds (S i) Hall) as Hle. rewrite (take_S_snoc _ _ _ Hd), value_snoc in Hle.
    split_and!; [lia|rewrite i32_id by lia; lia| |done].
    rewrite (u32_id (u32 _)) by apply u32_range. rewrite <-u32_u32_add, Hq, u32_u32_add. f_equal. lia. }
  intros num m' [-> ->]. apply wp_ret.
  pose proof (value_take_le ds (length ds) Hall) as Hle. rewrite firstn_all in Hle.
  rewrite i32_id by lia. split; [lia|done].
Qed.

(** [strcmp] is zero exactly when one string is a prefix of the other. *)
Lemma strcmp_run m s1 s2 l1 l2 :
  cstr m s1 l1 -> cstr m s2 l2 ->
  exists x, KString.strcmp s1 s2 m = Ok (x, m) /\
    (x = 0 <-> l1 `prefix_of` l2 \/ l2 `prefix_of` l1).
Proof.
  intros H1 H2. pose proof (strcmp_spec m s1 s2 l1 l2 H1 H2) as H.
  apply wp_iff in H as (x & m' & He & -> & Hcase). exists x. split; [done|].
  destruct H1 as (_ & Hl1 & _), H2 as (_ & Hl2 & _).
  destruct Hcase as [[-> Hp]|(i & Hi1 & Hi2 & Hd)]; [done|].
  split; intros Hx; exfalso; [by eapply differ_nonzero in Hd|].
  destruct Hd as (_ & a & b & Ha & Hb & Hab & _). rewrite lookup_app_l in Ha, Hb by done.
  destruct Hx as [Hx|Hx]; eapply prefix_lookup_Some in Hx; eauto; congruence.
Qed.
