(* ===== verification/MemProps.v ===== *)
(** * What the assembly routines compute: [memset], [memcpy], [memmove] *)
From S2P Require Import Prelude Bytes KString UString StringProps.

(** ** Bytes of a word *)
Lemma shiftr_div x n d : 2 ^ n = d -> 0 <= n -> Z.shiftr x n = x / d.
Proof. intros <- Hn. by apply Z.shiftr_div_pow2. Qed.

Definition word_bytes (v : Z) : list Z :=
  [u8 v; u8 (Z.shiftr v 8); u8 (Z.shiftr v 16); u8 (Z.shiftr v 24)].

Lemma word_bytes_of b0 b1 b2 b3 :
  0 <= b0 < 256 -> 0 <= b1 < 256 -> 0 <= b2 < 256 -> 0 <= b3 < 256 ->
  word_bytes (b0 + 256 * b1 + 65536 * b2 + 16777216 * b3) = [b0; b1; b2; b3].
Proof.
  intros. unfold word_bytes, u8.
  rewrite (shiftr_div _ 8 256), (shiftr_div _ 16 65536), (shiftr_div _ 24 16777216) by done.
  repeat f_equal; lia_mod.
Qed.

Definition splat (c : Z) : Z :=
  u32 (Z.lor (Z.lor (Z.lor (Z.shiftl c 24) (Z.shiftl c 16)) (Z.shiftl c 8)) c).
Lemma splat_bytes c : 0 <= c < 256 -> word_bytes (splat c) = replicate 4 c.
Proof.
  intros Hc.
  assert (forallb (λ n, bool_decide (word_bytes (splat (Z.of_nat n)) = replicate 4 (Z.of_nat n)))
    (seq 0 256) = true) as H by (vm_compute; reflexivity).
  rewrite forallb_forall in H. specialize (H (Z.to_nat c)). rewrite Z2Nat.id in H by lia.
  apply (bool_decide_unpack _), Is_true_true, H, in_seq. lia.
Qed.

Lemma st8_mapped m p n i v (Q : unit -> mem -> Prop) :
  mapped m p n -> (i < n)%nat ->
  (mapped (<[u32 (p + Z.of_nat i) := u8 v]> m) p n -> Q tt (<[u32 (p + Z.of_nat i) := u8 v]> m)) ->
  wp m (st8 (p + Z.of_nat i) v) Q.
Proof.
  intros Hm Hi HQ. apply wp_st8; [by apply Hm|]. apply HQ.
  intros j Hj. destruct (decide (u32 (p + Z.of_nat i) = u32 (p + Z.of_nat j))) as [->|Hne].
  - by rewrite lookup_insert_eq.
  - rewrite lookup_insert_ne by done. by apply Hm.
Qed.

Lemma st32_spec m p v : mapped m p 4 -> KString.st32 p v m = Ok (tt, poke p (word_bytes v) m).
Proof.
  intros Hm. apply wp_ok. unfold KString.st32.
  replace p with (p + Z.of_nat 0) at 1 by lia.
  apply wp_bind. eapply st8_mapped; [exact Hm|lia|]. intros Hm1.
  apply wp_bind. eapply (st8_mapped _ p 4 1); [exact Hm1|lia|]. intros Hm2.
  apply wp_bind. eapply (st8_mapped _ p 4 2); [exact Hm2|lia|]. intros Hm3.
  eapply (st8_mapped _ p 4 3); [exact Hm3|lia|]. intros _. split; [done|].
  cbn [poke word_bytes]. rewrite Z.add_0_r.
  replace (p + 1 + 1 + 1) with (p + 3) by lia. replace (p + 1 + 1) with (p + 2) by lia. done.
Qed.

Lemma ld32_spec m p b0 b1 b2 b3 : bytes_at m p [b0; b1; b2; b3] ->
  KString.ld32 p m = Ok (b0 + 256 * b1 + 65536 * b2 + 16777216 * b3, m).
Proof.
  intros H. rewrite !bytes_at_cons in H. destruct H as (H0 & H1 & H2 & H3 & _).
  replace (p + 1 + 1 + 1) with (p + 3) in H3 by lia. replace (p + 1 + 1) with (p + 2) in H2 by lia.
  apply wp_ok. unfold KString.ld32. repeat (apply wp_bind; eapply wp_ld8; [eassumption|]).
  by apply wp_ret.
Qed.

Lemma mapped_off m p n i k : mapped m p n -> (i + k <= n)%nat -> mapped m (p + Z.of_nat i) k.
Proof.
  intros H Hi j Hj. replace (p + Z.of_nat i + Z.of_nat j) with (p + Z.of_nat (i + j)) by lia.
  apply H. lia.
Qed.

(** Addresses count modulo [2^32]. *)
Definition same (a b : Z) : Prop := u32 a = u32 b.
Lemma same_add a b n : same a b -> same (a + n) (b + n).
Proof. unfold same. intros H. by rewrite <-(u32_u32_add a), H, u32_u32_add. Qed.
Lemma same_u32 a : same (u32 a) a.
Proof. unfold same. by rewrite (u32_id (u32 a)) by apply u32_range. Qed.
Lemma st8_same a b v : same a b -> st8 a v = st8 b v.
Proof. unfold same, st8, ld8. by intros ->. Qed.
Lemma ld8_same a b : same a b -> ld8 a = ld8 b.
Proof. unfold same, ld8. by intros ->. Qed.
Lemma st32_same a b v : same a b -> KString.st32 a v = KString.st32 b v.
Proof.
  intros H. unfold KString.st32.
  by rewrite (st8_same a b), (st8_same (a + 1) (b + 1)), (st8_same (a + 2) (b + 2)),
    (st8_same (a + 3) (b + 3)) by (try apply same_add; done).
Qed.
Lemma ld32_same a b : same a b -> KString.ld32 a = KString.ld32 b.
Proof.
  intros H. unfold KString.ld32.
  by rewrite (ld8_same a b), (ld8_same (a + 1) (b + 1)), (ld8_same (a + 2) (b + 2)),
    (ld8_same (a + 3) (b + 3)) by (try apply same_add; done).
Qed.

(** ** Filling a range with [l], byte by byte or a word at a time *)
Section fill.
Context (m : mem) (p : Z) (l : list Z).
Hypothesis Hlen : Z.of_nat (length l) < 4294967296.
Hypothesis Hmap : mapped m p (length l).

Definition filled (i : nat) (m' : mem) : Prop := m' = poke p (take i l) m.

Lemma filled_mapped i m' : filled i m' -> mapped m' p (length l).
Proof using Hmap. intros ->. by apply poke_mapped. Qed.

Lemma filled_byte i m' a b v (Q : unit -> mem -> Prop) :
  filled i m' -> l !! i = Some b -> u8 v = b -> same a (p + Z.of_nat i) ->
  (forall m2, filled (S i) m2 -> Q tt m2) -> wp m' (st8 a v) Q.
Proof using Hmap.
  intros Hf Hb Hv Ha HQ. rewrite (st8_same _ _ _ Ha).
  eapply st8_mapped; [by eapply filled_mapped|by eapply lookup_lt_Some|].
  intros _. apply HQ. unfold filled in *. subst. symmetry. by apply take_snoc_poke.
Qed.

Lemma filled_word i m' a v (Q : unit -> mem -> Prop) :
  filled i m' -> (i + 4 <= length l)%nat -> word_bytes v = take 4 (drop i l) ->
  same a (p + Z.of_nat i) ->
  (forall m2, filled (i + 4) m2 -> Q tt m2) -> wp m' (KString.st32 a v) Q.
Proof using Hmap.
  intros Hf Hi Hv Ha HQ. rewrite (st32_same _ _ _ Ha). eapply wp_run_ok.
  { apply st32_spec. eapply mapped_off; [by eapply filled_mapped|done]. }
  apply HQ. unfold filled in *. subst m'. rewrite <-(take_take_drop l i 4), poke_app, length_take, Hv.
  do 3 f_equal. lia.
Qed.

(** The traversal after alignment: [w] words from offset [i0], then the rest. *)
Section words.
Context (i0 w : nat) (word byte : Z -> M mem unit).
Hypothesis Hword : forall (j : nat) m', (j < w)%nat -> filled (i0 + 4 * j) m' ->
  wp m' (word (Z.of_nat j)) (λ _ m2, filled (i0 + 4 * (j + 1)) m2).
Hypothesis Hbyte : forall (j : nat) m', (i0 + 4 * w + j < length l)%nat ->
  filled (i0 + 4 * w + j) m' ->
  wp m' (byte (Z.of_nat j)) (λ _ m2, filled (i0 + 4 * w + S j) m2).

Lemma fill_words {A} (r : A) m' (rest : nat) :
  filled i0 m' -> (i0 + 4 * w + rest)%nat = length l ->
  wp m' (for_loop 0 w word ;; for_loop 0 rest byte ;; mret r)
    (λ x m2, x = r /\ m2 = poke p l m).
Proof using Hword Hbyte.
  intros Hf Hr. eapply wp_seq with (P := λ _ m2, filled (i0 + 4 * w) m2).
  - eapply (wp_for (λ i m2, exists j : nat, i = Z.of_nat j /\ filled (i0 + 4 * j) m2)).
    + intros i m1 Hi (j & -> & Hj). eapply wp_mono; [apply Hword; [lia|done]|].
      intros [] m2 H2. exists (j + 1)%nat. split; [lia|done].
    + exists O. split; [done|]. by rewrite Nat.mul_0_r, Nat.add_0_r.
    + intros m1 (j & Hj & H1). by replace w with j by lia.
  - intros [] m1 H1. apply wp_bind.
    eapply (wp_for (λ i m2, exists j : nat, i = Z.of_nat j /\ filled (i0 + 4 * w + j) m2)).
    + intros i m2 Hi (j & -> & Hj). eapply wp_mono; [apply Hbyte; [lia|done]|].
      intros [] m3 H3. exists (S j). split; [lia|done].
    + exists O. split; [done|]. by rewrite Nat.add_0_r.
    + intros m2 (j & Hj & H2). apply wp_ret. split; [done|].
      unfold filled in H2. rewrite H2. f_equal. apply take_ge. lia.
Qed.
End words.
End fill.

Lemma shiftr2 n : Z.shiftr n 2 = n / 4.
Proof. by apply shiftr_div. Qed.
Lemma land3 n : Z.land n 3 = n mod 4.
Proof. exact (Z.land_ones n 2 ltac:(lia)). Qed.
(** Steps to the next multiple of four. *)
Definition to_align (a : Z) : nat := Z.to_nat ((4 - a mod 4) mod 4).
Lemma to_align_step a : u32 a mod 4 <> 0 -> (to_align (a + 1) < to_align a)%nat.
Proof. unfold to_align, u32. lia_mod. Qed.
Lemma to_align_le a : (to_align a < 4)%nat.
Proof. unfold to_align. lia_mod. Qed.
Lemma quarter n : 0 <= n -> (4 * Z.to_nat (n / 4) + Z.to_nat (n mod 4) = Z.to_nat n)%nat.
Proof. intros. lia_mod. Qed.

(** [memset] writes [n] copies of the low byte of [c]. *)
Lemma memset_spec m s c n :
  mapped m s (Z.to_nat n) -> 0 <= n < 4294967296 ->
  KString.memset s c n m = Ok (s, poke s (replicate (Z.to_nat n) (u8 c)) m).
Proof.
  intros Hm Hn. apply wp_ok. unfold KString.memset.
  assert (Z.land c 255 = u8 c) as -> by exact (Z.land_ones c 8 ltac:(lia)).
  pose proof (u8_range c) as Hc. pose proof (splat_bytes (u8 c) Hc) as Hw. cbn zeta.
  change (u32 (Z.lor _ (u8 c))) with (splat (u8 c)). set (eax := splat (u8 c)) in *.
  set (l := replicate (Z.to_nat n) (u8 c)).
  assert (length l = Z.to_nat n) as Hll by apply length_replicate.
  assert (u8 eax = u8 c) as Hb by (injection Hw; intros; assumption).
  assert (forall i, (i < Z.to_nat n)%nat -> l !! i = Some (u8 c)) as Hl
    by (intros; by apply lookup_replicate_2).
  rewrite <-Hll in Hm. rewrite (u32_id n) by done.
  set (I := λ (j : nat) (x : Z * Z) (m' : mem), exists i : nat, x.1 = u32 (s + Z.of_nat i) /\
    x.2 = n - Z.of_nat i /\ Z.of_nat i <= n /\ filled m s l i m' /\ j = to_align (s + Z.of_nat i)).
  eapply wp_seq.
  { eapply (wp_iter I _ (λ x m', exists j, I j x m') (to_align s)).
    - intros j [edi ecx] m' (i & H1 & H2 & Hi & Hf & ->). cbn [fst snd] in *. subst.
      unfold KString.memset_top. rewrite land3.
      destruct (Z.eqb_spec (n - Z.of_nat i) 0) as [H0|H0]; [apply wp_ret; by exists (to_align (s + Z.of_nat i)), i|].
      destruct (Z.eqb_spec (u32 (s + Z.of_nat i) mod 4) 0) as [H4|H4];
        [apply wp_ret; by exists (to_align (s + Z.of_nat i)), i|].
      cbn [orb]. apply wp_bind. eapply filled_byte; [done|exact Hf|apply Hl; lia|done|apply same_u32|].
      intros m2 Hf2. apply wp_ret. exists (to_align (s + Z.of_nat i + 1)).
      split; [by apply to_align_step|]. exists (S i). cbn [fst snd].
      rewrite u32_u32_add. replace (s + Z.of_nat i + 1) with (s + Z.of_nat (S i)) by lia.
      split_and!; done || lia.
    - exists O. cbn [fst snd]. rewrite Z.add_0_r. split_and!; done || lia.
    - apply to_align_le. }
  intros [edi ecx] m' (j & i & H1 & H2 & Hi & Hf & _). cbn [fst snd] in *. subst.
  destruct (Z.eqb_spec (n - Z.of_nat i) 0) as [H0|H0].
  { apply wp_ret. split; [done|]. rewrite Hf. f_equal. apply take_ge. lia. }
  rewrite shiftr2, land3. pose proof (quarter (n - Z.of_nat i) ltac:(lia)) as Hq.
  unfold KString.set_bytes. set (w := Z.to_nat ((n - Z.of_nat i) / 4)) in *.
  assert ((n - Z.of_nat i) / 4 = Z.of_nat w) as Hwz by (subst w; lia_mod). rewrite Hwz.
  set (rest := Z.to_nat ((n - Z.of_nat i) mod 4)) in *.
  assert (i + 4 * w + rest = length l)%nat as Htot by lia.
  assert (forall k, same (u32 (s + Z.of_nat i) + Z.of_nat k) (s + Z.of_nat (i + k))) as Hsame.
  { intros k. unfold same. rewrite u32_u32_add. f_equal. lia. }
  eapply (fill_words m s l i w); [| |done|lia].
  - intros k m2 Hk Hf2. eapply filled_word; [done|exact Hf2|lia| | |].
    + subst l. rewrite Hw, drop_replicate, take_replicate. f_equal. lia.
    + replace (4 * Z.of_nat k) with (Z.of_nat (4 * k)) by lia. apply Hsame.
    + intros m3. replace (i + 4 * (k + 1))%nat with (i + 4 * k + 4)%nat by lia. done.
  - intros k m2 Hk Hf2. eapply filled_byte; [done|exact Hf2|apply Hl; lia|done| |intros m3; by rewrite Nat.add_succ_r].
    replace (u32 (s + Z.of_nat i) + 4 * Z.of_nat w + Z.of_nat k)
      with (u32 (s + Z.of_nat i) + Z.of_nat (4 * w + k)) by lia.
    rewrite <-Nat.add_assoc. apply Hsame.
Qed.

(** ** Copying *)
Section copy.
Context (m : mem) (dest src : Z) (l : list Z).
Hypothesis Hsrc : bytes_at m src l.
Hypothesis Hlen : Z.of_nat (length l) < 4294967296.
Hypothesis Hmap : mapped m dest (length l).
Hypothesis Hrange : Forall (λ b, 0 <= b < 256) l.

Lemma copy_byte_step i m' a b (Q : unit -> mem -> Prop) :
  filled m dest l i m' -> (i < length l)%nat -> bytes_at m' src l ->
  same a (dest + Z.of_nat i) -> same b (src + Z.of_nat i) ->
  (forall m2, filled m dest l (S i) m2 -> Q tt m2) -> wp m' (KString.copy_byte a b) Q.
Proof using Hmap Hrange.
  intros Hf Hi Hs Ha Hb HQ. destruct (lookup_lt_is_Some_2 l i Hi) as [x Hx].
  pose proof (Forall_lookup_1 _ _ _ _ Hrange Hx). unfold KString.copy_byte.
  rewrite (ld8_same _ _ Hb). apply wp_bind. eapply wp_ld8; [by apply Hs|].
  eapply filled_byte; [exact Hmap|exact Hf|exact Hx|by apply u8_id|exact Ha|done].
Qed.

Section disjoint.
Hypothesis Hapart : apart dest (length l) src (length l).

Lemma copy_src i m' : filled m dest l i m' -> bytes_at m' src l.
Proof using Hsrc Hapart.
  intros ->. apply bytes_at_poke_apart; [done|]. eapply apart_le; [exact Hapart| |done].
  rewrite length_take. lia.
Qed.

Lemma copy_word i m' a b (Q : unit -> mem -> Prop) :
  filled m dest l i m' -> (i + 4 <= length l)%nat ->
  same a (dest + Z.of_nat i) -> same b (src + Z.of_nat i) ->
  (forall m2, filled m dest l (i + 4) m2 -> Q tt m2) ->
  wp m' (v ← KString.ld32 b; KString.st32 a v) Q.
Proof using Hsrc Hmap Hrange Hapart.
  intros Hf Hi Ha Hb HQ. rewrite (ld32_same _ _ Hb).
  assert (exists b0 b1 b2 b3, take 4 (drop i l) = [b0; b1; b2; b3]) as (b0 & b1 & b2 & b3 & Hd).
  { assert (length (take 4 (drop i l)) = 4%nat) as H by (rewrite length_take, length_drop; lia).
    destruct (take 4 (drop i l)) as [|b0 [|b1 [|b2 [|b3 [|]]]]]; try done. by eexists _, _, _, _. }
  assert (Forall (λ b, 0 <= b < 256) [b0; b1; b2; b3]) as Hr
    by (rewrite <-Hd; by apply Forall_take, Forall_drop).
  rewrite !Forall_cons in Hr. destruct Hr as (H0 & H1 & H2 & H3 & _).
  assert (bytes_at m' (src + Z.of_nat i) [b0; b1; b2; b3]) as Hbs.
  { rewrite <-Hd. pose proof (copy_src i m' Hf) as Hs. intros j x Hj.
    apply lookup_take_Some in Hj as [Hj _]. rewrite lookup_drop in Hj.
    replace (src + Z.of_nat i + Z.of_nat j) with (src + Z.of_nat (i + j)) by lia. by apply Hs. }
  apply wp_bind. eapply wp_run_ok; [by apply ld32_spec|].
  eapply filled_word; [exact Hmap|exact Hf|exact Hi| |exact Ha|exact HQ].
  rewrite word_bytes_of by done. by rewrite Hd.
Qed.

Lemma memcpy_spec :
  KString.memcpy dest src (Z.of_nat (length l)) m = Ok (dest, poke dest l m).
Proof using All.
  apply wp_ok. unfold KString.memcpy. set (n := Z.of_nat (length l)) in *.
  rewrite (u32_id n) by lia.
  set (I := λ (j : nat) (x : Z * Z * Z) (m' : mem), exists i : nat,
    x = (u32 (src + Z.of_nat i), u32 (dest + Z.of_nat i), n - Z.of_nat i) /\
    Z.of_nat i <= n /\ filled m dest l i m' /\ j = to_align (dest + Z.of_nat i)).
  eapply wp_seq.
  { eapply (wp_iter I _ (λ x m', exists j, I j x m') (to_align dest)).
    - intros j x m' (i & -> & Hi & Hf & ->). unfold KString.memcpy_top. rewrite land3.
      destruct (Z.eqb_spec (n - Z.of_nat i) 0) as [H0|H0];
        [apply wp_ret; by exists (to_align (dest + Z.of_nat i)), i|].
      destruct (Z.eqb_spec (u32 (dest + Z.of_nat i) mod 4) 0) as [H4|H4];
        [apply wp_ret; by exists (to_align (dest + Z.of_nat i)), i|].
      cbn [orb]. apply wp_bind.
      eapply copy_byte_step; [exact Hf|lia|by eapply copy_src|apply same_u32..|].
      intros m2 Hf2. apply wp_ret. exists (to_align (dest + Z.of_nat i + 1)).
      split; [by apply to_align_step|]. exists (S i). rewrite !u32_u32_add.
      replace (dest + Z.of_nat i + 1) with (dest + Z.of_nat (S i)) by lia.
      replace (src + Z.of_nat i + 1) with (src + Z.of_nat (S i)) by lia.
      split_and!; [f_equal; lia|lia|done|done].
    - exists O. rewrite !Z.add_0_r, Z.sub_0_r. split_and!; done || lia.
    - apply to_align_le. }
  intros x m' (j & i & -> & Hi & Hf & _).
  destruct (Z.eqb_spec (n - Z.of_nat i) 0) as [H0|H0].
  { apply wp_ret. split; [done|]. rewrite Hf. f_equal. apply take_ge. lia. }
  rewrite shiftr2, land3. pose proof (quarter (n - Z.of_nat i) ltac:(lia)) as Hq.
  set (w := Z.to_nat ((n - Z.of_nat i) / 4)) in *.
  assert ((n - Z.of_nat i) / 4 = Z.of_nat w) as Hwz by (subst w; lia_mod). rewrite Hwz.
  set (rest := Z.to_nat ((n - Z.of_nat i) mod 4)) in *.
  assert (forall a k, same (u32 (a + Z.of_nat i) + Z.of_nat k) (a + Z.of_nat (i + k))) as Hsame.
  { intros a k. unfold same. rewrite u32_u32_add. f_equal. lia. }
  eapply (fill_words m dest l i w); [| |done|lia].
  - intros k m2 Hk Hf2. replace (4 * Z.of_nat k) with (Z.of_nat (4 * k)) by lia.
    eapply copy_word; [exact Hf2|lia|apply Hsame..|].
    intros m3. replace (i + 4 * (k + 1))%nat with (i + 4 * k + 4)%nat by lia. done.
  - intros k m2 Hk Hf2. rewrite <-!Z.add_assoc.
    replace (4 * Z.of_nat w + Z.of_nat k) with (Z.of_nat (4 * w + k)) by lia.
    eapply copy_byte_step; [exact Hf2|lia|by eapply copy_src| | |].
    + rewrite <-Nat.add_assoc. apply Hsame.
    + rewrite <-Nat.add_assoc. apply Hsame.
    + intros m3. by rewrite Nat.add_succ_r.
Qed.
End disjoint.

(** *** Overlapping ranges that do not wrap around the address space *)
Section overlap.
Hypothesis Hdw : 0 <= dest /\ dest + Z.of_nat (length l) <= 4294967296.
Hypothesis Hsw : 0 <= src /\ src + Z.of_nat (length l) <= 4294967296.

(** Ascending: what is still to be read is above what has been written. *)
Lemma move_up :
  dest <= src ->
  wp m (for_loop 0 (length l) (λ i, KString.copy_byte (dest + i) (src + i)))
    (λ _ m', m' = poke dest l m).
Proof using All.
  intros Hle.
  eapply (wp_for (λ i m2, exists j : nat, i = Z.of_nat j /\ filled m dest l j m2)).
  - intros i m1 Hi (j & -> & Hf). destruct (lookup_lt_is_Some_2 l j ltac:(lia)) as [x Hx].
    pose proof (Forall_lookup_1 _ _ _ _ Hrange Hx). unfold KString.copy_byte.
    apply wp_bind. eapply (wp_ld8 _ _ x).
    { rewrite Hf, poke_out; [by apply Hsrc|]. intros k Hk. rewrite length_take in Hk.
      rewrite !u32_id by lia. lia. }
    eapply filled_byte; [exact Hmap|exact Hf|exact Hx|by apply u8_id|done|].
    intros m2 H2. exists (S j). split; [lia|done].
  - by exists O.
  - intros m1 (j & Hj & ->). f_equal. apply take_ge. lia.
Qed.

(** Descending: the last [j] bytes have been written. *)
Definition filled_down (j : nat) (m' : mem) : Prop :=
  m' = poke (dest + Z.of_nat (length l - j)) (drop (length l - j) l) m.

Lemma move_down_step j m' x :
  (j < length l)%nat -> filled_down j m' -> l !! (length l - S j)%nat = Some x ->
  filled_down (S j) (<[u32 (dest + Z.of_nat (length l - S j)) := x]> m').
Proof using Hdw Hlen.
  intros Hj -> Hx. unfold filled_down. rewrite (drop_S l x (length l - S j)) by done.
  cbn [poke]. replace (S (length l - S j)) with (length l - j)%nat by lia.
  replace (dest + Z.of_nat (length l - S j) + 1) with (dest + Z.of_nat (length l - j)) by lia.
  apply map_eq. intros a.
  destruct (decide (a = u32 (dest + Z.of_nat (length l - S j)))) as [->|Hne].
  - rewrite lookup_insert_eq, poke_out; [by rewrite lookup_insert_eq|].
    intros i Hi. rewrite length_drop in Hi. rewrite !u32_id by lia. lia.
  - rewrite lookup_insert_ne by done.
    destruct (in_range (dest + Z.of_nat (length l - j)) (length (drop (length l - j) l)) a)
      as [(i & Hi & <-)|Hn].
    + destruct (lookup_lt_is_Some_2 _ i Hi) as [y Hy].
      assert (Z.of_nat (length (drop (length l - j) l)) <= 4294967296) as Hd
        by (rewrite length_drop; lia).
      by rewrite (bytes_at_poke _ _ m Hd i y Hy), (bytes_at_poke _ _ _ Hd i y Hy).
    + rewrite !poke_out by done. by rewrite lookup_insert_ne.
Qed.

Lemma move_down :
  src < dest ->
  wp m (for_loop 0 (length l) (λ i, KString.copy_byte
          (u32 (dest + Z.of_nat (length l) - 1) - i) (u32 (src + Z.of_nat (length l) - 1) - i)))
    (λ _ m', m' = poke dest l m).
Proof using All.
  intros Hlt. eapply (wp_for (λ i m2, exists j : nat, i = Z.of_nat j /\ filled_down j m2)).
  - intros i m1 Hi (j & -> & Hf).
    destruct (lookup_lt_is_Some_2 l (length l - S j) ltac:(lia)) as [x Hx].
    pose proof (Forall_lookup_1 _ _ _ _ Hrange Hx). unfold KString.copy_byte.
    rewrite !u32_id by lia.
    replace (src + Z.of_nat (length l) - 1 - Z.of_nat j)
      with (src + Z.of_nat (length l - S j)) by lia.
    replace (dest + Z.of_nat (length l) - 1 - Z.of_nat j)
      with (dest + Z.of_nat (length l - S j)) by lia.
    apply wp_bind. eapply (wp_ld8 _ _ x).
    { rewrite Hf, poke_out; [by apply Hsrc|]. intros k Hk. rewrite length_drop in Hk.
      rewrite !u32_id by lia. lia. }
    eapply wp_st8.
    { rewrite Hf. exact (poke_mapped _ _ _ _ _ Hmap (length l - S j)%nat ltac:(lia)). }
    exists (S j). split; [lia|]. rewrite u8_id by done. apply move_down_step; [lia|done|done].
  - exists O. split; [done|]. unfold filled_down. by rewrite Nat.sub_0_r, drop_all.
  - intros m1 (j & Hj & ->). replace (length l - j)%nat with O by lia. by rewrite Z.add_0_r.
Qed.

Lemma memmove_spec :
  KString.memmove dest src (Z.of_nat (length l)) m = Ok (dest, poke dest l m).
Proof using All.
  apply wp_ok. unfold KString.memmove. rewrite (u32_id (Z.of_nat (length l))) by lia.
  rewrite Nat2Z.id. destruct (decide (length l = O)) as [H0|Hn].
  { rewrite H0. simpl. destruct l; [|done].
    unfold wp, mbind, M_bind. destruct (u32 dest <=? u32 src); by split. }
  rewrite (u32_id dest), (u32_id src) by lia.
  destruct (Z.leb_spec dest src).
  - eapply wp_seq; [by apply move_up|]. intros [] m' ->. by apply wp_ret.
  - eapply wp_seq; [by apply move_down|]. intros [] m' ->. by apply wp_ret.
Qed.
End overlap.
End copy.
