(* ===== verification/StringContract.v ===== *)
(** * The contract of the string routines

    The theorems about [lib/lib.c] and [lib/string.c], with the memories they
    are tried on. *)
From S2P Require Import Prelude Bytes KString UString StringProps MemProps.

(** Three strings and two buffers to try the theorems on. *)
Definition sample_mem : mem :=
  poke 100 (lit "rtc" ++ [0]) (poke 200 (lit "rtclock" ++ [0]) (poke 300 [0]
    (poke 400 (replicate 16 170) (poke 500 (replicate 16 187) ∅)))).

(** C38: [memcpy] copies [n] bytes exactly, whatever the alignment of the
    ranges, when they do not overlap; no other byte changes. *)
Theorem memcpy_correct m dest src l :
  bytes_at m src l -> mapped m dest (length l) -> Forall (λ b, 0 <= b < 256) l ->
  Z.of_nat (length l) < 4294967296 -> apart dest (length l) src (length l) ->
  KString.memcpy dest src (Z.of_nat (length l)) m = Ok (dest, poke dest l m).
Proof. intros. by apply memcpy_spec. Qed.

Lemma memcpy_correct_witness :
  KString.memcpy 403 201 6 sample_mem = Ok (403, poke 403 (lit "tclock") sample_mem).
Proof.
  apply (memcpy_correct sample_mem 403 201 (lit "tclock")).
  - apply bytes_atb_ok. vm_compute. reflexivity.
  - apply mappedb_ok. vm_compute. reflexivity.
  - apply (bool_decide_unpack _). vm_compute. exact I.
  - reflexivity.
  - apply apartb_ok. vm_compute. reflexivity.
Defined.

(** [memmove] copies [n] bytes exactly between ranges that may overlap
    in either direction (and do not wrap around the address space). *)
Theorem memmove_correct m dest src l :
  bytes_at m src l -> mapped m dest (length l) -> Forall (λ b, 0 <= b < 256) l ->
  Z.of_nat (length l) < 4294967296 ->
  0 <= dest /\ dest + Z.of_nat (length l) <= 4294967296 ->
  0 <= src /\ src + Z.of_nat (length l) <= 4294967296 ->
  KString.memmove dest src (Z.of_nat (length l)) m = Ok (dest, poke dest l m).
Proof. intros. by apply memmove_spec. Qed.

Lemma memmove_correct_witness :
  KString.memmove 202 200 6 sample_mem = Ok (202, poke 202 (lit "rtcloc") sample_mem).
Proof.
  apply (memmove_correct sample_mem 202 200 (lit "rtcloc")).
  - apply bytes_atb_ok. vm_compute. reflexivity.
  - apply mappedb_ok. vm_compute. reflexivity.
  - apply (bool_decide_unpack _). vm_compute. exact I.
  - reflexivity.
  - split; vm_compute; discriminate.
  - split; vm_compute; discriminate.
Defined.

(** [memset] writes [n] copies of the low byte of [c] and nothing else,
    whatever the alignment. *)
Theorem memset_correct m s c n :
  mapped m s (Z.to_nat n) -> 0 <= n < 4294967296 ->
  KString.memset s c n m = Ok (s, poke s (replicate (Z.to_nat n) (u8 c)) m).
Proof. intros. by apply memset_spec. Qed.

Lemma memset_correct_witness :
  KString.memset 501 (-1) 13 sample_mem = Ok (501, poke 501 (replicate 13 255) sample_mem).
Proof.
  apply (memset_correct sample_mem 501 (-1) 13).
  - apply mappedb_ok. vm_compute. reflexivity.
  - lia.
Defined.

(** C35: [atoi] reads back what [itoa] wrote in base 10, for every
    non-negative [int]. *)
Theorem itoa_atoi_roundtrip m v buf :
  0 <= v < 2147483648 -> mapped m buf 33 ->
  exists m', UString.itoa v buf 10 m = Ok (buf, m') /\ UString.atoi buf m' = Ok (v, m').
Proof.
  intros Hv Hm. pose proof (digits_of_ok 10 v ltac:(lia) ltac:(lia)) as [Hval Hds].
  assert (length (digits_of 10 v) <= 32)%nat as Hlen.
  { unfold digits_of. destruct (v =? 0); [simpl; lia|]. rewrite length_reverse.
    destruct (lows_ok 32 10 v) as (_ & _ & ? & _); [lia|lia|done]. }
  eexists. split.
  { apply itoa_user_spec; [lia|lia|]. intros i Hi. apply Hm. lia. }
  rewrite <-Hval at 2. apply atoi_spec; [|done|lia].
  assert (map digit (digits_of 10 v) = map (Z.add 48) (digits_of 10 v)) as Hd.
  { apply map_ext_Forall. eapply Forall_impl; [exact Hds|]. intros d Hd. by apply digit_decimal. }
  rewrite Hd. split_and!.
  - apply bytes_at_poke. rewrite length_app, length_map. simpl. lia.
  - apply Forall_map. eapply Forall_impl; [exact Hds|]. intros d Hd'. cbn beta in *. lia.
  - rewrite length_map. lia.
Qed.

Definition sample_buffer : mem := poke 600 (replicate 40 0) ∅.
Lemma itoa_atoi_roundtrip_witness :
  exists m', UString.itoa 391 600 10 sample_buffer = Ok (600, m') /\
    UString.atoi 600 m' = Ok (391, m').
Proof.
  apply (itoa_atoi_roundtrip sample_buffer 391 600).
  - lia.
  - apply mappedb_ok. vm_compute. reflexivity.
Defined.

(** [strncmp] is zero exactly when the first [n] characters agree;
    otherwise it is the difference of the first two that do not. *)
Theorem strncmp_correct m s1 s2 l1 l2 n :
  cstr m s1 l1 -> cstr m s2 l2 -> 0 <= n < 2147483648 ->
  exists x, KString.strncmp s1 s2 n m = Ok (x, m) /\
    (x = 0 <-> take (Z.to_nat n) l1 = take (Z.to_nat n) l2) /\
    (x <> 0 -> exists i, Z.of_nat i < n /\ differ_at l1 l2 i x).
Proof.
  intros H1 H2 Hn. pose proof (strncmp_spec m s1 s2 l1 l2 H1 H2 n Hn) as H.
  apply wp_iff in H as (x & m' & He & -> & Hcase). exists x. split; [done|].
  destruct H1 as (_ & Hl1 & _), H2 as (_ & Hl2 & _).
  destruct Hcase as [[-> Ht]|(i & Hi & Hd)]; [done|].
  split; [|intros _; by exists i]. split; intros Hx; exfalso.
  - by eapply differ_nonzero in Hd.
  - eapply differ_take in Hd; [|done..|]; [done|lia].
Qed.

Lemma strncmp_correct_witness :
  exists x, KString.strncmp 100 200 4 sample_mem = Ok (x, sample_mem) /\
    (x = 0 <-> take 4 (lit "rtc") = take 4 (lit "rtclock")) /\
    (x <> 0 -> exists i, Z.of_nat i < 4 /\ differ_at (lit "rtc") (lit "rtclock") i x).
Proof.
  apply (strncmp_correct sample_mem 100 200 (lit "rtc") (lit "rtclock") 4).
  - apply cstrb_ok. vm_compute. reflexivity.
  - apply cstrb_ok. vm_compute. reflexivity.
  - lia.
Defined.

(** [strcmp] is zero exactly when one string is a prefix of the other,
    not, as its comment says, when the strings are equal. *)
Theorem strcmp_prefix m s1 s2 l1 l2 :
  cstr m s1 l1 -> cstr m s2 l2 ->
  exists x, KString.strcmp s1 s2 m = Ok (x, m) /\
    (x = 0 <-> l1 `prefix_of` l2 \/ l2 `prefix_of` l1).
Proof. exact (strcmp_run m s1 s2 l1 l2). Qed.

Lemma strcmp_prefix_witness :
  exists x, KString.strcmp 100 200 sample_mem = Ok (x, sample_mem) /\
    (x = 0 <-> lit "rtc" `prefix_of` lit "rtclock" \/ lit "rtclock" `prefix_of` lit "rtc").
Proof.
  apply (strcmp_prefix sample_mem 100 200).
  - apply cstrb_ok. vm_compute. reflexivity.
  - apply cstrb_ok. vm_compute. reflexivity.
Defined.

(** The kernel's [strrev] reverses every string in place; the user
    library's does so only for a non-empty one: on the empty string its
    unsigned index wraps around and the byte before the string is read. *)
Theorem strrev_correct m p l :
  cstr m p l ->
  KString.strrev p m = Ok (p, poke p (reverse l) m) /\
  (l <> [] -> UString.strrev p m = Ok (p, poke p (reverse l) m)) /\
  (l = [] -> m !! u32 (p - 1) = None -> UString.strrev p m = Bad Undef).
Proof.
  intros Hc. split_and!.
  - by apply strrev_kernel_spec.
  - by apply strrev_user_spec.
  - intros -> Hn. unfold UString.strrev. erewrite bind_ok by (by apply (strlen_spec m p [])).
    erewrite bind_ok by reflexivity. apply bind_bad, iter_bad. by apply strrev_body_empty.
Qed.

Lemma strrev_correct_witness :
  KString.strrev 300 sample_mem = Ok (300, poke 300 (reverse []) sample_mem) /\
  (@nil Z <> [] -> UString.strrev 300 sample_mem = Ok (300, poke 300 (reverse []) sample_mem)) /\
  ([] = @nil Z -> sample_mem !! u32 (300 - 1) = None -> UString.strrev 300 sample_mem = Bad Undef).
Proof.
  apply (strrev_correct sample_mem 300 []). apply cstrb_ok. vm_compute. reflexivity.
Defined.
