(* ===== verification/Cfs.v ===== *)
(** * The fair scheduler: [student-distrib/kernel/cfs.c], [include/pro/cfs.h]

    The run queue [rq], the scheduling entities ([sched_t], by address) and the
    fields of [thread_t] the scheduler reads and writes.  A [sched_t] begins
    with its tree node, so the entity and its [rb_node] have one address
    ([sched_of] is the identity); it lies 28 bytes into its [thread_t]. *)
From S2P Require Import Prelude RbTree.

(** ** Constants *)
Definition TARGET_LATENCY : Z := 5000000.
Definition WAKEUP_GRANULARITY : Z := 1000000.
Definition NR_LATENCY : Z := TARGET_LATENCY / WAKEUP_GRANULARITY.
Definition NICE_0_LOAD : Z := 1024.
Definition MIN_GRANULARITY : Z := 1000000.
Definition WMULT_SHIFT : Z := 32.
Definition NEED_RESCHED : Z := 1.
Definition WAKEUP : Z := 2.

Definition sched_prio_to_weight : list Z := [
  88761; 71755; 56483; 46273; 36291;
  29154; 23254; 18705; 14949; 11916;
  9548; 7620; 6100; 4904; 3906;
  3121; 2501; 1991; 1586; 1277;
  1024; 820; 655; 526; 423;
  335; 272; 215; 172; 137;
  110; 87; 70; 56; 45;
  36; 29; 23; 18; 15].
Definition sched_prio_to_wmult : list Z := [
  48388; 59856; 76040; 92818; 118348;
  147320; 184698; 229616; 287308; 360437;
  449829; 563644; 704093; 875809; 1099582;
  1376151; 1717300; 2157191; 2708050; 3363326;
  4194304; 5237765; 6557202; 8165337; 10153587;
  12820798; 15790321; 19976592; 24970740; 31350126;
  39045157; 49367440; 61356676; 76695844; 95443717;
  119304647; 148102320; 186737708; 238609294; 286331153].

(** ** Data *)
Record weight_t := Weight { weight : Z; inv_weight : Z }.

Record sched_t := Sched {
  load : weight_t;
  vruntime : Z;
  exec_start : Z;
  sum_exec_time : Z;
  prev_sum_exec_time : Z;
  on_rq : Z
}.

Inductive pro_state := UNUSED | RUNNING | RUNNABLE | SLEEPING | EXITED | ZOMIBIE.

Record thread_t := Thread {
  state : pro_state;
  flag : Z;
  nice : Z;
  console_id : Z
}.

(** [cfs_rq], the threads, the console's task ([current->task]; [current] is
    null until the terminals are up), the running thread and the interrupt
    flag of the processor. *)
Record cfs_rq := Cfs {
  rq_load : weight_t;
  nr_running : Z;
  min_vruntime_of : Z;
  clock : Z;
  rq_tree : rb_state;
  left_most : Z;
  rq_current : Z;
  scheds : gmap Z sched_t;
  threads : gmap Z thread_t;
  console_task : option Z;
  cpu_thread : Z;
  cpu_if : bool
}.

(** One function per assigned field. *)
Definition with_rq_load w s := Cfs w (nr_running s) (min_vruntime_of s) (clock s) (rq_tree s)
  (left_most s) (rq_current s) (scheds s) (threads s) (console_task s) (cpu_thread s) (cpu_if s).
Definition with_nr n s := Cfs (rq_load s) n (min_vruntime_of s) (clock s) (rq_tree s)
  (left_most s) (rq_current s) (scheds s) (threads s) (console_task s) (cpu_thread s) (cpu_if s).
Definition with_min v s := Cfs (rq_load s) (nr_running s) v (clock s) (rq_tree s)
  (left_most s) (rq_current s) (scheds s) (threads s) (console_task s) (cpu_thread s) (cpu_if s).
Definition with_tree t s := Cfs (rq_load s) (nr_running s) (min_vruntime_of s) (clock s) t
  (left_most s) (rq_current s) (scheds s) (threads s) (console_task s) (cpu_thread s) (cpu_if s).
Definition with_left_most p s := Cfs (rq_load s) (nr_running s) (min_vruntime_of s) (clock s) (rq_tree s)
  p (rq_current s) (scheds s) (threads s) (console_task s) (cpu_thread s) (cpu_if s).
Definition with_current p s := Cfs (rq_load s) (nr_running s) (min_vruntime_of s) (clock s) (rq_tree s)
  (left_most s) p (scheds s) (threads s) (console_task s) (cpu_thread s) (cpu_if s).
Definition with_scheds m s := Cfs (rq_load s) (nr_running s) (min_vruntime_of s) (clock s) (rq_tree s)
  (left_most s) (rq_current s) m (threads s) (console_task s) (cpu_thread s) (cpu_if s).
Definition with_threads m s := Cfs (rq_load s) (nr_running s) (min_vruntime_of s) (clock s) (rq_tree s)
  (left_most s) (rq_current s) (scheds s) m (console_task s) (cpu_thread s) (cpu_if s).
Definition with_console_task c s := Cfs (rq_load s) (nr_running s) (min_vruntime_of s) (clock s) (rq_tree s)
  (left_most s) (rq_current s) (scheds s) (threads s) c (cpu_thread s) (cpu_if s).
Definition with_cpu p s := Cfs (rq_load s) (nr_running s) (min_vruntime_of s) (clock s) (rq_tree s)
  (left_most s) (rq_current s) (scheds s) (threads s) (console_task s) p (cpu_if s).
Definition with_if b s := Cfs (rq_load s) (nr_running s) (min_vruntime_of s) (clock s) (rq_tree s)
  (left_most s) (rq_current s) (scheds s) (threads s) (console_task s) (cpu_thread s) b.

Abbreviation K := (M cfs_rq).

(** ** Access *)
Definition SCHED_OFFSET : Z := 28.
Definition sched_of (p : Z) : Z := p.
Definition task_of (s : Z) : Z := s - SCHED_OFFSET.
Definition sched_info (t : Z) : Z := t + SCHED_OFFSET.

Definition get_sched (p : Z) : K sched_t :=
  gets_opt (λ s, if p =? NULL then None else scheds s !! p).
Definition upd_sched (p : Z) (f : sched_t -> sched_t) : K unit :=
  e ← get_sched p; modify (λ s, with_scheds (<[p := f e]> (scheds s)) s).
Definition get_thread (t : Z) : K thread_t :=
  gets_opt (λ s, if t =? NULL then None else threads s !! t).
Definition upd_thread (t : Z) (f : thread_t -> thread_t) : K unit :=
  th ← get_thread t; modify (λ s, with_threads (<[t := f th]> (threads s)) s).

Definition set_vruntime v e := Sched (load e) v (exec_start e) (sum_exec_time e) (prev_sum_exec_time e) (on_rq e).
Definition set_exec_start v e := Sched (load e) (vruntime e) v (sum_exec_time e) (prev_sum_exec_time e) (on_rq e).
Definition set_sum v e := Sched (load e) (vruntime e) (exec_start e) v (prev_sum_exec_time e) (on_rq e).
Definition set_prev_sum v e := Sched (load e) (vruntime e) (exec_start e) (sum_exec_time e) v (on_rq e).
Definition set_on_rq v e := Sched (load e) (vruntime e) (exec_start e) (sum_exec_time e) (prev_sum_exec_time e) v.
Definition set_load w e := Sched w (vruntime e) (exec_start e) (sum_exec_time e) (prev_sum_exec_time e) (on_rq e).
Definition set_state v th := Thread v (flag th) (nice th) (console_id th).
Definition set_flag v th := Thread (state th) v (nice th) (console_id th).

(** The red-black tree of the queue. *)
Definition on_tree {A} (m : M rb_state A) : K A := zoom rq_tree with_tree m.

(** ** Arithmetic *)
Definition max_vruntime (min_v v : Z) : Z :=
  let delta := i64 (u64 (v - min_v)) in if 0 <? delta then v else min_v.
Definition min_vruntime (min_v v : Z) : Z :=
  let delta := i64 (u64 (v - min_v)) in if delta <? 0 then v else min_v.

Definition add_load (from to : weight_t) : weight_t :=
  Weight (u32 (weight to + weight from)) (u32 (inv_weight to + inv_weight from)).
Definition sub_load (from to : weight_t) : weight_t :=
  Weight (u32 (weight to - weight from)) (u32 (inv_weight to - inv_weight from)).

Definition nice_to_index (n : Z) : Z := i32 (n + 20).

(** [mul_u64_u32_shr]; a shift count above 63 has no meaning in C. *)
Definition mul_u64_u32_shr (a mul shift : Z) : option Z :=
  if (shift <? 0) || (63 <? shift) || (32 <? shift) && negb (u32 (Z.shiftr a 32) =? 0) then None
  else
    let al := u32 a in
    let ah := u32 (Z.shiftr a 32) in
    let ret := Z.shiftr (u64 (al * mul)) shift in
    Some (if negb (ah =? 0)
          then u64 (ret + u64 (Z.shiftl (u64 (ah * mul)) (32 - shift)))
          else ret).

(** [while (fact >> 32) { fact >>= 1; shift--; }]: at most 32 iterations on
    a 64-bit [fact]. *)
Fixpoint norm_fact (fuel : nat) (fact shift : Z) : Z * Z :=
  match fuel with
  | O => (fact, shift)
  | S n => if Z.shiftr fact 32 =? 0 then (fact, shift)
           else norm_fact n (Z.shiftr fact 1) (shift - 1)
  end.

Definition __calc_delta_vruntime (delta w : Z) (ld : weight_t) : option Z :=
  let '(fact, shift) := norm_fact 64 w WMULT_SHIFT in
  let '(fact, shift) := norm_fact 64 (u64 (u32 fact * inv_weight ld)) shift in
  mul_u64_u32_shr delta (u32 fact) (u32 shift).

Definition calc_delta_vruntime (delta : Z) (e : sched_t) : option Z :=
  if negb (weight (load e) =? NICE_0_LOAD) then __calc_delta_vruntime delta NICE_0_LOAD (load e)
  else Some delta.

Definition sched_period (nr : Z) : Z :=
  if NR_LATENCY <? nr then u64 (MIN_GRANULARITY * nr) else TARGET_LATENCY.

Definition some {A} (o : option A) : K A := gets_opt (λ _, o).

Definition timeslice (s : Z) : K Z :=
  e ← get_sched s;
  nr ← gets nr_running;
  ld ← gets rq_load;
  let slice := sched_period (u32 (nr + (if on_rq e =? 0 then 1 else 0))) in
  let rq_ld := if on_rq e =? 0 then add_load (load e) ld else ld in
  some (__calc_delta_vruntime slice (weight (load e)) rq_ld).

Definition vtimeslice (s : Z) : K Z :=
  ts ← timeslice s;
  e ← get_sched s;
  some (calc_delta_vruntime ts e).

(** ** Virtual time *)
Definition update_min_vruntime : K unit :=
  mn ← gets min_vruntime_of;
  cur ← gets rq_current;
  v ← (if negb (cur =? NULL) then e ← get_sched cur; mret (vruntime e) else mret mn);
  lm ← gets left_most;
  v ← (if negb (lm =? NULL) then
         e ← get_sched (sched_of lm);
         mret (if cur =? NULL then vruntime e else min_vruntime v (vruntime e))
       else mret v);
  modify (with_min (max_vruntime mn v)).

Definition update_curr : K unit :=
  cur ← gets rq_current;
  now ← gets clock;
  if cur =? NULL then mret () else
  e ← get_sched cur;
  let delta := u64 (now - exec_start e) in
  if i64 delta <=? 0 then mret () else
  upd_sched cur (λ e, set_sum (u64 (sum_exec_time e + delta)) e) ;;
  upd_sched cur (set_exec_start now) ;;
  e ← get_sched cur;
  d ← some (calc_delta_vruntime delta e);
  upd_sched cur (λ e, set_vruntime (u64 (vruntime e + d)) e) ;;
  update_min_vruntime.

Definition set_load_weight (s : Z) (n : Z) : K unit :=
  let i := nice_to_index n in
  w ← some (if i <? 0 then None else sched_prio_to_weight !! Z.to_nat i);
  iw ← some (if i <? 0 then None else sched_prio_to_wmult !! Z.to_nat i);
  upd_sched s (set_load (Weight w iw)).

Definition place_entity (s : Z) (new_task : bool) : K unit :=
  mn ← gets min_vruntime_of;
  v ← (if new_task then d ← vtimeslice s; mret (u64 (mn + d))
       else mret (u64 (mn - Z.shiftr TARGET_LATENCY 1)));
  upd_sched s (λ e, set_vruntime (max_vruntime (vruntime e) v) e).

(** ** The queue *)
Definition sched_key (s : Z) : K Z := e ← get_sched s; mret (vruntime e).

(** The loop of [__enqueue_entity]; its state is [(link, parent, left_most)]. *)
Definition enqueue_body (key : Z) (x : rb_link * Z * bool) : K ((rb_link * Z * bool) + (rb_link * Z * bool)) :=
  let '(link, parent, lm) := x in
  p ← on_tree (read_link link);
  if p =? NULL then mret (inr (link, parent, lm)) else
  k ← sched_key (sched_of p);
  mret (if key <? k then inl (LinkLeft p, p, lm) else inl (LinkRight p, p, false)).

Definition __enqueue_entity (s : Z) : K unit :=
  key ← sched_key s;
  fuel ← gets (λ s, rb_fuel (rq_tree s));
  x ← iter fuel (enqueue_body key) (LinkRoot, NULL, true);
  let '(link, parent, lm) := x in
  when lm (modify (with_left_most s)) ;;
  on_tree (rb_link_node s parent link) ;;
  on_tree (rb_insert_color s) ;;
  upd_sched s (set_on_rq 1) ;;
  nr ← gets nr_running;
  modify (with_nr (u32 (nr + 1))).

Definition __dequeue_entity (s : Z) : K unit :=
  lm ← gets left_most;
  when (lm =? s) (next ← on_tree (rb_next s); modify (with_left_most next)) ;;
  nr ← gets nr_running;
  modify (with_nr (u32 (nr - 1))) ;;
  on_tree (rb_erase s).

Definition enqueue_entity (s : Z) (wakeup : bool) : K unit :=
  update_curr ;;
  e ← get_sched s;
  ld ← gets rq_load;
  modify (with_rq_load (add_load (load e) ld)) ;;
  when wakeup (place_entity s false) ;;
  cur ← gets rq_current;
  when (negb (cur =? s)) (__enqueue_entity s).

Definition enqueue_task (new : Z) (wakeup : bool) : K unit :=
  let s := sched_info new in
  e ← get_sched s;
  if negb (on_rq e =? 0) then mret () else enqueue_entity s wakeup.

Definition dequeue_entity (prev : Z) : K unit :=
  update_curr ;;
  cur ← gets rq_current;
  when (negb (prev =? cur)) (__dequeue_entity prev) ;;
  e ← get_sched prev;
  ld ← gets rq_load;
  modify (with_rq_load (sub_load (load e) ld)).

Definition dequeue_task (prev : Z) : K unit :=
  let s := sched_info prev in
  dequeue_entity s ;;
  modify (with_current NULL) ;;
  upd_sched s (set_on_rq 0).

Definition put_prev_task (prev : Z) : K unit :=
  e ← get_sched prev;
  when (negb (on_rq e =? 0)) (update_curr ;; __enqueue_entity prev) ;;
  modify (with_current NULL).

Definition pick_next_entity : K Z :=
  lm ← gets left_most;
  if lm =? NULL then mret NULL else mret (sched_of lm).

(** [pause] enables interrupts and halts for ever; [swapper] calls it. *)
Definition pause : K unit := modify (with_if true) ;; raise Halted.
Definition swapper : K unit := pause.

Definition pick_next_task (curr : Z) : K Z :=
  nr ← gets nr_running;
  when (nr =? 0) swapper ;;
  put_prev_task curr ;;
  next ← pick_next_entity;
  __dequeue_entity next ;;
  modify (with_current next) ;;
  now ← gets clock;
  upd_sched next (set_exec_start now) ;;
  upd_sched next (λ e, set_prev_sum (sum_exec_time e) e) ;;
  mret (task_of next).

(** ** Preemption *)
Definition check_preempt_new (curr new : Z) : K Z :=
  c ← get_sched curr;
  n ← get_sched new;
  let delta := i64 (u64 (vruntime c - vruntime n)) in
  mret (if delta <=? 0 then -1
        else if WAKEUP_GRANULARITY <? u64 delta then 1 else 0).

Definition check_preempt_tick (curr : Z) : K Z :=
  ideal ← timeslice curr;
  e ← get_sched curr;
  let delta := u64 (sum_exec_time e - prev_sum_exec_time e) in
  if ideal <? delta then mret 1 else
  if delta <? MIN_GRANULARITY then mret 0 else
  mn ← gets min_vruntime_of;
  let delta := u64 (vruntime e - mn) in
  if delta <? 0 then mret 0 else
  if ideal <? delta then mret 1 else mret 0.

Definition task_tick (curr : Z) : K unit :=
  let s := sched_info curr in
  update_curr ;;
  nr ← gets nr_running;
  when (negb (nr =? 0))
    (r ← check_preempt_tick s;
     when (r =? 1) (upd_thread curr (set_flag NEED_RESCHED))).

(** ** Scheduling *)
Definition sched_fork (task : Z) : K unit :=
  curr ← gets rq_current;
  let new := sched_info task in
  th ← get_thread task;
  set_load_weight new (nice th) ;;
  when (negb (curr =? NULL))
    (update_curr ;;
     c ← get_sched curr;
     upd_sched new (set_vruntime (vruntime c))) ;;
  place_entity new true ;;
  upd_thread task (set_state RUNNABLE).

Definition activate_task (task : Z) : K unit := enqueue_task task false.

Definition wakeup_preempt (task : Z) : K unit :=
  cur ← gets rq_current;
  r ← check_preempt_new cur (sched_info task);
  when (r =? 1) (upd_thread task (set_flag NEED_RESCHED)).

(** [context_switch] gives the processor to [next]. *)
Definition context_switch (prev next : Z) : K unit := modify (with_cpu next).

Definition is_running (st : pro_state) : bool := match st with RUNNING => true | _ => false end.

Definition __schedule (curr : Z) : K unit :=
  flags ← gets cpu_if;
  modify (with_if false) ;;
  next ← pick_next_task (sched_info curr);
  when (negb (curr =? next))
    (c ← get_thread curr;
     when (is_running (state c)) (upd_thread curr (set_state RUNNABLE)) ;;
     upd_thread next (set_state RUNNING) ;;
     modify (with_current (sched_info next)) ;;
     c ← get_thread curr;
     n ← get_thread next;
     when (console_id c =? console_id n)
       (_ ← gets_opt console_task; modify (with_console_task (Some next))) ;;
     context_switch curr next) ;;
  modify (with_if flags).

(** [GETPRO] finds the running thread from the stack pointer. *)
Definition schedule : K unit :=
  curr ← gets cpu_thread;
  upd_thread curr (set_flag 0) ;;
  __schedule curr.

Definition sched_wakeup (from task : Z) : K unit :=
  upd_thread task (set_flag WAKEUP) ;;
  ct ← gets_opt console_task;
  when (task =? ct)
    (upd_thread task (set_state RUNNABLE) ;; enqueue_task task true) ;;
  __schedule from.

Definition sched_exit (child parent : Z) : K unit :=
  upd_sched (sched_info child) (set_on_rq 0) ;;
  upd_thread child (set_state EXITED) ;;
  sched_wakeup child parent.

Definition sched_sleep (task : Z) : K unit :=
  upd_sched (sched_info task) (set_on_rq 0) ;;
  upd_thread task (set_state SLEEPING) ;;
  __schedule task.
