(* ===== verification/CfsQueue.v ===== *)
(** * The run queue as a sorted list

    What the red-black tree, the cached leftmost node and the counter of
    [cfs.c] represent together, and what inserting and removing an entity do
    to it. *)
From stdpp Require Import sorting.
From S2P Require Import Prelude RbTree RbInv RbRotate RbInsert RbWalk RbErase RbDelete Cfs.

(** The key of an entity. *)
Definition key_of (m : gmap Z sched_t) (a : Z) : Z := default 0 (vruntime <$> m !! a).
Definition key_le (m : gmap Z sched_t) (a b : Z) : Prop := key_of m a <= key_of m b.

(** The run queue holds the entities [L], sorted by virtual runtime. *)
Record Queue (s : cfs_rq) (L : list Z) : Prop := {
  q_tree : exists t, Rep (rb_nodes (rq_tree s)) (rq_tree s) t /\ rbtree t /\ inorder t = L;
  q_sorted : StronglySorted (key_le (scheds s)) L;
  q_scheds : Forall (λ a, is_Some (scheds s !! a)) L;
  q_left : left_most s = hd NULL L;
  q_nr : nr_running s = Z.of_nat (length L) /\ Z.of_nat (length L) < 4294967295
}.
(** Every entity has its node in memory, at a node's address. *)
Definition entities (s : cfs_rq) : Prop :=
  forall a, is_Some (scheds s !! a) -> addr a /\ is_Some (rb_nodes (rq_tree s) !! a).

(** The list with [a] put after the entities whose key is not greater. *)
Fixpoint insert_by (m : gmap Z sched_t) (k : Z) (a : Z) (L : list Z) : list Z :=
  match L with
  | [] => [a]
  | b :: L' => if k <? key_of m b then a :: b :: L' else b :: insert_by m k a L'
  end.

(** ** Lists *)
Lemma insert_by_split m k a L1 L2 :
  Forall (λ b, key_of m b <= k) L1 -> Forall (λ b, k < key_of m b) L2 ->
  insert_by m k a (L1 ++ L2) = L1 ++ a :: L2.
Proof.
  induction L1 as [|b L1 IH]; intros H1 H2; cbn [app insert_by].
  - destruct L2 as [|b L2]; [done|]. apply Forall_cons in H2 as [Hb _].
    cbn [insert_by]. by rewrite (proj2 (Z.ltb_lt _ _)).
  - apply Forall_cons in H1 as [Hb H1]. rewrite (proj2 (Z.ltb_ge _ _)) by done. by rewrite IH.
Qed.

Lemma insert_by_perm m k a L : insert_by m k a L ≡ₚ a :: L.
Proof.
  induction L as [|b L IH]; simpl; [done|]. destruct (k <? key_of m b); [done|].
  rewrite IH. apply Permutation_swap.
Qed.

Lemma StronglySorted_app_iff {A} (R : A -> A -> Prop) l k :
  StronglySorted R (l ++ k) <->
  StronglySorted R l /\ StronglySorted R k /\ Forall (λ x, Forall (R x) k) l.
Proof.
  induction l as [|x l IH]; simpl.
  - split; [intros H; split_and!; [constructor|done|constructor]|tauto].
  - split.
    + intros H. apply StronglySorted_inv in H as [H Hx]. apply IH in H as (H1 & H2 & H3).
      apply Forall_app in Hx as [Hx1 Hx2]. split_and!; [by constructor|done|by constructor].
    + intros (H1 & H2 & H3). apply StronglySorted_inv in H1 as [H1 Hx].
      apply Forall_cons in H3 as [H3x H3]. constructor; [by apply IH|by apply Forall_app].
Qed.

Lemma sorted_ext m m' L :
  (forall a, a ∈ L -> key_of m' a = key_of m a) ->
  StronglySorted (key_le m) L -> StronglySorted (key_le m') L.
Proof.
  intros Hk H. induction H as [|a L HL IH Ha]; [constructor|].
  constructor; [apply IH; set_solver|]. apply Forall_forall. intros b Hb.
  rewrite Forall_forall in Ha. unfold key_le. rewrite !Hk by set_solver. by apply Ha.
Qed.

Lemma insert_by_sorted m a L :
  StronglySorted (key_le m) L -> StronglySorted (key_le m) (insert_by m (key_of m a) a L).
Proof.
  induction 1 as [|b L HL IH Hb]; cbn [insert_by]; [by repeat constructor|].
  destruct (Z.ltb_spec (key_of m a) (key_of m b)); constructor; [by constructor| |exact IH|].
  - constructor; [unfold key_le; lia|]. eapply Forall_impl; [exact Hb|]. unfold key_le. intros; lia.
  - rewrite insert_by_perm. constructor; [unfold key_le; lia|done].
Qed.

(** Changes of an entity other than to its virtual runtime. *)
Lemma key_of_insert m a e e' : m !! a = Some e -> vruntime e' = vruntime e ->
  forall b, key_of (<[a := e']> m) b = key_of m b.
Proof.
  intros He Hv b. unfold key_of.
  destruct (decide (b = a)) as [->|]; [rewrite lookup_insert_eq, He; simpl; done|by rewrite lookup_insert_ne].
Qed.
Lemma known_insert (m : gmap Z sched_t) a e b : is_Some (m !! b) -> is_Some (<[a := e]> m !! b).
Proof. intros Hb. destruct (decide (b = a)) as [->|]; [by rewrite lookup_insert_eq|by rewrite lookup_insert_ne]. Qed.

Lemma sorted_remove m L1 a L2 :
  StronglySorted (key_le m) (L1 ++ a :: L2) -> StronglySorted (key_le m) (L1 ++ L2).
Proof.
  rewrite !StronglySorted_app_iff. intros (H1 & H2 & H3). apply StronglySorted_inv in H2 as [H2 _].
  split_and!; [done|done|]. eapply Forall_impl; [exact H3|]. intros b Hb. by apply Forall_cons in Hb as [_ Hb].
Qed.

(** ** Access rules *)
Section rules.
Implicit Types (s : cfs_rq).

Lemma wp_get_sched s p e (Q : sched_t -> cfs_rq -> Prop) :
  scheds s !! p = Some e -> p <> NULL -> Q e s -> wp s (get_sched p) Q.
Proof.
  intros H Hp HQ. unfold get_sched. eapply wp_gets_opt; [|exact HQ].
  by rewrite (proj2 (Z.eqb_neq _ _)) by done.
Qed.
Lemma wp_upd_sched s p f e (Q : unit -> cfs_rq -> Prop) :
  scheds s !! p = Some e -> p <> NULL -> Q tt (with_scheds (<[p := f e]> (scheds s)) s) ->
  wp s (upd_sched p f) Q.
Proof. intros. unfold upd_sched. apply wp_bind. eapply wp_get_sched; [done..|]. done. Qed.
Lemma wp_on_tree {A} s (m : M rb_state A) Q :
  wp (rq_tree s) m (λ a t, Q a (with_tree t s)) -> wp s (on_tree m) Q.
Proof. apply wp_zoom. Qed.

(** Two operations on the tree, run as one. *)
Lemma wp_on_tree_seq {A} s (m1 m2 : M rb_state unit) t (m : M cfs_rq A) Q :
  (m1 ;; m2) (rq_tree s) = Ok (tt, t) -> wp (with_tree t s) m Q -> wp s (on_tree m1 ;; on_tree m2 ;; m) Q.
Proof.
  intros Hrun Hm. unfold wp, mbind, M_bind, on_tree, zoom in *.
  destruct (m1 (rq_tree s)) as [[[] t1]|f]; [|done]. cbn [rq_tree with_tree]. rewrite Hrun. destruct s; exact Hm.
Qed.

Lemma wp_read_link h0 (s : rb_state) k t (Q : Z -> rb_state -> Prop) :
  Rep h0 s (plug k t) -> Q (ptr t) s -> wp s (read_link (klink k)) Q.
Proof.
  intros HR HQ. destruct k as [|[c a r|c l a] k]; simpl.
  - apply wp_gets. by rewrite (Rep_root _ _ _ HR).
  - apply wp_bind. eapply (wp_deref_at h0 s k c t a r); [exact HR|]. by apply wp_ret.
  - apply wp_bind. eapply (wp_deref_at h0 s k c l a t); [exact HR|]. by apply wp_ret.
Qed.
End rules.

(** The tree in memory, with the frame it has now. *)
Lemma Rep_self h0 s t : Rep h0 s t -> Rep (rb_nodes s) s t.
Proof. intros [H1 H2 H3 H4 _]. by constructor. Qed.

Lemma Rep_in h0 s t a : Rep h0 s t -> a ∈ inorder t -> is_Some (rb_nodes s !! a) /\ a <> NULL.
Proof.
  intros HR Ha. destruct (inorder_focus t a Ha) as (k & c & l & r & ->).
  pose proof (Rep_lookup _ _ _ _ _ _ _ HR) as (H & Hn & _). by split; [eexists|].
Qed.

(** ** Insertion *)
Section enqueue.
Context (s : cfs_rq) (L : list Z) (a : Z) (e : sched_t).
Hypothesis HQ : Queue s L.
Hypothesis HE : entities s.
Hypothesis He : scheds s !! a = Some e.
Hypothesis Ha : a ∉ L.
Hypothesis Hlen : Z.of_nat (length L) < 4294967294.
Let key := vruntime e.

(** The descent: what lies left of the focus is not above the key, what lies
    right of it is above. *)
Definition descent (i : nat) (x : rb_link * Z * bool) (s' : cfs_rq) : Prop :=
  s' = s /\ exists k t, Rep (rb_nodes (rq_tree s)) (rq_tree s) (plug k t) /\
    rbtree (plug k t) /\ inorder (plug k t) = L /\
    Forall (λ b, key_of (scheds s) b <= key) (kleft k) /\
    Forall (λ b, key < key_of (scheds s) b) (kright k) /\
    x = (klink k, kaddr k, bool_decide (kleft k = [])) /\ i = length (inorder t).

Definition descended (x : rb_link * Z * bool) (s' : cfs_rq) : Prop :=
  s' = s /\ exists k, Rep (rb_nodes (rq_tree s)) (rq_tree s) (plug k E) /\ rbtree (plug k E) /\
    inorder (plug k E) = L /\ Forall (λ b, key_of (scheds s) b <= key) (kleft k) /\
    Forall (λ b, key < key_of (scheds s) b) (kright k) /\
    x = (klink k, kaddr k, bool_decide (kleft k = [])).

Lemma sorted_left_of k c l p r :
  inorder (plug k (T c l p r)) = L ->
  Forall (λ b, key_of (scheds s) b <= key_of (scheds s) p) (kleft k ++ inorder l) /\
  Forall (λ b, key_of (scheds s) p <= key_of (scheds s) b) (inorder r ++ kright k).
Proof using All.
  intros HL. pose proof (q_sorted _ _ HQ) as Hs. rewrite <-HL, inorder_plug in Hs.
  cbn [inorder] in Hs. rewrite <-app_assoc, app_assoc in Hs. cbn [app] in Hs.
  apply StronglySorted_app_iff in Hs as (_ & H2 & H3). apply StronglySorted_inv in H2 as [_ H2].
  split; [|exact H2]. eapply Forall_impl; [exact H3|]. intros b Hb. by apply Forall_cons in Hb as [Hb _].
Qed.

Lemma enqueue_body_spec i x s' :
  descent i x s' ->
  wp s' (enqueue_body key x) (λ r s2, match r with
    | inl y => exists j, (j < i)%nat /\ descent j y s2
    | inr y => descended y s2
    end).
Proof using All.
  intros (-> & k & t & HR & Hrb & HL & Hkl & Hkr & -> & ->). unfold enqueue_body.
  apply wp_bind. apply wp_on_tree. eapply wp_read_link; [exact HR|].
  replace (with_tree (rq_tree s) s) with s by (by destruct s).
  destruct t as [|c l p r]; cbn [ptr].
  { rewrite Z.eqb_refl. apply wp_ret. split; [done|]. by exists k. }
  pose proof (Rep_lookup _ _ _ _ _ _ _ HR) as (_ & Hp & _).
  rewrite (proj2 (Z.eqb_neq _ _)) by done.
  assert (p ∈ L) as HpL by (rewrite <-HL, inorder_plug; set_solver).
  pose proof (q_scheds _ _ HQ) as Hsc. rewrite Forall_forall in Hsc.
  destruct (Hsc p HpL) as [ep Hep]. unfold sched_key, sched_of.
  apply wp_bind, wp_bind. eapply wp_get_sched; [done..|]. apply wp_ret, wp_ret.
  assert (key_of (scheds s) p = vruntime ep) as Hkp by (unfold key_of; by rewrite Hep).
  destruct (sorted_left_of _ _ _ _ _ HL) as [Hl Hr]. rewrite Hkp in Hl, Hr.
  destruct (Z.ltb_spec key (vruntime ep)) as [Hlt|Hge].
  - exists (length (inorder l)). split; [simpl; rewrite length_app; simpl; lia|].
    split; [done|]. exists (FL c p r :: k), l. split; [done|]. split; [done|]. split; [done|].
    split; [done|]. split; [|done]. cbn [kright]. apply Forall_cons. split; [by rewrite Hkp|].
    eapply Forall_impl; [exact Hr|]. cbn beta. intros; lia.
  - exists (length (inorder r)). split; [simpl; rewrite length_app; simpl; lia|].
    split; [done|]. exists (FR c l p :: k), r. split; [done|]. split; [done|]. split; [done|].
    split; [|split; [done|split; [|done]]].
    + cbn [kleft]. rewrite app_assoc. apply Forall_app. split.
      * eapply Forall_impl; [exact Hl|]. cbn beta. intros; lia.
      * apply Forall_singleton. by rewrite Hkp.
    + cbn [klink kaddr faddr kleft]. repeat f_equal. symmetry. apply bool_decide_eq_false.
      intros H. apply (f_equal length) in H. rewrite !length_app in H. simpl in H. lia.
Qed.

(** [__enqueue_entity]: the entity goes to its place, the cached leftmost
    node and the counter follow. *)
Definition enqueued (s' : cfs_rq) : Prop :=
  exists t, s' = with_nr (nr_running s + 1) (with_scheds (<[a := set_on_rq 1 e]> (scheds s))
      (with_tree t (with_left_most (hd NULL (insert_by (scheds s) key a L)) s))) /\
    Queue s' (insert_by (scheds s) key a L) /\ entities s'.

(** The end of it: the tree with the entity, the counter and [on_rq]. *)
Lemma enqueued_end tr t' :
  Rep (rb_nodes (rq_tree s)) t' tr -> rbtree tr -> inorder tr = insert_by (scheds s) key a L ->
  enqueued (with_nr (nr_running s + 1) (with_scheds (<[a := set_on_rq 1 e]> (scheds s))
    (with_tree t' (with_left_most (hd NULL (insert_by (scheds s) key a L)) s)))).
Proof using All.
  intros HR Hrb HL. destruct HQ as [_ Hso Hsc _ [Hnr _]]. exists t'. split; [done|].
  pose proof (key_of_insert (scheds s) a e (set_on_rq 1 e) He eq_refl) as Hkeys.
  assert (key_of (scheds s) a = key) as Hka by (unfold key_of; by rewrite He). split.
  - constructor; cbn [rq_tree scheds left_most nr_running with_nr with_scheds with_tree with_left_most].
    + exists tr. split; [by eapply Rep_self|done].
    + eapply sorted_ext; [intros b _; apply Hkeys|]. rewrite <-Hka. by apply insert_by_sorted.
    + rewrite insert_by_perm. constructor; [by rewrite lookup_insert_eq|].
      eapply Forall_impl; [exact Hsc|]. intros b. apply known_insert.
    + done.
    + rewrite insert_by_perm. simpl. lia.
  - intros b Hb. cbn [scheds with_nr with_scheds] in Hb.
    assert (is_Some (scheds s !! b)) as Hb'.
    { destruct (decide (b = a)) as [->|Hne]; [by eexists|by rewrite lookup_insert_ne in Hb]. }
    destruct (HE b Hb') as [Hab Hnb]. split; [done|]. cbn [rq_tree with_nr with_scheds with_tree].
    destruct (decide (b ∈ inorder tr)) as [Hin|Hin]; [by eapply Rep_in|].
    by rewrite (Rep_frame _ _ _ HR b Hin).
Qed.

Lemma enqueue_entity_spec : wp s (__enqueue_entity a) (λ _ s', enqueued s').
Proof using All.
  destruct HQ as [(t0 & HR0 & Hrb0 & HL0) _ _ Hlm [Hnr _]].
  destruct (HE a (mk_is_Some _ _ He)) as [Haa Hna]. pose proof (addr_not_null a Haa) as Han.
  unfold __enqueue_entity, sched_key.
  apply wp_bind, wp_bind. eapply wp_get_sched; [done..|]. apply wp_ret. fold key.
  apply wp_bind, wp_gets. eapply wp_seq.
  { eapply (wp_iter descent _ _ (length (inorder t0))); [exact enqueue_body_spec| |].
    - split; [done|]. exists [], t0. by split_and!.
    - pose proof (Rep_size _ _ _ HR0). unfold rb_fuel. lia. }
  intros x s1 (-> & k & HR & Hrb & HL & Hkl & Hkr & ->).
  assert (insert_by (scheds s) key a L = kleft k ++ a :: kright k) as Hins.
  { rewrite <-HL, inorder_plug. by apply insert_by_split. }
  set (s1 := with_left_most (hd NULL (insert_by (scheds s) key a L)) s).
  eapply wp_seq with (P := λ _ s2, s2 = s1).
  { apply wp_when; intros Hk.
    - apply bool_decide_eq_true in Hk. apply wp_modify. unfold s1. by rewrite Hins, Hk.
    - apply bool_decide_eq_false in Hk. unfold s1. rewrite Hins.
      assert (hd NULL (kleft k ++ a :: kright k) = left_most s) as ->; [|by destruct s].
      rewrite Hlm, <-HL, inorder_plug. by destruct (kleft k). }
  intros [] s2 ->.
  destruct (proj1 (wp_iff _ _ _) (rb_insert_spec _ _ k a HR Hrb Haa ltac:(by rewrite HL) Hna))
    as ([] & t' & Hrun & tr & HR' & Hrb' & HL').
  apply (wp_on_tree_seq s1 (rb_link_node a (kaddr k) (klink k)) (rb_insert_color a) t' _ _ Hrun).
  apply wp_bind. eapply wp_upd_sched; [exact He|done|]. apply wp_bind, wp_gets, wp_modify.
  cbn [nr_running scheds with_scheds with_tree]. change (nr_running s1) with (nr_running s).
  change (scheds s1) with (scheds s). rewrite u32_id by lia. eapply enqueued_end; [exact HR'|done|by rewrite Hins].
Qed.
End enqueue.

(** ** Removal *)
Section dequeue.
Context (s : cfs_rq) (L1 : list Z) (a : Z) (L2 : list Z).
Hypothesis HQ : Queue s (L1 ++ a :: L2).
Hypothesis HE : entities s.

(** [__dequeue_entity]: the entity leaves, the cached leftmost node and the
    counter follow. *)
Definition dequeued (s' : cfs_rq) : Prop :=
  exists t, s' = with_tree t (with_nr (nr_running s - 1)
      (with_left_most (hd NULL (L1 ++ L2)) s)) /\
    Queue s' (L1 ++ L2) /\ entities s'.

Lemma dequeue_entity_spec : wp s (__dequeue_entity a) (λ _ s', dequeued s').
Proof using All.
  unfold dequeued. destruct HQ as [(t0 & HR & Hrb & HL) Hso Hsc Hlm [Hnr Hlen]].
  destruct (inorder_focus t0 a) as (k & c & l & r & ->); [rewrite HL; set_solver|].
  pose proof (Rep_nodup _ _ _ HR) as Hnd. rewrite HL in Hnd.
  destruct (NoDup_split L1 L2 (kleft k ++ inorder l) (inorder r ++ kright k) a Hnd) as [-> ->].
  { rewrite <-HL, inorder_plug. solve_app. }
  set (M1 := kleft k ++ inorder l) in *. set (M2 := inorder r ++ kright k) in *.
  set (s1 := with_left_most (hd NULL (M1 ++ M2)) s).
  unfold __dequeue_entity. apply wp_bind, wp_gets.
  eapply wp_seq with (P := λ _ s2, s2 = s1).
  { apply wp_when; intros Heq.
    - apply Z.eqb_eq in Heq. apply wp_bind, wp_on_tree. eapply wp_mono; [by eapply next_spec|].
      intros x t' [-> ->]. apply wp_modify. unfold s1.
      destruct M1 as [|b M1']; [by destruct s|].
      exfalso. rewrite Hlm in Heq. simpl in Heq. subst b. apply NoDup_cons in Hnd as [Hn _].
      set_solver.
    - apply Z.eqb_neq in Heq. unfold s1. destruct M1 as [|b M1']; [done|].
      cbn [app hd] in *. rewrite <-Hlm. by destruct s. }
  intros [] s2 ->. apply wp_bind, wp_gets. apply wp_bind, wp_modify.
  apply wp_on_tree. eapply wp_mono; [by eapply rb_erase_spec|].
  intros [] t' (h1 & tr & Hh & Hha & HR' & Hrb' & HL').
  assert (inorder tr = M1 ++ M2) as HLr by (rewrite HL'; unfold M1, M2; solve_app).
  rewrite length_app in *. cbn [length] in *.
  exists t'. change (nr_running s1) with (nr_running s). rewrite u32_id by lia. split; [done|]. split.
  - constructor; cbn [rq_tree scheds left_most nr_running with_nr with_tree with_left_most s1].
    + exists tr. split; [by eapply Rep_self|]. done.
    + by eapply sorted_remove.
    + apply Forall_app in Hsc as [H1 H2]. apply Forall_cons in H2 as [_ H2]. by apply Forall_app.
    + done.
    + rewrite length_app. lia.
  - intros b Hb. destruct (HE b Hb) as [Hab Hnb]. split; [done|].
    cbn [rq_tree with_nr with_tree with_left_most].
    destruct (decide (b ∈ inorder tr)) as [Hin|Hin]; [by eapply Rep_in|].
    rewrite (Rep_frame _ _ _ HR' b Hin).
    destruct (decide (b = a)) as [->|Hne]; [done|by rewrite Hh].
Qed.
End dequeue.
