(* ===== verification/CfsTime.v ===== *)
(** * Virtual time: the arithmetic of [cfs.c] *)
From S2P Require Import Prelude RbTree Cfs.

Lemma shiftr_zero x n : 0 <= x -> 0 <= n -> (Z.shiftr x n =? 0) = (x <? 2 ^ n).
Proof.
  intros Hx Hn. rewrite Z.shiftr_div_pow2 by done. pose proof (Z.pow_pos_nonneg 2 n ltac:(lia) Hn).
  destruct (Z.ltb_spec x (2 ^ n)) as [H1|H1].
  - by rewrite Z.div_small by lia.
  - apply Z.eqb_neq. pose proof (Z.div_le_mono (2 ^ n) x (2 ^ n) ltac:(lia) H1) as H2.
    rewrite Z.div_same in H2 by lia. lia.
Qed.

(** The normalising loop halves until the number fits in 32 bits. *)
Lemma norm_fact_spec m n f sh :
  (m <= n)%nat -> 0 <= f < 2 ^ (32 + Z.of_nat m) ->
  exists k, 0 <= k <= Z.of_nat m /\ norm_fact n f sh = (f / 2 ^ k, sh - k) /\
    f / 2 ^ k < 2 ^ 32 /\ (k = 0 \/ 2 ^ 31 <= f / 2 ^ k).
Proof.
  revert n f sh. induction m as [|m IH]; intros n f sh Hn Hf.
  - exists 0. rewrite Z.add_0_r in Hf. rewrite Z.pow_0_r, Z.div_1_r, Z.sub_0_r.
    split; [lia|]. split; [|split; [lia|by left]]. destruct n as [|n]; cbn [norm_fact]; [done|].
    rewrite shiftr_zero by lia. destruct (Z.ltb_spec f (2 ^ 32)); [done|lia].
  - destruct n as [|n]; [lia|]. cbn [norm_fact]. rewrite shiftr_zero by lia.
    destruct (Z.ltb_spec f (2 ^ 32)) as [Hlt|Hge].
    + exists 0. rewrite Z.pow_0_r, Z.div_1_r, Z.sub_0_r. split; [lia|].
      split; [done|]. split; [done|by left].
    + destruct (IH n (Z.shiftr f 1) (sh - 1)) as (k & Hk & Heq & Hlt & Hlo); [lia| |].
      { rewrite Z.shiftr_div_pow2 by lia. change (2 ^ 1) with 2.
        replace (32 + Z.of_nat (S m)) with (Z.succ (32 + Z.of_nat m)) in Hf by lia.
        rewrite Z.pow_succ_r in Hf by lia. lia_mod. }
      rewrite Z.shiftr_div_pow2 in Heq, Hlt, Hlo by lia.
      assert (f / 2 ^ 1 / 2 ^ k = f / 2 ^ (k + 1)) as Hd.
      { rewrite Z.div_div by lia. f_equal. rewrite <-Z.pow_add_r by lia. f_equal. lia. }
      rewrite Hd in Heq, Hlt, Hlo. exists (k + 1). rewrite (Z.shiftr_div_pow2 f 1) by lia.
      split; [lia|]. split; [rewrite Heq; f_equal; lia|]. split; [done|]. right.
      destruct Hlo as [->|Hlo]; [|done]. change (2 ^ (0 + 1)) with 2. change (2 ^ 32) with 4294967296 in Hge.
      change (2 ^ 31) with 2147483648. lia_mod.
Qed.

(** The 64-by-32-bit product and shift is exact modulo [2^64]. *)
Lemma mul_u64_u32_shr_spec a mul sh :
  0 <= a < 2 ^ 64 -> 0 <= mul < 2 ^ 32 -> 0 <= sh <= 32 ->
  mul_u64_u32_shr a mul sh = Some (u64 (a * mul / 2 ^ sh)).
Proof.
  intros Ha Hm Hs. unfold mul_u64_u32_shr.
  destruct (Z.ltb_spec sh 0); [lia|]. destruct (Z.ltb_spec 63 sh); [lia|].
  destruct (Z.ltb_spec 32 sh); [lia|]. cbn [orb andb]. f_equal.
  rewrite Z.shiftr_div_pow2 by lia. change (2 ^ 32) with 4294967296 in *.
  change (2 ^ 64) with 18446744073709551616 in *.
  set (al := u32 a). set (ah := u32 (a / 4294967296)).
  assert (0 <= ah < 4294967296 /\ 0 <= al < 4294967296 /\ a = al + ah * 4294967296) as (Hah & Hal & Heq).
  { unfold ah, al, u32. lia_mod. }
  pose proof (Z.pow_pos_nonneg 2 sh ltac:(lia) ltac:(lia)) as Hp.
  rewrite (u64_id (al * mul)), (u64_id (ah * mul)) by nia. rewrite Z.shiftr_div_pow2 by lia.
  assert (0 <= al * mul / 2 ^ sh < 18446744073709551616) as Hret.
  { split; [apply Z.div_pos; nia|]. apply Z.div_lt_upper_bound; [lia|]. nia. }
  assert (a * mul / 2 ^ sh = al * mul / 2 ^ sh + ah * mul * 2 ^ (32 - sh)) as ->.
  { assert (4294967296 = 2 ^ (32 - sh) * 2 ^ sh) as H32.
    { rewrite <-Z.pow_add_r by lia. by replace (32 - sh + sh) with 32 by lia. }
    rewrite <-Z.div_add by lia. f_equal. rewrite Heq at 1. rewrite H32. ring. }
  destruct (Z.eqb_spec ah 0) as [->|Hne]; cbn [negb].
  - rewrite u64_id by lia. lia.
  - rewrite Z.shiftl_mul_pow2 by lia. unfold u64. by rewrite Zplus_mod_idemp_r.
Qed.

(** The scaled time: [delta * weight * inv_weight / 2^32] with the product
    [weight * inv_weight] cut to its 32 leading bits. *)
Lemma calc_delta_spec delta w ld :
  0 <= delta < 2 ^ 64 -> 0 <= w < 2 ^ 32 -> 0 <= inv_weight ld < 2 ^ 32 ->
  exists k, 0 <= k <= 32 /\ w * inv_weight ld / 2 ^ k < 2 ^ 32 /\
    (k = 0 \/ 2 ^ 31 <= w * inv_weight ld / 2 ^ k) /\
    __calc_delta_vruntime delta w ld
      = Some (u64 (delta * (w * inv_weight ld / 2 ^ k) / 2 ^ (32 - k))).
Proof.
  intros Hd Hw Hi. unfold __calc_delta_vruntime.
  destruct (norm_fact_spec 0 64 w WMULT_SHIFT) as (k0 & Hk0 & -> & _); [lia|exact Hw|].
  assert (k0 = 0) as -> by lia. rewrite Z.pow_0_r, Z.div_1_r, Z.sub_0_r.
  change (2 ^ 32) with 4294967296 in *. rewrite (u32_id w) by lia.
  rewrite u64_id by nia. set (f := w * inv_weight ld).
  destruct (norm_fact_spec 32 64 f WMULT_SHIFT) as (k & Hk & -> & Hlt & Hlo); [lia| |].
  { change (2 ^ (32 + Z.of_nat 32)) with 18446744073709551616. nia. }
  exists k. split; [lia|]. split; [done|]. split; [done|].
  pose proof (Z.pow_pos_nonneg 2 k ltac:(lia) ltac:(lia)) as Hp.
  change (2 ^ 32) with 4294967296 in Hlt.
  assert (0 <= f / 2 ^ k) by (apply Z.div_pos; nia).
  rewrite u32_id by lia. unfold WMULT_SHIFT. rewrite u32_id by lia.
  apply mul_u64_u32_shr_spec; [done|change (2 ^ 32) with 4294967296; lia|lia].
Qed.

(** The weights of a task are 32-bit words. *)
Definition wf_load (w : weight_t) : Prop :=
  0 <= weight w < 4294967296 /\ 0 <= inv_weight w < 4294967296.

Lemma calc_delta_total delta e :
  0 <= delta < 2 ^ 64 -> wf_load (load e) ->
  exists d, calc_delta_vruntime delta e = Some d /\ 0 <= d < 2 ^ 64.
Proof.
  intros Hd [_ Hi]. unfold calc_delta_vruntime.
  destruct (negb (weight (load e) =? NICE_0_LOAD)); [|by exists delta].
  destruct (calc_delta_spec delta NICE_0_LOAD (load e)) as (k & _ & _ & _ & ->);
    [done|unfold NICE_0_LOAD; lia|exact Hi|].
  eexists. split; [done|]. apply u64_range.
Qed.

(** Comparison of virtual times, which may wrap around. *)
Lemma max_vruntime_ahead a b : 0 <= a < 2 ^ 64 -> 0 <= i64 (u64 (max_vruntime a b - a)).
Proof.
  intros Ha. unfold max_vruntime. destruct (Z.ltb_spec 0 (i64 (u64 (b - a)))); [lia|].
  by rewrite Z.sub_diag.
Qed.
Lemma i64_u64_small x : -2 ^ 63 <= x < 2 ^ 63 -> i64 (u64 x) = x.
Proof. unfold i64, u64. change (2 ^ 63) with 9223372036854775808. lia_mod. Qed.
Lemma max_vruntime_max a b : 0 <= a < 2 ^ 63 -> 0 <= b < 2 ^ 63 -> max_vruntime a b = Z.max a b.
Proof.
  intros Ha Hb. unfold max_vruntime. rewrite i64_u64_small by lia.
  destruct (Z.ltb_spec 0 (b - a)); lia.
Qed.
Lemma min_vruntime_min a b : 0 <= a < 2 ^ 63 -> 0 <= b < 2 ^ 63 -> min_vruntime a b = Z.min a b.
Proof.
  intros Ha Hb. unfold min_vruntime. rewrite i64_u64_small by lia.
  destruct (Z.ltb_spec (b - a) 0); lia.
Qed.
