(* ===== verification/CfsSteps.v ===== *)
(** * The scheduler's steps on a sorted queue

    [update_curr] and [pick_next_task], run from a state whose run queue is a
    sorted list and whose current entity is not in it. *)
From stdpp Require Import sorting.
From S2P Require Import Prelude RbTree RbInv Cfs CfsQueue CfsTime.

(** ** Changing the current entity *)

(** [m'] is [m] with other times for [c]; the load and [on_rq] stay. *)
Definition retimed (m m' : gmap Z sched_t) (c : Z) : Prop :=
  exists e e', m !! c = Some e /\ m' = <[c := e']> m /\ load e' = load e /\ on_rq e' = on_rq e.

Lemma retimed_key m m' c b : retimed m m' c -> b <> c -> key_of m' b = key_of m b.
Proof. intros (e & e' & _ & -> & _) Hb. unfold key_of. by rewrite lookup_insert_ne. Qed.
Lemma retimed_some m m' c b : retimed m m' c -> is_Some (m' !! b) <-> is_Some (m !! b).
Proof.
  intros (e & e' & Hc & -> & _). destruct (decide (b = c)) as [->|Hne].
  - rewrite lookup_insert_eq, Hc. split; intros _; by eexists.
  - by rewrite lookup_insert_ne.
Qed.

Lemma queue_retimed s L c m v :
  Queue s L -> c ∉ L -> retimed (scheds s) m c -> Queue (with_min v (with_scheds m s)) L.
Proof.
  intros [Ht Hs Hsc Hl Hn] Hc Hm. constructor; cbn; [done| | |done|done].
  - eapply sorted_ext; [|exact Hs]. intros a Ha. eapply retimed_key; [done|]. by intros ->.
  - eapply Forall_impl; [exact Hsc|]. intros a Ha. by apply (retimed_some _ _ _ a Hm).
Qed.
Lemma entities_retimed s c m v :
  entities s -> retimed (scheds s) m c -> entities (with_min v (with_scheds m s)).
Proof. intros HE Hm a Ha. cbn in *. apply HE. by apply (retimed_some _ _ _ a Hm). Qed.

(** ** Well-formed scheduler states *)

(** The current entity [c] is known and is not in the queue [L]. *)
Record Running (s : cfs_rq) (c : Z) (L : list Z) : Prop := {
  run_queue : Queue s L;
  run_entities : entities s;
  run_current : rq_current s = c;
  run_known : exists e, scheds s !! c = Some e /\ wf_load (load e);
  run_out : c ∉ L;
  run_room : Z.of_nat (length L) < 4294967294
}.

Lemma running_not_null s c L : Running s c L -> c <> NULL.
Proof.
  intros [_ HE _ (e & He & _) _ _]. apply addr_not_null, HE. by eexists.
Qed.

Section update.
Context (s : cfs_rq) (c : Z) (L : list Z).
Hypothesis HR : Running s c L.

(** The times [update_min_vruntime] looks at. *)
Definition waiting_min : Z :=
  match L with
  | [] => key_of (scheds s) c
  | b :: _ => min_vruntime (key_of (scheds s) c) (key_of (scheds s) b)
  end.

Lemma update_min_spec :
  wp s update_min_vruntime
    (λ _ s', s' = with_min (max_vruntime (min_vruntime_of s) waiting_min) s).
Proof using All.
  pose proof (running_not_null _ _ _ HR) as Hn. destruct HR as [HQ HE Hcur (e & He & _) Hout _].
  unfold update_min_vruntime. apply wp_bind, wp_gets, wp_bind, wp_gets. rewrite Hcur.
  rewrite (proj2 (Z.eqb_neq c NULL)) by done. cbn [negb].
  apply wp_bind, wp_bind. eapply wp_get_sched; [done..|]. apply wp_ret, wp_bind, wp_gets.
  assert (key_of (scheds s) c = vruntime e) as Hk by (unfold key_of; by rewrite He).
  rewrite (q_left _ _ HQ). unfold waiting_min. rewrite Hk. destruct L as [|b L']; cbn [hd].
  - rewrite Z.eqb_refl. cbn [negb]. apply wp_bind, wp_ret. by apply wp_modify.
  - pose proof (q_scheds _ _ HQ) as Hs. apply Forall_cons in Hs as [[eb Heb] _].
    assert (b <> NULL) as Hb by (apply addr_not_null, HE; by eexists).
    rewrite (proj2 (Z.eqb_neq b NULL)) by done. cbn [negb]. unfold sched_of.
    apply wp_bind, wp_bind. eapply wp_get_sched; [done..|]. apply wp_ret. apply wp_modify.
    unfold key_of. rewrite Heb. done.
Qed.
End update.

Lemma running_retimed s c L m v :
  Running s c L -> retimed (scheds s) m c -> Running (with_min v (with_scheds m s)) c L.
Proof.
  intros HR Hm. pose proof Hm as (e0 & e' & He0 & Hm' & Hl & _).
  destruct HR as [HQ HE Hcur (e & He & Hw) Hout Hroom]. constructor; cbn; [..|done|done].
  - by eapply queue_retimed.
  - by eapply entities_retimed.
  - done.
  - exists e'. rewrite Hm', lookup_insert_eq. split; [done|]. rewrite Hl. naive_solver.
Qed.

(** [update_curr]: only the current entity's times and [min_vruntime] move,
    and [min_vruntime] never moves backwards. *)
Definition advanced (s s' : cfs_rq) (c : Z) : Prop :=
  exists m v, s' = with_min v (with_scheds m s) /\ retimed (scheds s) m c /\
    (0 <= min_vruntime_of s < 2 ^ 64 -> 0 <= i64 (u64 (v - min_vruntime_of s))).

Lemma update_curr_spec s c L :
  Running s c L -> wp s update_curr (λ _ s', advanced s s' c /\ Running s' c L).
Proof.
  intros HR. pose proof (running_not_null _ _ _ HR) as Hn.
  pose proof (run_current _ _ _ HR) as Hcur. destruct (run_known _ _ _ HR) as (e & He & Hw).
  unfold update_curr. apply wp_bind, wp_gets, wp_bind, wp_gets. rewrite Hcur.
  rewrite (proj2 (Z.eqb_neq c NULL)) by done. apply wp_bind. eapply wp_get_sched; [done..|].
  assert (forall x, retimed (scheds s) (<[c := Sched (load e) (x.1.1) (x.1.2) (x.2) (prev_sum_exec_time e) (on_rq e)]> (scheds s)) c) as Hrt
    by (intros x; eexists e, _; done).
  destruct (i64 (u64 (clock s - exec_start e)) <=? 0).
  { apply wp_ret. assert (retimed (scheds s) (scheds s) c) as Hr.
    { exists e, e. by rewrite insert_id. }
    split; [|done]. exists (scheds s), (min_vruntime_of s). split_and!; [by destruct s|done|].
    intros _. by rewrite Z.sub_diag. }
  set (delta := u64 (clock s - exec_start e)).
  apply wp_bind. eapply wp_upd_sched; [done..|].
  apply wp_bind. eapply wp_upd_sched; [apply lookup_insert_eq|done|].
  apply wp_bind. eapply wp_get_sched; [apply lookup_insert_eq|done|].
  cbn [scheds with_scheds].
  destruct (calc_delta_total delta
    (set_exec_start (clock s) (set_sum (u64 (sum_exec_time e + delta)) e))) as (d & Hd & _);
    [apply u64_range|done|].
  apply wp_bind. eapply wp_gets_opt; [exact Hd|].
  apply wp_bind. eapply wp_upd_sched; [apply lookup_insert_eq|done|]. cbn [scheds with_scheds].
  rewrite !insert_insert_eq.
  set (e' := set_vruntime _ _).
  set (s1 := with_scheds _ _).
  assert (s1 = with_min (min_vruntime_of s) (with_scheds (<[c := e']> (scheds s)) s)) as Hs1
    by (by destruct s).
  assert (retimed (scheds s) (<[c := e']> (scheds s)) c) as Hre by (by exists e, e').
  assert (Running s1 c L) as HR1 by (rewrite Hs1; by eapply running_retimed).
  eapply wp_mono; [by apply (update_min_spec s1 c L)|]. intros [] s' ->.
  change (min_vruntime_of s1) with (min_vruntime_of s).
  set (v := max_vruntime _ _).
  assert (with_min v s1 = with_min v (with_scheds (<[c := e']> (scheds s)) s)) as -> by (by rewrite Hs1).
  split; [|by eapply running_retimed]. exists (<[c := e']> (scheds s)), v. split_and!; [done|done|].
  intros Hv. by apply max_vruntime_ahead.
Qed.

(** ** Picking the next entity *)
(** What [pick_next_task] has done when it returns [task_of n]. *)
Definition picked (s s' : cfs_rq) (n : Z) (waiting : list Z) : Prop :=
  n ∈ waiting /\ Forall (key_le (scheds s') n) waiting /\
  rq_current s' = n /\ clock s' = clock s /\
  (exists e, scheds s' !! n = Some e /\ exec_start e = clock s /\
    prev_sum_exec_time e = sum_exec_time e) /\
  exists L', Queue s' L' /\ n :: L' ≡ₚ waiting.

(** From a non-empty queue: take the head and make it current. *)
Lemma pick_head s L :
  Queue s L -> entities s -> L <> [] ->
  wp (with_current NULL s)
    (next ← pick_next_entity;
     __dequeue_entity next ;;
     modify (with_current next) ;;
     now ← gets clock;
     upd_sched next (set_exec_start now) ;;
     upd_sched next (λ e, set_prev_sum (sum_exec_time e) e) ;;
     mret (task_of next))
    (λ x s', exists n L', L = n :: L' /\ x = task_of n /\ Queue s' L' /\
      rq_current s' = n /\ clock s' = clock s /\
      (forall b, key_of (scheds s') b = key_of (scheds s) b) /\
      (exists e, scheds s' !! n = Some e /\ exec_start e = clock s /\
        prev_sum_exec_time e = sum_exec_time e)).
Proof.
  intros HQ HE HL. destruct L as [|n L']; [done|].
  set (s0 := with_current NULL s).
  assert (Queue s0 (n :: L')) as HQ0 by (destruct HQ; by constructor).
  assert (entities s0) as HE0 by (exact HE).
  pose proof (q_scheds _ _ HQ) as Hsc. apply Forall_cons in Hsc as [[e He] _].
  assert (n <> NULL) as Hn by (apply addr_not_null, HE; by eexists).
  unfold pick_next_entity. apply wp_bind, wp_bind, wp_gets. rewrite (q_left _ _ HQ0). cbn [hd].
  rewrite (proj2 (Z.eqb_neq n NULL)) by done. apply wp_ret. unfold sched_of.
  eapply wp_seq; [by apply (dequeue_entity_spec s0 [] n L')|].
  intros [] s1 (t & -> & HQ1 & _). cbn [app] in *.
  apply wp_bind, wp_modify, wp_bind, wp_gets.
  apply wp_bind. eapply wp_upd_sched; [exact He|done|].
  apply wp_bind. eapply wp_upd_sched; [apply lookup_insert_eq|done|]. apply wp_ret.
  cbn [scheds with_scheds with_current with_tree with_nr with_left_most s0].
  rewrite insert_insert_eq.
  pose proof (key_of_insert (scheds s) n e (set_prev_sum (sum_exec_time e) (set_exec_start (clock s) e)) He eq_refl) as Hkey.
  exists n, L'. split_and!; try done.
  - destruct HQ1 as [Ht Hs Hsc Hl Hnr]. constructor; cbn; [exact Ht| | |exact Hl|exact Hnr].
    + eapply sorted_ext; [intros b _; apply Hkey|exact Hs].
    + eapply Forall_impl; [exact Hsc|]. intros b. apply known_insert.
  - eexists. rewrite lookup_insert_eq. by split_and!.
Qed.

(** Who waits once [put_prev_task] has run: the queue, and the current entity
    when it is runnable. *)
Definition waiting (e : sched_t) (c : Z) (L : list Z) : list Z := if on_rq e =? 0 then L else c :: L.
Lemma put_prev_run s c L e :
  Running s c L -> scheds s !! c = Some e -> Z.of_nat (length L) < 4294967294 ->
  wp s (put_prev_task c) (λ _ s', exists s1 L1, s' = with_current NULL s1 /\ Queue s1 L1 /\ entities s1 /\
    L1 ≡ₚ waiting e c L /\ clock s1 = clock s).
Proof.
  intros HR He Hroom. pose proof HR as [HQ HE Hcur _ Hout _]. pose proof (running_not_null _ _ _ HR) as Hn.
  unfold put_prev_task, waiting. apply wp_bind. eapply wp_get_sched; [done..|].
  destruct (on_rq e =? 0); cbn [negb when].
  { apply wp_bind, wp_ret, wp_modify. by exists s, L. }
  apply wp_bind, wp_bind. eapply wp_mono; [by apply (update_curr_spec s c L)|].
  intros [] s1 [(m & v & Hs1 & Hrt & _) HR1]. destruct (run_known _ _ _ HR1) as (e1 & He1 & _).
  eapply wp_mono; [apply (enqueue_entity_spec s1 L c e1); [apply HR1|apply HR1|done|done|done]|].
  intros [] s2 (t & Hs2 & HQ2 & HE2). apply wp_modify. exists s2. eexists. split; [done|]. split; [exact HQ2|].
  split; [done|]. split; [apply insert_by_perm|]. by rewrite Hs2, Hs1.
Qed.

Lemma pick_run s c L e : Running s c L -> scheds s !! c = Some e -> L <> [] ->
  wp s (pick_next_task c) (λ x s', exists n, x = task_of n /\ picked s s' n (waiting e c L)).
Proof.
  intros HR He HL. pose proof (q_nr _ _ (run_queue _ _ _ HR)) as [Hnr _].
  unfold pick_next_task. apply wp_bind, wp_gets.
  assert ((nr_running s =? 0) = false) as -> by (apply Z.eqb_neq; destruct L; [done|simpl in Hnr; lia]).
  apply wp_bind. cbn [when]. apply wp_ret.
  eapply wp_seq; [apply (put_prev_run s c L e HR He (run_room _ _ _ HR))|].
  intros _ s0 (s1 & L1 & -> & HQ1 & HE1 & Hperm & Hclk).
  assert (L1 <> []) as HL1.
  { intros ->. apply Permutation_nil_l in Hperm. unfold waiting in Hperm. by destruct (on_rq e =? 0). }
  eapply wp_mono; [by apply (pick_head s1 L1)|].
  intros x s' (n & L' & -> & -> & HQ' & Hc' & Hck & Hkey & (en & Hen & Hex & Hps)).
  exists n. split; [done|]. split_and!; [by rewrite <-Hperm; left| |done|congruence| |by exists L'].
  - pose proof (q_sorted _ _ HQ1) as [_ Hs]%StronglySorted_inv. rewrite <-Hperm.
    constructor; [unfold key_le; lia|]. eapply Forall_impl; [exact Hs|]. unfold key_le. intros d Hd. by rewrite !Hkey.
  - exists en. split; [done|]. split; [congruence|done].
Qed.
