(* ===== verification/CfsContract.v ===== *)
(** * The contract of the scheduler

    The theorems about [kernel/cfs.c], with the run queue they are tried on. *)
From stdpp Require Import sorting.
From S2P Require Import Prelude RbTree RbInv RbInsert RbProps Cfs CfsQueue CfsTime CfsSteps.

(** ** A run queue to try the theorems on: the tree of [RbProps], its nodes
    as entities with virtual runtimes 10, 20, ..., and the entity 96 running. *)
Definition nice0 : weight_t := Weight 1024 4194304.
Definition sample_sched (v : Z) : sched_t := Sched nice0 v 0 0 0 1.
Definition sample_scheds : gmap Z sched_t :=
  <[16 := sample_sched 10]> (<[24 := sample_sched 20]> (<[32 := sample_sched 30]>
  (<[48 := sample_sched 40]> (<[64 := sample_sched 50]> (<[80 := sample_sched 60]>
  {[96 := sample_sched 35]}))))).
Definition sample_rq : cfs_rq :=
  Cfs nice0 6 10 7 sample_state 16 96 sample_scheds ∅ None 68 true.
Definition sample_queue : list Z := [16; 24; 32; 48; 64; 80].

Definition node_addr (a : Z) : bool := (0 <? a) && (a <? 4294967296) && (a mod 4 =? 0).
Lemma node_addr_ok a : node_addr a = true -> addr a.
Proof.
  intros ((H1 & H2)%andb_true_iff & H3)%andb_true_iff. unfold addr.
  apply Z.ltb_lt in H1, H2. apply Z.eqb_eq in H3. lia.
Qed.
Lemma sample_queue_ok : Queue sample_rq sample_queue.
Proof.
  constructor.
  - exists sample_tree. split_and!; [exact sample_rep|exact sample_rbtree|reflexivity].
  - repeat (constructor; [|repeat (constructor; [vm_compute; discriminate|]); constructor]). constructor.
  - apply (bool_decide_unpack _). vm_compute. exact I.
  - reflexivity.
  - split; vm_compute; reflexivity.
Defined.
Lemma sample_entities : entities sample_rq.
Proof.
  assert (map_Forall (λ a _, node_addr a = true /\ is_Some (rb_nodes sample_state !! a)) sample_scheds)
    as H by (apply (bool_decide_unpack _); vm_compute; exact I).
  intros a [e He]. destruct (H a e He) as [H1 H2]. split; [by apply node_addr_ok|exact H2].
Defined.
Lemma sample_running : Running sample_rq 96 sample_queue.
Proof.
  constructor.
  - exact sample_queue_ok.
  - exact sample_entities.
  - reflexivity.
  - eexists. split; [reflexivity|]. split; split; vm_compute; congruence.
  - apply (bool_decide_unpack _). vm_compute. exact I.
  - reflexivity.
Defined.

(** C11: [__enqueue_entity] keeps the run queue a red-black tree sorted by
    virtual runtime: the new entity goes after every entity whose runtime is
    not greater (so equal runtimes run first come, first served), and the
    cached leftmost node, the counter and [on_rq] follow; nothing else moves. *)
Theorem enqueue_entity_sorted s L a e :
  Queue s L -> entities s -> scheds s !! a = Some e -> a ∉ L ->
  Z.of_nat (length L) < 4294967294 ->
  exists s' t, __enqueue_entity a s = Ok (tt, s') /\
    Queue s' (insert_by (scheds s) (vruntime e) a L) /\ entities s' /\
    s' = with_nr (nr_running s + 1) (with_scheds (<[a := set_on_rq 1 e]> (scheds s))
      (with_tree t (with_left_most (hd NULL (insert_by (scheds s) (vruntime e) a L)) s))).
Proof.
  intros HQ HE He Ha Hl. pose proof (enqueue_entity_spec s L a e HQ HE He Ha Hl) as H.
  apply wp_iff in H as ([] & s' & Hrun & t & Hs' & HQ' & HE'). by exists s', t.
Qed.

Definition waiting_rq : cfs_rq := with_current NULL sample_rq.
Lemma enqueue_entity_sorted_witness :
  exists s' t, __enqueue_entity 96 waiting_rq = Ok (tt, s') /\
    Queue s' [16; 24; 32; 96; 48; 64; 80] /\ entities s' /\
    s' = with_nr 7 (with_scheds (<[96 := set_on_rq 1 (sample_sched 35)]> sample_scheds)
      (with_tree t (with_left_most 16 waiting_rq))).
Proof.
  apply (enqueue_entity_sorted waiting_rq sample_queue 96 (sample_sched 35)).
  - destruct sample_queue_ok. constructor; assumption.
  - exact sample_entities.
  - reflexivity.
  - apply (bool_decide_unpack _). vm_compute. exact I.
  - reflexivity.
Defined.

(** [__dequeue_entity] takes exactly the entity out of the sorted queue,
    wherever it is, and keeps the cached leftmost node and the counter right. *)
Theorem dequeue_entity_removes s L1 a L2 :
  Queue s (L1 ++ a :: L2) -> entities s ->
  exists s' t, __dequeue_entity a s = Ok (tt, s') /\ Queue s' (L1 ++ L2) /\ entities s' /\
    s' = with_tree t (with_nr (nr_running s - 1) (with_left_most (hd NULL (L1 ++ L2)) s)).
Proof.
  intros HQ HE. pose proof (dequeue_entity_spec s L1 a L2 HQ HE) as H.
  apply wp_iff in H as ([] & s' & Hrun & t & Hs' & HQ' & HE'). by exists s', t.
Qed.

Lemma dequeue_entity_removes_witness :
  exists s' t, __dequeue_entity 16 sample_rq = Ok (tt, s') /\
    Queue s' [24; 32; 48; 64; 80] /\ entities s' /\
    s' = with_tree t (with_nr 5 (with_left_most 24 sample_rq)).
Proof.
  apply (dequeue_entity_removes sample_rq [] 16 [24; 32; 48; 64; 80]).
  - exact sample_queue_ok.
  - exact sample_entities.
Defined.



(** [update_curr] charges only the running entity and [min_vruntime]
    never moves backwards, even when the 64-bit times wrap around. *)
Theorem update_curr_monotonic s c L :
  Running s c L -> 0 <= min_vruntime_of s < 2 ^ 64 ->
  exists s', update_curr s = Ok (tt, s') /\ Running s' c L /\
    0 <= i64 (u64 (min_vruntime_of s' - min_vruntime_of s)) /\
    (forall b, b <> c -> scheds s' !! b = scheds s !! b) /\ rq_tree s' = rq_tree s.
Proof.
  intros HR Hm. pose proof (update_curr_spec s c L HR) as H.
  apply wp_iff in H as ([] & s' & Hrun & (m & v & -> & (e & e' & _ & -> & _) & Hv) & HR').
  exists (with_min v (with_scheds (<[c:=e']> (scheds s)) s)).
  split_and!; [done|done|by apply Hv| |done]. intros b Hb. cbn. by rewrite lookup_insert_ne.
Qed.

Lemma update_curr_monotonic_witness :
  exists s', update_curr sample_rq = Ok (tt, s') /\ Running s' 96 sample_queue /\
    0 <= i64 (u64 (min_vruntime_of s' - min_vruntime_of sample_rq)) /\
    (forall b, b <> 96 -> scheds s' !! b = scheds sample_rq !! b) /\ rq_tree s' = rq_tree sample_rq.
Proof.
  apply (update_curr_monotonic sample_rq 96 sample_queue).
  - exact sample_running.
  - split; vm_compute; congruence.
Defined.

(** The least virtual runtime of the current and the waiting entities. *)
Definition least (m : gmap Z sched_t) (c : Z) (L : list Z) : Z :=
  foldr Z.min (key_of m c) (map (key_of m) L).

Lemma least_sorted m c b L :
  StronglySorted (key_le m) (b :: L) -> least m c (b :: L) = Z.min (key_of m c) (key_of m b).
Proof.
  intros Hs. apply StronglySorted_inv in Hs as [_ Hb]. unfold least. cbn [map foldr].
  assert (Z.min (key_of m b) (foldr Z.min (key_of m c) (map (key_of m) L)) =
          Z.min (key_of m c) (key_of m b)); [|done].
  induction L as [|x L IH]; cbn [map foldr]; [lia|].
  apply Forall_cons in Hb as [Hx Hb]. specialize (IH Hb). unfold key_le in Hx. lia.
Qed.

(** While no time has wrapped around, [update_min_vruntime] makes
    [min_vruntime] the least virtual runtime of all runnable entities, or
    leaves it where it is when that is ahead of all of them. *)
Theorem min_vruntime_tracks s c L :
  Running s c L -> 0 <= min_vruntime_of s < 2 ^ 63 ->
  Forall (λ b, 0 <= key_of (scheds s) b < 2 ^ 63) (c :: L) ->
  update_min_vruntime s =
    Ok (tt, with_min (Z.max (min_vruntime_of s) (least (scheds s) c L)) s).
Proof.
  intros HR Hm Hk. apply wp_ok. eapply wp_mono; [by apply (update_min_spec s c L)|].
  intros [] s' ->. split; [done|]. f_equal. apply Forall_cons in Hk as [Hc Hk].
  unfold waiting_min. destruct L as [|b L].
  - unfold least. cbn [map foldr]. by apply max_vruntime_max.
  - apply Forall_cons in Hk as [Hb _].
    rewrite least_sorted by (by apply (q_sorted _ _ (run_queue _ _ _ HR))).
    rewrite min_vruntime_min by done. apply max_vruntime_max; lia.
Qed.

Lemma min_vruntime_tracks_witness :
  update_min_vruntime sample_rq = Ok (tt, with_min 10 sample_rq).
Proof.
  apply (min_vruntime_tracks sample_rq 96 sample_queue).
  - exact sample_running.
  - split; vm_compute; congruence.
  - repeat (constructor; [split; vm_compute; congruence|]). constructor.
Defined.

(** C37: the real-to-virtual time conversion without division,
    [delta * NICE_0_LOAD * inv_weight >> 32], is [delta * w * inv / 2^32]
    rounded down, up to the 32-bit rounding of the product [w * inv]: its
    relative error is below [2^-31].  It never shifts by an invalid amount
    and its loops end. *)
Theorem calc_delta_accurate delta w ld :
  0 <= delta < 2 ^ 64 -> 0 <= w < 2 ^ 32 -> 0 <= inv_weight ld < 2 ^ 32 ->
  exists r, __calc_delta_vruntime delta w ld = Some (u64 r) /\ 0 <= r /\
    r * 2 ^ 32 <= delta * (w * inv_weight ld) /\
    delta * (w * inv_weight ld) * 2 ^ 31 < (r + 1) * 2 ^ 32 * (2 ^ 31 + 1).
Proof.
  intros Hd Hw Hi. destruct (calc_delta_spec delta w ld Hd Hw Hi) as (k & Hk & Hlt & Hlo & ->).
  set (f := w * inv_weight ld) in *. assert (0 <= f) as Hf by (subst f; nia).
  set (q := f / 2 ^ k) in *. set (P := 2 ^ k) in *. set (R := 2 ^ (32 - k)).
  assert (0 < P /\ 0 < R /\ P * R = 2 ^ 32) as (HP & HR & HPR).
  { unfold P, R. split; [apply Z.pow_pos_nonneg; lia|]. split; [apply Z.pow_pos_nonneg; lia|].
    rewrite <-Z.pow_add_r by lia. f_equal. lia. }
  pose proof (Z.div_mod f P ltac:(lia)) as Hfd. pose proof (Z.mod_pos_bound f P HP) as Hfm.
  fold q in Hfd. assert (0 <= q) by (apply Z.div_pos; lia).
  pose proof (Z.div_mod (delta * q) R ltac:(lia)) as Hrd.
  pose proof (Z.mod_pos_bound (delta * q) R HR) as Hrm.
  exists (delta * q / R). set (r := delta * q / R) in *.
  assert (0 <= r) by (apply Z.div_pos; nia).
  split; [done|]. split; [done|]. rewrite <-HPR.
  assert (delta * q * P <= delta * f) by nia.
  assert (r * R <= delta * q) by lia. assert (delta * q < (r + 1) * R) by lia.
  split; [nia|].
  assert (delta * f * 2 ^ 31 <= delta * q * P * (2 ^ 31 + 1)) as Hrel.
  { destruct Hlo as [Hk0|Hlo].
    - assert (P = 1) as HP1 by (unfold P; by rewrite Hk0).
      rewrite HP1 in Hfd, Hfm |- *. assert (f = q) as Hfq by lia. clearbody f q. subst f. nia.
    - assert (f * 2 ^ 31 <= q * P * (2 ^ 31 + 1)) by nia. nia. }
  assert (delta * q * P < (r + 1) * R * P) by nia. nia.
Qed.

Lemma calc_delta_accurate_witness :
  exists r, __calc_delta_vruntime 1000000 1024 (Weight 15 286331153) = Some (u64 r) /\ 0 <= r /\
    r * 2 ^ 32 <= 1000000 * (1024 * 286331153) /\
    1000000 * (1024 * 286331153) * 2 ^ 31 < (r + 1) * 2 ^ 32 * (2 ^ 31 + 1).
Proof.
  apply (calc_delta_accurate 1000000 1024 (Weight 15 286331153)); split; vm_compute; congruence.
Defined.

(** Every nice value from -20 to 19 has a weight and an inverse weight
    with [inv = 2^32 / weight] up to rounding, and one nice step changes the
    weight by a factor between 1.2 and 1.29; [set_load_weight] stores them. *)
Theorem weights_inverse n s a e :
  -20 <= n <= 19 -> scheds s !! a = Some e -> a <> NULL ->
  exists w iw, set_load_weight a n s = Ok (tt, with_scheds (<[a := set_load (Weight w iw) e]> (scheds s)) s) /\
    0 < w /\ 2 ^ 32 - w <= w * iw <= 2 ^ 32 + w /\
    (n < 19 -> exists w', sched_prio_to_weight !! Z.to_nat (n + 21) = Some w' /\
       120 * w' <= 100 * w <= 129 * w').
Proof.
  intros Hn He Ha.
  set (ok := λ i : nat, match sched_prio_to_weight !! i, sched_prio_to_wmult !! i with
    | Some w, Some iw => (0 <? w) && (2 ^ 32 - w <=? w * iw) && (w * iw <=? 2 ^ 32 + w) &&
        match sched_prio_to_weight !! S i with
        | Some w' => (120 * w' <=? 100 * w) && (100 * w <=? 129 * w')
        | None => (i =? 39)%nat
        end
    | _, _ => false end).
  assert (forallb ok (seq 0 40) = true) as Hall by (vm_compute; reflexivity).
  rewrite forallb_forall in Hall. specialize (Hall (Z.to_nat (n + 20)) (proj2 (in_seq 40 0 (Z.to_nat (n + 20))) ltac:(lia))).
  unfold ok in Hall.
  destruct (sched_prio_to_weight !! Z.to_nat (n + 20)) as [w|] eqn:Hw; [|done].
  destruct (sched_prio_to_wmult !! Z.to_nat (n + 20)) as [iw|] eqn:Hiw; [|done].
  rewrite !andb_true_iff in Hall. destruct Hall as (((H1 & H2) & H3) & H4).
  apply Z.ltb_lt in H1. apply Z.leb_le in H2, H3. exists w, iw. split.
  - apply wp_ok. unfold set_load_weight, nice_to_index. rewrite i32_id by lia.
    destruct (Z.ltb_spec (n + 20) 0); [lia|].
    apply wp_bind. eapply wp_gets_opt; [exact Hw|]. apply wp_bind. eapply wp_gets_opt; [exact Hiw|].
    by eapply wp_upd_sched.
  - split; [done|]. split; [done|]. intros Hlt.
    replace (S (Z.to_nat (n + 20))) with (Z.to_nat (n + 21)) in H4 by lia.
    destruct (sched_prio_to_weight !! Z.to_nat (n + 21)) as [w'|] eqn:Hw'.
    + apply andb_true_iff in H4 as [H5 H6]. apply Z.leb_le in H5, H6. by exists w'.
    + apply Nat.eqb_eq in H4. lia.
Qed.

Lemma weights_inverse_witness :
  exists w iw, set_load_weight 96 5 sample_rq =
      Ok (tt, with_scheds (<[96 := set_load (Weight w iw) (sample_sched 35)]> (scheds sample_rq)) sample_rq) /\
    0 < w /\ 2 ^ 32 - w <= w * iw <= 2 ^ 32 + w /\
    (5 < 19 -> exists w', sched_prio_to_weight !! Z.to_nat (5 + 21) = Some w' /\
       120 * w' <= 100 * w <= 129 * w').
Proof.
  apply (weights_inverse 5 sample_rq 96 (sample_sched 35)).
  - lia.
  - reflexivity.
  - discriminate.
Defined.

(** A queued task of nice 0 among [n] such tasks gets a time slice of
    [n] whole periods, not of one [n]-th of a period: [add_load] sums the
    inverse weights, and the sum of the inverses is not the inverse of the
    sum. *)
Theorem timeslice_grows s a e n :
  scheds s !! a = Some e -> a <> NULL -> on_rq e <> 0 -> load e = nice0 ->
  1 <= n <= 1023 -> rq_load s = Weight (1024 * n) (4194304 * n) ->
  0 <= nr_running s <= NR_LATENCY ->
  timeslice a s = Ok (n * TARGET_LATENCY, s).
Proof.
  intros He Ha Hq Hl Hn Hrl Hnr. apply wp_ok. unfold timeslice.
  apply wp_bind. eapply wp_get_sched; [done..|]. apply wp_bind, wp_gets, wp_bind, wp_gets.
  rewrite (proj2 (Z.eqb_neq (on_rq e) 0)) by done. rewrite Hl, Hrl. cbn [weight nice0].
  rewrite Z.add_0_r. unfold NR_LATENCY, TARGET_LATENCY, WAKEUP_GRANULARITY in *.
  change (5000000 / 1000000) with 5 in *. rewrite u32_id by lia.
  unfold sched_period, NR_LATENCY, TARGET_LATENCY, WAKEUP_GRANULARITY.
  change (5000000 / 1000000) with 5. destruct (Z.ltb_spec 5 (nr_running s)); [lia|].
  destruct (calc_delta_spec 5000000 1024 (Weight (1024 * n) (4194304 * n))) as (k & Hk & _ & _ & Hd);
    [lia|lia|cbn [inv_weight]; change (2 ^ 32) with 4294967296; lia|].
  eapply wp_gets_opt; [exact Hd|]. split; [|done]. cbn [inv_weight].
  assert (1024 * (4194304 * n) = n * 2 ^ (32 - k) * 2 ^ k) as ->.
  { rewrite <-Z.mul_assoc, <-Z.pow_add_r by lia. replace (32 - k + k) with 32 by lia.
    change (2 ^ 32) with 4294967296. lia. }
  pose proof (Z.pow_pos_nonneg 2 k ltac:(lia) ltac:(lia)).
  pose proof (Z.pow_pos_nonneg 2 (32 - k) ltac:(lia) ltac:(lia)).
  rewrite Z.div_mul by lia. rewrite Z.mul_assoc, Z.div_mul by lia. rewrite u64_id by lia. lia.
Qed.

Definition loaded_rq : cfs_rq := with_nr 3 (with_rq_load (Weight 4096 16777216) sample_rq).
Lemma timeslice_grows_witness : timeslice 96 loaded_rq = Ok (20000000, loaded_rq).
Proof.
  apply (timeslice_grows loaded_rq 96 (sample_sched 35) 4).
  - reflexivity.
  - discriminate.
  - discriminate.
  - reflexivity.
  - lia.
  - reflexivity.
  - split; vm_compute; congruence.
Defined.

(** A task that has run for at least the minimum granularity is
    preempted by the tick when its virtual runtime is behind [min_vruntime],
    although it should run on: the test [delta < 0] for that case is made on
    an unsigned number and never holds. *)
Theorem tick_preempts_behind s a e ideal :
  scheds s !! a = Some e -> a <> NULL ->
  timeslice a s = Ok (ideal, s) -> 0 <= ideal < 2 ^ 63 ->
  MIN_GRANULARITY <= u64 (sum_exec_time e - prev_sum_exec_time e) <= ideal ->
  0 <= vruntime e < min_vruntime_of s -> min_vruntime_of s < 2 ^ 63 ->
  check_preempt_tick a s = Ok (1, s).
Proof.
  intros He Ha Hts Hid Hu Hv Hm. apply wp_ok. unfold check_preempt_tick.
  apply wp_bind. eapply wp_run_ok; [exact Hts|].
  apply wp_bind. eapply wp_get_sched; [done..|].
  destruct (Z.ltb_spec ideal (u64 (sum_exec_time e - prev_sum_exec_time e))); [lia|].
  destruct (Z.ltb_spec (u64 (sum_exec_time e - prev_sum_exec_time e)) MIN_GRANULARITY); [lia|].
  apply wp_bind, wp_gets. change (2 ^ 63) with 9223372036854775808 in *.
  assert (u64 (vruntime e - min_vruntime_of s) = vruntime e - min_vruntime_of s + 18446744073709551616)
    as -> by (unfold u64; lia_mod).
  destruct (Z.ltb_spec (vruntime e - min_vruntime_of s + 18446744073709551616) 0); [lia|].
  destruct (Z.ltb_spec ideal (vruntime e - min_vruntime_of s + 18446744073709551616)); [|lia].
  by apply wp_ret.
Qed.

Definition behind_sched : sched_t := Sched nice0 35 0 2000000 0 1.
Definition behind_rq : cfs_rq :=
  with_nr 1 (with_min 40 (with_scheds (<[96 := behind_sched]> sample_scheds) sample_rq)).
Lemma tick_preempts_behind_witness : check_preempt_tick 96 behind_rq = Ok (1, behind_rq).
Proof.
  apply (tick_preempts_behind behind_rq 96 behind_sched 5000000).
  - reflexivity.
  - discriminate.
  - vm_compute. reflexivity.
  - split; vm_compute; congruence.
  - split; vm_compute; congruence.
  - split; vm_compute; congruence.
  - vm_compute. reflexivity.
Defined.
