(* ===== verification/Fs.v ===== *)
(** * The read-only file system: [student-distrib/drivers/fs.c]

    The image lies in the byte memory of [Bytes], as the boot loader put it
    there: a boot block, the inodes and the data blocks, 4 KB each.  A
    [dentry_t *] argument is an in-out parameter: [None] is the null pointer,
    [Some d] the struct it points to, and the functions return its new value. *)
From S2P Require Import Prelude Bytes KString.

Definition FILES_MAX : Z := 63.
Definition BLOCK_SIZE : Z := 4096.
Definition NAMESIZE : Z := 32.

(** [file_type_t] *)
Definition RTC : Z := 0.
Definition DIRECTORY : Z := 1.
Definition REGULAR : Z := 2.
Definition TERMINAL : Z := 3.

Record dentry_t := Dentry {
  fname : list Z;
  ftype : Z;
  inode : Z;
  reserved : list Z
}.

(** [fs_t]: the addresses of the three parts of the image. *)
Record fs_t := Fs_t {
  boot : Z;
  inodes : Z;
  data_block_addr : Z
}.

(** Field access by the layout of [boot_block] and [inode_t]. *)
Definition n_dir (fs : fs_t) : M mem Z := KString.ld32 (boot fs).
Definition n_inode (fs : fs_t) : M mem Z := KString.ld32 (boot fs + 4).
Definition n_datab (fs : fs_t) : M mem Z := KString.ld32 (boot fs + 8).
Definition dir_addr (fs : fs_t) (i : Z) : Z := boot fs + 64 + 64 * i.
Definition inode_addr (fs : fs_t) (i : Z) : Z := inodes fs + BLOCK_SIZE * i.
Definition inode_size (fs : fs_t) (i : Z) : M mem Z := KString.ld32 (inode_addr fs i).
Definition inode_block (fs : fs_t) (i j : Z) : M mem Z := KString.ld32 (inode_addr fs i + 4 + 4 * j).
Definition block_addr (fs : fs_t) (b : Z) : Z := data_block_addr fs + BLOCK_SIZE * b.

Fixpoint ld_bytes (p : Z) (n : nat) : M mem (list Z) :=
  match n with
  | O => mret []
  | S n => b ← ld8 p; l ← ld_bytes (p + 1) n; mret (b :: l)
  end.
Definition load_dentry (p : Z) : M mem dentry_t :=
  f ← ld_bytes p 32;
  ty ← KString.ld32 (p + 32);
  ino ← KString.ld32 (p + 36);
  r ← ld_bytes (p + 40) 24;
  mret (Dentry f ty ino r).

Definition fs_init (start_addr : Z) : M mem fs_t :=
  n ← n_inode (Fs_t start_addr 0 0);
  mret (Fs_t start_addr (start_addr + BLOCK_SIZE) (start_addr + BLOCK_SIZE + BLOCK_SIZE * n)).

Definition read_dentry_by_index (fs : fs_t) (index : Z) (dentry : option dentry_t)
    : M mem (Z * option dentry_t) :=
  match dentry with
  | None => mret (-1, dentry)
  | Some _ =>
      if FILES_MAX <=? index then mret (-1, dentry) else
      nd ← n_dir fs;
      if nd <=? index then mret (-1, dentry) else
      d ← load_dentry (dir_addr fs index);
      mret (0, Some d)
  end.

(** One iteration of [read_dentry_by_name]: the number of the matching
    entry, or [None] at the end of the directory. *)
Definition by_name_body (fs : fs_t) (name : Z) (i : Z) : M mem (Z + option Z) :=
  nd ← n_dir fs;
  if i <? nd then
    c ← KString.strncmp name (dir_addr fs i) NAMESIZE;
    mret (if c =? 0 then inr (Some i) else inl (i + 1))
  else mret (inr None).
Definition read_dentry_by_name (fs : fs_t) (name : Z) (dentry : option dentry_t)
    : M mem (Z * option dentry_t) :=
  match dentry with
  | None => mret (-1, dentry)
  | Some _ =>
      nd ← n_dir fs;
      r ← iter (S (Z.to_nat nd)) (by_name_body fs name) 0;
      match r with
      | Some i => read_dentry_by_index fs i dentry
      | None => mret (-1, dentry)
      end
  end.

Definition validate_inode (fs : fs_t) (ino : Z) : M mem Z :=
  ni ← n_inode fs; mret (if ni <=? ino then -1 else 0).

Definition no_dentry : dentry_t := Dentry [] 0 0 [].
Definition validate_fname (fs : fs_t) (name : Z) : M mem Z :=
  r ← read_dentry_by_name fs name (Some no_dentry);
  mret (if r.1 <? 0 then r.1 else i32 (inode (default no_dentry r.2))).

(** [virtual_pos]: the block within the file, its index, its data and the
    offset in it. *)
Record virtual_pos := VPos { nblock : Z; iblock : Z; datab : Z; idx : Z }.

(** One iteration of the loop of [read_data]; its state is
    [(vir_pos, buf, nread_needed)], its result the final [nread_needed] or the
    early [return -1]. *)
Definition read_body (fs : fs_t) (file : Z) (x : virtual_pos * Z * Z)
    : M mem ((virtual_pos * Z * Z) + option Z) :=
  let '(vp, buf, nread_needed) := x in
  if nread_needed =? 0 then mret (inr (Some 0)) else
  let nread_each := BLOCK_SIZE - idx vp in
  let data_ptr := datab vp + idx vp in
  if nread_needed <=? nread_each then
    KString.memcpy buf data_ptr nread_needed ;;
    mret (inr (Some 0))
  else
    KString.memcpy buf data_ptr nread_each ;;
    let nb := nblock vp + 1 in
    ib ← inode_block fs file nb;
    ndb ← n_datab fs;
    if ndb <=? ib then mret (inr None)
    else mret (inl (VPos nb ib (block_addr fs ib) 0, buf + nread_each,
                    i32 (nread_needed - nread_each))).

Definition read_data (fs : fs_t) (ino offset buf length : Z) : M mem Z :=
  errno ← validate_inode fs ino;
  if errno <? 0 then mret errno else
  if buf =? NULL then mret (-1) else
  size ← inode_size fs ino;
  if size <=? offset then mret 0 else
  let phy_pos := i32 offset in
  let nb := Z.quot phy_pos BLOCK_SIZE in
  ib ← inode_block fs ino nb;
  let ix := Z.rem phy_pos BLOCK_SIZE in
  let nb_left := i32 (size - nb * BLOCK_SIZE - ix) in
  let all := u32 nb_left <=? length in
  let nread_needed := if all then nb_left else i32 length in
  let length := if all then u32 nb_left else length in
  r ← iter (S (S (Z.to_nat (nread_needed / BLOCK_SIZE)))) (read_body fs ino)
        (VPos nb ib (block_addr fs ib) ix, buf, nread_needed);
  match r with
  | None => mret (-1)
  | Some rest => mret (i32 (length - rest))
  end.

(** The local [dentry] of [get_size] is not set when the index is invalid. *)
Definition get_size (fs : fs_t) (index : Z) : M mem Z :=
  r ← read_dentry_by_index fs index (Some no_dentry);
  if r.1 <? 0 then raise Undef else
  let d := default no_dentry r.2 in
  if ftype d <? 2 then mret 0 else inode_size fs (inode d).

(** *** The program loader *)
Definition PAGE_SIZE : Z := 4096.
Definition PROGRAM_IMG_BEGIN : Z := 134512640. (* 0x08048000 *)
Definition magic_number : list Z := [127; 69; 76; 70].

(** [vmalloc] maps the user pages; [header] is the address of the local
    buffer.  The result is [(errno, entry point, pages)]: the value returned,
    [*EIP] and [curr->vm.file_length] where they have been set. *)
Definition pro_loader (vmalloc : Z -> M mem unit) (fs : fs_t) (header name : Z)
    : M mem (Z * option Z * option Z) :=
  ino ← validate_fname fs name;
  if ino <? 0 then mret (ino, None, None) else
  size ← inode_size fs ino;
  errno ← read_data fs ino 0 header 40;
  if errno <? 0 then mret (errno, None, None) else
  h ← ld_bytes header 4;
  if negb (bool_decide (h = magic_number)) then mret (-1, None, None) else
  eip ← KString.ld32 (header + 24);
  let file_length := u32 (size + PAGE_SIZE - 1) / PAGE_SIZE in
  vmalloc (u32 (file_length * PAGE_SIZE)) ;;
  errno ← read_data fs ino 0 PROGRAM_IMG_BEGIN size;
  mret (if errno <? 0 then errno else 0, Some eip, Some file_length).
