(* ===== verification/FsProps.v ===== *)
(** * What the file system reads

    An abstract reading of the image's bytes (the number of inodes, a file's
    size, its blocks, its content), and [read_data] against it. *)
From S2P Require Import Prelude Bytes KString StringProps MemProps Fs.

(** ** The image as a list of bytes *)
Definition word_in (bs : list Z) (off : Z) : Z :=
  match take 4 (drop (Z.to_nat off) bs) with
  | [b0; b1; b2; b3] => b0 + 256 * b1 + 65536 * b2 + 16777216 * b3
  | _ => 0
  end.
Definition img_ndir (bs : list Z) : Z := word_in bs 0.
Definition img_ninode (bs : list Z) : Z := word_in bs 4.
Definition img_ndatab (bs : list Z) : Z := word_in bs 8.
Definition img_size (bs : list Z) (i : Z) : Z := word_in bs (4096 + 4096 * i).
Definition img_block (bs : list Z) (i j : Z) : Z := word_in bs (4096 + 4096 * i + 4 + 4 * j).
Definition img_data (bs : list Z) (b : Z) : list Z :=
  take 4096 (drop (Z.to_nat (4096 + 4096 * img_ninode bs + 4096 * b)) bs).
(** The bytes of file [i]. *)
Definition content (bs : list Z) (i : Z) : list Z :=
  take (Z.to_nat (img_size bs i))
    (concat (map (λ j, img_data bs (img_block bs i (Z.of_nat j)))
      (seq 0 (Z.to_nat ((img_size bs i + 4095) / 4096))))).

(** The image has the size its boot block says. *)
Record image (bs : list Z) : Prop := {
  image_len : Z.of_nat (length bs) = 4096 + 4096 * img_ninode bs + 4096 * img_ndatab bs;
  image_fits : Z.of_nat (length bs) < 4294967296;
  image_bytes : Forall (λ b, 0 <= b < 256) bs
}.
(** File [i] is there and all its blocks are. *)
Record file_ok (bs : list Z) (i : Z) : Prop := {
  file_inode : 0 <= i < img_ninode bs;
  file_size : 0 <= img_size bs i <= 1023 * 4096;
  file_blocks : forall j, 0 <= j < (img_size bs i + 4095) / 4096 ->
    0 <= img_block bs i j < img_ndatab bs
}.
(** The [fs_t] of an image at [base]. *)
Definition fs_at (base : Z) (bs : list Z) : fs_t :=
  Fs_t base (base + 4096) (base + 4096 + 4096 * img_ninode bs).

Lemma word_in_range bs off : Forall (λ b, 0 <= b < 256) bs -> 0 <= word_in bs off < 4294967296.
Proof.
  intros H. unfold word_in.
  assert (Forall (λ b, 0 <= b < 256) (take 4 (drop (Z.to_nat off) bs))) as H4
    by (by apply Forall_take, Forall_drop).
  destruct (take 4 (drop (Z.to_nat off) bs)) as [|b0 [|b1 [|b2 [|b3 [|]]]]]; try lia.
  rewrite !Forall_cons in H4. lia.
Qed.

(** ** Equal blocks *)
Lemma concat_fixed {A} (n : nat) (ls : list (list A)) p :
  (0 < n)%nat -> Forall (λ x, length x = n) ls ->
  concat ls !! p = ls !! (p / n)%nat ≫= (λ x, x !! (p mod n)%nat).
Proof.
  intros Hn Hls. revert p. induction Hls as [|x ls Hx Hls IH]; intros p; simpl; [done|].
  destruct (decide (p < n)%nat) as [Hp|Hp].
  - rewrite Nat.div_small, Nat.mod_small by done. simpl. by rewrite lookup_app_l by lia.
  - rewrite lookup_app_r by lia. rewrite Hx, IH.
    assert (exists q, p = q + 1 * n)%nat as [q ->] by (exists (p - n)%nat; lia).
    replace (q + 1 * n - n)%nat with q by lia.
    rewrite Nat.div_add, Nat.Div0.mod_add by lia. by rewrite Nat.add_1_r.
Qed.

Section image.
Context (bs : list Z).
Hypothesis Himg : image bs.

Lemma img_data_length b : 0 <= b < img_ndatab bs -> length (img_data bs b) = 4096%nat.
Proof using Himg.
  intros Hb. destruct Himg as [Hlen _ Hby].
  pose proof (word_in_range bs 4 Hby) as Hni. unfold img_data, img_ninode in *.
  rewrite length_take, length_drop. lia.
Qed.

Lemma content_lookup i p :
  file_ok bs i -> Z.of_nat p < img_size bs i ->
  content bs i !! p = img_data bs (img_block bs i (Z.of_nat p / 4096)) !! Z.to_nat (Z.of_nat p mod 4096).
Proof using Himg.
  intros [Hi Hs Hb] Hp. unfold content. rewrite lookup_take_lt by lia.
  set (nb := Z.to_nat ((img_size bs i + 4095) / 4096)).
  assert (Z.of_nat nb = (img_size bs i + 4095) / 4096) as Hnb by (subst nb; lia_mod).
  rewrite (concat_fixed 4096); [|lia|].
  - assert (Z.of_nat (p / 4096) = Z.of_nat p / 4096) as Hd by (by rewrite Nat2Z.inj_div).
    assert (p / 4096 < nb)%nat as Hlt.
    { apply Nat2Z.inj_lt. rewrite Hd, Hnb. lia_mod. }
    rewrite list_lookup_fmap, lookup_seq_lt by done. cbn [fmap option_fmap option_map mbind option_bind]. rewrite Nat.add_0_l, Hd. f_equal.
    rewrite <-(Nat2Z.id (p mod 4096)), Nat2Z.inj_mod. done.
  - apply Forall_map, Forall_forall. intros j Hj%elem_of_seq. apply img_data_length, Hb. lia.
Qed.

Lemma content_length i : file_ok bs i -> Z.of_nat (length (content bs i)) = img_size bs i.
Proof using Himg.
  intros Hf. pose proof Hf as [Hi Hs Hb].
  assert (length (content bs i) <= Z.to_nat (img_size bs i))%nat as Hle
    by (unfold content; rewrite length_take; lia).
  destruct (decide (length (content bs i) = Z.to_nat (img_size bs i))) as [->|Hne]; [lia|exfalso].
  set (p := length (content bs i)) in *.
  assert (content bs i !! p = None) as Hno by (by apply lookup_ge_None).
  rewrite content_lookup in Hno by (done || lia). apply lookup_ge_None in Hno.
  rewrite img_data_length in Hno; [|apply Hb; lia_mod].
  pose proof (Z.mod_pos_bound (Z.of_nat p) 4096 ltac:(lia)). lia.
Qed.

(** A slice that stays within one block. *)
Lemma content_slice i pos c :
  file_ok bs i -> 0 <= pos -> pos + Z.of_nat c <= img_size bs i ->
  pos mod 4096 + Z.of_nat c <= 4096 ->
  take c (drop (Z.to_nat pos) (content bs i)) =
  take c (drop (Z.to_nat (pos mod 4096)) (img_data bs (img_block bs i (pos / 4096)))).
Proof using Himg.
  intros Hf Hpos Hc Hm. apply list_eq. intros j.
  destruct (decide (j < c)%nat) as [Hj|Hj].
  - rewrite !lookup_take_lt, !lookup_drop by done.
    rewrite content_lookup by (done || lia).
    replace (Z.of_nat (Z.to_nat pos + j)) with (pos + Z.of_nat j) by lia.
    replace ((pos + Z.of_nat j) / 4096) with (pos / 4096) by lia_mod.
    f_equal. lia_mod.
  - rewrite !lookup_take_ge by lia. done.
Qed.
End image.

(** ** The image in memory *)
Lemma ld32_in m base bs off :
  bytes_at m base bs -> 0 <= off -> off + 4 <= Z.of_nat (length bs) ->
  KString.ld32 (base + off) m = Ok (word_in bs off, m).
Proof.
  intros Hb H0 Hoff. unfold word_in.
  assert (length (take 4 (drop (Z.to_nat off) bs)) = 4%nat) as Hl
    by (rewrite length_take, length_drop; lia).
  assert (bytes_at m (base + off) (take 4 (drop (Z.to_nat off) bs))) as H4.
  { intros i x Hx. apply lookup_take_Some in Hx as [Hx _]. rewrite lookup_drop in Hx.
    apply Hb in Hx. rewrite <-Hx. f_equal. f_equal. lia. }
  destruct (take 4 (drop (Z.to_nat off) bs)) as [|b0 [|b1 [|b2 [|b3 [|]]]]]; try done.
  by apply ld32_spec.
Qed.

Lemma apart_sub p n q k i n' j k' :
  apart p n q k -> (i + n' <= n)%nat -> (j + k' <= k)%nat ->
  apart (p + Z.of_nat i) n' (q + Z.of_nat j) k'.
Proof.
  intros H Hn Hk a b Ha Hb. specialize (H (i + a)%nat (j + b)%nat ltac:(lia) ltac:(lia)).
  by rewrite !Nat2Z.inj_add, !Z.add_assoc in H.
Qed.

(** ** [read_data] *)
Section read.
Context (m : mem) (base : Z) (bs : list Z) (i buf offset length : Z).
Hypothesis Himg : image bs.
Hypothesis Hmem : bytes_at m base bs.
Hypothesis Hfile : file_ok bs i.
Hypothesis Hoff : 0 <= offset < img_size bs i.
Hypothesis Hlen : 0 <= length < 4294967296.
(** The number of bytes read and where they come from. *)
Let n : Z := Z.min length (img_size bs i - offset).
Let target : list Z := take (Z.to_nat n) (drop (Z.to_nat offset) (content bs i)).
Hypothesis Hmap : mapped m buf (Z.to_nat n).
Hypothesis Hap : apart buf (Z.to_nat n) base (List.length bs).
Let fs : fs_t := fs_at base bs.

Lemma read_bounds : 0 <= n <= img_size bs i - offset /\ List.length target = Z.to_nat n.
Proof using All.
  pose proof (content_length bs Himg i Hfile). split; [unfold n; lia|].
  unfold target. rewrite length_take, length_drop. unfold n. lia.
Qed.

(** The store after the first [d] bytes; the image is still there. *)
Definition read_upto (d : Z) (m' : mem) : Prop := m' = poke buf (take (Z.to_nat d) target) m.

Lemma read_image d m' : read_upto d m' -> bytes_at m' base bs.
Proof using All.
  intros ->. apply bytes_at_poke_apart; [done|]. eapply apart_le; [exact Hap| |done].
  destruct read_bounds as [_ Ht]. rewrite length_take. lia.
Qed.

Lemma img_ninode_range : 0 <= img_ninode bs < 4294967296 /\ 0 <= img_ndatab bs < 4294967296.
Proof using Himg. split; apply word_in_range, Himg. Qed.

Lemma read_word d m' off :
  read_upto d m' -> 0 <= off -> off + 4 <= Z.of_nat (List.length bs) ->
  KString.ld32 (base + off) m' = Ok (word_in bs off, m').
Proof using All. intros Hd. apply ld32_in. by eapply read_image. Qed.

(** The words [read_data] reads. *)
Lemma read_inode_block d m' j :
  read_upto d m' -> 0 <= j <= 1022 ->
  inode_block fs i j m' = Ok (img_block bs i j, m').
Proof using All.
  intros Hd Hj. unfold inode_block, inode_addr, fs, fs_at, BLOCK_SIZE, img_block. cbn [inodes].
  replace (base + 4096 + 4096 * i + 4 + 4 * j) with (base + (4096 + 4096 * i + 4 + 4 * j)) by lia.
  destruct Hfile as [Hi _ _]. destruct img_ninode_range as [_ Hd2].
  pose proof (image_len _ Himg). eapply read_word; [exact Hd|lia|lia].
Qed.

(** One [memcpy] of [c] bytes from position [pos] of the file. *)
Lemma read_chunk d m' c pos :
  read_upto d m' -> pos = offset + d -> 0 <= d -> 0 < c -> d + c <= n ->
  pos mod 4096 + c <= 4096 ->
  wp m' (KString.memcpy (buf + d) (block_addr fs (img_block bs i (pos / 4096)) + pos mod 4096) c)
    (λ _ m2, read_upto (d + c) m2).
Proof using All.
  intros Hd Hpos Hd0 Hc Hdn Hmod. destruct read_bounds as [Hn Htl]. pose proof Hfile as [Hi Hs Hb].
  pose proof img_ninode_range as [Hni Hnd]. pose proof (image_len _ Himg) as Hil.
  pose proof (image_fits _ Himg) as Hif.
  set (b := img_block bs i (pos / 4096)). assert (0 <= b < img_ndatab bs) as Hbr by (apply Hb; lia_mod).
  set (l := take (Z.to_nat c) (drop (Z.to_nat (pos mod 4096)) (img_data bs b))).
  pose proof (Z.mod_pos_bound pos 4096 ltac:(lia)) as Hmp.
  pose proof (img_data_length bs Himg b Hbr) as Hdl.
  assert (List.length l = Z.to_nat c) as Hll by (unfold l; rewrite length_take, length_drop; lia).
  assert (l = take (Z.to_nat c) (drop (Z.to_nat d) target)) as Hlt.
  { unfold l, b. rewrite <-content_slice by (done || lia). unfold target.
    rewrite skipn_firstn_comm, drop_drop, take_take. f_equal; [lia|]. f_equal. lia. }
  set (off := 4096 + 4096 * img_ninode bs + 4096 * b + pos mod 4096).
  assert (block_addr fs b + pos mod 4096 = base + Z.of_nat (Z.to_nat off)) as ->.
  { unfold block_addr, fs, fs_at, BLOCK_SIZE, off. cbn [data_block_addr]. lia. }
  assert (l = take (Z.to_nat c) (drop (Z.to_nat off) bs)) as Hlb.
  { unfold l, img_data. rewrite skipn_firstn_comm, drop_drop, take_take. f_equal; [lia|].
    f_equal. unfold off. lia. }
  assert (bytes_at m' (base + Z.of_nat (Z.to_nat off)) l) as Hbl.
  { pose proof (read_image _ _ Hd) as Hm'. intros k x Hk. rewrite Hlb in Hk.
    apply lookup_take_Some in Hk as [Hk _]. rewrite lookup_drop in Hk. apply Hm' in Hk.
    rewrite <-Hk. do 2 f_equal. lia. }
  replace (buf + d) with (buf + Z.of_nat (Z.to_nat d)) by lia.
  replace c with (Z.of_nat (List.length l)) at 1 by lia.
  eapply wp_run_ok.
  { apply memcpy_spec; [exact Hbl|lia| | |].
    - intros k Hk. rewrite Hd.
      replace (buf + Z.of_nat (Z.to_nat d) + Z.of_nat k) with (buf + Z.of_nat (Z.to_nat d + k)) by lia.
      eapply poke_mapped_at; [exact Hmap|lia].
    - rewrite Hlb. apply Forall_take, Forall_drop, Himg.
    - eapply apart_sub; [exact Hap|lia|].
      apply (f_equal List.length) in Hlb. rewrite length_take, length_drop in Hlb. lia. }
  unfold read_upto in *. rewrite Hd.
  replace (Z.to_nat (d + c)) with (Z.to_nat d + Z.to_nat c)%nat by lia.
  rewrite <-(take_take_drop target), poke_app, Hlt, length_take. do 2 f_equal. lia.
Qed.

(** The loop. *)
Definition read_inv (j : nat) (x : virtual_pos * Z * Z) (m' : mem) : Prop :=
  exists d, 0 <= d < n /\ read_upto d m' /\
    let pos := offset + d in
    x = (VPos (pos / 4096) (img_block bs i (pos / 4096))
          (block_addr fs (img_block bs i (pos / 4096))) (pos mod 4096), buf + d, n - d) /\
    j = Z.to_nat ((n - d + pos mod 4096) / 4096).

Lemma read_body_spec j x m' :
  read_inv j x m' ->
  wp m' (read_body fs i x) (λ r m2, match r with
    | inl y => exists j', (j' < j)%nat /\ read_inv j' y m2
    | inr r => r = Some 0 /\ read_upto n m2
    end).
Proof using All.
  intros (d & Hd & Hm' & -> & ->). destruct read_bounds as [Hn Htl]. pose proof Hfile as [Hi Hs Hb].
  set (pos := offset + d) in *. pose proof (Z.mod_pos_bound pos 4096 ltac:(lia)) as Hmp.
  unfold read_body. destruct (Z.eqb_spec (n - d) 0); [lia|]. cbn [idx datab nblock iblock].
  unfold BLOCK_SIZE. destruct (Z.leb_spec (n - d) (4096 - pos mod 4096)).
  - eapply wp_seq; [apply (read_chunk d m' (n - d) pos); [done|done|lia|lia|lia|lia]|].
    intros ? m2 H2. apply wp_ret. split; [done|]. by replace n with (d + (n - d)) by lia.
  - set (c := 4096 - pos mod 4096) in *.
    eapply wp_seq; [apply (read_chunk d m' c pos); [done|done|lia|lia|lia|lia]|].
    intros ? m2 H2. assert (pos + c < img_size bs i) as Hlt by lia.
    assert ((pos + c) / 4096 = pos / 4096 + 1 /\ (pos + c) mod 4096 = 0) as [Hq Hr]
      by (subst c; lia_mod).
    assert (0 <= pos / 4096 + 1 <= 1022) as Hnb by lia_mod.
    apply wp_bind. eapply wp_run_ok; [eapply read_inode_block; [exact H2|done]|].
    apply wp_bind. eapply wp_run_ok.
    { unfold n_datab, fs, fs_at. cbn [boot]. eapply (read_word _ _ 8 H2); [lia|].
      destruct img_ninode_range. rewrite (image_len _ Himg). lia. }
    change (word_in bs 8) with (img_ndatab bs).
    assert (0 <= img_block bs i (pos / 4096 + 1) < img_ndatab bs) as Hbr by (apply Hb; lia_mod).
    destruct (Z.leb_spec (img_ndatab bs) (img_block bs i (pos / 4096 + 1))); [lia|].
    apply wp_ret. exists (Z.to_nat ((n - (d + c) + 0) / 4096)). split; [lia_mod|].
    exists (d + c). split; [lia|]. split; [done|]. cbv zeta. replace (offset + (d + c)) with (pos + c) by lia.
    rewrite Hq, Hr, i32_id by lia. split; [|done].
    by replace (n - d - c) with (n - (d + c)) by lia; replace (buf + d + c) with (buf + (d + c)) by lia.
Qed.

Lemma read_data_spec : buf <> NULL ->
  read_data fs i offset buf length m = Ok (n, poke buf target m).
Proof using All.
  intros Hbuf. apply wp_ok. destruct read_bounds as [Hn Htl]. pose proof Hfile as [Hi Hs Hb].
  pose proof img_ninode_range as [Hni Hnd]. pose proof (image_len _ Himg) as Hil.
  assert (read_upto 0 m) as H0 by done.
  unfold read_data, validate_inode. apply wp_bind, wp_bind. unfold n_inode, fs, fs_at. cbn [boot].
  eapply wp_run_ok; [eapply (read_word _ _ 4 H0); lia|]. change (word_in bs 4) with (img_ninode bs).
  apply wp_ret. destruct (Z.leb_spec (img_ninode bs) i); [lia|]. cbn [Z.ltb Z.compare].
  rewrite (proj2 (Z.eqb_neq buf NULL)) by done.
  apply wp_bind. unfold inode_size, inode_addr, BLOCK_SIZE. cbn [inodes].
  replace (base + 4096 + 4096 * i) with (base + (4096 + 4096 * i)) by lia.
  eapply wp_run_ok; [eapply (read_word _ _ _ H0); lia|].
  change (word_in bs (4096 + 4096 * i)) with (img_size bs i).
  destruct (Z.leb_spec (img_size bs i) offset); [lia|].
  rewrite (i32_id offset) by lia. rewrite Z.quot_div_nonneg, Z.rem_mod_nonneg by lia.
  apply wp_bind. eapply wp_run_ok; [eapply (read_inode_block 0); [done|lia_mod]|].
  set (q := offset / 4096). set (r := offset mod 4096).
  assert (offset = q * 4096 + r /\ 0 <= r < 4096) as [Hoq Hr] by (subst q r; lia_mod).
  replace (img_size bs i - q * 4096 - r) with (img_size bs i - offset) by lia.
  rewrite i32_id, u32_id by lia.
  assert ((if img_size bs i - offset <=? length then img_size bs i - offset else i32 length) = n /\
          (if img_size bs i - offset <=? length then img_size bs i - offset else length) = n)
    as [Hn1 Hn2].
  { unfold n. destruct (Z.leb_spec (img_size bs i - offset) length); [lia|].
    rewrite i32_id by lia. lia. }
  rewrite Hn1, Hn2.
  eapply wp_seq with (P := λ x m', x = Some 0 /\ read_upto n m').
  - destruct (decide (n = 0)) as [Hz|Hz].
    + rewrite Hz. apply (wp_iter_step m _ _ _ _). cbn [read_body]. rewrite Z.eqb_refl.
      apply wp_ret. done.
    + eapply (wp_iter read_inv _ _ (Z.to_nat ((n + r) / 4096))); [apply read_body_spec| |].
      * exists 0. rewrite Z.add_0_r, Z.sub_0_r. split; [lia|]. split; [done|]. split; [|done].
        by rewrite Z.add_0_r.
      * assert ((n + r) / 4096 <= n / 4096 + 1) by lia_mod. lia_mod.
  - intros x m' [-> Hm']. apply wp_ret. rewrite Z.sub_0_r, i32_id by lia. split; [done|].
    unfold read_upto in Hm'. rewrite Hm'. f_equal. apply take_ge. lia.
Qed.
End read.

(** The branches that read nothing. *)
Section read_none.
Context (m : mem) (base : Z) (bs : list Z) (i buf offset length : Z).
Hypothesis Himg : image bs.
Hypothesis Hmem : bytes_at m base bs.
Hypothesis Hi : 0 <= i.

Lemma ld32_image off : 0 <= off -> off + 4 <= Z.of_nat (List.length bs) ->
  KString.ld32 (base + off) m = Ok (word_in bs off, m).
Proof using Hmem. by apply ld32_in. Qed.

Lemma validate_inode_spec :
  validate_inode (fs_at base bs) i m = Ok (if img_ninode bs <=? i then -1 else 0, m).
Proof using Himg Hmem.
  pose proof (image_len _ Himg). pose proof (img_ninode_range bs Himg).
  apply wp_ok, wp_bind. unfold n_inode, fs_at. cbn [boot].
  eapply wp_run_ok; [apply ld32_image; lia|]. done.
Qed.

Lemma read_data_bad_inode : img_ninode bs <= i ->
  read_data (fs_at base bs) i offset buf length m = Ok (-1, m).
Proof using All.
  intros Hb. apply wp_ok. unfold read_data. apply wp_bind.
  eapply wp_run_ok; [apply validate_inode_spec|]. by rewrite (proj2 (Z.leb_le _ _)).
Qed.

Lemma read_data_null : i < img_ninode bs -> buf = NULL ->
  read_data (fs_at base bs) i offset buf length m = Ok (-1, m).
Proof using All.
  intros Hb ->. apply wp_ok. unfold read_data. apply wp_bind.
  eapply wp_run_ok; [apply validate_inode_spec|]. by rewrite (proj2 (Z.leb_gt _ _)).
Qed.

Lemma read_data_past : i < img_ninode bs -> buf <> NULL -> img_size bs i <= offset ->
  read_data (fs_at base bs) i offset buf length m = Ok (0, m).
Proof using All.
  intros Hb Hn Ho. pose proof (image_len _ Himg). pose proof (img_ninode_range bs Himg).
  apply wp_ok. unfold read_data. apply wp_bind.
  eapply wp_run_ok; [apply validate_inode_spec|]. rewrite (proj2 (Z.leb_gt _ _)) by done.
  cbn [Z.ltb Z.compare]. rewrite (proj2 (Z.eqb_neq buf NULL)) by done.
  apply wp_bind. unfold inode_size, inode_addr, fs_at, BLOCK_SIZE. cbn [inodes].
  replace (base + 4096 + 4096 * i) with (base + (4096 + 4096 * i)) by lia.
  eapply wp_run_ok; [apply ld32_image; lia|].
  change (word_in bs (4096 + 4096 * i)) with (img_size bs i).
  by rewrite (proj2 (Z.leb_le _ _)).
Qed.
End read_none.

(** ** The directory *)
Fixpoint upto_zero (l : list Z) : list Z :=
  match l with [] => [] | b :: l => if b =? 0 then [] else b :: upto_zero l end.
(** Entry [i] of the directory: its 64 bytes, its name, the struct. *)
Definition dir_bytes (bs : list Z) (i : Z) : list Z := take 64 (drop (Z.to_nat (64 + 64 * i)) bs).
Definition dir_name (bs : list Z) (i : Z) : list Z := take 32 (upto_zero (dir_bytes bs i)).
Definition dir_entry (bs : list Z) (i : Z) : dentry_t :=
  Dentry (take 32 (drop (Z.to_nat (64 + 64 * i)) bs)) (word_in bs (64 + 64 * i + 32))
    (word_in bs (64 + 64 * i + 36)) (take 24 (drop (Z.to_nat (64 + 64 * i + 40)) bs)).
(** The first entry called [name], whose first 32 characters count. *)
Definition dir_find (bs : list Z) (name : list Z) : option Z :=
  find (λ i, bool_decide (take 32 name = dir_name bs i)) (seqZ 0 (img_ndir bs)).
(** The directory fits in the boot block and no entry is all text. *)
Record dir_ok (bs : list Z) : Prop := {
  dir_fits : 0 <= img_ndir bs <= FILES_MAX;
  dir_zero : forall i, 0 <= i < img_ndir bs -> 0 ∈ dir_bytes bs i
}.

Lemma upto_zero_cstr m p l :
  bytes_at m p l -> Forall (λ b, 0 <= b < 256) l -> 0 ∈ l -> Z.of_nat (length l) < 2147483647 ->
  cstr m p (upto_zero l).
Proof.
  intros Hb Hf H0 Hl. assert (exists k, l = (upto_zero l ++ [0]) ++ k) as [k Hk].
  { clear -H0. induction l as [|b l IH]; [by apply elem_of_nil in H0|]. simpl.
    destruct (Z.eqb_spec b 0) as [->|Hne]; [by exists l|].
    apply elem_of_cons in H0 as [|H0]; [done|]. destruct (IH H0) as [k Hk]. exists k. simpl. by f_equal. }
  assert (Forall (λ b, b <> 0) (upto_zero l)) as Hnz.
  { clear. induction l as [|b l IH]; simpl; [done|]. destruct (Z.eqb_spec b 0); [done|]. by constructor. }
  rewrite Hk in Hb. apply bytes_at_app in Hb as [Hb _].
  assert (Forall (λ b, 0 <= b < 256) (upto_zero l)) as Hf2.
  { rewrite Hk, !Forall_app in Hf. apply Hf. }
  split; [done|]. split.
  - eapply Forall_impl; [apply Forall_and; split; [exact Hnz|exact Hf2]|]. simpl. lia.
  - apply (f_equal length) in Hk. rewrite !length_app in Hk. lia.
Qed.

Lemma ld_bytes_spec m p l : bytes_at m p l -> ld_bytes p (length l) m = Ok (l, m).
Proof.
  revert p. induction l as [|b l IH]; intros p H; [done|].
  apply bytes_at_cons in H as [Hb Hl]. apply wp_ok. cbn [ld_bytes length].
  apply wp_bind. eapply wp_ld8; [exact Hb|]. apply wp_bind. eapply wp_run_ok; [by apply IH|done].
Qed.

Section dir.
Context (m : mem) (base : Z) (bs : list Z).
Hypothesis Himg : image bs.
Hypothesis Hmem : bytes_at m base bs.
Hypothesis Hdir : dir_ok bs.

Lemma bytes_at_sub off n : 0 <= off -> bytes_at m (base + off) (take n (drop (Z.to_nat off) bs)).
Proof using Hmem.
  intros Hoff i x Hx. apply lookup_take_Some in Hx as [Hx _]. rewrite lookup_drop in Hx.
  apply Hmem in Hx. rewrite <-Hx. do 2 f_equal. lia.
Qed.
Lemma img_word off : 0 <= off -> off + 4 <= 4096 -> KString.ld32 (base + off) m = Ok (word_in bs off, m).
Proof using Hmem Himg.
  intros H0 H1. apply ld32_in; [done|done|]. pose proof (image_len _ Himg).
  pose proof (word_in_range bs 4 (image_bytes _ Himg)).
  pose proof (word_in_range bs 8 (image_bytes _ Himg)). unfold img_ninode, img_ndatab in *. lia.
Qed.
Lemma img_bytes off n : 0 <= off -> off + Z.of_nat n <= 4096 ->
  ld_bytes (base + off) n m = Ok (take n (drop (Z.to_nat off) bs), m).
Proof using Hmem Himg.
  intros H0 H1. pose proof (image_len _ Himg).
  pose proof (word_in_range bs 4 (image_bytes _ Himg)).
  pose proof (word_in_range bs 8 (image_bytes _ Himg)). unfold img_ninode, img_ndatab in *.
  replace n with (length (take n (drop (Z.to_nat off) bs))) at 1.
  - by apply ld_bytes_spec, bytes_at_sub.
  - rewrite length_take, length_drop. lia.
Qed.

Lemma n_dir_spec : n_dir (fs_at base bs) m = Ok (img_ndir bs, m).
Proof using Hmem Himg.
  unfold n_dir, fs_at. cbn [boot]. rewrite <-(Z.add_0_r base). by apply img_word.
Qed.

Lemma load_dentry_spec i :
  0 <= i < FILES_MAX -> load_dentry (base + 64 + 64 * i) m = Ok (dir_entry bs i, m).
Proof using Hmem Himg.
  unfold FILES_MAX. intros Hi. apply wp_ok. unfold load_dentry.
  replace (base + 64 + 64 * i) with (base + (64 + 64 * i)) by lia.
  apply wp_bind. eapply wp_run_ok; [apply img_bytes; lia|].
  rewrite <-!(Z.add_assoc base).
  apply wp_bind. eapply wp_run_ok; [apply img_word; lia|].
  apply wp_bind. eapply wp_run_ok; [apply img_word; lia|].
  apply wp_bind. eapply wp_run_ok; [apply img_bytes; lia|]. done.
Qed.

Lemma by_index_spec i d : 0 <= i ->
  read_dentry_by_index (fs_at base bs) i (Some d) m =
    Ok (if i <? img_ndir bs then (0, Some (dir_entry bs i)) else (-1, Some d), m).
Proof using All.
  intros Hi. destruct (dir_fits _ Hdir) as [Hd1 Hd2]. apply wp_ok. unfold read_dentry_by_index.
  destruct (Z.leb_spec FILES_MAX i).
  { apply wp_ret. by rewrite (proj2 (Z.ltb_ge _ _)) by lia. }
  apply wp_bind. eapply wp_run_ok; [apply n_dir_spec|].
  destruct (Z.leb_spec (img_ndir bs) i).
  { apply wp_ret. by rewrite (proj2 (Z.ltb_ge _ _)) by lia. }
  apply wp_bind. eapply wp_run_ok; [unfold dir_addr, fs_at; cbn [boot]; apply load_dentry_spec; lia|].
  apply wp_ret. by rewrite (proj2 (Z.ltb_lt _ _)) by lia.
Qed.

Lemma entry_cstr i : 0 <= i < img_ndir bs -> cstr m (base + 64 + 64 * i) (upto_zero (dir_bytes bs i)).
Proof using All.
  intros Hi. rewrite <-Z.add_assoc. apply upto_zero_cstr.
  - apply bytes_at_sub. lia.
  - apply Forall_take, Forall_drop, Himg.
  - by apply Hdir.
  - unfold dir_bytes. rewrite length_take. lia.
Qed.

(** The scan of the directory from entry [i] on. *)
Lemma by_name_scan name l (k : nat) i n :
  cstr m name l -> 0 <= i -> i + Z.of_nat k = img_ndir bs -> (k < n)%nat ->
  iter n (by_name_body (fs_at base bs) name) i m =
    Ok (find (λ j, bool_decide (take 32 l = dir_name bs j)) (seqZ i (Z.of_nat k)), m).
Proof using All.
  intros Hname. revert i n. induction k as [|k IH]; intros i n Hi Hk Hn.
  all: destruct n as [|n]; [lia|]; apply wp_ok, (wp_iter_step m n); unfold by_name_body.
  all: apply wp_bind; eapply wp_run_ok; [apply n_dir_spec|].
  { rewrite (proj2 (Z.ltb_ge _ _)) by lia. by apply wp_ret. }
  rewrite (proj2 (Z.ltb_lt _ _)) by lia. unfold dir_addr, fs_at, NAMESIZE. cbn [boot].
  destruct (strncmp_eq m name (base + 64 + 64 * i) l _ 32 Hname (entry_cstr i ltac:(lia)) ltac:(lia))
    as (x & Hx & Heq).
  apply wp_bind. eapply wp_run_ok; [exact Hx|]. apply wp_ret. rewrite Heq, seqZ_cons by lia.
  cbn [find]. fold (dir_name bs i). destruct (bool_decide _); [done|].
  apply wp_ok. replace (Z.pred (Z.of_nat (S k))) with (Z.of_nat k) by lia. apply IH; lia.
Qed.

Lemma by_name_spec name l d :
  cstr m name l ->
  read_dentry_by_name (fs_at base bs) name (Some d) m =
    Ok (match dir_find bs l with
        | Some i => (0, Some (dir_entry bs i))
        | None => (-1, Some d)
        end, m).
Proof using All.
  intros Hname. destruct (dir_fits _ Hdir) as [Hd1 Hd2]. apply wp_ok. unfold read_dentry_by_name.
  apply wp_bind. eapply wp_run_ok; [apply n_dir_spec|].
  apply wp_bind. eapply wp_run_ok.
  { apply (by_name_scan name l (Z.to_nat (img_ndir bs)) 0); [done|lia..]. }
  rewrite Z2Nat.id by done. fold (dir_find bs l). destruct (dir_find bs l) as [i|] eqn:Hf; [|done].
  apply find_some in Hf as [Hf _]. apply list_elem_of_In, elem_of_seqZ in Hf.
  apply wp_ok. rewrite by_index_spec by lia. by rewrite (proj2 (Z.ltb_lt _ _)) by lia.
Qed.
End dir.

(** ** The answers of [read_data], all cases together *)

(** What [read_data] answers: the value returned and the memory. *)
Definition read_answer (bs : list Z) (i offset buf length : Z) (m : mem) : Z * mem :=
  if img_ninode bs <=? i then (-1, m)
  else if buf =? NULL then (-1, m)
  else if img_size bs i <=? offset then (0, m)
  else
    let n := Z.min length (img_size bs i - offset) in
    (n, poke buf (take (Z.to_nat n) (drop (Z.to_nat offset) (content bs i))) m).

Lemma read_data_run m base bs i offset buf length :
  image bs -> bytes_at m base bs -> 0 <= i -> (i < img_ninode bs -> file_ok bs i) ->
  0 <= offset < 4294967296 -> 0 <= length < 4294967296 ->
  mapped m buf (Z.to_nat (Z.min length (img_size bs i - offset))) ->
  apart buf (Z.to_nat (Z.min length (img_size bs i - offset))) base (List.length bs) ->
  read_data (fs_at base bs) i offset buf length m =
    Ok (read_answer bs i offset buf length m).
Proof.
  intros Himg Hmem Hi Hf Ho Hl Hmap Hap. unfold read_answer.
  destruct (Z.leb_spec (img_ninode bs) i) as [Hbad|Hok].
  { by apply read_data_bad_inode. }
  destruct (Z.eqb_spec buf NULL) as [Hb|Hb].
  { apply read_data_null; auto. }
  destruct (Z.leb_spec (img_size bs i) offset) as [Hpast|Hin].
  { apply read_data_past; auto. }
  apply (read_data_spec m base bs i buf offset length); auto with lia.
Qed.
