(* ===== verification/FsContract.v ===== *)
(** * The contract of the file system

    The theorems about [drivers/fs.c], on an image that lies in memory. *)
From S2P Require Import Prelude Bytes KString StringProps MemProps Fs FsProps.

(** C15: [read_data] returns -1 for a bad inode number or a null buffer, 0 at
    or past the end of the file, and otherwise the number of bytes left in the
    file or asked for, whichever is less; it has then put exactly those bytes
    of the file in the buffer, across as many blocks as they take, and changed
    nothing else.  It never reads past its blocks and its loop ends. *)
Theorem read_data_correct m base bs i offset buf length :
  image bs -> bytes_at m base bs -> 0 <= i -> (i < img_ninode bs -> file_ok bs i) ->
  0 <= offset < 4294967296 -> 0 <= length < 4294967296 ->
  mapped m buf (Z.to_nat (Z.min length (img_size bs i - offset))) ->
  apart buf (Z.to_nat (Z.min length (img_size bs i - offset))) base (List.length bs) ->
  read_data (fs_at base bs) i offset buf length m =
    Ok (read_answer bs i offset buf length m).
Proof. exact (read_data_run m base bs i offset buf length). Qed.

(** An image with two files of which one spans two blocks, the second of its
    blocks lying before the first. *)
Definition le32 (x : Z) : list Z := [x mod 256; x / 256 mod 256; x / 65536 mod 256; x / 16777216].
Definition sample_entry (name : string) (type ino : Z) : list Z :=
  lit name ++ replicate (32 - String.length name) 0 ++ le32 type ++ le32 ino ++ replicate 24 0.
Definition sample_inode (size : Z) (blocks : list Z) : list Z :=
  le32 size ++ concat (map le32 blocks) ++ replicate (4092 - 4 * List.length blocks) 0.
Definition sample_image : list Z :=
  le32 2 ++ le32 1 ++ le32 2 ++ replicate 52 0 ++
  sample_entry "rtc" 0 0 ++ sample_entry "frame0.txt" 2 0 ++ replicate (4096 - 192) 0 ++
  sample_inode 4100 [1; 0] ++
  (lit "fish" ++ replicate 4092 0) ++ (replicate 4093 32 ++ lit "two").
Definition sample_store : mem :=
  poke 65536 sample_image (poke 200 (lit "frame0.txt" ++ [0]) (poke 100 (replicate 10 170) ∅)).

Lemma sample_image_length : Z.of_nat (List.length sample_image) = 16384.
Proof. vm_compute. reflexivity. Qed.
Lemma sample_image_ok : image sample_image.
Proof.
  split.
  - rewrite sample_image_length. vm_compute. reflexivity.
  - by rewrite sample_image_length.
  - apply Forall_forall. intros b Hb%list_elem_of_In.
    assert (forallb (λ b, (0 <=? b) && (b <? 256)) sample_image = true) as H by (vm_compute; reflexivity).
    rewrite forallb_forall in H. apply H in Hb. lia.
Qed.
Lemma sample_store_image : bytes_at sample_store 65536 sample_image.
Proof. apply bytes_at_poke. rewrite sample_image_length. lia. Qed.
Lemma sample_file_ok : file_ok sample_image 0.
Proof.
  split; [by change (img_ninode sample_image) with 1| |].
  - change (img_size sample_image 0) with 4100. lia.
  - change (img_size sample_image 0) with 4100. change ((4100 + 4095) / 4096) with 2.
    change (img_ndatab sample_image) with 2. intros j Hj.
    assert (j = 0 \/ j = 1) as [->| ->] by lia; by vm_compute.
Qed.

Lemma read_data_correct_witness :
  read_data (fs_at 65536 sample_image) 0 4094 100 10 sample_store =
    Ok (6, poke 100 (lit "wofish") sample_store).
Proof.
  rewrite (read_data_correct sample_store 65536 sample_image 0 4094 100 10).
  - apply (f_equal Ok). unfold read_answer. generalize sample_store. intros s. vm_compute. reflexivity.
  - apply sample_image_ok.
  - apply sample_store_image.
  - lia.
  - intros _. apply sample_file_ok.
  - lia.
  - lia.
  - apply poke_mapped, poke_mapped, mappedb_ok. vm_compute. reflexivity.
  - change (Z.to_nat (Z.min 10 (img_size sample_image 0 - 4094))) with 6%nat.
    apply apart_ranges; rewrite ?sample_image_length; lia.
Defined.

(** [read_dentry_by_name] finds the first entry whose name has the same
    first 32 characters and fills the caller's struct with that entry; it
    returns -1 and leaves the struct alone when there is none, and -1 for a
    null struct. *)
Theorem read_dentry_by_name_correct m base bs name l d :
  image bs -> bytes_at m base bs -> dir_ok bs -> cstr m name l ->
  read_dentry_by_name (fs_at base bs) name None m = Ok (-1, None, m) /\
  read_dentry_by_name (fs_at base bs) name (Some d) m =
    Ok (match dir_find bs l with
        | Some i => (0, Some (dir_entry bs i))
        | None => (-1, Some d)
        end, m).
Proof. intros Himg Hmem Hdir Hname. split; [done|]. by apply by_name_spec. Qed.

Lemma sample_dir_ok : dir_ok sample_image.
Proof.
  split; [by vm_compute|]. change (img_ndir sample_image) with 2. intros i Hi.
  apply (bool_decide_unpack _). assert (i = 0 \/ i = 1) as [->| ->] by lia; by vm_compute.
Qed.
Lemma read_dentry_by_name_correct_witness :
  read_dentry_by_name (fs_at 65536 sample_image) 200 None sample_store = Ok (-1, None, sample_store) /\
  read_dentry_by_name (fs_at 65536 sample_image) 200 (Some no_dentry) sample_store =
    Ok (0, Some (Dentry (lit "frame0.txt" ++ replicate 22 0) REGULAR 0 (replicate 24 0)), sample_store).
Proof.
  apply (read_dentry_by_name_correct sample_store 65536 sample_image 200 (lit "frame0.txt") no_dentry).
  - apply sample_image_ok.
  - apply sample_store_image.
  - apply sample_dir_ok.
  - apply cstr_poke_apart; [apply cstrb_ok; by vm_compute|].
    apply apart_ranges; rewrite ?sample_image_length; try lia; [by right|by vm_compute].
Defined.

(** An entry is read by its number exactly when the number is below the
    count of the boot block, and what is read back carries the name by which
    [read_dentry_by_name] finds it: reading by the number of the first entry of
    a name and reading by that name are the same. *)
Theorem read_dentry_by_index_correct m base bs i d :
  image bs -> bytes_at m base bs -> dir_ok bs -> 0 <= i ->
  read_dentry_by_index (fs_at base bs) i None m = Ok (-1, None, m) /\
  read_dentry_by_index (fs_at base bs) i (Some d) m =
    Ok (if i <? img_ndir bs then (0, Some (dir_entry bs i)) else (-1, Some d), m) /\
  (forall name l, cstr m name l -> dir_find bs l = Some i ->
     read_dentry_by_index (fs_at base bs) i (Some d) m =
     read_dentry_by_name (fs_at base bs) name (Some d) m).
Proof.
  intros Himg Hmem Hdir Hi. split; [done|]. split; [by apply by_index_spec|].
  intros name l Hname Hf. rewrite (by_index_spec m base bs Himg Hmem Hdir i d Hi).
  rewrite (by_name_spec m base bs Himg Hmem Hdir name l d Hname), Hf.
  apply find_some in Hf as [Hf _]. apply list_elem_of_In, elem_of_seqZ in Hf.
  by rewrite (proj2 (Z.ltb_lt _ _)) by lia.
Qed.

Lemma read_dentry_by_index_correct_witness :
  read_dentry_by_index (fs_at 65536 sample_image) 1 (Some no_dentry) sample_store =
    read_dentry_by_name (fs_at 65536 sample_image) 200 (Some no_dentry) sample_store.
Proof.
  apply (read_dentry_by_index_correct sample_store 65536 sample_image 1 no_dentry)
    with (l := lit "frame0.txt").
  - apply sample_image_ok.
  - apply sample_store_image.
  - apply sample_dir_ok.
  - lia.
  - apply cstr_poke_apart; [apply cstrb_ok; by vm_compute|].
    apply apart_ranges; rewrite ?sample_image_length; try lia; [by right|by vm_compute].
  - by vm_compute.
Defined.
