(* ===== verification/Kmalloc.v ===== *)
(** * The kernel's memory allocators: [kernel/kmalloc.c], and the user page
    allocator of [kernel/vm.c] that shares its code

    The allocators keep their lists inside the memory they manage, and the same
    bytes are at different times a [buddy], a [slab_t] or a [page_header_t]; so
    the model is the memory itself, 32-bit words at 4-byte aligned addresses.
    Where the linker puts the static objects is a [Layout]. *)
From S2P Require Import Prelude.

(** ** Memory *)
Record kstate := Kstate {
  word : Z -> Z;
  page_header : Z;
  slab_free_list : Z;
  start_slab : Z
}.

(** The addresses of [free_area], [free_list], [bit_map], [ph], [l1] and of
    the arrays of the user area. *)
Class Layout := {
  FREE_AREA : Z;
  FREE_LIST : Z;
  BIT_MAP : Z;
  PH : Z;
  L1 : Z;
  UFREE_AREA : Z;
  UFREE_LIST : Z
}.

Definition PAGE_SIZE : Z := 4096.
Definition PAGE_SIZE_4MB : Z := 4194304.
Definition KERNEL_PAGES : Z := 16.
Definition MAX_PHYS_PAGES : Z := 64.
Definition RESERVED_PAGES : Z := 2.
Definition MAX_ORDER : Z := 11.
Definition SLAB_SIZE : Z := 8.
Definition MAX_BMSIZE : Z := 224.
Definition PAGE_SLAB : Z := PAGE_SIZE_4MB / SLAB_SIZE.

(** The kernel's pages: its image (4 MB to 8 MB) and the memory it manages. *)
Definition kaddr (a : Z) : bool :=
  (PAGE_SIZE_4MB <=? a) && (a <? KERNEL_PAGES * PAGE_SIZE_4MB) && (a mod 4 =? 0).
Definition ld (p : Z) : M kstate Z :=
  gets_opt (λ s, if kaddr (u32 p) then Some (word s (u32 p)) else None).
Definition upd (a v : Z) (f : Z -> Z) : Z -> Z := λ x, if x =? a then v else f x.
Definition set_word (f : Z -> Z) (s : kstate) : kstate :=
  Kstate f (page_header s) (slab_free_list s) (start_slab s).
Definition st (p v : Z) : M kstate unit :=
  ld p ;; modify (λ s, set_word (upd (u32 p) (u32 v) (word s)) s).

(** *** The structs, by their layout *)
(** [buddy] *)
Definition b_next (b : Z) : Z := b.
Definition b_last (b : Z) : Z := b + 4.
Definition b_addr (b : Z) : Z := b + 8.
Definition sizeof_buddy : Z := 12.
(** [slab_t] *)
Definition s_size (s : Z) : Z := s.
Definition s_status (s : Z) : Z := s + 4.
Definition s_last (s : Z) : Z := s + 8.
Definition s_next (s : Z) : Z := s + 12.
Definition sizeof_slab : Z := 16.
(** [page_header_t] *)
Definition h_addr (h : Z) : Z := h.
Definition h_order (h : Z) : Z := h + 4.
Definition h_next (h : Z) : Z := h + 8.
Definition sizeof_page_header : Z := 12.
(** [free_area_t]: element [i] of an array of them *)
Definition area_at (area i : Z) : Z := area + 20 * i.
Definition a_free_list (a : Z) : Z := a.
Definition a_bit_map (a : Z) : Z := a + 4.
Definition a_bmsize (a : Z) : Z := a + 8.
Definition a_start_addr (a : Z) : Z := a + 12.
Definition a_user (a : Z) : Z := a + 16.

(** Every node of a list takes at least 8 of the 60 MB above, so no list is
    longer than this. *)
Definition list_fuel : nat := Z.to_nat 8388608.

(** ** The buddy lists *)
Definition buddy_size (order : Z) : Z := i32 (Z.shiftl (PAGE_SIZE * 2) order).

Definition free_list_push (fl b : Z) : M kstate unit :=
  prev ← ld (b_last fl);
  st (b_last b) prev ;;
  st (b_next b) fl ;;
  st (b_next prev) b ;;
  st (b_last fl) b.

Definition free_list_pop (fl : Z) : M kstate Z :=
  head ← ld (b_next fl);
  if head =? fl then mret NULL else
  n ← ld (b_next head);
  st (b_last n) fl ;;
  n ← ld (b_next head);
  st (b_next fl) n ;;
  mret head.

(** ** The pair bitmaps *)
Definition bit_word (area b order : Z) : M kstate (Z * Z) :=
  addr ← ld (b_addr b);
  start ← ld (a_start_addr area);
  let index := u32 (addr - start) / buddy_size order in
  bm ← ld (a_bit_map (area_at area order));
  mret (bm + 4 * (index / 32), Z.shiftl 1 (index mod 32)).
Definition is_split (area b order : Z) : M kstate bool :=
  '(w, mask) ← bit_word area b order;
  x ← ld w;
  mret (negb (Z.land x mask =? 0)).
Definition flip_bit_map (area b order : Z) : M kstate unit :=
  '(w, mask) ← bit_word area b order;
  x ← ld w;
  st w (Z.lxor x mask).

Definition is_left_buddy (area b order : Z) : M kstate bool :=
  user ← ld (a_user area);
  start ← ld (a_start_addr area);
  addr ← (if negb (user =? 0) then ld (b_addr b) else mret b);
  mret (u32 (addr - start) / (buddy_size order / 2) mod 2 =? 0).

Section allocators.
Context `{!Layout}.
(** The allocators call each other: the blocks of the user area are described
    by structs from [kmalloc], and [add_header] and [pop_header] keep their
    records there.  Inside one call, [kmalloc] and [kfree] are the functions
    one call deeper. *)
Context (kmalloc : Z -> M kstate Z) (kfree : Z -> M kstate unit).

Definition get_buddy (addr : Z) : M kstate Z :=
  b ← kmalloc sizeof_buddy;
  st (b_addr b) addr ;;
  mret b.

(** ** Allocating pages *)
Fixpoint buddy_split_rec (fuel : nat) (area b cur_order tar_order : Z) : M kstate Z :=
  match fuel with
  | O => raise NoFuel
  | S n =>
      user ← ld (a_user area);
      b2 ← (if negb (user =? 0) then
              a ← ld (b_addr b); get_buddy (u32 (a + buddy_size cur_order / 4))
            else
              let b2 := u32 (b + buddy_size cur_order / 4) in
              st (b_addr b2) b2 ;; mret b2);
      if cur_order =? tar_order then
        flip_bit_map area b cur_order ;; mret b
      else
        when (negb (cur_order =? MAX_ORDER)) (flip_bit_map area b cur_order) ;;
        fl ← ld (a_free_list (area_at area (cur_order - 1)));
        free_list_push fl b2 ;;
        buddy_split_rec n area b (cur_order - 1) tar_order
  end.
Definition buddy_split (area b cur_order tar_order : Z) : M kstate Z :=
  buddy_split_rec (S (Z.to_nat (cur_order - tar_order))) area b cur_order tar_order.

(** The search of [get_page] and [get_user_page] for the smallest order that
    has a free block: the block and its order. *)
Definition find_block_body (area i : Z) : M kstate (Z + option (Z * Z)) :=
  if i <=? MAX_ORDER then
    fl ← ld (a_free_list (area_at area i));
    temp ← free_list_pop fl;
    mret (if temp =? NULL then inl (i + 1) else inr (Some (temp, i)))
  else mret (inr None).
Definition find_block (area order : Z) : M kstate (option (Z * Z)) :=
  iter (S (Z.to_nat (MAX_ORDER + 1 - order))) (find_block_body area) order.

Definition get_page (order : Z) : M kstate Z :=
  if (MAX_ORDER <=? order) || (order <? 0) then mret NULL else
  r ← find_block FREE_AREA order;
  match r with
  | Some (temp, i) => buddy_split FREE_AREA temp i order
  | None => mret NULL
  end.

(** ** Freeing pages *)
Definition remove_body (area fl b b2 : Z) (left : bool) (t : Z) : M kstate (Z + Z) :=
  if t =? fl then mret (inr NULL) else
  ta ← ld (b_addr t);
  if ta =? b2 then
    last ← ld (b_last t);
    next ← ld (b_next t);
    st (b_next last) next ;;
    next ← ld (b_next t);
    last ← ld (b_last t);
    st (b_last next) last ;;
    user ← ld (a_user area);
    when (negb (user =? 0)) (kfree (if left then t else b)) ;;
    mret (inr (if left then b else t))
  else
    t ← ld (b_next t); mret (inl t).
Definition remove_from_free (area fl b order : Z) : M kstate Z :=
  left ← is_left_buddy area b order;
  a ← ld (b_addr b);
  let b2 := u32 (if (left : bool) then a + buddy_size order / 2 else a - buddy_size order / 2) in
  t ← ld (b_next fl);
  iter list_fuel (remove_body area fl b b2 left) t.

Fixpoint _free_page_rec (fuel : nat) (area b order : Z) : M kstate unit :=
  match fuel with
  | O => raise NoFuel
  | S n =>
      if order =? MAX_ORDER then
        fl ← ld (a_free_list (area_at area order)); free_list_push fl b
      else
      split ← is_split area b order;
      if negb split then
        fl ← ld (a_free_list (area_at area order));
        free_list_push fl b ;;
        flip_bit_map area b order
      else
        flip_bit_map area b order ;;
        fl ← ld (a_free_list (area_at area order));
        t ← remove_from_free area fl b order;
        _free_page_rec n area t (order + 1)
  end.
Definition _free_page (area b order : Z) : M kstate unit :=
  _free_page_rec (S (Z.to_nat (MAX_ORDER - order))) area b order.
Definition free_page (p order : Z) : M kstate unit :=
  st (b_addr p) p ;;
  _free_page FREE_AREA p order.

(** ** The slab lists *)
Definition slab_list_push (list s : Z) : M kstate unit :=
  prev ← ld (s_last list);
  st (s_last s) prev ;;
  st (s_next s) list ;;
  st (s_next prev) s ;;
  st (s_last list) s.

Definition slab_list_remove (b : Z) : M kstate unit :=
  last ← ld (s_last b);
  next ← ld (s_next b);
  st (s_next last) next ;;
  next ← ld (s_next b);
  last ← ld (s_last b);
  st (s_last next) last.

(** ** Allocating less than a page *)
Definition slab_space_grow : M kstate Z :=
  s ← get_page (MAX_ORDER - 1);
  if s =? NULL then mret (-1) else
  st (s_size s) PAGE_SLAB ;;
  st (s_status s) 0 ;;
  fl ← gets slab_free_list;
  slab_list_push fl s ;;
  mret 0.

(** The first slab with enough room, taken off the list. *)
Definition find_slab_body (size_n fl s : Z) : M kstate (Z + Z) :=
  if s =? fl then mret (inr s) else
  sz ← ld (s_size s);
  if size_n <=? i32 sz then slab_list_remove s ;; mret (inr s)
  else s ← ld (s_next s); mret (inl s).
Definition find_slab (size_n : Z) : M kstate Z :=
  fl ← gets slab_free_list;
  s ← ld (s_next fl);
  iter list_fuel (find_slab_body size_n fl) s.

(** A call that calls itself again does so in the state it was called in, so
    the depth is 1 or unbounded. *)
Fixpoint slab_alloc_rec (fuel : nat) (size : Z) : M kstate Z :=
  match fuel with
  | O => raise NoFuel
  | S n =>
      let size := i32 (size + sizeof_slab) in
      let size_n := Z.quot (i32 (size + SLAB_SIZE - 1)) SLAB_SIZE in
      s ← find_slab size_n;
      fl ← gets slab_free_list;
      if s =? fl then
        r ← slab_space_grow;
        if r =? 0 then mret 0 else slab_alloc_rec n (i32 (size - sizeof_slab))
      else
        st (s_status s) 1 ;;
        sz ← ld (s_size s);
        if i32 sz =? size_n then mret (u32 (s + sizeof_slab)) else
        let ns := u32 (s + size_n * SLAB_SIZE) in
        sz ← ld (s_size s);
        st (s_size ns) (i32 sz - size_n) ;;
        st (s_status ns) 0 ;;
        st (s_size s) size_n ;;
        slab_list_push fl ns ;;
        mret (u32 (s + sizeof_slab))
  end.
Definition slab_alloc (size : Z) : M kstate Z := slab_alloc_rec 2 size.

Definition add_header (pt order : Z) : M kstate Z :=
  h ← kmalloc sizeof_page_header;
  if h =? 0 then mret (-1) else
  st (h_addr h) pt ;;
  st (h_order h) order ;;
  ph ← gets page_header;
  n ← ld (h_next ph);
  st (h_next h) n ;;
  st (h_next ph) h ;;
  mret 0.

(** The least [order] with [2 ^ order >= size], counted up by doubling. *)
Definition page_order (size : Z) : M kstate Z :=
  iter 32 (λ x : Z * Z, let '(temp, order) := x in
    mret (if temp <? size then inl (i32 (temp * 2), order + 1) else inr order)) (1, 0).

Definition kmalloc_body (size : Z) : M kstate Z :=
  if size <=? 0 then mret NULL else
  if PAGE_SIZE_4MB <? size then mret NULL else
  if u32 (size + sizeof_slab) <? PAGE_SIZE then slab_alloc size else
  order ← page_order (Z.quot (i32 (size + PAGE_SIZE - 1)) PAGE_SIZE);
  pt ← get_page order;
  if pt =? 0 then mret 0 else
  r ← add_header pt order;
  if r =? -1 then mret 0 else mret pt.

(** ** Freeing *)
Definition slab_free_body (fl ns s : Z) : M kstate (Z + option Z) :=
  if s =? fl then mret (inr None) else
  sz ← ld (s_size s);
  nsz ← ld (s_size ns);
  if ((u32 (s + sz * SLAB_SIZE) =? ns) || (u32 (ns + nsz * SLAB_SIZE) =? s))
     && (negb (s mod PAGE_SIZE_4MB =? 0) || negb (ns mod PAGE_SIZE_4MB =? 0)) then
    slab_list_remove s ;;
    sz ← ld (s_size s);
    nsz ← ld (s_size ns);
    if ns <? s then
      st (s_size ns) (i32 (sz + nsz)) ;; mret (inr (Some ns))
    else
      st (s_size s) (i32 (sz + nsz)) ;; mret (inr (Some s))
  else
    s ← ld (s_next s); mret (inl s).
Fixpoint _slab_free_rec (fuel : nat) (ns : Z) : M kstate Z :=
  match fuel with
  | O => raise NoFuel
  | S n =>
      fl ← gets slab_free_list;
      s ← ld (s_next fl);
      r ← iter list_fuel (slab_free_body fl ns) s;
      match r with
      | Some ns => _slab_free_rec n ns
      | None => mret ns
      end
  end.
Definition _slab_free (ns : Z) : M kstate Z := _slab_free_rec list_fuel ns.

Definition slab_free (p : Z) : M kstate unit :=
  ns ← _slab_free p;
  st (s_status ns) 0 ;;
  start ← gets start_slab;
  sz ← ld (s_size ns);
  when (negb (ns =? start) && (ns mod PAGE_SIZE_4MB =? 0) && (i32 sz =? PAGE_SLAB))
    (free_page ns (MAX_ORDER - 1)) ;;
  fl ← gets slab_free_list;
  slab_list_push fl ns.

Definition pop_header_body (ph addr h : Z) : M kstate (Z + Z) :=
  n ← ld (h_next h);
  if n =? ph then mret (inr (-1)) else
  a ← ld (h_addr n);
  if i32 a =? addr then
    t ← ld (h_order n);
    nn ← ld (h_next n);
    st (h_next h) nn ;;
    kfree n ;;
    mret (inr (i32 t))
  else mret (inl n).
Definition pop_header (addr : Z) : M kstate Z :=
  ph ← gets page_header;
  iter list_fuel (pop_header_body ph addr) ph.

Definition kfree_body (p : Z) : M kstate unit :=
  if p =? NULL then mret () else
  t ← pop_header (i32 p);
  if negb (t =? -1) then free_page p t else
  let header := u32 (p - sizeof_slab) in
  status ← ld (s_status header);
  if i32 status =? 0 then mret () else
  sz ← ld (s_size header);
  if u32 (sz + sizeof_slab) <? PAGE_SIZE then slab_free header else mret ().

(** ** Initialisation *)
Definition free_list_init (order : Z) : M kstate unit :=
  let fl := FREE_LIST + 12 * order in
  st (a_free_list (area_at FREE_AREA order)) fl ;;
  st (b_last fl) fl ;;
  st (b_next fl) fl.

Definition bminit_body (x : Z * Z) : M kstate (Z * Z + unit) :=
  let '(i, t) := x in
  if i <? MAX_ORDER then
    let a := area_at FREE_AREA i in
    st (a_bmsize a) (Z.shiftr MAX_BMSIZE i + (if 4 <? i then 1 else 0)) ;;
    st (a_bit_map a) (BIT_MAP + 4 * t) ;;
    bmsize ← ld (a_bmsize a);
    mret (inl (i + 1, t + bmsize))
  else mret (inr ()).
Definition bminit : M kstate unit :=
  for_loop 0 (Z.to_nat (MAX_BMSIZE * 2 + 10)) (λ i, st (BIT_MAP + 4 * i) 0) ;;
  iter (S (Z.to_nat MAX_ORDER)) bminit_body (0, 0).

Definition slab_init : M kstate unit :=
  modify (λ s, Kstate (word s) (page_header s) L1 (start_slab s)) ;;
  st (s_next L1) L1 ;;
  st (s_last L1) L1 ;;
  st (s_size L1) 0 ;;
  s ← get_page (MAX_ORDER - 1);
  st (s_size s) PAGE_SLAB ;;
  st (s_status s) 0 ;;
  modify (λ k, Kstate (word k) (page_header k) (slab_free_list k) s) ;;
  fl ← gets slab_free_list;
  slab_list_push fl s.

Definition init_area (i : Z) : M kstate unit :=
  free_list_init i ;;
  bminit ;;
  st (a_start_addr (area_at FREE_AREA i)) (RESERVED_PAGES * PAGE_SIZE_4MB) ;;
  st (a_user (area_at FREE_AREA i)) 0.
Definition index_block (fl step k : Z) : M kstate unit :=
  let p := RESERVED_PAGES * PAGE_SIZE_4MB + k * step in
  st (b_addr p) p ;;
  free_list_push fl p.
Definition kmalloc_init : M kstate unit :=
  for_loop 0 (Z.to_nat (MAX_ORDER + 1)) init_area ;;
  fl ← ld (a_free_list (area_at FREE_AREA MAX_ORDER));
  let step := buddy_size (MAX_ORDER - 1) in
  for_loop 0 (Z.to_nat ((KERNEL_PAGES - RESERVED_PAGES) * PAGE_SIZE_4MB / step)) (index_block fl step) ;;
  modify (λ s, Kstate (word s) PH (slab_free_list s) (start_slab s)) ;;
  st (h_next PH) PH ;;
  slab_init.
End allocators.

(** ** Tying the knot

    [kmalloc] calls itself once, for a header, and that call is for less than a
    page; [kfree] calls itself once per header it finds at the address of a
    header. *)
Section knot.
Context `{!Layout}.

Fixpoint kmalloc_rec (depth : nat) (size : Z) : M kstate Z :=
  match depth with
  | O => raise NoFuel
  | S n => kmalloc_body (kmalloc_rec n) size
  end.
Definition kmalloc (size : Z) : M kstate Z := kmalloc_rec 2 size.

Fixpoint kfree_rec (depth : nat) (p : Z) : M kstate unit :=
  match depth with
  | O => raise NoFuel
  | S n => kfree_body (kfree_rec n) p
  end.
Definition kfree (p : Z) : M kstate unit := kfree_rec list_fuel p.

(** ** The user pages: [kernel/vm.c] *)
Definition get_user_page (order : Z) : M kstate Z :=
  if (MAX_ORDER <=? order) || (order <? 0) then mret NULL else
  r ← find_block UFREE_AREA order;
  match r with
  | Some (temp, i) =>
      temp ← buddy_split kmalloc UFREE_AREA temp i order;
      rtn ← ld (b_addr temp);
      kfree temp ;;
      mret rtn
  | None => mret NULL
  end.

Definition free_user_page (addr order : Z) : M kstate unit :=
  b ← get_buddy kmalloc addr;
  _free_page kfree UFREE_AREA b order.

Definition user_mem_init : M kstate unit :=
  st (a_bmsize (area_at UFREE_AREA MAX_ORDER)) 0 ;;
  for_loop 0 (Z.to_nat MAX_ORDER) (λ i,
    let a := area_at UFREE_AREA i in
    st (a_bmsize a) ((PAGE_SIZE_4MB * 2 / buddy_size i + 31) / 32) ;;
    n ← ld (a_bmsize a);
    bm ← kmalloc (i32 (n * 4));
    st (a_bit_map a) bm) ;;
  for_loop 0 (Z.to_nat (MAX_ORDER + 1)) (λ i,
    let a := area_at UFREE_AREA i in
    let fl := UFREE_LIST + 12 * i in
    st (a_free_list a) fl ;;
    st (b_last fl) fl ;;
    st (b_next fl) fl ;;
    bm ← ld (a_bit_map a);
    n ← ld (a_bmsize a);
    for_loop 0 (Z.to_nat n) (λ j, st (bm + 4 * j) 0) ;;
    st (a_start_addr a) (KERNEL_PAGES * PAGE_SIZE_4MB) ;;
    st (a_user a) 1) ;;
  fl ← ld (a_free_list (area_at UFREE_AREA MAX_ORDER));
  let step := buddy_size (MAX_ORDER - 1) in
  for_loop 0 (Z.to_nat ((MAX_PHYS_PAGES - KERNEL_PAGES) * PAGE_SIZE_4MB / step)) (λ k,
    p ← get_buddy kmalloc (KERNEL_PAGES * PAGE_SIZE_4MB + k * step);
    free_list_push fl p).
End knot.
