(* ===== verification/KmallocRing.v ===== *)
(** * Circular doubly linked lists in memory

    The free lists of [kmalloc.c] and the wait queues of [list.h] are rings of
    structs linked by two of their fields.  [ring w h L] says that the words
    [w] hold such a ring: from the head [h] through the nodes [L] and back.
    The offsets of the fields are parameters. *)
From S2P Require Import Prelude Kmalloc.

Lemma upd_eq a v f : upd a v f a = v.
Proof. unfold upd. by rewrite Z.eqb_refl. Qed.
Lemma upd_ne a v f x : x <> a -> upd a v f x = f x.
Proof. unfold upd. intros H. by destruct (Z.eqb_spec x a). Qed.

Section ring.
Context (nx ls sz : Z).
Implicit Types (w : Z -> Z) (h b : Z) (L : list Z).

(** From [p] through [L] to [q], forwards and back. *)
Fixpoint seg w (p : Z) L (q : Z) : Prop :=
  match L with
  | [] => w (p + nx) = q /\ w (q + ls) = p
  | x :: L => w (p + nx) = x /\ w (x + ls) = p /\ seg w x L q
  end.
Definition ring w h L : Prop := seg w h L h.

(** Two structs do not overlap. *)
Definition sep (x y : Z) : Prop := x + sz <= y \/ y + sz <= x.
Abbreviation seps := (pairwise sep).

Lemma seg_app w p L x L' q : seg w p (L ++ x :: L') q <-> seg w p L x /\ seg w x L' q.
Proof. revert p. induction L as [|y L IH]; intros p; simpl; [tauto|]. rewrite IH. tauto. Qed.

Lemma seg_frame w w' p L q :
  seg w p L q -> (forall x, x ∈ p :: L -> w' (x + nx) = w (x + nx)) ->
  (forall x, x ∈ L ++ [q] -> w' (x + ls) = w (x + ls)) -> seg w' p L q.
Proof.
  revert p. induction L as [|y L IH]; intros p H Hn Hl; simpl in *.
  - destruct H as [H1 H2]. rewrite (Hn p), (Hl q) by set_solver. done.
  - destruct H as (H1 & H2 & H3). rewrite (Hn p), (Hl y) by set_solver. split_and!; [done..|].
    apply IH; [done| |]; intros x Hx; [apply Hn|apply Hl]; set_solver.
Qed.

Lemma ring_frame w w' h L :
  ring w h L -> (forall x, x ∈ h :: L -> w' (x + nx) = w (x + nx) /\ w' (x + ls) = w (x + ls)) ->
  ring w' h L.
Proof.
  intros H Hw. eapply seg_frame; [exact H| |]; intros x Hx; apply Hw; set_solver.
Qed.

Lemma sep_sym x y : sep x y -> sep y x.
Proof. unfold sep. lia. Qed.
Fixpoint last_node (p : Z) L : Z := match L with [] => p | x :: L => last_node x L end.
Lemma last_node_snoc p L x : last_node p (L ++ [x]) = x.
Proof. revert p. induction L as [|y L IH]; intros p; simpl; auto. Qed.
Lemma ring_last w h L : ring w h L -> w (h + ls) = last_node h L.
Proof.
  unfold ring. intros H. assert (forall p q, seg w p L q -> w (q + ls) = last_node p L) as HL;
    [|by apply HL].
  clear. induction L as [|x L IH]; intros p q; simpl; [tauto|]. intros (_ & _ & H). by apply IH.
Qed.
Lemma ring_first w h L : ring w h L -> w (h + nx) = List.hd h L.
Proof. unfold ring. destruct L; simpl; tauto. Qed.

(** Appending [b] at the tail. *)
Definition push_mem w h b : Z -> Z :=
  let prev := w (h + ls) in
  upd (h + ls) b (upd (prev + nx) b (upd (b + nx) h (upd (b + ls) prev w))).

Lemma push_mem_out w h b x :
  x <> h + ls -> x <> w (h + ls) + nx -> x <> b + nx -> x <> b + ls -> push_mem w h b x = w x.
Proof. intros. unfold push_mem. by rewrite !upd_ne. Qed.

Lemma upd4 a1 v1 a2 v2 a3 v3 a4 v4 w x :
  x <> a1 -> x <> a2 -> x <> a3 -> x <> a4 ->
  upd a1 v1 (upd a2 v2 (upd a3 v3 (upd a4 v4 w))) x = w x.
Proof. intros. by rewrite !upd_ne. Qed.

Lemma last_node_in p L : last_node p L ∈ p :: L.
Proof. revert p. induction L as [|x L IH]; intros p; simpl; [set_solver|]. specialize (IH x). set_solver. Qed.
Lemma hd_in q L : hd q L ∈ L ++ [q].
Proof. destruct L; simpl; set_solver. Qed.

Lemma seg_relink w w' L1 L2 x p q :
  seg w p L1 x -> seg w x L2 q -> NoDup (p :: L1 ++ L2) -> NoDup (L1 ++ L2 ++ [q]) ->
  w' (last_node p L1 + nx) = hd q L2 -> w' (hd q L2 + ls) = last_node p L1 ->
  (forall y, y ∈ p :: L1 ++ L2 -> y <> last_node p L1 -> w' (y + nx) = w (y + nx)) ->
  (forall y, y ∈ L1 ++ L2 ++ [q] -> y <> hd q L2 -> w' (y + ls) = w (y + ls)) ->
  seg w' p (L1 ++ L2) q.
Proof.
  revert p. induction L1 as [|z L1 IH]; intros p H1 H2 Hd1 Hd2 Hl Hn Hnx Hls.
  - destruct L2 as [|n L2]; [done|]. simpl in *. destruct H2 as (_ & _ & H2).
    split_and!; [done..|]. eapply seg_frame; [exact H2| |]; intros y Hy.
    + apply Hnx; [set_solver|]. intros ->. apply NoDup_cons in Hd1 as [Hd1 _]. set_solver.
    + apply Hls; [set_solver|]. intros ->. apply NoDup_cons in Hd2 as [Hd2 _]. set_solver.
  - cbn [app] in *. simpl in H1. destruct H1 as (Hp & Hz & H1). simpl. split_and!.
    + rewrite Hnx; [done|set_solver|]. intros E. apply NoDup_cons in Hd1 as [Hd1 _].
      pose proof (last_node_in z L1) as Hin. simpl in E. rewrite <-E in Hin. set_solver.
    + rewrite Hls; [done|set_solver|]. intros ->. apply NoDup_cons in Hd2 as [Hd2 _].
      pose proof (hd_in q L2). set_solver.
    + apply IH; try done; [by apply NoDup_cons in Hd1 as [_ ?]|by apply NoDup_cons in Hd2 as [_ ?]| |];
        intros y Hy Hyn; [apply Hnx|apply Hls]; set_solver.
Qed.

(** Fields of the same or of separate structs. *)
Ltac fields := unfold sep in *; intuition lia.

Hypothesis Hfields : 0 <= nx < sz /\ 0 <= ls < sz /\ nx <> ls.

Lemma seps_neq l x y : seps l -> x ∈ l -> y ∈ l -> x = y \/ sep x y.
Proof. apply pairwise_in, sep_sym. Qed.

Lemma ring_push w h b L :
  ring w h L -> seps (h :: L) -> (forall x, x ∈ h :: L -> sep b x) ->
  ring (push_mem w h b) h (L ++ [b]).
Proof using Hfields.
  intros Hr Hs Hb. pose proof (ring_last _ _ _ Hr) as Hl. unfold ring, push_mem in *. rewrite Hl.
  pose proof (Hb h ltac:(set_solver)) as Hbh.
  destruct L as [|z L _] using rev_ind.
  { simpl in *. split_and!; rewrite ?upd_eq; try done;
      repeat (rewrite upd_ne by fields; rewrite ?upd_eq); done. }
  rewrite last_node_snoc in *.
  apply seg_app in Hr as [Hr _]. rewrite <-app_assoc. apply seg_app.
  change (seps ((h :: L) ++ [z])) in Hs. apply pairwise_app in Hs as (Hs & _ & Hz).
  assert (forall x, x ∈ h :: L -> sep x z) as Hz' by set_solver. clear Hz.
  pose proof (Hb z ltac:(set_solver)) as Hbz.
  pose proof (Hz' h ltac:(set_solver)) as Hhz.
  assert (forall x, x ∈ L -> sep h x) as HL
    by (simpl in Hs; destruct Hs as [Hs _]; by rewrite Forall_forall in Hs).
  split.
  - eapply seg_frame; [exact Hr| |]; intros x Hx.
    + assert (sep b x) by set_solver. specialize (Hz' x Hx).
      apply elem_of_cons in Hx as [->|Hx]; [|specialize (HL x Hx)]; apply upd4; fields.
    + apply elem_of_app in Hx as [Hx|Hx%list_elem_of_singleton].
      * assert (sep b x) by set_solver. assert (sep x z) by set_solver. specialize (HL x Hx).
        apply upd4; fields.
      * subst x. apply upd4; fields.
  - simpl. split_and!; rewrite ?upd_eq; try done;
      repeat (rewrite upd_ne by fields; rewrite ?upd_eq); done.
Qed.

(** Unlinking a node between [l] and [n]. *)
Definition unlinked w w' (l n : Z) : Prop :=
  w' (l + nx) = n /\ w' (n + ls) = l /\
  forall y, y <> l + nx -> y <> n + ls -> w' y = w y.

Lemma seps_NoDup l : seps l -> NoDup l.
Proof using Hfields. apply pairwise_NoDup. intros x. fields. Qed.

(** The two stores that unlink what is between them. *)
Lemma unlink_mem w S l n : seps S -> l ∈ S -> n ∈ S ->
  unlinked w (upd (n + ls) l (upd (l + nx) n w)) l n.
Proof using Hfields.
  intros Hs Hl Hn. split; [|split].
  - rewrite upd_ne; [apply upd_eq|]. destruct (seps_neq S l n Hs Hl Hn) as [->|]; fields.
  - apply upd_eq.
  - intros y H1 H2. by rewrite !upd_ne.
Qed.

Lemma ring_remove w w' h L1 x L2 :
  ring w h (L1 ++ x :: L2) -> seps (h :: L1 ++ x :: L2) ->
  unlinked w w' (last_node h L1) (hd h L2) -> ring w' h (L1 ++ L2).
Proof using Hfields.
  intros Hr Hs (H1 & H2 & Hw). apply seg_app in Hr as [Hr1 Hr2].
  assert (h :: L1 ++ L2 ⊆ h :: L1 ++ x :: L2) as Hsub by set_solver.
  assert (NoDup (h :: L1 ++ L2)) as Hd.
  { apply seps_NoDup in Hs. change (NoDup ((h :: L1) ++ x :: L2)) in Hs.
    change (NoDup ((h :: L1) ++ L2)). by apply (NoDup_drop_middle (h :: L1) [x] L2). }
  assert (forall y z, y ∈ h :: L1 ++ L2 -> z ∈ h :: L1 ++ L2 -> y = z \/ sep y z) as Hsep
    by (intros y z Hy Hz; apply (seps_neq _ _ _ Hs); by apply Hsub).
  pose proof (last_node_in h L1) as Hl. pose proof (hd_in h L2) as Hn.
  eapply seg_relink; [exact Hr1|exact Hr2|done| |done|done| |].
  - rewrite app_assoc. apply NoDup_app_comm'. done.
  - intros y Hy Hyl. apply Hw; [lia|].
    destruct (Hsep y (hd h L2) Hy ltac:(set_solver)); fields.
  - intros y Hy Hyl. apply Hw; [|lia].
    destruct (Hsep y (last_node h L1) ltac:(set_solver) ltac:(set_solver)); fields.
Qed.
End ring.
