(* ===== verification/KmallocBuddy.v ===== *)
(** * The buddy allocator's state

    What the words of memory mean: the static tables, the free lists, the pair
    bitmaps, the blocks that tile the heap; and the runs of the list and bitmap
    operations. *)
From S2P Require Import Prelude Kmalloc KmallocRing.

Definition HEAP : Z := 8388608.
Definition HEAP_END : Z := 67108864.

(** ** Access *)
Definition waddr (a : Z) : Prop := 4194304 <= a < 67108864 /\ a mod 4 = 0.
Lemma kaddr_waddr a : waddr a -> kaddr (u32 a) = true /\ u32 a = a.
Proof.
  unfold waddr. intros [H Hm]. rewrite u32_id by lia. split; [|done]. unfold kaddr, PAGE_SIZE_4MB, KERNEL_PAGES.
  rewrite !andb_true_iff, Z.leb_le, Z.ltb_lt, Z.eqb_eq. lia.
Qed.
Lemma ld_ok p s : waddr p -> ld p s = Ok (word s p, s).
Proof. intros [H1 H2]%kaddr_waddr. unfold ld, gets_opt. by rewrite H1, H2. Qed.
Lemma st_ok p v s :
  waddr p -> 0 <= v < 4294967296 -> st p v s = Ok (tt, set_word (upd p v (word s)) s).
Proof.
  intros Hp Hv. unfold st. rewrite (bind_ok _ _ _ _ _ (ld_ok p s Hp)). unfold modify.
  by rewrite (proj2 (kaddr_waddr p Hp)), (u32_id v).
Qed.
Lemma waddr_range a : waddr a -> 0 <= a < 4294967296.
Proof. unfold waddr. lia. Qed.

(** Where a struct of [sz] bytes may lie. *)
Definition waddrs (sz a : Z) : Prop := 4194304 <= a /\ a + sz <= 67108864 /\ a mod 4 = 0.
Lemma waddrs_field sz a f : waddrs sz a -> 0 <= f -> f + 4 <= sz -> f mod 4 = 0 -> waddr (a + f).
Proof. unfold waddrs, waddr. intros. split; [lia|]. lia_mod. Qed.

Lemma ld_bind {A} p (k : Z -> M kstate A) s : waddr p -> (ld p ≫= k) s = k (word s p) s.
Proof. intros Hp. by rewrite (bind_ok _ _ _ _ _ (ld_ok p s Hp)). Qed.
Lemma st_bind {A} p v (k : unit -> M kstate A) s :
  waddr p -> 0 <= v < 4294967296 -> (st p v ≫= k) s = k tt (set_word (upd p v (word s)) s).
Proof. intros Hp Hv. by rewrite (bind_ok _ _ _ _ _ (st_ok p v s Hp Hv)). Qed.

(** ** The list operations *)
Section lists.
Implicit Types (w : Z -> Z) (s : kstate).
Abbreviation bring := (ring 0 4).
Abbreviation bseps := (pairwise (sep 12)).

Lemma set_word_set f g s : set_word f (set_word g s) = set_word f s.
Proof. done. Qed.

Definition bnode (x : Z) : Prop := waddrs 12 x.
Lemma bnode_next x : bnode x -> waddr (b_next x).
Proof. unfold bnode, b_next, waddrs, waddr. lia. Qed.
Lemma bnode_last x : bnode x -> waddr (b_last x).
Proof. intros H. by apply (waddrs_field 12). Qed.
Lemma bnode_addr x : bnode x -> waddr (b_addr x).
Proof. intros H. by apply (waddrs_field 12). Qed.
Lemma bnode_range x : bnode x -> 0 <= x < 4294967296.
Proof. unfold bnode, waddrs. lia. Qed.

Lemma free_list_push_run s fl b L :
  bring (word s) fl L -> Forall bnode (fl :: L) -> bnode b ->
  bseps (fl :: L) -> (forall x, x ∈ fl :: L -> sep 12 b x) ->
  free_list_push fl b s = Ok (tt, set_word (push_mem 0 4 (word s) fl b) s).
Proof.
  intros Hr Hn Hb Hs Hsep. pose proof (ring_last 0 4 _ _ _ Hr) as Hl.
  pose proof (last_node_in fl L) as Hin.
  rewrite Forall_forall in Hn. pose proof (Hn _ Hin) as Hpn. pose proof (Hn fl ltac:(set_solver)) as Hfn.
  unfold free_list_push, b_last, b_next in *.
  rewrite ld_bind by (by apply bnode_last). rewrite Hl.
  rewrite st_bind by (by first [apply bnode_last|apply bnode_range]).
  rewrite st_bind by (by first [apply bnode_next|apply bnode_range]).
  rewrite st_bind by (by first [apply bnode_next|apply bnode_range]).
  rewrite st_ok by (by first [apply bnode_last|apply bnode_range]).
  unfold push_mem. by rewrite Hl, !Z.add_0_r.
Qed.

(** The neighbours of a node. *)
Lemma ring_at nx ls w h L1 x L2 :
  ring nx ls w h (L1 ++ x :: L2) -> w (x + ls) = last_node h L1 /\ w (x + nx) = hd h L2.
Proof.
  intros [H1 H2]%seg_app. split.
  - clear H2. revert h H1. induction L1 as [|y L1 IH]; intros h; simpl; [tauto|].
    intros (_ & _ & H). by apply IH.
  - destruct L2; simpl in *; tauto.
Qed.

Definition pop_mem w fl : Z -> Z :=
  let head := w fl in upd fl (w head) (upd (w head + 4) fl w).

Lemma free_list_pop_run s fl L :
  bring (word s) fl L -> Forall bnode (fl :: L) -> bseps (fl :: L) -> 0 < fl ->
  free_list_pop fl s = Ok (match L with [] => (NULL, s) | b :: _ => (b, set_word (pop_mem (word s) fl) s) end).
Proof.
  intros Hr Hn Hs H0. rewrite Forall_forall in Hn. pose proof (Hn fl ltac:(set_solver)) as Hfn.
  pose proof (ring_first 0 4 _ _ _ Hr) as Hf. rewrite Z.add_0_r in Hf.
  unfold free_list_pop, b_next, b_last. rewrite ld_bind by (by apply bnode_next). rewrite Hf.
  destruct L as [|b L]; simpl; [by rewrite Z.eqb_refl|].
  assert (sep 12 fl b) as Hb by (simpl in Hs; destruct Hs as [Hs _]; rewrite Forall_forall in Hs; set_solver).
  pose proof (Hn b ltac:(set_solver)) as Hbn.
  rewrite (proj2 (Z.eqb_neq b fl)) by (unfold sep in *; lia).
  destruct (ring_at 0 4 _ fl [] b L Hr) as [_ Hbx]. rewrite Z.add_0_r in Hbx.
  assert (hd fl L ∈ fl :: b :: L) as Hin by (destruct L; simpl; set_solver).
  pose proof (Hn _ Hin) as Hnn.
  rewrite ld_bind by (by apply bnode_next).
  rewrite Hbx. rewrite st_bind by (by first [apply bnode_last|apply bnode_range]).
  rewrite ld_bind by (by apply bnode_next). cbn [word set_word].
  rewrite upd_ne.
  2:{ destruct (seps_neq 12 _ _ _ Hs Hin (ltac:(set_solver) : b ∈ fl :: b :: L)) as [E|E];
        [rewrite E; lia|unfold sep in E; lia]. }
  rewrite Hbx. rewrite st_bind by (by first [apply bnode_next|apply bnode_range]).
  unfold pop_mem. simpl in Hf. by rewrite Hf, Hbx.
Qed.

Lemma pop_unlinked w fl b L :
  bring w fl (b :: L) -> bseps (fl :: b :: L) -> unlinked 0 4 w (pop_mem w fl) fl (hd fl L).
Proof.
  intros Hr Hs. pose proof (ring_first 0 4 _ _ _ Hr) as Hf. rewrite Z.add_0_r in Hf. simpl in Hf.
  destruct (ring_at 0 4 _ fl [] b L Hr) as [_ Hbx]. rewrite Z.add_0_r in Hbx.
  unfold pop_mem, unlinked. rewrite Hf, Hbx, Z.add_0_r. split_and!.
  - by rewrite upd_eq.
  - destruct L as [|x L]; simpl; [rewrite upd_ne by lia; by rewrite upd_eq|].
    simpl in Hs. destruct Hs as [Hs _]. rewrite !Forall_cons in Hs. unfold sep in Hs.
    rewrite upd_ne by lia. by rewrite upd_eq.
  - intros y H1 H2. by rewrite !upd_ne.
Qed.
End lists.

(** ** The static objects *)
Definition statics `{!Layout} : list (Z * Z) :=
  [(FREE_AREA, 240); (FREE_LIST, 144); (BIT_MAP, 1840); (PH, 12); (L1, 16);
   (UFREE_AREA, 240); (UFREE_LIST, 144)].
Definition ranges_apart (x y : Z * Z) : Prop := x.1 + x.2 <= y.1 \/ y.1 + y.2 <= x.1.
(** They lie in the kernel's image, aligned, and do not overlap. *)
Class LayoutOk `{!Layout} : Prop := {
  layout_in : Forall (λ x, 4194304 <= x.1 /\ x.1 + x.2 <= HEAP /\ x.1 mod 4 = 0) statics;
  layout_apart : pairwise ranges_apart statics
}.

(** A layout, to run the allocator with. *)
Definition sample_layout : Layout := {|
  FREE_AREA := 5242880; FREE_LIST := 5243136; BIT_MAP := 5243392; PH := 5245440;
  L1 := 5245456; UFREE_AREA := 5245472; UFREE_LIST := 5245712
|}.
Lemma sample_layout_ok : @LayoutOk sample_layout.
Proof.
  split; [repeat constructor; by vm_compute|].
  repeat split; repeat constructor; unfold ranges_apart; simpl; lia.
Qed.

(** ** Blocks: an address and an order *)
Definition bsz (k : Z) : Z := 4096 * 2 ^ k.
(** The number of blocks of order [k], and of pairs of them, in the heap. *)
Definition nblocks (k : Z) : Z := 14336 / 2 ^ k.
Definition valid (x : Z * Z) : Prop :=
  0 <= x.2 <= MAX_ORDER /\ exists q, 0 <= q < nblocks x.2 /\ x.1 = HEAP + q * bsz x.2.
Definition disj (x y : Z * Z) : Prop := x.1 + bsz x.2 <= y.1 \/ y.1 + bsz y.2 <= x.1.
(** Blocks that do not overlap. *)
Definition Tiles (T : list (Z * Z)) : Prop := Forall valid T /\ pairwise disj T.

(** Case analysis on an order. *)
Ltac orders k :=
  let H := fresh in
  assert (k = 0 \/ k = 1 \/ k = 2 \/ k = 3 \/ k = 4 \/ k = 5 \/ k = 6 \/ k = 7 \/ k = 8 \/ k = 9
          \/ k = 10 \/ k = 11) as H by lia;
  repeat (destruct H as [H|H]; [subst k|]); [..|subst k];
  repeat match goal with
  | |- context [bsz ?n] => is_ground n; let v := eval vm_compute in (bsz n) in change (bsz n) with v
  | H : context [bsz ?n] |- _ => is_ground n; let v := eval vm_compute in (bsz n) in change (bsz n) with v in H
  | |- context [nblocks ?n] => is_ground n; let v := eval vm_compute in (nblocks n) in change (nblocks n) with v
  | H : context [nblocks ?n] |- _ => is_ground n; let v := eval vm_compute in (nblocks n) in change (nblocks n) with v in H
  end.

Lemma buddy_size_bsz k : 0 <= k <= 11 -> buddy_size k = 2 * bsz k.
Proof. intros Hk. orders k; reflexivity. Qed.
Lemma bsz_range k : 0 <= k <= 11 -> 4096 <= bsz k <= 8388608 /\ bsz k mod 4096 = 0.
Proof. intros Hk. orders k; lia_mod. Qed.
Lemma bsz_half k : 1 <= k <= 11 -> bsz k = 2 * bsz (k - 1).
Proof. intros Hk. orders k; try lia; reflexivity. Qed.
Lemma valid_range x : valid x ->
  HEAP <= x.1 /\ x.1 + bsz x.2 <= HEAP_END /\ x.1 mod 4096 = 0 /\ 4096 <= bsz x.2 <= 8388608.
Proof.
  destruct x as [a k]. unfold valid, HEAP, HEAP_END, MAX_ORDER. simpl. intros (Hk & q & Hq & ->).
  orders k; lia_mod.
Qed.
Lemma valid_bnode x : valid x -> bnode x.1.
Proof. intros H%valid_range. unfold bnode, waddrs, HEAP, HEAP_END in *. lia_mod. Qed.

Lemma disj_sym x y : disj x y -> disj y x.
Proof. unfold disj. lia. Qed.
Lemma disj_sep x y : valid x -> valid y -> disj x y -> sep 12 x.1 y.1.
Proof. intros Hx%valid_range Hy%valid_range. unfold disj, sep. lia. Qed.

Lemma Tiles_perm T T' : T ≡ₚ T' -> Tiles T -> Tiles T'.
Proof.
  intros Hp [H1 H2]. split; [by rewrite <-Hp|]. eapply pairwise_perm; [apply disj_sym|exact Hp|exact H2].
Qed.
Lemma Tiles_in T x y : Tiles T -> x ∈ T -> y ∈ T -> x = y \/ disj x y.
Proof. intros [_ H]. by apply (pairwise_in _ disj_sym). Qed.
Lemma Tiles_NoDup T : Tiles T -> NoDup T.
Proof.
  intros [H1 H2]. induction T as [|x T IH]; [by constructor|]. rewrite Forall_cons in H1. simpl in H2.
  destruct H1 as [Hx H1], H2 as [Hd H2]. constructor; [|auto]. intros Hin.
  rewrite Forall_forall in Hd. specialize (Hd x Hin). apply valid_range in Hx. unfold disj in Hd. lia.
Qed.

(** Splitting a block into its halves, and merging them. *)
Lemma Tiles_split a k T : 1 <= k ->
  Tiles ((a, k) :: T) <-> valid (a, k) /\ Tiles ((a, k - 1) :: (a + bsz (k - 1), k - 1) :: T).
Proof.
  intros Hk. unfold Tiles. simpl. rewrite !Forall_cons.
  assert (valid (a, k) -> valid (a, k - 1) /\ valid (a + bsz (k - 1), k - 1)) as Hv.
  { unfold valid, MAX_ORDER. simpl. intros (Hk' & q & Hq & ->). split; (split; [lia|]).
    - exists (2 * q). split; [|rewrite (bsz_half k) by lia; lia].
      clear -Hq Hk Hk'. orders k; try lia.
    - exists (2 * q + 1). split; [|rewrite (bsz_half k) by lia; lia].
      clear -Hq Hk Hk'. orders k; try lia. }
  assert (valid (a, k) -> bsz k = 2 * bsz (k - 1)) as Hh.
  { unfold valid, MAX_ORDER. simpl. intros [? _]. apply bsz_half. lia. }
  rewrite !Forall_forall. split.
  - intros [[Hva Hvt] [Hd HT]]. specialize (Hh Hva). destruct (Hv Hva) as [Hv1 Hv2].
    pose proof (valid_range _ Hv1) as Hr. simpl in Hr.
    split_and!; try done; [unfold disj; simpl; lia|..]; intros y Hy; specialize (Hd y Hy); unfold disj in *;
      simpl in *; lia.
  - intros (Hva & (Hv1 & Hv2 & Hvt) & ((Hd0 & Hd1) & Hd2 & HT)). specialize (Hh Hva).
    split_and!; try done. intros y Hy. specialize (Hd1 y Hy). specialize (Hd2 y Hy).
    assert (valid y) as Hvy by auto. apply valid_range in Hvy. apply valid_range in Hva.
    unfold disj in *. simpl in *. lia.
Qed.
