(* ===== verification/KmallocBits.v ===== *)
(** * The pair bitmaps of the buddy allocator

    One bit per pair of buddies: set when exactly one of the two is free. *)
From S2P Require Import Prelude Kmalloc KmallocRing KmallocBuddy.

(** ** Pairs *)
(** The number of the pair of block [a] among the pairs of order [k]; whether
    it is the left one of its pair; the other one. *)
Definition pidx (a k : Z) : Z := (a - HEAP) / (2 * bsz k).
Definition is_left (a k : Z) : bool := (a - HEAP) / bsz k mod 2 =? 0.
Definition bud (a k : Z) : Z := if is_left a k then a + bsz k else a - bsz k.

Lemma nblocks_even k : 0 <= k <= 10 -> nblocks k mod 2 = 0 /\ nblocks k = 2 * nblocks (k + 1).
Proof. intros Hk. orders k; try lia; split; reflexivity. Qed.

Lemma block_q a k : valid (a, k) ->
  exists q, 0 <= q < nblocks k /\ a = HEAP + q * bsz k /\ (a - HEAP) / bsz k = q /\ pidx a k = q / 2.
Proof.
  intros (Hk & q & Hq & Ha). simpl in *. subst a. unfold MAX_ORDER in Hk. exists q.
  pose proof (bsz_range k Hk). replace (HEAP + q * bsz k - HEAP) with (q * bsz k) by lia.
  unfold pidx. replace (HEAP + q * bsz k - HEAP) with (q * bsz k) by lia.
  rewrite (Z.mul_comm 2), <-Z.div_div, Z.div_mul by lia. done.
Qed.

Lemma is_left_q k q : 0 < bsz k -> is_left (HEAP + q * bsz k) k = (q mod 2 =? 0).
Proof.
  intros H. unfold is_left. replace (HEAP + q * bsz k - HEAP) with (q * bsz k) by lia.
  by rewrite Z.div_mul by lia.
Qed.
Lemma pidx_q k q : 0 < bsz k -> pidx (HEAP + q * bsz k) k = q / 2.
Proof.
  intros H. unfold pidx. replace (HEAP + q * bsz k - HEAP) with (q * bsz k) by lia.
  by rewrite (Z.mul_comm 2), <-Z.div_div, Z.div_mul by lia.
Qed.

Lemma bud_facts a k : valid (a, k) -> k <= 10 ->
  valid (bud a k, k) /\ bud (bud a k) k = a /\ pidx (bud a k) k = pidx a k /\ bud a k <> a.
Proof.
  intros Hv Hk. destruct (block_q a k Hv) as (q & Hq & -> & _). destruct Hv as [Hk' _]. simpl in Hk'.
  pose proof (bsz_range k ltac:(unfold MAX_ORDER in *; lia)) as Hb.
  destruct (nblocks_even k ltac:(lia)) as [He _]. unfold bud. rewrite is_left_q by lia.
  destruct (Z.eqb_spec (q mod 2) 0) as [H0|H0].
  - replace (HEAP + q * bsz k + bsz k) with (HEAP + (q + 1) * bsz k) by lia.
    rewrite is_left_q by lia. rewrite (proj2 (Z.eqb_neq ((q + 1) mod 2) 0)) by lia_mod.
    rewrite !pidx_q by lia. split_and!; [|lia|lia_mod|lia].
    split; [done|]. exists (q + 1). simpl. split; [lia_mod|lia].
  - replace (HEAP + q * bsz k - bsz k) with (HEAP + (q - 1) * bsz k) by lia.
    rewrite is_left_q by lia. rewrite (proj2 (Z.eqb_eq ((q - 1) mod 2) 0)) by lia_mod.
    rewrite !pidx_q by lia. split_and!; [|lia|lia_mod|lia].
    split; [done|]. exists (q - 1). simpl. split; [lia_mod|lia].
Qed.

Lemma same_pair a b k : valid (a, k) -> valid (b, k) -> pidx a k = pidx b k -> b = a \/ b = bud a k.
Proof.
  intros Ha Hb. destruct (block_q a k Ha) as (q & Hq & -> & _), (block_q b k Hb) as (r & Hr & -> & _).
  destruct Ha as [Hk _]. simpl in Hk. pose proof (bsz_range k Hk) as Hz.
  rewrite !pidx_q by lia. unfold bud. rewrite is_left_q by lia. intros He.
  destruct (Z.eqb_spec (q mod 2) 0).
  - assert (r = q \/ r = q + 1) as [->| ->] by lia_mod; [by left|right; lia].
  - assert (r = q \/ r = q - 1) as [->| ->] by lia_mod; [by left|right; lia].
Qed.

(** The block two buddies make. *)
Lemma merge_facts a k : valid (a, k) -> k <= 10 ->
  let m := if is_left a k then a else bud a k in
  valid (m, k + 1) /\ ((a, k) :: (bud a k, k) :: [] ≡ₚ [(m, k); (m + bsz k, k)]).
Proof.
  intros Hv Hk. destruct (block_q a k Hv) as (q & Hq & -> & _). destruct Hv as [Hk' _]. simpl in Hk'.
  pose proof (bsz_range k ltac:(unfold MAX_ORDER in *; lia)) as Hb.
  destruct (nblocks_even k ltac:(lia)) as [He Hn].
  assert (bsz (k + 1) = 2 * bsz k) as Hh
    by (rewrite (bsz_half (k + 1)) by (unfold MAX_ORDER in *; lia); do 2 f_equal; lia).
  unfold bud. rewrite is_left_q by lia. destruct (Z.eqb_spec (q mod 2) 0) as [H0|H0]; split.
  - split; [unfold MAX_ORDER in *; simpl; lia|]. exists (q / 2). simpl. rewrite Hh. split; [lia_mod|].
    assert (q = 2 * (q / 2)) as Hq2 by lia_mod. rewrite Hq2 at 1. lia.
  - done.
  - split; [unfold MAX_ORDER in *; simpl; lia|]. exists (q / 2). simpl. rewrite Hh. split; [lia_mod|].
    assert (q = 2 * (q / 2) + 1) as Hq2 by lia_mod. rewrite Hq2 at 1. lia.
  - replace (HEAP + q * bsz k - bsz k + bsz k) with (HEAP + q * bsz k) by lia. apply perm_swap.
Qed.

(** ** The bitmap words *)
(** The offset, in words, of the bitmap of order [k], as [bminit] sets it. *)
Definition boff (k : Z) : Z :=
  nth (Z.to_nat k) [0; 224; 336; 392; 420; 434; 442; 446; 448; 449; 450; 451] 0.

Ltac boffs :=
  repeat match goal with
  | |- context [boff ?n] => let v := eval vm_compute in (boff n) in change (boff n) with v
  | H : context [boff ?n] |- _ => let v := eval vm_compute in (boff n) in change (boff n) with v in H
  end.

Lemma boff_fits k j : 0 <= k <= 10 -> 0 <= j < nblocks k / 2 ->
  0 <= boff k /\ boff k + j / 32 < boff (k + 1) <= 451.
Proof. intros Hk Hj. orders k; boffs; lia_mod. Qed.
Lemma boff_mono k k' : 0 <= k -> k < k' -> k' <= 11 -> boff (k + 1) <= boff k'.
Proof. intros Hk Hlt Hk'. orders k'; orders k; boffs; lia. Qed.

Lemma boff_inj k k' j j' :
  0 <= k <= 10 -> 0 <= k' <= 10 -> 0 <= j < nblocks k / 2 -> 0 <= j' < nblocks k' / 2 ->
  boff k + j / 32 = boff k' + j' / 32 -> k = k' /\ j / 32 = j' / 32.
Proof.
  intros Hk Hk' Hj Hj' He. pose proof (boff_fits k j Hk Hj). pose proof (boff_fits k' j' Hk' Hj').
  destruct (Z.lt_trichotomy k k') as [Hl|[->|Hl]]; [|lia|].
  - pose proof (boff_mono k k' ltac:(lia) Hl ltac:(lia)). lia_mod.
  - pose proof (boff_mono k' k ltac:(lia) Hl ltac:(lia)). lia_mod.
Qed.

Lemma testbit_land_pow2 x n : 0 <= n -> negb (Z.land x (Z.shiftl 1 n) =? 0) = Z.testbit x n.
Proof.
  intros Hn. rewrite Z.shiftl_1_l. destruct (Z.eqb_spec (Z.land x (2 ^ n)) 0) as [H|H]; simpl.
  - apply (f_equal (λ y, Z.testbit y n)) in H. rewrite Z.land_spec, Z.pow2_bits_true, Z.bits_0 in H by done.
    by rewrite andb_true_r in H.
  - destruct (Z.testbit x n) eqn:Hx; [done|]. exfalso. apply H. apply Z.bits_inj'. intros m Hm.
    rewrite Z.land_spec, Z.bits_0. destruct (decide (m = n)) as [->|Hne]; [by rewrite Hx|].
    by rewrite Z.pow2_bits_false, andb_false_r by lia.
Qed.

Lemma testbit_flip x n m : 0 <= n < 32 -> 0 <= m < 32 ->
  Z.testbit (u32 (Z.lxor x (Z.shiftl 1 n))) m = xorb (Z.testbit x m) (m =? n).
Proof.
  intros Hn Hm. unfold u32. change 4294967296 with (2 ^ 32). rewrite Z.mod_pow2_bits_low by lia.
  rewrite Z.lxor_spec, Z.shiftl_1_l. f_equal. destruct (Z.eqb_spec m n) as [->|Hne].
  - by rewrite Z.pow2_bits_true by lia.
  - by rewrite Z.pow2_bits_false by lia.
Qed.

Section bits.
Context {lay : Layout} {Hlay : @LayoutOk lay}.
Implicit Types w : Z -> Z.

(** The word and the bit of pair [j]. *)
Definition bit_addr (k j : Z) : Z := BIT_MAP + 4 * (boff k + j / 32).
Definition bit w (k j : Z) : bool := Z.testbit (w (bit_addr k j)) (j mod 32).
Definition flip_mem w (a k : Z) : Z -> Z :=
  let p := bit_addr k (pidx a k) in
  upd p (u32 (Z.lxor (w p) (Z.shiftl 1 (pidx a k mod 32)))) w.

Lemma pidx_range a k : valid (a, k) -> k <= 10 -> 0 <= k <= 10 /\ 0 <= pidx a k < nblocks k / 2.
Proof.
  intros Hv Hk. destruct (block_q a k Hv) as (q & Hq & _ & _ & ->). destruct Hv as [Hk' _]. simpl in Hk'.
  destruct (nblocks_even k ltac:(lia)) as [He _]. split; [lia|]. lia_mod.
Qed.

Lemma bit_flip w a b k k' : valid (a, k) -> valid (b, k') -> k <= 10 -> k' <= 10 ->
  bit (flip_mem w a k) k' (pidx b k') =
    xorb (bit w k' (pidx b k')) (bool_decide (k = k' /\ pidx a k = pidx b k')).
Proof.
  intros Ha Hb Hk Hk'. destruct (pidx_range a k Ha Hk) as [Hka Hpa], (pidx_range b k' Hb Hk') as [Hkb Hpb].
  unfold bit, flip_mem. destruct (decide (bit_addr k' (pidx b k') = bit_addr k (pidx a k))) as [He|Hne].
  - rewrite He, upd_eq, testbit_flip by lia_mod. f_equal.
    assert (boff k' + pidx b k' / 32 = boff k + pidx a k / 32) as Hw by (unfold bit_addr in He; lia).
    apply boff_inj in Hw as [-> Hw]; [|done..].
    destruct (Z.eqb_spec (pidx b k mod 32) (pidx a k mod 32)) as [Hm|Hm]; symmetry.
    + apply bool_decide_eq_true_2. split; [done|]. lia_mod.
    + apply bool_decide_eq_false_2. intros [_ E]. by rewrite E in Hm.
  - rewrite upd_ne by done. rewrite bool_decide_eq_false_2, xorb_false_r; [done|].
    intros [-> E]. by rewrite E in Hne.
Qed.

Lemma bit_addr_range k j : 0 <= k <= 10 -> 0 <= j < nblocks k / 2 ->
  BIT_MAP <= bit_addr k j /\ bit_addr k j + 4 <= BIT_MAP + 1804 /\ (bit_addr k j - BIT_MAP) mod 4 = 0.
Proof. intros Hk Hj. pose proof (boff_fits k j Hk Hj). unfold bit_addr. lia_mod. Qed.

(** *** What the bits say *)
Definition Bits w (FL : Z -> list Z) : Prop :=
  forall a k, valid (a, k) -> k <= 10 ->
    bit w k (pidx a k) = xorb (bool_decide (a ∈ FL k)) (bool_decide (bud a k ∈ FL k)).

Lemma Bits_frame w w' FL :
  (forall x, BIT_MAP <= x < BIT_MAP + 1804 -> w' x = w x) -> Bits w FL -> Bits w' FL.
Proof.
  intros Hw HB a k Hv Hk. rewrite <-HB by done. unfold bit. rewrite Hw; [done|].
  destruct (pidx_range a k Hv Hk) as [Hk2 Hp]. pose proof (bit_addr_range k _ Hk2 Hp). lia.
Qed.

(** Moving one block in or out of its free list flips the bit of its pair. *)
Lemma Bits_flip w FL FL' a k : valid (a, k) -> k <= 10 ->
  (forall b k', valid (b, k') -> k' <= 10 ->
     bool_decide (b ∈ FL' k') = xorb (bool_decide (b ∈ FL k')) (bool_decide ((a, k) = (b, k')))) ->
  Bits w FL -> Bits (flip_mem w a k) FL'.
Proof.
  intros Ha Hk HF HB b k' Hb Hk'. destruct (bud_facts b k' Hb Hk') as (Hbv & Hbb & Hbp & Hbn).
  rewrite bit_flip, HB, !HF by done.
  assert (bool_decide (k = k' /\ pidx a k = pidx b k') =
    xorb (bool_decide ((a, k) = (b, k'))) (bool_decide ((a, k) = (bud b k', k')))) as ->.
  { destruct (decide (k = k')) as [->|Hne].
    - destruct (decide (a = b)) as [->|Hab].
      + rewrite !bool_decide_eq_true_2, bool_decide_eq_false_2 by (done || congruence). done.
      + destruct (decide (a = bud b k')) as [->|Hab2].
        * rewrite (bool_decide_eq_false_2 (_ = (b, k'))) by congruence.
          by rewrite !bool_decide_eq_true_2 by done.
        * rewrite !bool_decide_eq_false_2; [done|congruence|congruence|].
          intros [_ He]. destruct (same_pair b a k' Hb Ha); congruence.
    - rewrite !bool_decide_eq_false_2; [done|congruence|congruence|]. by intros [? _]. }
  by destruct (bool_decide (b ∈ FL k')), (bool_decide (bud b k' ∈ FL k')),
    (bool_decide ((a, k) = (b, k'))), (bool_decide ((a, k) = (bud b k', k'))).
Qed.

(** *** The static tables *)
Record Tables w : Prop := {
  tb_list : forall k, 0 <= k <= 11 -> w (FREE_AREA + 20 * k) = FREE_LIST + 12 * k;
  tb_bits : forall k, 0 <= k <= 10 -> w (FREE_AREA + 20 * k + 4) = BIT_MAP + 4 * boff k;
  tb_start : w (FREE_AREA + 12) = HEAP;
  tb_user : w (FREE_AREA + 16) = 0
}.
Lemma Tables_frame w w' :
  (forall x, FREE_AREA <= x < FREE_AREA + 240 -> w' x = w x) -> Tables w -> Tables w'.
Proof. intros H [H1 H2 H3 H4]. split; intros; rewrite H by lia; auto. Qed.

(** Addresses of the static objects. *)
Lemma layout_ranges :
  (4194304 <= FREE_AREA /\ FREE_AREA + 240 <= HEAP /\ FREE_AREA mod 4 = 0) /\
  (4194304 <= FREE_LIST /\ FREE_LIST + 144 <= HEAP /\ FREE_LIST mod 4 = 0) /\
  (4194304 <= BIT_MAP /\ BIT_MAP + 1840 <= HEAP /\ BIT_MAP mod 4 = 0) /\
  (FREE_AREA + 240 <= FREE_LIST \/ FREE_LIST + 144 <= FREE_AREA) /\
  (FREE_AREA + 240 <= BIT_MAP \/ BIT_MAP + 1840 <= FREE_AREA) /\
  (FREE_LIST + 144 <= BIT_MAP \/ BIT_MAP + 1840 <= FREE_LIST).
Proof using Hlay.
  destruct Hlay as [H1 H2]. unfold statics, ranges_apart in *. simpl in H2.
  rewrite !Forall_cons in *. simpl in *. destruct_and?. split_and!; assumption.
Qed.

(** ** The runs *)
Lemma pidx_index a k : valid (a, k) -> k <= 10 -> u32 (a - HEAP) / buddy_size k = pidx a k.
Proof.
  intros Hv Hk. pose proof (valid_range _ Hv) as Hr. simpl in Hr. destruct Hv as [Hk' _]. simpl in Hk'.
  unfold HEAP, HEAP_END in *. rewrite u32_id by lia. by rewrite buddy_size_bsz by (unfold MAX_ORDER in *; lia).
Qed.

Lemma bit_word_run s a k : Tables (word s) -> valid (a, k) -> k <= 10 -> word s (a + 8) = a ->
  bit_word FREE_AREA a k s =
    Ok ((bit_addr k (pidx a k), Z.shiftl 1 (pidx a k mod 32)), s).
Proof using Hlay.
  intros HT Hv Hk Ha. pose proof layout_ranges as HL. destruct (pidx_range a k Hv Hk) as [Hk2 Hp].
  unfold bit_word, b_addr, a_start_addr, a_bit_map, area_at.
  rewrite ld_bind by (apply bnode_addr, (valid_bnode _ Hv)). rewrite Ha.
  rewrite ld_bind by (unfold waddr, HEAP in *; lia_mod). rewrite tb_start by done.
  rewrite ld_bind by (unfold waddr, HEAP in *; lia_mod). rewrite tb_bits by done.
  rewrite pidx_index by done. unfold mret, M_ret, bit_addr. do 3 f_equal. lia.
Qed.

Lemma bit_addr_waddr k j : 0 <= k <= 10 -> 0 <= j < nblocks k / 2 -> waddr (bit_addr k j).
Proof using Hlay.
  intros Hk Hj. pose proof layout_ranges as HL. pose proof (bit_addr_range k j Hk Hj).
  unfold waddr, HEAP in *. lia_mod.
Qed.

Lemma is_split_run s a k : Tables (word s) -> valid (a, k) -> k <= 10 -> word s (a + 8) = a ->
  is_split FREE_AREA a k s = Ok (bit (word s) k (pidx a k), s).
Proof using Hlay.
  intros HT Hv Hk Ha. destruct (pidx_range a k Hv Hk) as [Hk2 Hp].
  unfold is_split. rewrite (bind_ok _ _ _ _ _ (bit_word_run s a k HT Hv Hk Ha)). cbn beta iota.
  rewrite ld_bind by (by apply bit_addr_waddr). by rewrite testbit_land_pow2 by lia_mod.
Qed.

Lemma st_u32 p v s : waddr p -> st p v s = Ok (tt, set_word (upd p (u32 v) (word s)) s).
Proof.
  intros Hp. unfold st. rewrite ld_bind by done. unfold modify. by rewrite (proj2 (kaddr_waddr p Hp)).
Qed.

Lemma flip_run s a k : Tables (word s) -> valid (a, k) -> k <= 10 -> word s (a + 8) = a ->
  flip_bit_map FREE_AREA a k s = Ok (tt, set_word (flip_mem (word s) a k) s).
Proof using Hlay.
  intros HT Hv Hk Ha. destruct (pidx_range a k Hv Hk) as [Hk2 Hp].
  unfold flip_bit_map. rewrite (bind_ok _ _ _ _ _ (bit_word_run s a k HT Hv Hk Ha)). cbn beta iota.
  rewrite ld_bind by (by apply bit_addr_waddr). by rewrite st_u32 by (by apply bit_addr_waddr).
Qed.

Lemma is_left_run s a k : Tables (word s) -> valid (a, k) -> k <= 10 ->
  is_left_buddy FREE_AREA a k s = Ok (is_left a k, s).
Proof using Hlay.
  intros HT Hv Hk. pose proof layout_ranges as HL. pose proof (valid_range _ Hv) as Hr. simpl in Hr.
  destruct Hv as [Hk' _]. simpl in Hk'.
  unfold is_left_buddy, a_user, a_start_addr.
  rewrite ld_bind by (unfold waddr, HEAP in *; lia_mod). rewrite tb_user by done.
  rewrite ld_bind by (unfold waddr, HEAP in *; lia_mod). rewrite tb_start by done. cbn.
  unfold mbind, M_bind, mret, M_ret. unfold is_left, HEAP, HEAP_END in *. rewrite u32_id by lia.
  rewrite buddy_size_bsz by (unfold MAX_ORDER in *; lia). by rewrite (Z.mul_comm 2), Z.div_mul by lia.
Qed.
End bits.
