(* ===== verification/KmallocPages.v ===== *)
(** * The buddy allocator against its abstract state

    The abstract state is a free list of block addresses for each order and
    the list of the blocks that are out.  [Buddy w FL AL] relates it to memory;
    the operations below are followed by what they do to it. *)
From S2P Require Import Prelude Kmalloc KmallocRing KmallocBuddy KmallocBits.

(** ** Free lists, by order *)
Definition fupd (k : Z) (L : list Z) (FL : Z -> list Z) : Z -> list Z :=
  λ j, if j =? k then L else FL j.
Definition free_blocks (FL : Z -> list Z) : list (Z * Z) :=
  concat (map (λ k, map (λ a, (a, k)) (FL k)) (seqZ 0 12)).

Lemma fupd_eq k L FL : fupd k L FL k = L.
Proof. unfold fupd. by rewrite Z.eqb_refl. Qed.
Lemma fupd_ne k L FL j : j <> k -> fupd k L FL j = FL j.
Proof. unfold fupd. intros. by rewrite (proj2 (Z.eqb_neq j k)). Qed.

Lemma in_free FL a k : (a, k) ∈ free_blocks FL <-> 0 <= k <= 11 /\ a ∈ FL k.
Proof.
  unfold free_blocks. rewrite list_elem_of_In, in_concat. split.
  - intros (l & Hl & Ha). apply in_map_iff in Hl as (k' & <- & Hk). apply in_map_iff in Ha as (a' & E & Ha).
    injection E as -> ->. apply list_elem_of_In, elem_of_seqZ in Hk. split; [lia|by apply list_elem_of_In].
  - intros [Hk Ha]. exists (map (λ a, (a, k)) (FL k)). split.
    + apply in_map_iff. exists k. split; [done|]. apply list_elem_of_In, elem_of_seqZ. lia.
    + apply in_map_iff. exists a. split; [done|]. by apply list_elem_of_In.
Qed.

Lemma free_fupd k L FL : 0 <= k <= 11 ->
  free_blocks (fupd k L FL) ≡ₚ map (λ a, (a, k)) L ++ free_blocks (fupd k [] FL).
Proof.
  intros Hk. unfold free_blocks.
  replace (seqZ 0 12) with (seqZ 0 k ++ k :: seqZ (k + 1) (11 - k)).
  2:{ replace (k :: seqZ (k + 1) (11 - k)) with (seqZ (0 + k) (12 - k)).
      - rewrite <-seqZ_app by lia. f_equal. lia.
      - rewrite seqZ_cons by lia. do 2 f_equal; lia. }
  assert (forall l M N, k ∉ l -> map (λ j, map (λ a, (a, j)) (fupd k M FL j)) l =
    map (λ j, map (λ a, (a, j)) (fupd k N FL j)) l) as He.
  { intros l M N Hl. apply map_ext_in. intros j Hj%list_elem_of_In. by rewrite !fupd_ne by set_solver. }
  rewrite !map_app, !map_cons, !concat_app, !concat_cons, !fupd_eq. simpl.
  rewrite (He (seqZ 0 k) L []), (He (seqZ (k + 1) (11 - k)) L []) by (rewrite elem_of_seqZ; lia).
  rewrite !app_assoc. f_equiv. apply Permutation_app_comm.
Qed.
Lemma free_fupd_self FL k : 0 <= k <= 11 ->
  free_blocks FL ≡ₚ map (λ a, (a, k)) (FL k) ++ free_blocks (fupd k [] FL).
Proof.
  intros Hk. rewrite <-(free_fupd k (FL k) FL Hk). unfold free_blocks.
  erewrite map_ext; [done|]. intros j. simpl. unfold fupd. by destruct (Z.eqb_spec j k) as [->|].
Qed.

Section pages.
Context {lay : Layout} {Hlay : @LayoutOk lay}.
Implicit Types (w : Z -> Z) (FL : Z -> list Z) (AL : list (Z * Z)).

Definition fl_head (k : Z) : Z := FREE_LIST + 12 * k.
(** ** The relation *)
Record Core w FL AL : Prop := {
  core_tables : Tables w;
  core_ring : forall k, 0 <= k <= 11 -> ring 0 4 w (fl_head k) (FL k);
  core_addr : forall k a, 0 <= k <= 11 -> a ∈ FL k -> w (a + 8) = a;
  core_tiles : Tiles (free_blocks FL ++ AL)
}.
(** Two free buddies have been merged. *)
Definition Merged FL : Prop :=
  forall a k, valid (a, k) -> k <= 10 -> a ∈ FL k -> bud a k ∉ FL k.
Record Buddy w FL AL : Prop := {
  buddy_core : Core w FL AL;
  buddy_bits : Bits w FL;
  buddy_merged : Merged FL
}.

(** What an operation leaves alone: the blocks that are out, and the statics
    that are not its own. *)
Definition inside (x : Z) (b : Z * Z) : Prop := b.1 <= x < b.1 + bsz b.2.
Definition kept AL (x : Z) : Prop :=
  x < HEAP /\ ~ (FREE_LIST <= x < FREE_LIST + 144) /\ ~ (BIT_MAP <= x < BIT_MAP + 1804) \/
  exists b, b ∈ AL /\ inside x b.
Definition Keep AL w w' : Prop := forall x, kept AL x -> w' x = w x.
Lemma Keep_trans AL w1 w2 w3 : Keep AL w1 w2 -> Keep AL w2 w3 -> Keep AL w1 w3.
Proof. intros H1 H2 x Hx. by rewrite H2, H1. Qed.
Lemma Keep_refl AL w : Keep AL w w.
Proof. done. Qed.

Lemma core_valid_free w FL AL k a : Core w FL AL -> 0 <= k <= 11 -> a ∈ FL k -> valid (a, k).
Proof.
  intros [_ _ _ [HT _]] Hk Ha. rewrite Forall_app, Forall_forall in HT. by apply HT, in_free.
Qed.
Lemma core_valid_out w FL AL x : Core w FL AL -> x ∈ AL -> valid x.
Proof. intros [_ _ _ [HT _]] Hx. rewrite Forall_app, !Forall_forall in HT. by apply HT. Qed.

Lemma head_bnode k : 0 <= k <= 11 -> bnode (fl_head k).
Proof using Hlay.
  intros Hk. pose proof layout_ranges. unfold bnode, waddrs, fl_head, HEAP in *. lia_mod.
Qed.
Lemma core_bnodes w FL AL k : Core w FL AL -> 0 <= k <= 11 -> Forall bnode (fl_head k :: FL k).
Proof using Hlay.
  intros HC Hk. apply Forall_cons. split; [by apply head_bnode|]. apply Forall_forall. intros a Ha.
  apply (valid_bnode (a, k)). by eapply core_valid_free.
Qed.

Lemma head_heap k x : 0 <= k <= 11 -> valid x -> sep 12 (fl_head k) x.1.
Proof using Hlay.
  intros Hk Hx%valid_range. pose proof layout_ranges. unfold sep, fl_head, HEAP in *. lia.
Qed.

(** A place where a node may be: the head of a list, a free block, a block
    that is out.  Two of them never overlap. *)
Inductive Node FL AL : Z -> option (Z * Z) -> Prop :=
  | node_head k : 0 <= k <= 11 -> Node FL AL (fl_head k) None
  | node_block x : x ∈ free_blocks FL ++ AL -> Node FL AL x.1 (Some x).

Lemma nodes_sep w FL AL y z by_ bz :
  Core w FL AL -> Node FL AL y by_ -> Node FL AL z bz -> y = z \/ sep 12 y z.
Proof using Hlay.
  intros HC. pose proof (core_tiles _ _ _ HC) as HT. pose proof HT as [HV _].
  rewrite Forall_forall in HV. intros [k Hk|x Hx] [k' Hk'|x' Hx'].
  - unfold fl_head, sep. lia.
  - right. apply head_heap; auto.
  - right. apply sep_sym, head_heap; auto.
  - destruct (Tiles_in _ x x' HT Hx Hx') as [->|Hd]; [by left|right]. apply disj_sep; auto.
Qed.
Lemma node_free FL AL k a : 0 <= k <= 11 -> a ∈ FL k -> Node FL AL a (Some (a, k)).
Proof. intros. apply (node_block FL AL (a, k)), elem_of_app. left. by apply in_free. Qed.
Lemma node_out FL AL x : x ∈ AL -> Node FL AL x.1 (Some x).
Proof. intros. apply node_block, elem_of_app. by right. Qed.

Lemma core_seps w FL AL k : Core w FL AL -> 0 <= k <= 11 -> pairwise (sep 12) (fl_head k :: FL k).
Proof using Hlay.
  intros HC Hk. simpl. split.
  - apply Forall_forall. intros a Ha. apply (head_heap k (a, k) Hk). by eapply core_valid_free.
  - pose proof (core_tiles _ _ _ HC) as HT.
    assert (Tiles (map (λ a, (a, k)) (FL k) ++ (free_blocks (fupd k [] FL) ++ AL))) as [HV HD].
    { eapply Tiles_perm; [|exact HT]. rewrite app_assoc. f_equiv. by apply free_fupd_self. }
    apply pairwise_app in HD as [HD _]. apply Forall_app in HV as [HV _]. clear -HD HV.
    induction (FL k) as [|a L IH]; simpl in *; [done|]. apply Forall_cons in HV as [Ha HV].
    destruct HD as [Hd HD]. split; [|auto]. rewrite !Forall_forall in *. intros b Hb.
    apply (disj_sep (a, k) (b, k)); [done| |]; [apply HV|apply Hd]; apply list_elem_of_fmap; by exists b.
Qed.

(** ** Relinking one list *)
(** The structs whose links an operation on list [k] writes: the head, the
    free blocks and the blocks [B] that are coming in. *)
Definition touched k FL (B : list (Z * Z)) (y : Z) : Prop :=
  y = fl_head k \/ y ∈ FL k \/ exists j, (y, j) ∈ B.
Definition relinks k FL B w w' : Prop :=
  forall x, w' x = w x \/ exists y f, touched k FL B y /\ x = y + f /\ (f = 0 \/ f = 4).

Lemma tiles_addr T a j k : Tiles T -> (a, j) ∈ T -> (a, k) ∈ T -> j = k.
Proof.
  intros HT Hj Hk. destruct (Tiles_in T _ _ HT Hj Hk) as [E|Hd]; [congruence|].
  destruct HT as [HV _]. rewrite Forall_forall in HV. apply HV, valid_range in Hj.
  apply HV, valid_range in Hk. unfold disj in Hd. simpl in *. lia.
Qed.

Section relink.
Context (w : Z -> Z) (FL : Z -> list Z) (B AL : list (Z * Z)) (k : Z).
Hypothesis HC : Core w FL (B ++ AL).
Hypothesis Hk : 0 <= k <= 11.

Lemma core_NoDup : NoDup (free_blocks FL ++ B ++ AL).
Proof using HC. apply Tiles_NoDup, HC. Qed.

Lemma touched_node y : touched k FL B y -> exists b, Node FL (B ++ AL) y b.
Proof using Hk.
  intros [->|[Hy|[j Hj]]].
  - exists None. by constructor.
  - exists (Some (y, k)). by apply node_free.
  - exists (Some (y, j)). apply (node_out FL _ (y, j)). apply elem_of_app. by left.
Qed.

Lemma touched_sep y z bz : touched k FL B y -> Node FL (B ++ AL) z bz -> y = z \/ sep 12 y z.
Proof using All. intros [b Hy]%touched_node Hz. by eapply nodes_sep. Qed.

(** A node of another list is not touched. *)
Lemma touched_other y k' z : touched k FL B y -> 0 <= k' <= 11 -> k' <> k ->
  z ∈ fl_head k' :: FL k' -> sep 12 y z.
Proof using All.
  intros Hy Hk' Hne Hz. pose proof (core_tiles _ _ _ HC) as HT. pose proof HT as [HV _].
  rewrite Forall_forall in HV.
  assert (exists bz, Node FL (B ++ AL) z bz) as [bz Hnz].
  { apply elem_of_cons in Hz as [->|Hz]; [exists None; by constructor|].
    exists (Some (z, k')). by apply node_free. }
  destruct (touched_sep y z bz Hy Hnz) as [<-|]; [exfalso|done].
  assert (forall x, x ∈ free_blocks FL ++ B ++ AL -> HEAP <= x.1) as Hh
    by (intros x Hx; by apply HV, valid_range in Hx as [? _]).
  pose proof layout_ranges as HL. assert (fl_head k < HEAP /\ fl_head k' < HEAP) as [Hlt Hlt']
    by (unfold fl_head, HEAP in *; lia).
  apply elem_of_cons in Hz as [->|Hz].
  - destruct Hy as [E|[Hy|[j Hj]]].
    + unfold fl_head in E. lia.
    + specialize (Hh (fl_head k', k) ltac:(rewrite elem_of_app, in_free; auto)). simpl in Hh. lia.
    + specialize (Hh (fl_head k', j) ltac:(set_solver)). simpl in Hh. lia.
  - assert ((y, k') ∈ free_blocks FL) as Hf by (by apply in_free).
    destruct Hy as [->|[Hy|[j Hj]]].
    + specialize (Hh (fl_head k, k') ltac:(set_solver)). simpl in Hh. lia.
    + apply Hne, (tiles_addr _ y k' k HT); rewrite elem_of_app, in_free; auto.
    + assert (k' = j) as <- by (apply (tiles_addr _ y k' j HT); set_solver).
      pose proof core_NoDup as Hd. apply NoDup_app in Hd as (_ & Hd & _). apply (Hd _ Hf). set_solver.
Qed.

Lemma relink_static w' x : relinks k FL B w w' ->
  x < HEAP -> ~ (FREE_LIST <= x < FREE_LIST + 144) -> w' x = w x.
Proof using All.
  intros Hw Hx Hn. destruct (Hw x) as [|(y & f & Hy & -> & Hf)]; [done|exfalso].
  pose proof (core_tiles _ _ _ HC) as [HV _]. rewrite Forall_forall in HV.
  destruct Hy as [->|[Hy|[j Hj]]].
  - apply Hn. unfold fl_head. lia.
  - assert (valid (y, k)) as Hv%valid_range by (apply HV; rewrite elem_of_app, in_free; auto). simpl in Hv. lia.
  - assert (valid (y, j)) as Hv%valid_range by (apply HV; set_solver). simpl in Hv. lia.
Qed.

Lemma relink_keep w' : relinks k FL B w w' -> Keep AL w w'.
Proof using All.
  intros Hw x [(H1 & H2 & _)|(b & Hb & Hin)]; [by apply relink_static|].
  destruct (Hw x) as [|(y & f & Hy & -> & Hf)]; [done|exfalso].
  pose proof (core_tiles _ _ _ HC) as HT. pose proof HT as [HV _]. rewrite Forall_forall in HV.
  pose proof (valid_range b ltac:(apply HV; set_solver)) as Hbv.
  assert (forall j, (y, j) ∈ free_blocks FL ++ B -> False) as Hno.
  { intros j Hj. pose proof core_NoDup as Hd. rewrite app_assoc in Hd.
    apply NoDup_app in Hd as (_ & Hd & _). specialize (Hd _ Hj).
    assert ((y, j) ∈ free_blocks FL ++ B ++ AL) as Hj' by set_solver.
    pose proof (valid_range _ (HV _ Hj')) as Hyv.
    destruct (Tiles_in _ (y, j) b HT Hj' ltac:(set_solver)) as [<-|Hdj]; [done|].
    unfold inside, disj in *. simpl in *. lia. }
  destruct Hy as [->|[Hy|[j Hj]]].
  - pose proof layout_ranges. unfold inside, fl_head, HEAP in *. lia.
  - apply (Hno k). rewrite elem_of_app, in_free. auto.
  - apply (Hno j). set_solver.
Qed.

Lemma relink_addr w' : relinks k FL B w w' ->
  forall x, x ∈ free_blocks FL ++ B ++ AL -> w' (x.1 + 8) = w (x.1 + 8).
Proof using All.
  intros Hw x Hx. destruct (Hw (x.1 + 8)) as [->|(y & f & Hy & E & Hf)]; [done|exfalso].
  destruct (touched_sep y x.1 (Some x) Hy (node_block FL _ x Hx)) as [->|Hs];
    [|unfold sep in Hs]; lia.
Qed.

Lemma core_relink w' AL' L' :
  relinks k FL B w w' -> ring 0 4 w' (fl_head k) L' ->
  free_blocks (fupd k L' FL) ++ AL' ≡ₚ free_blocks FL ++ B ++ AL ->
  (forall a, a ∈ L' -> w (a + 8) = a) ->
  Core w' (fupd k L' FL) AL'.
Proof using All.
  intros Hw Hr Hp Ha. pose proof layout_ranges as HL.
  assert (Tiles (free_blocks (fupd k L' FL) ++ AL')) as HT
    by (eapply Tiles_perm; [symmetry; exact Hp|apply HC]).
  split; [..|exact HT].
  - eapply Tables_frame; [|apply HC]. intros x Hx. apply (relink_static _ _ Hw); unfold HEAP in *; lia.
  - intros k' Hk'. destruct (decide (k' = k)) as [->|Hne]; [by rewrite fupd_eq|].
    rewrite fupd_ne by done. eapply ring_frame; [by apply HC|]. intros z Hz.
    split; (match goal with |- w' ?x = _ => destruct (Hw x) as [|(y & f & Hy & E & Hf)] end;
      [done|exfalso]); pose proof (touched_other y k' z Hy Hk' Hne Hz) as Hs; unfold sep in Hs; lia.
  - intros k' a Hk' Hin. assert ((a, k') ∈ free_blocks FL ++ B ++ AL) as Hb.
    { rewrite <-Hp. apply elem_of_app. left. by apply in_free. }
    assert (w (a + 8) = a) as Hold.
    { destruct (decide (k' = k)) as [->|Hne]; [rewrite fupd_eq in Hin; auto|].
      rewrite fupd_ne in Hin by done. eapply core_addr; [exact HC|exact Hk'|exact Hin]. }
    pose proof (relink_addr w' Hw (a, k') Hb) as Hra. simpl in Hra. congruence.
Qed.
End relink.

(** ** Pushing, popping and taking out *)
Lemma bits_relink w w' FL B AL k G : Core w FL (B ++ AL) -> 0 <= k <= 11 ->
  relinks k FL B w w' -> Bits w G -> Bits w' G.
Proof using Hlay.
  intros HC Hk Hw. apply Bits_frame. intros x Hx. pose proof layout_ranges as HL.
  eapply relink_static; [exact HC|exact Hk|exact Hw|unfold HEAP in *; lia|lia].
Qed.

Lemma push_step s FL AL b k :
  Core (word s) FL ((b, k) :: AL) -> 0 <= k <= 11 -> word s (b + 8) = b ->
  exists w', free_list_push (fl_head k) b s = Ok (tt, set_word w' s) /\
    Core w' (fupd k (FL k ++ [b]) FL) AL /\ Keep AL (word s) w' /\
    (forall G, Bits (word s) G -> Bits w' G).
Proof using Hlay.
  intros HC Hk Hb. set (w := word s) in *. pose proof (core_ring _ _ _ HC k Hk) as Hr.
  pose proof (core_seps _ _ _ k HC Hk) as Hs.
  assert (valid (b, k)) as Hv by (eapply core_valid_out; [exact HC|set_solver]).
  assert (forall x, x ∈ fl_head k :: FL k -> sep 12 b x) as Hsep.
  { intros x Hx. pose proof core_NoDup w FL [(b, k)] AL HC as Hd.
    assert (exists bx, Node FL ((b, k) :: AL) x bx) as [bx Hnx].
    { apply elem_of_cons in Hx as [->|Hx]; [exists None; by constructor|].
      exists (Some (x, k)). by apply node_free. }
    destruct (nodes_sep w FL _ b x (Some (b, k)) bx HC (node_out FL ((b, k) :: AL) (b, k) ltac:(set_solver)) Hnx)
      as [<-|]; [exfalso|done].
    apply elem_of_cons in Hx as [E|Hx].
    - pose proof (head_heap k (b, k) Hk Hv) as Hsp. simpl in Hsp. unfold sep in Hsp. lia.
    - apply NoDup_app in Hd as (_ & Hd & _). apply (Hd (b, k)); [by apply in_free|set_solver]. }
  assert (relinks k FL [(b, k)] w (push_mem 0 4 w (fl_head k) b)) as Hw.
  { intros x. pose proof (ring_last 0 4 _ _ _ Hr) as Hl. pose proof (last_node_in (fl_head k) (FL k)) as Hin.
    destruct (decide (x = fl_head k + 4)) as [->|]; [right; exists (fl_head k), 4; unfold touched; auto|].
    destruct (decide (x = w (fl_head k + 4) + 0)) as [->|].
    { right. exists (w (fl_head k + 4)), 0. rewrite Hl. unfold touched. set_solver. }
    destruct (decide (x = b + 0)) as [->|]; [right; exists b, 0; unfold touched; set_solver|].
    destruct (decide (x = b + 4)) as [->|]; [right; exists b, 4; unfold touched; set_solver|].
    left. by apply push_mem_out. }
  exists (push_mem 0 4 w (fl_head k) b). split; [|split; [|split]].
  - eapply (free_list_push_run s _ b (FL k)); [exact Hr|by eapply core_bnodes| |exact Hs|exact Hsep].
    apply (valid_bnode _ Hv).
  - eapply (core_relink w FL [(b, k)] AL k HC Hk); [exact Hw| | |].
    + eapply (ring_push 0 4 12); [lia|exact Hr|exact Hs|exact Hsep].
    + rewrite free_fupd, map_app by done. rewrite (free_fupd_self FL k Hk). simpl.
      rewrite <-!app_assoc. f_equiv. simpl. apply Permutation_middle.
    + intros a [Ha|Ha%list_elem_of_singleton]%elem_of_app; [|by subst a].
      eapply core_addr; [exact HC|exact Hk|exact Ha].
  - by eapply (relink_keep w FL [(b, k)] AL k).
  - intros G. by eapply (bits_relink w _ FL [(b, k)] AL k).
Qed.

Lemma unlink_step w w' FL AL k L1 x L2 :
  Core w FL AL -> 0 <= k <= 11 -> FL k = L1 ++ x :: L2 ->
  unlinked 0 4 w w' (last_node (fl_head k) L1) (hd (fl_head k) L2) ->
  Core w' (fupd k (L1 ++ L2) FL) ((x, k) :: AL) /\ w' (x + 8) = x /\ Keep AL w w' /\
  (forall G, Bits w G -> Bits w' G).
Proof using Hlay.
  intros HC Hk HF Hu. pose proof (core_ring _ _ _ HC k Hk) as Hr. rewrite HF in Hr.
  pose proof (core_seps _ _ _ k HC Hk) as Hs. rewrite HF in Hs.
  pose proof (last_node_in (fl_head k) L1) as Hl. pose proof (hd_in (fl_head k) L2) as Hn.
  assert (relinks k FL [] w w') as Hw.
  { intros y. destruct Hu as (_ & _ & Hu).
    destruct (decide (y = last_node (fl_head k) L1 + 0)) as [->|].
    { right. exists (last_node (fl_head k) L1), 0. unfold touched. rewrite HF. set_solver. }
    destruct (decide (y = hd (fl_head k) L2 + 4)) as [->|]; [|left; by apply Hu].
    right. exists (hd (fl_head k) L2), 4. unfold touched. rewrite HF. set_solver. }
  split; [|split; [|split]].
  - eapply (core_relink w FL [] AL k HC Hk); [exact Hw| | |].
    + by eapply (ring_remove 0 4 12); [lia|exact Hr|exact Hs|].
    + rewrite free_fupd, (free_fupd_self FL k Hk), HF, !map_app by done. simpl.
      rewrite <-!app_assoc. simpl. f_equiv. by rewrite <-!Permutation_middle.
    + intros a Ha. eapply core_addr; [exact HC|exact Hk|]. rewrite HF. set_solver.
  - assert ((x, k) ∈ free_blocks FL ++ [] ++ AL) as Hin
      by (apply elem_of_app; left; apply in_free; rewrite HF; set_solver).
    pose proof (relink_addr w FL [] AL k HC Hk w' Hw (x, k) Hin) as Hra. simpl in Hra. rewrite Hra.
    eapply core_addr; [exact HC|exact Hk|rewrite HF; set_solver].
  - by eapply (relink_keep w FL [] AL k).
  - intros G. by eapply (bits_relink w _ FL [] AL k).
Qed.

(** Writing inside a block that is out, or in the bitmaps. *)
Lemma core_frame w w' FL AL :
  (forall x, w' x = w x \/ BIT_MAP <= x < BIT_MAP + 1804 \/ exists b, b ∈ AL /\ inside x b) ->
  Core w FL AL -> Core w' FL AL.
Proof using Hlay.
  intros Hw HC. pose proof layout_ranges as HL. pose proof (core_tiles _ _ _ HC) as HT.
  pose proof HT as [HV _]. rewrite Forall_forall in HV.
  assert (forall b x, b ∈ AL -> inside x b -> HEAP <= x) as Hh.
  { intros b x Hb Hx. pose proof (valid_range b ltac:(apply HV; set_solver)). unfold inside in Hx. lia. }
  assert (forall x, x < HEAP -> ~ (BIT_MAP <= x < BIT_MAP + 1804) -> w' x = w x) as Hst.
  { intros x H1 H2. destruct (Hw x) as [|[|(b & Hb & Hi)]]; [done|done|]. specialize (Hh _ _ Hb Hi). lia. }
  assert (forall k a f, 0 <= k <= 11 -> a ∈ FL k -> 0 <= f < 12 -> w' (a + f) = w (a + f)) as Hbl.
  { intros k a f Hk Ha Hf. assert ((a, k) ∈ free_blocks FL) as Hin by (by apply in_free).
    pose proof (valid_range _ (HV (a, k) ltac:(set_solver))) as Hr. simpl in Hr.
    destruct (Hw (a + f)) as [|[|(b & Hb & Hi)]]; [done|unfold HEAP in *; lia|exfalso].
    pose proof (Tiles_NoDup _ HT) as Hd. apply NoDup_app in Hd as (_ & Hd & _).
    destruct (Tiles_in _ (a, k) b HT ltac:(set_solver) ltac:(set_solver)) as [<-|Hdj]; [by eapply Hd|].
    unfold inside, disj in *. simpl in *. lia. }
  destruct HC as [H1 H2 H3 H4]. split; [..|done].
  - eapply Tables_frame; [|exact H1]. intros x Hx. apply Hst; unfold HEAP in *; lia.
  - intros k Hk. eapply ring_frame; [by apply H2|]. intros x [->|Hx]%elem_of_cons.
    + split; apply Hst; unfold fl_head, HEAP in *; lia.
    + split; eapply Hbl; eauto; lia.
  - intros k a Hk Ha. rewrite (Hbl k a 8) by (done || lia). by eapply H3.
Qed.
End pages.
