(* ===== verification/KmallocAlloc.v ===== *)
(** * Allocating and freeing pages

    [alloc_spec] and [free_spec] say on the abstract free lists what
    [get_page] and [free_page] do; [get_page_run] and [free_page_run] are the
    simulations. *)
From S2P Require Import Prelude Kmalloc KmallocRing KmallocBuddy KmallocBits KmallocPages.

(** ** The abstract operations *)
(** The first order from [i] on with a free block. *)
Fixpoint afind (n : nat) (FL : Z -> list Z) (i : Z) : option (Z * Z) :=
  match n with
  | O => None
  | S n => match FL i with b :: _ => Some (b, i) | [] => afind n FL (i + 1) end
  end.
(** Halving the block at [b] from order [c] on, [n] times; the right halves
    become free. *)
Fixpoint asplit (n : nat) (FL : Z -> list Z) (b c : Z) : Z -> list Z :=
  match n with
  | O => FL
  | S n => asplit n (fupd (c - 1) (FL (c - 1) ++ [b + bsz (c - 1)]) FL) b (c - 1)
  end.
Definition alloc_spec (FL : Z -> list Z) (order : Z) : option (Z * (Z -> list Z)) :=
  match afind (Z.to_nat (MAX_ORDER + 1 - order)) FL order with
  | Some (b, i) => Some (b, asplit (Z.to_nat (i - order)) (fupd i (tl (FL i)) FL) b i)
  | None => None
  end.
(** Freeing: merge with the buddy as long as it is free. *)
Fixpoint afree (n : nat) (FL : Z -> list Z) (b k : Z) : Z -> list Z :=
  match n with
  | O => fupd k (FL k ++ [b]) FL
  | S n =>
      if bool_decide (bud b k ∈ FL k) then
        afree n (fupd k (filter (.≠ bud b k) (FL k)) FL) (if is_left b k then b else bud b k) (k + 1)
      else fupd k (FL k ++ [b]) FL
  end.
Definition free_spec (FL : Z -> list Z) (b order : Z) : Z -> list Z :=
  afree (Z.to_nat (MAX_ORDER - order)) FL b order.

Lemma Bits_ext {lay : Layout} w FL FL' :
  (forall k, 0 <= k <= 10 -> FL k = FL' k) -> Bits w FL -> Bits w FL'.
Proof.
  intros He HB a k Hv Hk. pose proof Hv as [Hk' _]. simpl in Hk'. rewrite <-He by lia. by apply HB.
Qed.

(** The left half of a block, and its buddy. *)
Lemma left_half b c : valid (b, c) -> 1 <= c -> bud b (c - 1) = b + bsz (c - 1).
Proof.
  intros (Hk & q & Hq & Hb) Hc. simpl in *. unfold MAX_ORDER in Hk. subst b.
  pose proof (bsz_range (c - 1) ltac:(lia)). rewrite (bsz_half c) by lia.
  replace (HEAP + q * (2 * bsz (c - 1))) with (HEAP + (2 * q) * bsz (c - 1)) by lia.
  unfold bud. rewrite is_left_q by lia. by rewrite (proj2 (Z.eqb_eq ((2 * q) mod 2) 0)) by lia_mod.
Qed.

Section alloc.
Context {lay : Layout} {Hlay : @LayoutOk lay}.
Implicit Types (w : Z -> Z) (FL : Z -> list Z) (AL : list (Z * Z)).

(** ** Steps *)
Lemma core_out w FL AL b k : Core w FL ((b, k) :: AL) ->
  valid (b, k) /\ (forall j, b ∉ FL j \/ ~ 0 <= j <= 11) /\
  (forall x, x ∈ AL -> disj (b, k) x).
Proof.
  intros HC. pose proof (core_tiles _ _ _ HC) as HT. pose proof HT as [HV _].
  rewrite Forall_forall in HV. split; [apply HV; set_solver|].
  pose proof (Tiles_NoDup _ HT) as Hd. split.
  - intros j. destruct (decide (0 <= j <= 11)) as [Hj|]; [left|by right]. intros Hb.
    assert ((b, j) ∈ free_blocks FL) as Hin by (by apply in_free).
    assert (j = k) as -> by (apply (tiles_addr _ b j k HT); set_solver).
    apply NoDup_app in Hd as (_ & Hd & _). apply (Hd _ Hin). set_solver.
  - intros x Hx. destruct (Tiles_in _ (b, k) x HT ltac:(set_solver) ltac:(set_solver)) as [<-|]; [|done].
    apply NoDup_app in Hd as (_ & _ & Hd). by apply NoDup_cons in Hd as [Hd _].
Qed.

Lemma write_step w FL AL b k x v :
  Core w FL ((b, k) :: AL) -> inside x (b, k) ->
  Core (upd x v w) FL ((b, k) :: AL) /\ Keep AL w (upd x v w) /\
  (forall G, Bits w G -> Bits (upd x v w) G).
Proof using Hlay.
  intros HC Hx. destruct (core_out _ _ _ _ _ HC) as (Hv & _ & Hd). apply valid_range in Hv.
  pose proof layout_ranges as HL. unfold inside in Hx. simpl in *. split; [|split].
  - eapply core_frame; [|exact HC]. intros y. destruct (decide (y = x)) as [->|]; [|left; by apply upd_ne].
    right. right. exists (b, k). split; [set_solver|done].
  - intros y [Hy|(b' & Hb & Hin)]; apply upd_ne; [unfold HEAP in *; lia|].
    specialize (Hd _ Hb). unfold inside, disj in *. simpl in *. lia.
  - intros G. apply Bits_frame. intros y Hy. apply upd_ne. unfold HEAP in *. lia.
Qed.

Lemma flip_step s FL AL b k :
  Core (word s) FL AL -> valid (b, k) -> k <= 10 -> word s (b + 8) = b ->
  exists w', flip_bit_map FREE_AREA b k s = Ok (tt, set_word w' s) /\
    Core w' FL AL /\ Keep AL (word s) w' /\ w' = flip_mem (word s) b k.
Proof using Hlay.
  intros HC Hv Hk Hb.
  pose proof layout_ranges as HL. destruct (pidx_range b k Hv Hk) as [Hk2 Hp].
  pose proof (bit_addr_range k _ Hk2 Hp) as Hr. pose proof (core_tiles _ _ _ HC) as [HV _].
  rewrite Forall_forall in HV.
  exists (flip_mem (word s) b k). split; [apply flip_run; [apply HC|done..]|]. split; [|split; [|done]].
  - eapply core_frame; [|exact HC]. intros y. unfold flip_mem.
    destruct (decide (y = bit_addr k (pidx b k))) as [->|]; [|left; by apply upd_ne].
    right. left. lia.
  - intros y [Hy|(b' & Hb' & Hin)]; apply upd_ne; [lia|].
    pose proof (valid_range b' ltac:(apply HV; set_solver)). unfold inside, HEAP in *. lia.
Qed.

Lemma area_list_ld s k : Tables (word s) -> 0 <= k <= 11 ->
  ld (a_free_list (area_at FREE_AREA k)) s = Ok (fl_head k, s).
Proof using Hlay.
  intros HT Hk. pose proof layout_ranges. unfold a_free_list, area_at.
  rewrite ld_ok by (unfold waddr, HEAP in *; lia_mod). by rewrite tb_list.
Qed.
Lemma user_ld {A} s (k : Z -> M kstate A) : Tables (word s) ->
  (ld (a_user FREE_AREA) ≫= k) s = k 0 s.
Proof using Hlay.
  intros HT. pose proof layout_ranges. unfold a_user.
  rewrite ld_bind by (unfold waddr, HEAP in *; lia_mod). by rewrite tb_user.
Qed.

(** Core does not see how the space that is out is divided. *)
Lemma core_halves w FL AL b c : Core w FL ((b, c) :: AL) -> 1 <= c ->
  Core w FL ((b + bsz (c - 1), c - 1) :: (b, c - 1) :: AL).
Proof.
  intros [H1 H2 H3 H4] Hc. split; [done..|].
  assert (Tiles ((b, c) :: free_blocks FL ++ AL)) as HT
    by (eapply Tiles_perm; [|exact H4]; by rewrite Permutation_middle).
  apply Tiles_split in HT as [_ HT]; [|done]. eapply Tiles_perm; [|exact HT].
  rewrite <-!Permutation_middle. apply perm_swap.
Qed.
Lemma core_merge w FL AL a k : Core w FL ((a, k) :: (bud a k, k) :: AL) -> k <= 10 ->
  Core w FL ((if is_left a k then a else bud a k, k + 1) :: AL).
Proof.
  intros HC Hk. destruct (core_out _ _ _ _ _ HC) as (Hv & _ & _). destruct HC as [H1 H2 H3 H4].
  split; [done..|]. destruct (merge_facts a k Hv Hk) as [Hm Hp]. cbv zeta in Hm, Hp.
  set (m := if is_left a k then a else bud a k) in *.
  eapply Tiles_perm; [apply Permutation_middle|]. apply Tiles_split; [destruct Hv; simpl in *; lia|].
  split; [done|]. replace (k + 1 - 1) with k by lia. eapply Tiles_perm; [|exact H4].
  rewrite <-!Permutation_middle.
  change ((a, k) :: (bud a k, k) :: free_blocks FL ++ AL)
    with (((a, k) :: (bud a k, k) :: []) ++ free_blocks FL ++ AL).
  by rewrite Hp.
Qed.

(** ** [buddy_split] and [get_page] *)
Lemma merged_push FL b k : valid (b, k) -> k <= 10 -> bud b k ∉ FL k ->
  Merged FL -> Merged (fupd k (FL k ++ [b]) FL).
Proof.
  intros Hv Hk Hb HM a j Ha Hj. destruct (decide (j = k)) as [->|Hne]; [|rewrite fupd_ne by done; by apply HM].
  rewrite fupd_eq, !elem_of_app, !list_elem_of_singleton.
  destruct (bud_facts b k Hv Hk) as (_ & Hbb & _ & Hbn), (bud_facts a k Ha Hj) as (_ & Haa & _ & Han).
  intros [Hin| ->] [Hin2|E].
  - by apply (HM a k).
  - rewrite <-E in Hb. by rewrite Haa in Hb.
  - done.
  - done.
Qed.

(** The bits after [b] left list [c], from those before. *)
Lemma bits_leave w FL b k : valid (b, k) -> k <= 10 -> b ∉ FL k ->
  Bits w (fupd k (b :: FL k) FL) -> Bits (flip_mem w b k) FL.
Proof.
  intros Hv Hk Hb. apply Bits_flip; [done|done|]. intros a j Ha Hj.
  destruct (decide (j = k)) as [->|Hne].
  - rewrite fupd_eq. destruct (decide (a = b)) as [->|Hab].
    + rewrite bool_decide_eq_false_2, !bool_decide_eq_true_2 by (done || set_solver). done.
    + rewrite (bool_decide_eq_false_2 ((b, k) = _)), xorb_false_r by congruence.
      apply bool_decide_ext. set_solver.
  - rewrite fupd_ne, (bool_decide_eq_false_2 ((b, k) = _)), xorb_false_r by congruence. done.
Qed.
(** Two buddies come in: their bit stays. *)
Lemma bits_pair w FL b k L : valid (b, k) -> k <= 10 -> b ∉ FL k -> bud b k ∉ FL k ->
  (forall a, a ∈ L <-> a = b \/ a = bud b k \/ a ∈ FL k) ->
  Bits w FL -> Bits w (fupd k L FL).
Proof.
  intros Hv Hk Hb Hb2 HL HB a j Ha Hj. rewrite (HB a j Ha Hj).
  destruct (decide (j = k)) as [->|Hne]; [|by rewrite fupd_ne]. rewrite fupd_eq.
  destruct (bud_facts b k Hv Hk) as (Hbv & Hbb & _ & Hbn), (bud_facts a k Ha Hj) as (_ & Haa & _ & Han).
  destruct (decide (a = b)) as [->|Hab].
  { rewrite !(bool_decide_eq_false_2 (_ ∈ FL k)) by done. rewrite !bool_decide_eq_true_2 by (apply HL; auto). done. }
  destruct (decide (a = bud b k)) as [->|Hab2].
  { rewrite Hbb, !(bool_decide_eq_false_2 (_ ∈ FL k)) by done. rewrite !bool_decide_eq_true_2 by (apply HL; auto). done. }
  assert (bud a k <> b) as H1 by congruence.
  assert (bud a k <> bud b k) as H2.
  { intros E. apply (f_equal (λ x, bud x k)) in E. by rewrite Haa, Hbb in E. }
  f_equal; apply bool_decide_ext; rewrite HL; tauto.
Qed.

Lemma Keep_cons b AL w w' : Keep (b :: AL) w w' -> Keep AL w w'.
Proof. intros H x [Hx|(b' & Hb & Hi)]; apply H; [by left|right; exists b'; split; [set_solver|done]]. Qed.

Lemma pop_step s FL AL k : Core (word s) FL AL -> 0 <= k <= 11 ->
  match FL k with
  | [] => free_list_pop (fl_head k) s = Ok (NULL, s)
  | b :: L => exists w', free_list_pop (fl_head k) s = Ok (b, set_word w' s) /\ b <> NULL /\
      Core w' (fupd k L FL) ((b, k) :: AL) /\ w' (b + 8) = b /\ Keep AL (word s) w' /\
      (forall G, Bits (word s) G -> Bits w' G)
  end.
Proof using Hlay.
  intros HC Hk. pose proof (core_ring _ _ _ HC k Hk) as Hr. pose proof (core_seps _ _ _ k HC Hk) as Hs.
  pose proof (core_bnodes _ _ _ k HC Hk) as Hn. pose proof layout_ranges.
  pose proof (free_list_pop_run s (fl_head k) (FL k) Hr Hn Hs ltac:(unfold fl_head; lia)) as Hp.
  destruct (FL k) as [|b L] eqn:HF; [exact Hp|].
  exists (pop_mem (word s) (fl_head k)). split; [exact Hp|]. split.
  { assert (valid (b, k)) as Hv%valid_range by (eapply core_valid_free; [exact HC|exact Hk|rewrite HF; set_solver]).
    simpl in Hv. unfold HEAP, NULL in *. lia. }
  apply (unlink_step (word s) _ FL AL k [] b L HC Hk HF). by apply (pop_unlinked _ _ b L).
Qed.

Lemma find_run s FL AL n i m :
  Core (word s) FL AL -> 0 <= i -> i + Z.of_nat n = 12 -> (n < m)%nat ->
  match afind n FL i with
  | None => iter m (find_block_body FREE_AREA) i s = Ok (None, s) /\ forall k, i <= k <= 11 -> FL k = []
  | Some (b, k) => exists L w', iter m (find_block_body FREE_AREA) i s = Ok (Some (b, k), set_word w' s) /\
      i <= k <= 11 /\ FL k = b :: L /\ (forall j, i <= j < k -> FL j = []) /\ b <> NULL /\
      Core w' (fupd k L FL) ((b, k) :: AL) /\ w' (b + 8) = b /\ Keep AL (word s) w' /\
      (forall G, Bits (word s) G -> Bits w' G)
  end.
Proof using Hlay.
  intros HC. revert i m. induction n as [|n IH]; intros i m Hi Hn Hm; cbn [afind];
    (destruct m as [|m]; [lia|]); cbn [iter].
  { split; [|lia]. erewrite bind_ok; [|unfold find_block_body;
      rewrite (proj2 (Z.leb_gt i MAX_ORDER)) by (unfold MAX_ORDER; lia); reflexivity]. done. }
  pose proof (pop_step s FL AL i HC ltac:(lia)) as Hp.
  destruct (FL i) as [|b L] eqn:HF.
  - specialize (IH (i + 1) m ltac:(lia) ltac:(lia) ltac:(lia)).
    assert (find_block_body FREE_AREA i s = Ok (inl (i + 1), s)) as Hb.
    { unfold find_block_body. rewrite (proj2 (Z.leb_le i MAX_ORDER)) by (unfold MAX_ORDER; lia).
      rewrite (bind_ok _ _ _ _ _ (area_list_ld s i (core_tables _ _ _ HC) ltac:(lia))).
      by rewrite (bind_ok _ _ _ _ _ Hp). }
    destruct (afind n FL (i + 1)) as [[b k]|].
    + destruct IH as (L & w' & Hrun & Hk & HL & Hlow & HR). exists L, w'.
      rewrite (bind_ok _ _ _ _ _ Hb). split; [exact Hrun|]. split; [lia|]. split; [done|]. split; [|exact HR].
      intros j Hj. destruct (decide (j = i)) as [->|]; [done|]. apply Hlow. lia.
    + destruct IH as [Hrun Hlow]. rewrite (bind_ok _ _ _ _ _ Hb). split; [exact Hrun|].
      intros k Hk. destruct (decide (k = i)) as [->|]; [done|]. apply Hlow. lia.
  - destruct Hp as (w' & Hp & Hb0 & HC' & HR). exists L, w'.
    assert (find_block_body FREE_AREA i s = Ok (inr (Some (b, i)), set_word w' s)) as Hb.
    { unfold find_block_body. rewrite (proj2 (Z.leb_le i MAX_ORDER)) by (unfold MAX_ORDER; lia).
      rewrite (bind_ok _ _ _ _ _ (area_list_ld s i (core_tables _ _ _ HC) ltac:(lia))).
      rewrite (bind_ok _ _ _ _ _ Hp). by rewrite (proj2 (Z.eqb_neq b NULL) Hb0). }
    rewrite (bind_ok _ _ _ _ _ Hb). split; [done|]. split_and!; try done; try lia. all: by apply HR.
Qed.

Context (kmalloc : Z -> M kstate Z).

(** One call, up to the write of [b2->addr]. *)
Lemma split_unfold n s FL b c AL tar :
  Core (word s) FL ((b, c) :: AL) -> 0 <= c <= 11 -> word s (b + 8) = b ->
  exists w1, buddy_split_rec kmalloc (S n) FREE_AREA b c tar s =
      (if c =? tar then flip_bit_map FREE_AREA b c ;; mret b
       else when (negb (c =? MAX_ORDER)) (flip_bit_map FREE_AREA b c) ;;
            fl ← ld (a_free_list (area_at FREE_AREA (c - 1)));
            free_list_push fl (b + bsz c / 2) ;;
            buddy_split_rec kmalloc n FREE_AREA b (c - 1) tar) (set_word w1 s) /\
    Core w1 FL ((b, c) :: AL) /\ Keep AL (word s) w1 /\
    (forall G, Bits (word s) G -> Bits w1 G) /\ w1 (b + 8) = b /\
    w1 (b + bsz c / 2 + 8) = b + bsz c / 2.
Proof using Hlay.
  intros HC Hc Hb. destruct (core_out _ _ _ _ _ HC) as (Hv & _ & _).
  pose proof (valid_range _ Hv) as Hr. simpl in Hr. pose proof (bsz_range c Hc) as Hbs.
  unfold HEAP, HEAP_END in *.
  destruct (write_step (word s) FL AL b c (b + bsz c / 2 + 8) (b + bsz c / 2) HC
    ltac:(unfold inside; simpl; lia_mod)) as (H1 & H2 & H3).
  exists (upd (b + bsz c / 2 + 8) (b + bsz c / 2) (word s)).
  split; [|split; [exact H1|split; [exact H2|split; [exact H3|split]]]].
  - cbn [buddy_split_rec]. rewrite user_ld by apply HC. cbn [Z.eqb negb].
    rewrite buddy_size_bsz by lia. replace (2 * bsz c / 4) with (bsz c / 2) by lia_mod.
    rewrite u32_id by lia_mod. unfold b_addr.
    rewrite (bind_ok _ _ _ (b + bsz c / 2) (set_word (upd (b + bsz c / 2 + 8) (b + bsz c / 2) (word s)) s)).
    + by destruct (c =? tar).
    + rewrite st_bind by (unfold waddr; lia_mod). done.
  - by rewrite upd_ne by lia_mod.
  - by rewrite upd_eq.
Qed.

(** The bit of a block that is split further; the largest blocks have none. *)
Lemma split_bit w s FL b c AL :
  Core w FL ((b, c) :: AL) -> 1 <= c <= 11 -> valid (b, c) -> w (b + 8) = b ->
  Bits w (fupd c (b :: FL c) FL) -> b ∉ FL c ->
  exists w3, when (negb (c =? MAX_ORDER)) (flip_bit_map FREE_AREA b c) (set_word w s) = Ok (tt, set_word w3 s) /\
    Core w3 FL ((b, c) :: AL) /\ Keep ((b, c) :: AL) w w3 /\ Bits w3 FL.
Proof using Hlay.
  intros HC Hc Hv Hb HB Hno. unfold MAX_ORDER. destruct (Z.eqb_spec c 11) as [->|Hne]; cbn [negb when].
  - exists w. split; [done|]. split; [done|]. split; [done|].
    eapply Bits_ext; [|apply HB]. intros k Hk. apply fupd_ne. lia.
  - destruct (flip_step (set_word w s) FL _ b c HC Hv ltac:(lia) Hb) as (w3 & Hf & HC3 & HK3 & ->).
    exists (flip_mem w b c). split; [done|]. split; [done|]. split; [done|]. by apply bits_leave; [|lia|..].
Qed.

Lemma split_run n s FL b c AL tar :
  Core (word s) FL ((b, c) :: AL) -> c = tar + Z.of_nat n -> 0 <= tar <= 10 -> c <= 11 ->
  word s (b + 8) = b -> Bits (word s) (fupd c (b :: FL c) FL) -> Merged FL ->
  exists w', buddy_split_rec kmalloc (S n) FREE_AREA b c tar s = Ok (b, set_word w' s) /\
    Buddy w' (asplit n FL b c) ((b, tar) :: AL) /\ Keep AL (word s) w'.
Proof using Hlay.
  revert s FL c. induction n as [|n IH]; intros s FL c HC Hc Ht Hc11 Hb HB HM;
    destruct (core_out _ _ _ _ _ HC) as (Hv & Hno & _).
  - assert (c = tar) as -> by lia.
    destruct (split_unfold 0 s FL b tar AL tar HC ltac:(lia) Hb) as (w2 & Hrun2 & HC2 & HK2 & HB2 & Ha3 & _).
    rewrite Hrun2, Z.eqb_refl.
    destruct (flip_step (set_word w2 s) FL _ b tar HC2 Hv ltac:(lia) Ha3) as (w3 & Hf & HC3 & HK3 & ->).
    exists (flip_mem w2 b tar). rewrite (bind_ok _ _ _ _ _ Hf). split; [done|]. split.
    + split; [exact HC3| |exact HM]. apply bits_leave; [done|lia| |by apply HB2].
      destruct (Hno tar); [done|lia].
    + eapply Keep_trans; [exact HK2|by eapply Keep_cons].
  - assert (bsz c / 2 = bsz (c - 1)) as Hhalf by (rewrite (bsz_half c) by lia; lia_mod).
    destruct (split_unfold (S n) s FL b c AL tar HC ltac:(lia) Hb) as (w2 & Hrun2 & HC2 & HK2 & HB2 & Ha3 & Ha4).
    rewrite Hrun2, (proj2 (Z.eqb_neq c tar)) by lia. rewrite Hhalf in *.
    (* the bit of [b] at order [c] *)
    destruct (split_bit w2 s FL b c AL HC2 ltac:(lia) Hv Ha3 (HB2 _ HB) ltac:(destruct (Hno c); [done|lia]))
      as (w3 & Hf & HC3 & HK3 & HB3).
    rewrite (bind_ok _ _ _ _ _ Hf). rewrite (bind_ok _ _ _ _ _ (area_list_ld _ (c - 1)
      (core_tables _ _ _ HC3 : Tables (word (set_word w3 s))) ltac:(lia))).
    (* the right half *)
    set (b2 := b + bsz (c - 1)) in *.
    pose proof (core_halves w3 FL AL b c HC3 ltac:(lia)) as HC4. fold b2 in HC4.
    assert (forall x, inside x (b, c) -> w3 x = w2 x) as Hin
      by (intros x Hx; apply HK3; right; exists (b, c); split; [set_solver|done]).
    pose proof (bsz_range (c - 1) ltac:(lia)) as Hbs. pose proof (bsz_half c ltac:(lia)) as Hbc.
    assert (w3 (b2 + 8) = b2) as Hb2.
    { rewrite Hin; [done|]. unfold inside, b2. simpl. lia. }
    destruct (push_step (set_word w3 s) FL ((b, c - 1) :: AL) b2 (c - 1) HC4 ltac:(lia) Hb2)
      as (w4 & Hp & HC5 & HK4 & HB4).
    rewrite (bind_ok _ _ _ _ _ Hp). cbn [word set_word] in HK4, HB4.
    pose proof (left_half b c Hv ltac:(lia)) as Hbud. fold b2 in Hbud.
    destruct (core_out _ _ _ _ _ HC4) as (Hv2 & Hno2 & _).
    assert (valid (b, c - 1)) as Hv1 by (eapply core_valid_out; [exact HC4|set_solver]).
    assert (b ∉ FL (c - 1)) as Hn1 by (destruct (Hno (c - 1)); [done|lia]).
    assert (b2 ∉ FL (c - 1)) as Hn2 by (destruct (Hno2 (c - 1)); [done|lia]).
    destruct (bud_facts b (c - 1) Hv1 ltac:(lia)) as (_ & Hbb & _ & Hbn). rewrite Hbud in Hbb.
    destruct (IH (set_word w4 s) (fupd (c - 1) (FL (c - 1) ++ [b2]) FL) (c - 1)) as (w5 & Hr5 & HB5 & HK5).
    + exact HC5.
    + lia.
    + lia.
    + lia.
    + cbn [word set_word]. rewrite HK4, Hin; [done| |].
      * unfold inside. simpl. lia.
      * right. exists (b, c - 1). split; [set_solver|]. unfold inside. simpl. lia.
    + cbn [word set_word]. rewrite fupd_eq. eapply Bits_ext with (FL := fupd (c - 1) (b :: FL (c - 1) ++ [b2]) FL).
      { intros k _. unfold fupd. by destruct (k =? c - 1). }
      apply HB4. apply (bits_pair w3 FL b (c - 1)); [done|lia|done|by rewrite Hbud| |done].
      rewrite Hbud. set_solver.
    + apply merged_push; [done|lia|by rewrite Hbb|done].
    + exists w5. split; [exact Hr5|]. split; [exact HB5|].
      eapply Keep_trans; [exact HK2|]. eapply Keep_trans; [by eapply Keep_cons|].
      eapply Keep_trans; [by eapply Keep_cons|exact HK5].
Qed.

Lemma get_page_run s FL AL order :
  Buddy (word s) FL AL -> 0 <= order <= 10 ->
  match alloc_spec FL order with
  | None => get_page kmalloc order s = Ok (NULL, s) /\ forall k, order <= k <= 11 -> FL k = []
  | Some (p, FL') => exists w', get_page kmalloc order s = Ok (p, set_word w' s) /\ p <> NULL /\
      Buddy w' FL' ((p, order) :: AL) /\ Keep AL (word s) w'
  end.
Proof using Hlay.
  intros [HC HB HM] Ho. unfold alloc_spec, get_page.
  rewrite (proj2 (Z.leb_gt MAX_ORDER order)), (proj2 (Z.ltb_ge order 0)) by (unfold MAX_ORDER; lia).
  cbn [orb]. unfold find_block.
  pose proof (find_run s FL AL (Z.to_nat (MAX_ORDER + 1 - order)) order
    (S (Z.to_nat (MAX_ORDER + 1 - order))) HC ltac:(lia) ltac:(unfold MAX_ORDER; lia) ltac:(lia)) as Hf.
  destruct (afind _ FL order) as [[b i]|].
  - destruct Hf as (L & w1 & Hrun & Hi & HL & _ & Hb0 & HC1 & Ha1 & HK1 & HB1).
    rewrite (bind_ok _ _ _ _ _ Hrun). cbn beta iota. rewrite HL. cbn [tl]. unfold buddy_split.
    destruct (split_run (Z.to_nat (i - order)) (set_word w1 s) (fupd i L FL) b i AL order) as (w2 & Hr2 & HB2 & HK2).
    + exact HC1.
    + lia.
    + done.
    + lia.
    + exact Ha1.
    + rewrite fupd_eq. apply HB1. eapply Bits_ext; [|exact HB]. intros k _. unfold fupd.
      by destruct (Z.eqb_spec k i) as [->|].
    + intros a k Ha Hk. unfold fupd. destruct (Z.eqb_spec k i) as [->|]; [|by apply HM].
      intros Hin Hin2. apply (HM a i Ha Hk); rewrite HL; set_solver.
    + exists w2. split; [exact Hr2|]. split; [done|]. split; [exact HB2|]. by eapply Keep_trans.
  - destruct Hf as [Hrun Hlow]. rewrite (bind_ok _ _ _ _ _ Hrun). by split.
Qed.
End alloc.
