(* ===== verification/KmallocFree.v ===== *)
(** * Freeing pages

    The simulation of [free_page] by [free_spec]. *)
From S2P Require Import Prelude Kmalloc KmallocRing KmallocBuddy KmallocBits KmallocPages KmallocAlloc.

Lemma list_fuel_Z : Z.of_nat list_fuel = 8388608.
Proof. apply Z2Nat.id. lia. Qed.

(** The free list of an order has at most as many blocks as the heap. *)
Lemma free_list_length k (L : list Z) :
  NoDup L -> (forall a, a ∈ L -> valid (a, k)) -> Z.of_nat (length L) <= 14336.
Proof.
  intros Hd Hv. set (f := λ a, (a - HEAP) / bsz k).
  assert (NoDup (map f L)) as Hd2.
  { apply NoDup_fmap_2_strong; [|done]. intros a b Ha Hb He. unfold f in He.
    destruct (block_q a k (Hv a Ha)) as (q & _ & -> & Hq & _), (block_q b k (Hv b Hb)) as (r & _ & -> & Hr & _).
    congruence. }
  assert (length (map f L) <= length (seqZ 0 14336))%nat as Hl.
  { apply NoDup_incl_length; [by apply NoDup_ListNoDup|]. intros q Hq%list_elem_of_In.
    apply list_elem_of_In, elem_of_seqZ. apply list_elem_of_fmap in Hq as (a & -> & Ha).
    pose proof (Hv a Ha) as Hva. destruct (block_q a k Hva) as (r & Hr & _ & Hq & _). unfold f. rewrite Hq.
    destruct Hva as [Hk _]. simpl in Hk. clear -Hr Hk. unfold MAX_ORDER in Hk. orders k; lia. }
  rewrite length_map, length_seqZ in Hl. lia.
Qed.

Lemma filter_ne (x : Z) L1 L2 : NoDup (L1 ++ x :: L2) -> filter (.≠ x) (L1 ++ x :: L2) = L1 ++ L2.
Proof.
  intros Hd. assert (forall L : list Z, x ∉ L -> filter (.≠ x) L = L) as Hf.
  { induction L as [|y L IH]; intros Hy; [done|]. rewrite filter_cons_True, IH by set_solver. done. }
  apply NoDup_app in Hd as (_ & H1 & H2). apply NoDup_cons in H2 as [H2 _].
  rewrite filter_app, filter_cons_False by auto. rewrite !Hf; [done|done|]. intros Hx. apply (H1 x Hx). set_solver.
Qed.

Section free.
Context {lay : Layout} {Hlay : @LayoutOk lay}.
Implicit Types (w : Z -> Z) (FL : Z -> list Z) (AL : list (Z * Z)).

(** ** The bits of a block that comes or goes *)
(** No merge: the block goes to the end of its list. *)
Lemma bits_enter w FL b k : valid (b, k) -> k <= 10 -> b ∉ FL k ->
  Bits w FL -> Bits (flip_mem w b k) (fupd k (FL k ++ [b]) FL).
Proof.
  intros Hv Hk Hb. apply Bits_flip; [done|done|]. intros a j Ha Hj.
  destruct (decide (j = k)) as [->|Hne].
  - rewrite fupd_eq. destruct (decide (a = b)) as [->|Hab].
    + rewrite (bool_decide_eq_false_2 (b ∈ FL k)), !bool_decide_eq_true_2 by (done || set_solver). done.
    + rewrite (bool_decide_eq_false_2 ((b, k) = _)), xorb_false_r by congruence.
      apply bool_decide_ext. set_solver.
  - rewrite fupd_ne, (bool_decide_eq_false_2 ((b, k) = _)), xorb_false_r by congruence. done.
Qed.
(** A merge: the buddy leaves its list. *)
Lemma bits_take w FL b k : valid (b, k) -> k <= 10 -> bud b k ∈ FL k ->
  Bits w FL -> Bits (flip_mem w b k) (fupd k (filter (.≠ bud b k) (FL k)) FL).
Proof.
  intros Hv Hk Hin. destruct (bud_facts b k Hv Hk) as (Hbv & _ & Hbp & _).
  assert (flip_mem w b k = flip_mem w (bud b k) k) as -> by (unfold flip_mem; by rewrite Hbp).
  apply Bits_flip; [done|done|]. intros a j Ha Hj. destruct (decide (j = k)) as [->|Hne].
  - rewrite fupd_eq. destruct (decide (a = bud b k)) as [->|Hab].
    + rewrite (bool_decide_eq_false_2 (_ ∈ filter _ _)), !bool_decide_eq_true_2; [done..|].
      rewrite list_elem_of_filter. tauto.
    + rewrite (bool_decide_eq_false_2 ((_, k) = _)), xorb_false_r by congruence.
      apply bool_decide_ext. rewrite list_elem_of_filter. tauto.
  - rewrite fupd_ne, (bool_decide_eq_false_2 ((_, k) = _)), xorb_false_r by congruence. done.
Qed.

Lemma free_not_head w FL AL k t : Core w FL AL -> 0 <= k <= 11 -> t ∈ FL k -> t <> fl_head k.
Proof using Hlay.
  intros HC Hk Ht ->. pose proof (core_seps _ _ _ k HC Hk) as [Hs _]. rewrite Forall_forall in Hs.
  specialize (Hs _ Ht). unfold sep in Hs. lia.
Qed.
(** The stores that take the node between [l] and [nx] out. *)
Definition unlink_at w (l nx : Z) : Z -> Z := upd (nx + 4) l (upd l nx w).
Lemma free_unlink w FL AL k L1 x L2 : Core w FL AL -> 0 <= k <= 11 -> FL k = L1 ++ x :: L2 ->
  unlinked 0 4 w (unlink_at w (last_node (fl_head k) L1) (hd (fl_head k) L2)) (last_node (fl_head k) L1) (hd (fl_head k) L2).
Proof using Hlay.
  intros HC Hk HF. pose proof (core_seps _ _ _ k HC Hk) as Hs. rewrite HF in Hs.
  pose proof (last_node_in (fl_head k) L1) as Hl. pose proof (hd_in (fl_head k) L2) as Hh.
  pose proof (unlink_mem 0 4 12 ltac:(lia) w _ (last_node (fl_head k) L1) (hd (fl_head k) L2) Hs) as H.
  rewrite Z.add_0_r in H. apply H; set_solver.
Qed.

Context (kfree : Z -> M kstate unit).

(** The search stops at the buddy and takes it out. *)
(** Going past a node that is not the one looked for. *)
Lemma skip_run s FL AL k b left M1 y M2 x L2 n :
  Core (word s) FL AL -> 0 <= k <= 11 -> FL k = M1 ++ y :: M2 ++ x :: L2 -> y <> x ->
  iter (S n) (remove_body kfree FREE_AREA (fl_head k) b x left) y s =
  iter n (remove_body kfree FREE_AREA (fl_head k) b x left) (hd x M2) s.
Proof using Hlay.
  intros HC Hk HF Hyx. pose proof (core_ring _ _ _ HC k Hk) as Hr. rewrite HF in Hr.
  pose proof (core_bnodes _ _ _ k HC Hk) as Hb. rewrite HF, Forall_forall in Hb.
  cbn [iter]. rewrite (bind_ok s _ _ (inl (hd x M2)) s); [done|].
  unfold remove_body, b_addr, b_next. rewrite (proj2 (Z.eqb_neq y _)) by (eapply free_not_head; [exact HC|exact Hk|rewrite HF; set_solver]).
  rewrite ld_bind by (apply bnode_addr, Hb; set_solver).
  rewrite (core_addr _ _ _ HC k y Hk) by (rewrite HF; set_solver). rewrite (proj2 (Z.eqb_neq y x)) by done.
  rewrite ld_bind by (apply bnode_next, Hb; set_solver).
  destruct (ring_at 0 4 _ _ _ _ _ Hr) as [_ Hnx]. rewrite Z.add_0_r in Hnx. rewrite Hnx. by destruct M2.
Qed.
(** ... and finding it. *)
Lemma found_run s FL AL k b left L1 x L2 n :
  Core (word s) FL AL -> 0 <= k <= 11 -> FL k = L1 ++ x :: L2 ->
  iter (S n) (remove_body kfree FREE_AREA (fl_head k) b x left) x s =
    Ok (if left then b else x, set_word (unlink_at (word s) (last_node (fl_head k) L1) (hd (fl_head k) L2)) s).
Proof using Hlay.
  intros HC Hk HF. pose proof (core_ring _ _ _ HC k Hk) as Hr. rewrite HF in Hr.
  pose proof (core_seps _ _ _ k HC Hk) as Hs. rewrite HF in Hs.
  pose proof (core_bnodes _ _ _ k HC Hk) as Hb. rewrite HF, Forall_forall in Hb.
  pose proof (free_unlink _ _ _ _ _ _ _ HC Hk HF) as Hun. cbn [iter].
  destruct (ring_at 0 4 _ _ L1 x L2 Hr) as [Hxl Hxn]. rewrite Z.add_0_r in Hxn.
  pose proof (last_node_in (fl_head k) L1) as Hl. pose proof (hd_in (fl_head k) L2) as Hh.
  set (l := last_node (fl_head k) L1) in *. set (nx := hd (fl_head k) L2) in *.
  assert (bnode l /\ bnode nx /\ bnode x) as (Hbl & Hbn & Hbx) by (split_and!; apply Hb; set_solver).
  assert (sep 12 l x) as Hlx.
  { change (pairwise (sep 12) ((fl_head k :: L1) ++ x :: L2)) in Hs.
    apply pairwise_app in Hs as (_ & _ & Hs). apply Hs; set_solver. }
  rewrite (bind_ok s _ _ (inr (if left then b else x)) (set_word (unlink_at (word s) l nx) s)); [done|].
  unfold remove_body, b_addr, b_next, b_last.
  rewrite (proj2 (Z.eqb_neq x _)) by (eapply free_not_head; [exact HC|exact Hk|rewrite HF; set_solver]).
  rewrite ld_bind by (by apply bnode_addr). rewrite (core_addr _ _ _ HC k x Hk), Z.eqb_refl by (rewrite HF; set_solver).
  rewrite ld_bind by (by apply bnode_last). rewrite Hxl.
  rewrite ld_bind by (by apply bnode_next). rewrite Hxn.
  rewrite st_bind by (by first [apply bnode_next|apply bnode_range]).
  rewrite ld_bind by (by apply bnode_next). cbn [word set_word].
  rewrite ld_bind by (by apply bnode_last). cbn [word set_word].
  rewrite !upd_ne by (unfold sep in Hlx; lia). rewrite Hxn, Hxl.
  rewrite st_bind by (by first [apply bnode_last|apply bnode_range]).
  rewrite user_ld by exact (core_tables _ _ _ (proj1 (unlink_step (word s) _ FL AL k L1 x L2 HC Hk HF Hun))). done.
Qed.

Lemma remove_run s FL AL k b left L1 x L2 n :
  Core (word s) FL AL -> 0 <= k <= 11 -> FL k = L1 ++ x :: L2 -> x ∉ L1 -> (length L1 < n)%nat ->
  iter n (remove_body kfree FREE_AREA (fl_head k) b x left) (hd x L1) s =
    Ok (if left then b else x, set_word (unlink_at (word s) (last_node (fl_head k) L1) (hd (fl_head k) L2)) s).
Proof using Hlay.
  intros HC Hk HF Hx Hn.
  assert (forall M2 M1 m, L1 = M1 ++ M2 -> (length M2 < m)%nat ->
    iter m (remove_body kfree FREE_AREA (fl_head k) b x left) (hd x M2) s =
    iter (m - length M2) (remove_body kfree FREE_AREA (fl_head k) b x left) x s) as Hskip.
  { induction M2 as [|y M2 IH]; intros M1 m HL Hm; simpl in *; [by rewrite Nat.sub_0_r|].
    destruct m as [|m]; [lia|].
    rewrite (skip_run s FL AL k b left M1 y M2 x L2) by (rewrite ?HF, ?HL, <-?app_assoc; done || (intros ->; set_solver)).
    apply (IH (M1 ++ [y])); [by rewrite <-app_assoc|lia]. }
  rewrite (Hskip L1 [] n eq_refl Hn). destruct (n - length L1)%nat as [|m] eqn:Hm; [lia|].
  by apply (found_run s FL AL).
Qed.

(** *** Searching for the buddy *)
Lemma remove_from_free_run s FL AL b k :
  Core (word s) FL ((b, k) :: AL) -> k <= 10 -> word s (b + 8) = b -> bud b k ∈ FL k ->
  exists w', remove_from_free kfree FREE_AREA (fl_head k) b k s =
      Ok (if is_left b k then b else bud b k, set_word w' s) /\
    Core w' (fupd k (filter (.≠ bud b k) (FL k)) FL)
      ((if is_left b k then b else bud b k, k + 1) :: AL) /\
    w' ((if is_left b k then b else bud b k) + 8) = (if is_left b k then b else bud b k) /\
    Keep AL (word s) w' /\ (forall G, Bits (word s) G -> Bits w' G).
Proof using Hlay.
  intros HC Hk Hb Hin. destruct (core_out _ _ _ _ _ HC) as (Hv & _ & _).
  pose proof Hv as [Hk' _]. cbn [fst snd] in Hk'. unfold MAX_ORDER in Hk'.
  pose proof (valid_range _ Hv) as Hr. cbn [fst snd] in Hr. unfold HEAP, HEAP_END in Hr.
  destruct (bud_facts b k Hv Hk) as (Hbv & Hbb & _ & Hbn).
  pose proof (valid_range _ Hbv) as Hr2. cbn [fst snd] in Hr2. unfold HEAP, HEAP_END in Hr2.
  assert (NoDup (FL k)) as Hd.
  { eapply pairwise_NoDup; [|eapply (core_seps _ _ _ k HC ltac:(lia))]. unfold sep. lia. }
  destruct (list_elem_of_split _ _ Hin) as (L1 & L2 & HF). set (x := bud b k) in *.
  rewrite HF in Hd. rewrite HF, (filter_ne x L1 L2 Hd).
  assert (x ∉ L1) as Hx by (apply NoDup_app in Hd as (_ & Hd & _); intros Hx; apply (Hd x Hx); set_solver).
  assert (length L1 < list_fuel)%nat as Hfuel.
  { apply Nat2Z.inj_lt. rewrite list_fuel_Z. rewrite <-HF in Hd.
    assert (Z.of_nat (length (FL k)) <= 14336) as Hl.
    { apply (free_list_length k _ Hd). intros a Ha. eapply core_valid_free; [exact HC|lia|done]. }
    rewrite HF, length_app in Hl. lia. }
  assert (0 <= k <= 11) as Hk11 by lia.
  destruct (unlink_step (word s) _ FL _ k L1 x L2 HC Hk11 HF (free_unlink _ _ _ _ _ _ _ HC Hk11 HF))
    as (HC2 & Ha2 & HK & HB).
  set (w2 := unlink_at _ _ _) in *. exists w2. split; [|split; [|split; [|split]]].
  - unfold remove_from_free. rewrite (bind_ok _ _ _ _ _ (is_left_run s b k (core_tables _ _ _ HC) Hv Hk)).
    unfold b_addr, b_next. rewrite ld_bind by (apply bnode_addr, (valid_bnode _ Hv)). rewrite Hb.
    rewrite buddy_size_bsz by lia. rewrite (Z.mul_comm 2), Z.div_mul by lia.
    rewrite ld_bind by (apply bnode_next, head_bnode; lia).
    assert (u32 (if is_left b k then b + bsz k else b - bsz k) = x) as ->.
    { unfold x, bud in *. destruct (is_left b k); apply u32_id; lia. }
    pose proof (core_ring _ _ _ HC k ltac:(lia)) as Hring. rewrite HF in Hring.
    pose proof (ring_first 0 4 _ _ _ Hring) as Hf. rewrite Z.add_0_r in Hf.
    rewrite Hf. replace (hd (fl_head k) (L1 ++ x :: L2)) with (hd x L1) by (by destruct L1).
    by apply (remove_run s FL ((b, k) :: AL) k b (is_left b k) L1 x L2).
  - apply core_merge; [|lia]. destruct HC2 as [H1 H2 H3 H4]. split; [done..|].
    eapply Tiles_perm; [|exact H4]. f_equiv. apply perm_swap.
  - destruct (is_left b k); [|done]. rewrite HK; [done|]. right. exists (b, k). split; [set_solver|].
    unfold inside. cbn [fst snd]. lia.
  - by eapply Keep_cons.
  - exact HB.
Qed.

(** ** [_free_page] *)
Lemma free_rec_run n s FL AL b k :
  Core (word s) FL ((b, k) :: AL) -> Z.of_nat n + k = 11 -> word s (b + 8) = b ->
  Bits (word s) FL -> Merged FL ->
  exists w', _free_page_rec kfree (S n) FREE_AREA b k s = Ok (tt, set_word w' s) /\
    Buddy w' (afree n FL b k) AL /\ Keep AL (word s) w'.
Proof using Hlay.
  revert s FL b k. induction n as [|n IH]; intros s FL b k HC Hn Hb HB HM;
    destruct (core_out _ _ _ _ _ HC) as (Hv & Hno & _); pose proof Hv as [Hk _]; cbn [fst snd] in Hk;
    unfold MAX_ORDER in Hk; cbn [_free_page_rec afree].
  - assert (k = 11) as -> by lia. rewrite Z.eqb_refl.
    rewrite (bind_ok _ _ _ _ _ (area_list_ld s 11 (core_tables _ _ _ HC) ltac:(lia))).
    destruct (push_step s FL AL b 11 HC ltac:(lia) Hb) as (w' & Hp & HC' & HK & HB').
    exists w'. split; [exact Hp|]. split; [|exact HK]. split; [exact HC'| |].
    + eapply Bits_ext; [|apply HB', HB]. intros k Hk2. by rewrite fupd_ne by lia.
    + intros a k Ha Hk2. rewrite fupd_ne by lia. by apply HM.
  - rewrite (proj2 (Z.eqb_neq k MAX_ORDER)) by (unfold MAX_ORDER; lia).
    assert (b ∉ FL k) as Hnb by (destruct (Hno k); [done|lia]).
    assert (is_split FREE_AREA b k s = Ok (bool_decide (bud b k ∈ FL k), s)) as Hsp.
    { rewrite is_split_run by (apply HC || done || lia). rewrite (HB b k Hv) by lia.
      by rewrite (bool_decide_eq_false_2 (b ∈ FL k)), xorb_false_l. }
    rewrite (bind_ok _ _ _ _ _ Hsp). destruct (bool_decide (bud b k ∈ FL k)) eqn:Hd; cbn [negb].
    + apply bool_decide_eq_true in Hd.
      destruct (flip_step s FL _ b k HC Hv ltac:(lia) Hb) as (w1 & Hf & HC1 & HK1 & ->).
      rewrite (bind_ok _ _ _ _ _ Hf).
      rewrite (bind_ok _ _ _ _ _ (area_list_ld _ k (core_tables _ _ _ HC1 :
        Tables (word (set_word _ s))) ltac:(lia))).
      assert (flip_mem (word s) b k (b + 8) = b) as Hb1.
      { rewrite HK1; [done|]. right. exists (b, k). split; [set_solver|].
        apply valid_range in Hv. unfold inside. cbn [fst snd] in *. lia. }
      destruct (remove_from_free_run (set_word (flip_mem (word s) b k) s) FL AL b k HC1 ltac:(lia) Hb1 Hd)
        as (w2 & Hr & HC2 & Ha2 & HK2 & HB2).
      rewrite (bind_ok _ _ _ _ _ Hr).
      destruct (IH (set_word w2 s) (fupd k (filter (.≠ bud b k) (FL k)) FL)
        (if is_left b k then b else bud b k) (k + 1)) as (w3 & Hr3 & HB3 & HK3).
      * exact HC2.
      * lia.
      * exact Ha2.
      * apply HB2, bits_take; [done|lia|done|done].
      * intros a j Ha Hj. unfold fupd. destruct (Z.eqb_spec j k) as [->|]; [|by apply HM].
        rewrite !list_elem_of_filter. intros [_ Hin] [_ Hin2]. by apply (HM a k Ha Hj).
      * exists w3. split; [exact Hr3|]. split; [exact HB3|].
        eapply Keep_trans; [by eapply Keep_cons|]. eapply Keep_trans; [exact HK2|exact HK3].
    + apply bool_decide_eq_false in Hd.
      rewrite (bind_ok _ _ _ _ _ (area_list_ld s k (core_tables _ _ _ HC) ltac:(lia))).
      destruct (push_step s FL AL b k HC ltac:(lia) Hb) as (w1 & Hp & HC1 & HK1 & HB1).
      rewrite (bind_ok _ _ _ _ _ Hp).
      assert (w1 (b + 8) = b) as Hb1.
      { eapply core_addr; [exact HC1|exact Hk|]. rewrite fupd_eq. set_solver. }
      destruct (flip_step (set_word w1 s) _ _ b k HC1 Hv ltac:(lia) Hb1) as (w2 & Hf & HC2 & HK2 & ->).
      exists (flip_mem w1 b k). split; [exact Hf|]. split; [|by eapply Keep_trans].
      split; [exact HC2| |].
      * apply bits_enter; [done|lia|done|]. by apply HB1.
      * apply merged_push; [done|lia|done|done].
Qed.

Lemma free_page_run s FL AL p order :
  Buddy (word s) FL ((p, order) :: AL) ->
  exists w', free_page kfree p order s = Ok (tt, set_word w' s) /\
    Buddy w' (free_spec FL p order) AL /\ Keep AL (word s) w'.
Proof using Hlay.
  intros [HC HB HM]. destruct (core_out _ _ _ _ _ HC) as (Hv & _ & _). pose proof (valid_range _ Hv) as Hr.
  pose proof Hv as [Hk _]. cbn [fst snd] in *. unfold free_page, b_addr. unfold HEAP, HEAP_END, MAX_ORDER in *.
  rewrite st_bind; [|apply bnode_addr, (valid_bnode _ Hv)|lia].
  destruct (write_step (word s) FL AL p order (p + 8) p HC) as (HC1 & HK1 & HB1).
  { unfold inside. cbn [fst snd]. lia. }
  destruct (free_rec_run (Z.to_nat (11 - order)) (set_word (upd (p + 8) p (word s)) s) FL AL p order)
    as (w2 & Hr2 & HB2 & HK2).
  - exact HC1.
  - lia.
  - cbn [word set_word]. by rewrite upd_eq.
  - by apply HB1.
  - exact HM.
  - exists w2. split; [exact Hr2|]. split; [exact HB2|]. by eapply Keep_trans.
Qed.
End free.
