(* ===== verification/KmallocInit.v ===== *)
(** * The allocators' initial state

    [kmalloc_init] builds the tables, gives the heap to the largest order and
    takes the first page for the slabs. *)
From S2P Require Import Prelude Kmalloc KmallocRing KmallocBuddy KmallocBits KmallocPages KmallocAlloc.

Section init.
Context {lay : Layout} {Hlay : @LayoutOk lay}.
Implicit Types (w : Z -> Z).

(** Static words, without overflow. *)
Lemma static_waddr a : 4194304 <= a < HEAP -> a mod 4 = 0 -> waddr a.
Proof. unfold waddr, HEAP. lia. Qed.
Ltac stat := pose proof layout_ranges; apply static_waddr; unfold HEAP in *; lia_mod.
Ltac srange := pose proof layout_ranges; unfold HEAP in *; lia.

Lemma wp_st s p v (Q : unit -> kstate -> Prop) :
  waddr p -> 0 <= v < 4294967296 -> Q tt (set_word (upd p v (word s)) s) -> wp s (st p v) Q.
Proof. intros Hp Hv HQ. eapply wp_run_ok; [by apply st_ok|done]. Qed.

(** *** [bminit] *)
(** Writes to the static tables only. *)
Definition bm_only w w' : Prop :=
  forall x, w' x = w x \/ BIT_MAP <= x < BIT_MAP + 1840 \/
    exists k, 0 <= k <= 10 /\ (x = FREE_AREA + 20 * k + 4 \/ x = FREE_AREA + 20 * k + 8).

Lemma zero_run s :
  exists w', for_loop 0 458 (λ i, st (BIT_MAP + 4 * i) 0) s = Ok (tt, set_word w' s) /\
    (forall i, 0 <= i < 458 -> w' (BIT_MAP + 4 * i) = 0) /\
    (forall x, ~ (BIT_MAP <= x < BIT_MAP + 1840) -> w' x = word s x).
Proof using Hlay.
  set (I := λ (n : Z) (s1 : kstate), exists w', s1 = set_word w' s /\
    (forall i, 0 <= i < n -> w' (BIT_MAP + 4 * i) = 0) /\
    (forall x, ~ (BIT_MAP <= x < BIT_MAP + 1840) -> w' x = word s x)).
  assert (wp s (for_loop 0 458 (λ i, st (BIT_MAP + 4 * i) 0)) (λ _ s1, I 458 s1)) as H.
  { apply (wp_for I); [|exists (word s); split; [by destruct s|split; [lia|done]]|done].
    intros i s1 Hi (w' & -> & Hz & Ho). apply wp_st; [stat|lia|]. cbn [word set_word].
    exists (upd (BIT_MAP + 4 * i) 0 w'). split; [done|]. split.
    - intros j Hj. destruct (decide (j = i)) as [->|]; [by rewrite upd_eq|]. rewrite upd_ne by lia. apply Hz. lia.
    - intros x Hx. rewrite upd_ne by lia. by apply Ho. }
  apply wp_iff in H as ([] & s1 & Hr & w' & -> & Hz & Ho). by exists w'.
Qed.

Lemma bmsize_boff k : 0 <= k <= 10 ->
  boff k + (Z.shiftr MAX_BMSIZE k + (if 4 <? k then 1 else 0)) = boff (k + 1) /\
  0 <= Z.shiftr MAX_BMSIZE k + (if 4 <? k then 1 else 0) <= 224.
Proof. intros Hk. orders k; try lia; split; vm_compute; try done; by split. Qed.
Lemma boff_range k : 0 <= k <= 11 -> 0 <= boff k <= 451.
Proof. intros Hk. orders k; boffs; lia. Qed.

Lemma tables_run s : 
  exists w', iter 12 bminit_body (0, 0) s = Ok (tt, set_word w' s) /\
    (forall k, 0 <= k <= 10 -> w' (FREE_AREA + 20 * k + 4) = BIT_MAP + 4 * boff k) /\
    (forall x, w' x = word s x \/ exists k, 0 <= k <= 10 /\
       (x = FREE_AREA + 20 * k + 4 \/ x = FREE_AREA + 20 * k + 8)).
Proof using Hlay.
  set (I := λ (n : nat) (x : Z * Z) (s1 : kstate), exists w' i, x = (i, boff i) /\ Z.of_nat n = 11 - i /\
    0 <= i <= 11 /\ s1 = set_word w' s /\
    (forall k, 0 <= k < i -> w' (FREE_AREA + 20 * k + 4) = BIT_MAP + 4 * boff k) /\
    (forall x, w' x = word s x \/ exists k, 0 <= k <= 10 /\
       (x = FREE_AREA + 20 * k + 4 \/ x = FREE_AREA + 20 * k + 8))).
  assert (wp s (iter 12 bminit_body (0, 0)) (λ _ s1, exists w', s1 = set_word w' s /\
    (forall k, 0 <= k <= 10 -> w' (FREE_AREA + 20 * k + 4) = BIT_MAP + 4 * boff k) /\
    (forall x, w' x = word s x \/ exists k, 0 <= k <= 10 /\
       (x = FREE_AREA + 20 * k + 4 \/ x = FREE_AREA + 20 * k + 8)))) as H.
  { apply (wp_iter I _ _ 11); [| |lia].
    2:{ exists (word s), 0. split_and!; [done|lia|lia|lia|by destruct s|lia|by left]. }
    intros n x s1 (w' & i & -> & Hn & Hi & -> & Ht & Ho). unfold bminit_body, MAX_ORDER.
    destruct (Z.ltb_spec i 11).
    - pose proof (bmsize_boff i ltac:(lia)) as [Hb Hbr]. pose proof (boff_range i ltac:(lia)) as Hbo.
      unfold a_bmsize, a_bit_map, area_at.
      apply wp_bind, wp_st; [stat|lia|]. apply wp_bind, wp_st; [stat|srange|].
      apply wp_bind. eapply wp_run_ok; [apply ld_ok; stat|]. cbn [word set_word]. apply wp_ret.
      rewrite upd_ne, upd_eq, Hb by lia. exists (n - 1)%nat. split; [lia|].
      eexists _, (i + 1). split_and!; [done|lia|lia|lia|done| |].
      + intros k Hk. destruct (decide (k = i)) as [->|]; [by rewrite upd_eq|].
        rewrite !upd_ne by lia. apply Ht. lia.
      + intros x. unfold upd. destruct (Z.eqb_spec x (FREE_AREA + 20 * i + 4)) as [->|];
          [right; exists i; split; [lia|by left]|].
        destruct (Z.eqb_spec x (FREE_AREA + 20 * i + 8)) as [->|]; [right; exists i; split; [lia|by right]|].
        apply Ho.
    - apply wp_ret. exists w'. split; [done|]. split; [|exact Ho]. intros k Hk. apply Ht. lia. }
  apply wp_iff in H as ([] & s1 & Hr & w' & -> & Hz & Ho). by exists w'.
Qed.

Lemma bminit_run s :
  exists w', bminit s = Ok (tt, set_word w' s) /\
    (forall k, 0 <= k <= 10 -> w' (FREE_AREA + 20 * k + 4) = BIT_MAP + 4 * boff k) /\
    (forall i, 0 <= i < 458 -> w' (BIT_MAP + 4 * i) = 0) /\ bm_only (word s) w'.
Proof using Hlay.
  destruct (zero_run s) as (w1 & H1 & Hz & Ho). destruct (tables_run (set_word w1 s)) as (w2 & H2 & Ht & Ho2).
  pose proof layout_ranges as HL. cbn [word set_word] in Ho2.
  exists w2. split; [|split; [exact Ht|split]].
  - unfold bminit. change (Z.to_nat (MAX_BMSIZE * 2 + 10)) with 458%nat.
    rewrite (bind_ok _ _ _ _ _ H1). exact H2.
  - intros i Hi. destruct (Ho2 (BIT_MAP + 4 * i)) as [->|(k & Hk & Hx)]; [by apply Hz|lia].
  - intros x. destruct (Ho2 x) as [->|Hx]; [|by right; right].
    destruct (decide (BIT_MAP <= x < BIT_MAP + 1840)); [by right; left|left; by apply Ho].
Qed.

(** *** The areas *)
Definition area_done w (k : Z) : Prop :=
  w (FREE_AREA + 20 * k) = fl_head k /\ w (fl_head k) = fl_head k /\ w (fl_head k + 4) = fl_head k /\
  w (FREE_AREA + 20 * k + 12) = HEAP /\ w (FREE_AREA + 20 * k + 16) = 0.

Lemma init_area_run s i : 0 <= i <= 11 ->
  (forall k, 0 <= k < i -> area_done (word s) k) ->
  exists w', init_area i s = Ok (tt, set_word w' s) /\
    (forall k, 0 <= k < i + 1 -> area_done w' k) /\
    (forall k, 0 <= k <= 10 -> w' (FREE_AREA + 20 * k + 4) = BIT_MAP + 4 * boff k) /\
    (forall j, 0 <= j < 458 -> w' (BIT_MAP + 4 * j) = 0).
Proof using Hlay.
  intros Hi Hd. pose proof layout_ranges as HL. unfold fl_head, HEAP in *.
  set (w1 := upd (fl_head i) (fl_head i) (upd (fl_head i + 4) (fl_head i)
    (upd (FREE_AREA + 20 * i) (fl_head i) (word s)))).
  destruct (bminit_run (set_word w1 s)) as (w2 & Hb & Ht & Hz & Ho). cbn [word set_word] in Ho.
  exists (upd (FREE_AREA + 20 * i + 16) 0 (upd (FREE_AREA + 20 * i + 12) HEAP w2)).
  assert (forall x, ~ (BIT_MAP <= x < BIT_MAP + 1840) ->
    (forall k, 0 <= k <= 10 -> x <> FREE_AREA + 20 * k + 4 /\ x <> FREE_AREA + 20 * k + 8) -> w2 x = w1 x) as Ho'.
  { intros x H1 H2. destruct (Ho x) as [|[|(k & Hk & Hx)]]; [done|done|]. specialize (H2 k Hk). lia. }
  split; [|split; [|split]].
  - apply wp_ok. unfold init_area, free_list_init, a_free_list, area_at, b_last, b_next, a_start_addr, a_user.
    fold (fl_head i).
    apply wp_bind. apply wp_bind, wp_st; [stat|unfold fl_head; lia|].
    apply wp_bind, wp_st; [unfold fl_head; stat|unfold fl_head; lia|].
    apply wp_st; [unfold fl_head; stat|unfold fl_head; lia|].
    apply wp_bind. eapply wp_run_ok; [exact Hb|].
    change (RESERVED_PAGES * PAGE_SIZE_4MB) with HEAP.
    apply wp_bind, wp_st; [stat|unfold HEAP; lia|]. apply wp_st; [stat|lia|]. done.
  - intros k Hk.
    assert (w1 (FREE_AREA + 20 * k) = fl_head k /\ w1 (fl_head k) = fl_head k /\
      w1 (fl_head k + 4) = fl_head k /\
      (k <> i -> w1 (FREE_AREA + 20 * k + 12) = HEAP /\ w1 (FREE_AREA + 20 * k + 16) = 0)) as (H1 & H2 & H3 & H4).
    { unfold w1, fl_head. destruct (decide (k = i)) as [->|Hne].
      - split_and!; [..|done]; repeat (rewrite upd_ne by lia; rewrite ?upd_eq); by rewrite ?upd_eq.
      - destruct (Hd k ltac:(lia)) as (H1 & H2 & H3 & H4 & H5). unfold fl_head in *.
        rewrite !upd_ne by lia. split_and!; done. }
    unfold area_done, fl_head in *. split_and!.
    + rewrite !upd_ne, Ho' by lia. done.
    + rewrite !upd_ne, Ho' by lia. done.
    + rewrite !upd_ne, Ho' by lia. done.
    + destruct (decide (k = i)) as [->|Hne]; [by rewrite upd_ne, upd_eq by lia|].
      rewrite !upd_ne, Ho' by lia. by apply H4.
    + destruct (decide (k = i)) as [->|Hne]; [by rewrite upd_eq|].
      rewrite !upd_ne, Ho' by lia. by apply H4.
  - intros k Hk. rewrite !upd_ne by lia. by apply Ht.
  - intros j Hj. rewrite !upd_ne by lia. by apply Hz.
Qed.

(** *** The heap, given to the largest order *)
Definition heap_block (k : Z) : Z := HEAP + k * 8388608.
Definition no_free : Z -> list Z := λ _, [].
(** The first [n] blocks are free, the others still to be indexed. *)
Definition indexed (n : Z) : Z -> list Z := fupd 11 (map heap_block (seqZ 0 n)) no_free.
Definition unindexed (n : Z) : list (Z * Z) := map (λ j, (heap_block j, 11)) (seqZ n (7 - n)).

Lemma free_blocks_ext FL FL' : (forall k, 0 <= k <= 11 -> FL k = FL' k) -> free_blocks FL = free_blocks FL'.
Proof.
  intros H. unfold free_blocks. f_equal. apply map_ext_in. intros k Hk%list_elem_of_In%elem_of_seqZ.
  by rewrite H by lia.
Qed.
Lemma Core_ext w FL FL' AL : (forall k, 0 <= k <= 11 -> FL k = FL' k) -> Core w FL AL -> Core w FL' AL.
Proof.
  intros H [H1 H2 H3 H4]. split; [done|..].
  - intros k Hk. rewrite <-H by done. by apply H2.
  - intros k a Hk. rewrite <-H by done. by apply H3.
  - by rewrite <-(free_blocks_ext _ _ H).
Qed.
Lemma indexed_step n : 0 <= n -> forall k, fupd 11 (indexed n 11 ++ [heap_block n]) (indexed n) k = indexed (n + 1) k.
Proof.
  intros Hn k. unfold indexed. rewrite fupd_eq. unfold fupd. destruct (k =? 11); [|done].
  rewrite (seqZ_app 0 n 1) by lia. rewrite map_app. by rewrite Z.add_0_l.
Qed.
Lemma unindexed_step n : 0 <= n < 7 -> unindexed n = (heap_block n, 11) :: unindexed (n + 1).
Proof. intros Hn. unfold unindexed. rewrite seqZ_cons by lia. simpl. do 2 f_equal. f_equal; lia. Qed.

Lemma heap_tiles : Tiles (unindexed 0).
Proof.
  split.
  - apply Forall_forall. intros x Hx. apply list_elem_of_fmap in Hx as (j & -> & Hj%elem_of_seqZ).
    split; [by vm_compute|]. exists j. split; [change (nblocks (_, _).2) with 7; lia|done].
  - repeat (split; [repeat constructor; vm_compute; intuition congruence|]). done.
Qed.

Lemma bits_empty w FL :
  (forall j, 0 <= j < 458 -> w (BIT_MAP + 4 * j) = 0) -> (forall k, 0 <= k <= 10 -> FL k = []) -> Bits w FL.
Proof.
  intros Hz HF a k Hv Hk. destruct (pidx_range a k Hv Hk) as [Hk2 Hp]. rewrite HF by done.
  pose proof (boff_fits k _ Hk2 Hp). unfold bit, bit_addr. rewrite Hz by lia_mod. by rewrite Z.bits_0.
Qed.

Lemma areas_run s :
  exists w', for_loop 0 12 init_area s = Ok (tt, set_word w' s) /\
    Core w' (indexed 0) (unindexed 0) /\ Bits w' (indexed 0).
Proof using Hlay.
  set (I := λ (n : Z) (s1 : kstate), exists w', s1 = set_word w' s /\
    (forall k, 0 <= k < n -> area_done w' k) /\ (0 < n ->
    (forall k, 0 <= k <= 10 -> w' (FREE_AREA + 20 * k + 4) = BIT_MAP + 4 * boff k) /\
    (forall j, 0 <= j < 458 -> w' (BIT_MAP + 4 * j) = 0))).
  assert (wp s (for_loop 0 12 init_area) (λ _ s1, I 12 s1)) as H.
  { apply (wp_for I); [|exists (word s); split; [by destruct s|split; [|]; intros; lia]|done].
    intros i s1 Hi (w' & -> & Hd & _).
    destruct (init_area_run (set_word w' s) i ltac:(lia) Hd) as (w2 & Hr & Hd2 & Ht & Hz).
    eapply wp_run_ok; [exact Hr|]. by exists w2. }
  apply wp_iff in H as ([] & s1 & Hr & w' & -> & Hd & Htz). destruct (Htz ltac:(lia)) as [Ht Hz].
  exists w'. split; [exact Hr|]. split; [|by apply bits_empty; [|intros k Hk; unfold indexed; rewrite fupd_ne by lia]].
  split.
  - split; [|exact Ht| |].
    + intros k Hk. apply Hd. lia.
    + destruct (Hd 0 ltac:(lia)) as (_ & _ & _ & H & _). rewrite <-H. f_equal. lia.
    + destruct (Hd 0 ltac:(lia)) as (_ & _ & _ & _ & H). rewrite <-H. f_equal. lia.
  - intros k Hk. assert (indexed 0 k = []) as -> by (unfold indexed, fupd; by destruct (k =? 11)).
    destruct (Hd k ltac:(lia)) as (_ & H1 & H2 & _). split; [by rewrite Z.add_0_r|done].
  - intros k a Hk. assert (indexed 0 k = []) as -> by (unfold indexed, fupd; by destruct (k =? 11)). set_solver.
  - change (free_blocks (indexed 0)) with (@nil (Z * Z)). apply heap_tiles.
Qed.

Lemma index_run s :
  Core (word s) (indexed 0) (unindexed 0) -> Bits (word s) (indexed 0) ->
  exists w', for_loop 0 7 (index_block (fl_head 11) 8388608) s = Ok (tt, set_word w' s) /\
    Buddy w' (indexed 7) [].
Proof using Hlay.
  intros HC HB. set (I := λ (n : Z) (s1 : kstate), exists w', s1 = set_word w' s /\
    Core w' (indexed n) (unindexed n) /\ Bits w' (indexed n)).
  assert (wp s (for_loop 0 7 (index_block (fl_head 11) 8388608)) (λ _ s1, I 7 s1)) as H.
  { apply (wp_for I); [|exists (word s); split; [by destruct s|done]|done].
    intros n s1 Hn (w' & -> & HC1 & HB1). rewrite unindexed_step in HC1 by lia.
    destruct (write_step w' _ _ _ _ (heap_block n + 8) (heap_block n) HC1) as (HC2 & _ & HB2).
    { unfold inside. cbn [fst snd]. change (bsz 11) with 8388608. lia. }
    destruct (push_step (set_word (upd (heap_block n + 8) (heap_block n) w') s) _ _ _ 11 HC2 ltac:(lia))
      as (w3 & Hr & HC3 & _ & HB3). { cbn [word set_word]. by rewrite upd_eq. }
    unfold index_block. change (RESERVED_PAGES * PAGE_SIZE_4MB) with HEAP. fold (heap_block n).
    apply wp_bind, wp_st; [unfold b_addr, heap_block, waddr, HEAP; lia_mod|unfold heap_block, HEAP; lia|].
    eapply wp_run_ok; [exact Hr|]. exists w3. split; [done|]. split.
    - eapply Core_ext; [|exact HC3]. intros k _. apply indexed_step. lia.
    - eapply Bits_ext; [|apply HB3, HB2, HB1]. intros k Hk. unfold indexed. by rewrite !fupd_ne by lia. }
  apply wp_iff in H as ([] & s1 & Hr & w' & -> & HC1 & HB1). exists w'. split; [exact Hr|].
  split; [exact HC1|exact HB1|]. intros a k _ Hk. unfold indexed. rewrite fupd_ne by lia. set_solver.
Qed.

(** *** [slab_init] *)
Lemma layout_ph :
  (4194304 <= PH /\ PH + 12 <= HEAP /\ PH mod 4 = 0) /\
  (FREE_AREA + 240 <= PH \/ PH + 12 <= FREE_AREA) /\ (FREE_LIST + 144 <= PH \/ PH + 12 <= FREE_LIST) /\
  (BIT_MAP + 1840 <= PH \/ PH + 12 <= BIT_MAP).
Proof using Hlay.
  destruct Hlay as [H1 H2]. unfold statics, ranges_apart in *. simpl in H2.
  rewrite !Forall_cons in *. simpl in *. destruct_and?. split_and!; assumption.
Qed.
Lemma layout_l1 :
  (4194304 <= L1 /\ L1 + 16 <= HEAP /\ L1 mod 4 = 0) /\
  (FREE_AREA + 240 <= L1 \/ L1 + 16 <= FREE_AREA) /\ (FREE_LIST + 144 <= L1 \/ L1 + 16 <= FREE_LIST) /\
  (BIT_MAP + 1840 <= L1 \/ L1 + 16 <= BIT_MAP) /\ (PH + 12 <= L1 \/ L1 + 16 <= PH).
Proof using Hlay.
  destruct Hlay as [H1 H2]. unfold statics, ranges_apart in *. simpl in H2.
  rewrite !Forall_cons in *. simpl in *. destruct_and?. split_and!; assumption.
Qed.
Lemma layout_ph_l1 :
  (4194304 <= PH /\ PH + 12 <= HEAP /\ PH mod 4 = 0) /\ (4194304 <= L1 /\ L1 + 16 <= HEAP /\ L1 mod 4 = 0) /\
  (PH + 12 <= L1 \/ L1 + 16 <= PH) /\
  forall x, PH <= x < PH + 12 \/ L1 <= x < L1 + 16 ->
    ~ (FREE_AREA <= x < FREE_AREA + 240) /\ ~ (FREE_LIST <= x < FREE_LIST + 144) /\
    ~ (BIT_MAP <= x < BIT_MAP + 1840).
Proof using Hlay.
  pose proof layout_ph. pose proof layout_l1. split; [tauto|]. split; [tauto|]. split; [tauto|].
  intros x Hx. lia.
Qed.

(** The header list and the slab list are not the buddy allocator's. *)
Definition other_static (x : Z) : Prop := PH <= x < PH + 12 \/ L1 <= x < L1 + 16.
(** Addresses of the kernel's image that the pages' bookkeeping does not use. *)
Definition foreign (x : Z) : Prop :=
  x < HEAP /\ ~ (FREE_AREA <= x < FREE_AREA + 240) /\ ~ (FREE_LIST <= x < FREE_LIST + 144) /\
  ~ (BIT_MAP <= x < BIT_MAP + 1840).
Lemma buddy_foreign w w' FL AL :
  (forall x, w' x = w x \/ foreign x \/ exists b, b ∈ AL /\ inside x b) ->
  Buddy w FL AL -> Buddy w' FL AL.
Proof using Hlay.
  intros Hw [HC HB HM]. pose proof layout_ranges as HR.
  assert (forall x, x < HEAP -> ~ foreign x -> w' x = w x) as Hst.
  { intros x Hx Hn. destruct (Hw x) as [|[|(b & Hb & Hi)]]; [done|done|].
    pose proof (valid_range _ (core_valid_out _ _ _ _ HC Hb)). unfold inside in Hi. lia. }
  set (w1 := λ x, if decide (HEAP <= x) then w' x else w x).
  assert (Core w1 FL AL) as HC1.
  { eapply core_frame; [|exact HC]. intros x. unfold w1. destruct (decide (HEAP <= x)); [|by left].
    destruct (Hw x) as [|[Hx|Hx]]; [by left| |by right; right]. unfold foreign in Hx. lia. }
  assert (forall x, (FREE_AREA <= x < FREE_AREA + 240 \/ FREE_LIST <= x < FREE_LIST + 144 \/
    BIT_MAP <= x < BIT_MAP + 1840 \/ HEAP <= x) -> w' x = w1 x) as He.
  { intros x Hx. unfold w1. destruct (decide (HEAP <= x)); [done|]. apply Hst; [lia|].
    unfold foreign. lia. }
  split; [|eapply Bits_frame; [|exact HB]; intros x Hx|exact HM].
  2:{ rewrite He by lia. unfold w1. by rewrite decide_False by (unfold HEAP in *; lia). }
  destruct HC1 as [H1 H2 H3 H4]. split; [..|exact H4].
  - eapply Tables_frame; [|exact H1]. intros x Hx. apply He. by left.
  - intros k Hk. eapply ring_frame; [by apply H2|]. intros x [->|Hx]%elem_of_cons.
    + split; apply He; unfold fl_head; lia.
    + pose proof (valid_range _ (core_valid_free _ _ _ _ _ HC Hk Hx)). cbn [fst snd] in *.
      split; apply He; lia.
  - intros k a Hk Ha. pose proof (valid_range _ (core_valid_free _ _ _ _ _ HC Hk Ha)). cbn [fst snd] in *.
    rewrite He by lia. by eapply H3.
Qed.
Lemma buddy_other w w' FL AL :
  (forall x, w' x = w x \/ other_static x \/ exists b, b ∈ AL /\ inside x b) ->
  Buddy w FL AL -> Buddy w' FL AL.
Proof using Hlay.
  intros Hw. destruct layout_ph_l1 as (HP & HL & _ & Ho). apply buddy_foreign. intros x.
  destruct (Hw x) as [|[Hx|]]; [by left|right; left|by right; right].
  specialize (Ho x Hx). unfold foreign, HEAP in *. unfold other_static in Hx. lia.
Qed.

Lemma slab_init_run (km : Z -> M kstate Z) s :
  Buddy (word s) (indexed 7) [] ->
  exists s' FL, slab_init km s = Ok (tt, s') /\ alloc_spec (indexed 7) 10 = Some (HEAP, FL) /\
    Buddy (word s') FL [(HEAP, 10)] /\
    page_header s' = page_header s /\ slab_free_list s' = L1 /\ start_slab s' = HEAP /\
    ring 12 8 (word s') L1 [HEAP] /\ word s' HEAP = PAGE_SLAB /\ word s' (HEAP + 4) = 0 /\
    (forall x, PH <= x < PH + 12 -> word s' x = word s x).
Proof using Hlay.
  intros HB. destruct layout_ph_l1 as (HP & HL & HPL & Ho).
  set (w1 := upd L1 0 (upd (L1 + 8) L1 (upd (L1 + 12) L1 (word s)))).
  set (s1 := Kstate w1 (page_header s) L1 (start_slab s)).
  assert (forall x, ~ (L1 <= x < L1 + 16) -> w1 x = word s x) as Hw1
    by (intros x Hx; unfold w1; by rewrite !upd_ne by lia).
  assert (Buddy w1 (indexed 7) []) as HB1.
  { eapply buddy_other; [|exact HB]. intros x.
    destruct (decide (L1 <= x < L1 + 16)); [right; left; by right|left; by apply Hw1]. }
  pose proof (get_page_run km s1 (indexed 7) [] 10 HB1 ltac:(lia)) as Hg.
  assert (option_map fst (alloc_spec (indexed 7) 10) = Some HEAP) as Hfst by (vm_compute; reflexivity).
  destruct (alloc_spec (indexed 7) 10) as [[p FL]|] eqn:Hfl; [|done]. injection Hfst as ->.
  destruct Hg as (w2 & Hr & _ & HB2 & HK2). cbn [word] in HK2.
  assert (forall x, L1 <= x < L1 + 16 \/ PH <= x < PH + 12 -> w2 x = w1 x) as Hk2.
  { intros x Hx. apply HK2. left. destruct (Ho x ltac:(tauto)) as (_ & H1 & H2). split_and!; [lia|done|lia]. }
  assert (w2 (L1 + 8) = L1) as Hlast by (rewrite Hk2 by lia; unfold w1; by rewrite upd_ne, upd_eq by lia).
  set (w3 := upd (L1 + 8) HEAP (upd (L1 + 12) HEAP (upd (HEAP + 12) L1 (upd (HEAP + 8) L1
    (upd (HEAP + 4) 0 (upd HEAP PAGE_SLAB w2)))))).
  unfold HEAP in *.
  exists (Kstate w3 (page_header s) L1 HEAP), FL. split; [|split; [done|split; [|split_and!]]]; try done.
  - apply wp_ok. unfold slab_init, s_next, s_last, s_size, s_status. apply wp_bind, wp_modify.
    apply wp_bind, wp_st; [apply static_waddr; unfold HEAP; lia_mod|lia|].
    apply wp_bind, wp_st; [apply static_waddr; unfold HEAP; lia_mod|lia|].
    apply wp_bind, wp_st; [apply static_waddr; unfold HEAP; lia_mod|lia|].
    apply wp_bind. eapply wp_run_ok; [exact Hr|].
    apply wp_bind, wp_st; [by vm_compute|by vm_compute|]. apply wp_bind, wp_st; [by vm_compute|lia|].
    apply wp_bind, wp_modify. apply wp_bind, wp_gets. cbn [word set_word page_header slab_free_list].
    change (slab_free_list s1) with L1.
    unfold slab_list_push, s_last, s_next.
    apply wp_bind. eapply wp_run_ok; [apply ld_ok, static_waddr; unfold HEAP; lia_mod|].
    cbn [word]. rewrite !upd_ne, Hlast by lia.
    apply wp_bind, wp_st; [by vm_compute|lia|]. apply wp_bind, wp_st; [by vm_compute|lia|].
    apply wp_bind, wp_st; [apply static_waddr; unfold HEAP; lia_mod|by vm_compute|].
    apply wp_st; [apply static_waddr; unfold HEAP; lia_mod|by vm_compute|]. done.
  - eapply buddy_other; [|exact HB2]. intros x. cbn [word]. unfold w3.
    destruct (decide (L1 <= x < L1 + 16)) as [Hx|Hx]; [right; left; by right|].
    destruct (decide (8388608 <= x < 8388608 + 16)) as [Hx2|Hx2].
    + right. right. exists (8388608, 10). split; [set_solver|]. split; [simpl; lia|].
      cbn [fst snd]. change (bsz 10) with 4194304. lia.
    + left. by rewrite !upd_ne by lia.
  - cbn [word]. unfold w3, ring. simpl.
    split_and!; repeat (rewrite upd_ne by (unfold HEAP; lia); rewrite ?upd_eq); by rewrite ?upd_eq.
  - cbn [word]. unfold w3. rewrite !upd_ne by (unfold HEAP; lia). by rewrite upd_eq.
  - cbn [word]. unfold w3. rewrite !upd_ne by (unfold HEAP; lia). by rewrite upd_eq.
  - intros x Hx. cbn [word]. unfold w3. rewrite !upd_ne by (unfold HEAP; lia). rewrite Hk2, Hw1 by lia. done.
Qed.

(** *** All of it *)
Record Ready (FL : Z -> list Z) (s : kstate) : Prop := {
  ready_free : alloc_spec (indexed 7) 10 = Some (HEAP, FL);
  ready_buddy : Buddy (word s) FL [(HEAP, 10)];
  ready_headers : page_header s = PH /\ word s (PH + 8) = PH;
  ready_slabs : slab_free_list s = L1 /\ start_slab s = HEAP /\ ring 12 8 (word s) L1 [HEAP] /\
    word s HEAP = PAGE_SLAB /\ word s (HEAP + 4) = 0
}.

Lemma kmalloc_init_run (km : Z -> M kstate Z) s :
  exists s' FL, kmalloc_init km s = Ok (tt, s') /\ Ready FL s'.
Proof using Hlay.
  destruct (areas_run s) as (w1 & H1 & HC1 & HB1).
  destruct (index_run (set_word w1 s) HC1 HB1) as (w2 & H2 & HB2).
  pose proof layout_ph as (HP & _).
  set (s3 := Kstate (upd (PH + 8) PH w2) PH (slab_free_list s) (start_slab s)).
  assert (Buddy (word s3) (indexed 7) []) as HB3.
  { eapply buddy_other; [|exact HB2]. intros x. cbn [word s3].
    destruct (decide (x = PH + 8)) as [->|Hne]; [right; left; left; lia|left; by apply upd_ne]. }
  destruct (slab_init_run km s3 HB3) as (s4 & FL & H4 & HFL & HB4 & Hph & Hsl & Hst & Hring & Hsz & Hs0 & Hk).
  exists s4, FL. split; [|split; [exact HFL|exact HB4|split; [done|rewrite Hk by lia; cbn [word s3]; by rewrite upd_eq]|done]].
  apply wp_ok. unfold kmalloc_init. change (Z.to_nat (MAX_ORDER + 1)) with 12%nat.
  apply wp_bind. eapply wp_run_ok; [exact H1|].
  apply wp_bind. eapply wp_run_ok; [apply (area_list_ld _ 11 (core_tables _ _ _ HC1 : Tables (word (set_word w1 s)))); lia|].
  change (buddy_size (MAX_ORDER - 1)) with 8388608.
  change (Z.to_nat ((KERNEL_PAGES - RESERVED_PAGES) * PAGE_SIZE_4MB / 8388608)) with 7%nat.
  apply wp_bind. eapply wp_run_ok; [exact H2|]. apply wp_bind, wp_modify. unfold h_next.
  apply wp_bind, wp_st; [apply static_waddr; unfold HEAP in *; lia_mod|unfold HEAP in *; lia|].
  eapply wp_run_ok; [exact H4|done].
Qed.
End init.
