(* ===== verification/KmallocSource.v ===== *)
(** * What the kernel needs of its page allocator

    The slab allocator of [kmalloc.c] and the page tables of [vm.c] take pages
    from [get_page] and give them back with [free_page].  [PageSource] is the
    promise their proofs use; the buddy allocator keeps it, and so does the
    buddy allocator with the slabs on top (see [KmallocHeap]). *)
From S2P Require Import Prelude Kmalloc KmallocRing KmallocBuddy KmallocPages KmallocAlloc KmallocFree KmallocInit.

Section interface.
Context {lay : Layout}.

(** [Inv s AL] holds while the blocks of [AL] (address and order) are out.
    Besides the words of those blocks the client may write the words [Own]. *)
Class PageSource (Own : Z -> Prop) (Inv : kstate -> list (Z * Z) -> Prop) : Prop := {
  (** a block is new and taking it changes no word of the blocks that are out
      or of the rest of the kernel; or there is none and nothing changes *)
  ps_get km s AL k : 0 <= k <= 10 -> Inv s AL ->
    exists p w', get_page km k s = Ok (p, set_word w' s) /\
    (p = NULL /\ w' = word s \/
     p <> NULL /\ Inv (set_word w' s) ((p, k) :: AL) /\ Keep AL (word s) w');
  (** a block that is out may be given back *)
  ps_free kf s AL p k : 0 <= k <= 10 -> Inv s ((p, k) :: AL) ->
    exists w', free_page kf p k s = Ok (tt, set_word w' s) /\
    Inv (set_word w' s) AL /\ Keep AL (word s) w';
  (** the blocks that are out and the client's words may be written *)
  ps_ext w' s AL : Inv s AL ->
    (forall x, w' x = word s x \/ Own x \/ exists b, b ∈ AL /\ inside x b) ->
    Inv (set_word w' s) AL;
  ps_tiles s AL : Inv s AL -> Tiles AL;
  ps_perm s AL AL' : AL ≡ₚ AL' -> Inv s AL -> Inv s AL'
}.

Lemma source_weaken Own Own' Inv : (forall x, Own' x -> Own x) ->
  PageSource Own Inv -> PageSource Own' Inv.
Proof using Type.
  intros HO [H1 H2 H3 H4 H5]. split; [exact H1|exact H2| |exact H4|exact H5].
  intros w' s AL HI Hw. apply H3; [done|]. intros x. destruct (Hw x) as [|[|]]; auto.
Qed.

(** What the page tables use of it. *)
Section client.
Context {Own : Z -> Prop} (Inv : kstate -> list (Z * Z) -> Prop) {PS : PageSource Own Inv}.
Lemma ps_write s AL x v : Inv s AL -> Own x \/ (exists b, b ∈ AL /\ inside x b) ->
  Inv (set_word (upd x v (word s)) s) AL.
Proof using PS.
  intros HI Hx. apply ps_ext; [done|]. intros y.
  destruct (decide (y = x)) as [->|]; [by right|left; by apply upd_ne].
Qed.
Lemma ps_page s AL : Inv s AL -> exists p s', get_page kmalloc 0 s = Ok (p, s') /\
  (p = NULL /\ s' = s \/ p <> NULL /\ Inv s' ((p, 0) :: AL) /\ Keep AL (word s) (word s')).
Proof using PS.
  intros HI. destruct (ps_get kmalloc s AL 0 ltac:(lia) HI) as (p & w' & Hr & [[-> ->]|H]).
  - exists NULL, s. split; [|by left]. rewrite Hr. by destruct s.
  - exists p, (set_word w' s). auto.
Qed.
Lemma ps_valid s AL b : Inv s AL -> b ∈ AL -> valid b.
Proof using PS. intros HI Hb. destruct (ps_tiles _ _ HI) as [HV _]. rewrite Forall_forall in HV. by apply HV. Qed.
Lemma ps_disj s AL b b' : Inv s AL -> b ∈ AL -> b' ∈ AL -> b = b' \/ disj b b'.
Proof using PS. intros HI Hb Hb'. apply (Tiles_in AL); [by eapply ps_tiles|done|done]. Qed.
End client.

(** The buddy allocator keeps that promise. *)
Lemma kept_mono AL AL' w w' : (forall b, b ∈ AL -> b ∈ AL') -> Keep AL' w w' -> Keep AL w w'.
Proof using Type. intros Hs HK x [Hx|(b & Hb & Hx)]; apply HK; [by left|right; exists b; auto]. Qed.

Context {Hlay : @LayoutOk lay}.
Lemma Buddy_perm w FL AL AL' : AL ≡ₚ AL' -> Buddy w FL AL -> Buddy w FL AL'.
Proof using Type.
  intros Hp [[H1 H2 H3 H4] HB HM]. split; [split; [done..|]|done|done].
  eapply Tiles_perm; [|exact H4]. by rewrite Hp.
Qed.

#[export] Instance buddy_source : PageSource foreign (λ s AL, exists FL, Buddy (word s) FL AL).
Proof using Hlay.
  split.
  - intros km s AL k Hk (FL & HB). pose proof (get_page_run km s FL AL k HB Hk) as H.
    destruct (alloc_spec FL k) as [[p FL']|].
    + destruct H as (w' & Hr & Hp & HB' & HK). exists p, w'. split; [done|]. right.
      split; [done|]. split; [by exists FL'|done].
    + destruct H as [Hr _]. exists NULL, (word s). split; [rewrite Hr; by destruct s|by left].
  - intros kf s AL p k Hk (FL & HB). destruct (free_page_run kf s FL AL p k HB) as (w' & Hr & HB' & HK).
    exists w'. split; [done|]. split; [by eexists|done].
  - intros w' s AL (FL & HB) Hw. exists FL. eapply buddy_foreign; [|exact HB]. done.
  - intros s AL (FL & HB). pose proof (core_tiles _ _ _ (buddy_core _ _ _ HB)) as [HV HD].
    apply Forall_app in HV as [_ HV]. apply pairwise_app in HD as (_ & HD & _). by split.
  - intros s AL AL' Hp (FL & HB). exists FL. by eapply Buddy_perm.
Qed.

(** The words of the kernel that no allocator uses. *)
Definition plain (x : Z) : Prop := foreign x /\ ~ other_static x.
#[export] Instance buddy_plain : PageSource plain (λ s AL, exists FL, Buddy (word s) FL AL).
Proof using Hlay. eapply source_weaken; [|apply buddy_source]. by intros x []. Qed.
End interface.
