(* ===== verification/KmallocContract.v ===== *)
(** * The contract of the page allocator *)
From S2P Require Import Prelude Kmalloc KmallocRing KmallocBuddy KmallocBits KmallocPages KmallocAlloc KmallocFree KmallocInit KmallocSource.

(** ** The abstract operations, further *)
(** The bytes in a list of blocks. *)
Definition total (T : list (Z * Z)) : Z := foldr (λ x n, bsz x.2 + n) 0 T.

Lemma total_cons x T : total (x :: T) = bsz x.2 + total T.
Proof. done. Qed.
Lemma total_app T T' : total (T ++ T') = total T + total T'.
Proof. induction T as [|x T IH]; simpl; [done|]. lia. Qed.
Lemma total_perm T T' : T ≡ₚ T' -> total T = total T'.
Proof. induction 1; simpl; lia. Qed.
Lemma total_fupd k L FL : 0 <= k <= 11 ->
  total (free_blocks (fupd k L FL)) =
    total (free_blocks FL) + bsz k * (Z.of_nat (length L) - Z.of_nat (length (FL k))).
Proof.
  intros Hk. rewrite (total_perm _ _ (free_fupd k L FL Hk)), (total_perm _ _ (free_fupd_self FL k Hk)).
  rewrite !total_app. assert (forall L : list Z, total (map (λ a, (a, k)) L) = bsz k * Z.of_nat (length L)) as Hm.
  { induction L0 as [|a L0 IH]; simpl; lia. }
  rewrite !Hm. lia.
Qed.

Lemma total_split n FL b c : Z.of_nat n <= c -> c <= 11 ->
  total (free_blocks (asplit n FL b c)) = total (free_blocks FL) + bsz c - bsz (c - Z.of_nat n).
Proof.
  revert FL c. induction n as [|n IH]; intros FL c Hn Hc; cbn [asplit].
  - rewrite Z.sub_0_r. lia.
  - rewrite IH, total_fupd, length_app, (bsz_half c) by lia. cbn [length].
    replace (c - 1 - Z.of_nat n) with (c - Z.of_nat (S n)) by lia. lia.
Qed.

Lemma afind_some n FL i b k : afind n FL i = Some (b, k) ->
  i <= k < i + Z.of_nat n /\ (exists L, FL k = b :: L) /\ forall j, i <= j < k -> FL j = [].
Proof.
  revert i. induction n as [|n IH]; intros i; cbn [afind]; [done|]. destruct (FL i) as [|a L] eqn:HF.
  - intros (H1 & H2 & H3)%IH. split; [lia|]. split; [done|]. intros j Hj.
    destruct (decide (j = i)) as [->|]; [done|]. apply H3. lia.
  - intros [= -> ->]. split; [lia|]. split; [by exists L|lia].
Qed.

(** An allocation takes exactly its block from the free space. *)
Lemma alloc_total FL order p FL' : 0 <= order <= 10 -> alloc_spec FL order = Some (p, FL') ->
  total (free_blocks FL') + bsz order = total (free_blocks FL).
Proof.
  intros Ho. unfold alloc_spec, MAX_ORDER. destruct (afind _ FL order) as [[b i]|] eqn:Hf; [|done].
  intros [= -> <-]. apply afind_some in Hf as (Hi & (L & HL) & _).
  rewrite total_split, total_fupd, HL by lia. cbn [tl length].
  replace (i - Z.of_nat (Z.to_nat (i - order))) with order by lia. lia.
Qed.

(** ** Free after alloc *)
Definition feq (FL FL' : Z -> list Z) : Prop := forall k, FL k = FL' k.
Lemma fupd_feq k L FL FL' : feq FL FL' -> feq (fupd k L FL) (fupd k L FL').
Proof. intros H j. unfold fupd. by destruct (j =? k). Qed.
Lemma afree_feq n FL FL' b k : feq FL FL' -> feq (afree n FL b k) (afree n FL' b k).
Proof.
  revert FL FL' b k. induction n as [|n IH]; intros FL FL' b k H; cbn [afree]; rewrite <-(H k).
  - by apply fupd_feq.
  - destruct (bool_decide _); [apply IH|]; by apply fupd_feq.
Qed.

Lemma valid_left b c : valid (b, c) -> 1 <= c -> valid (b, c - 1).
Proof.
  intros Hv Hc. assert (Tiles [(b, c)]) as HT by (split; [by constructor|by repeat constructor]).
  apply Tiles_split in HT as [_ [HT _]]; [|done]. by apply Forall_cons in HT as [HT _].
Qed.

Lemma afree_asplit n m FL b c :
  valid (b, c) -> Z.of_nat n <= c -> (forall j, c - Z.of_nat n <= j < c -> FL j = []) ->
  feq (afree (n + m) (asplit n FL b c) b (c - Z.of_nat n)) (afree m FL b c).
Proof.
  revert m FL c. induction n as [|n IH]; intros m FL c Hv Hn HF; cbn [asplit].
  { by rewrite Z.sub_0_r. }
  pose proof Hv as [Hc _]. cbn [fst snd] in Hc. unfold MAX_ORDER in Hc.
  pose proof (left_half b c Hv ltac:(lia)) as Hb. pose proof (bsz_range (c - 1) ltac:(lia)) as Hz.
  assert (is_left b (c - 1) = true) as Hl by (unfold bud in Hb; destruct (is_left b (c - 1)); [done|lia]).
  set (G := fupd (c - 1) (FL (c - 1) ++ [b + bsz (c - 1)]) FL).
  assert (G (c - 1) = [b + bsz (c - 1)]) as HG by (unfold G; by rewrite fupd_eq, HF by lia).
  replace (c - Z.of_nat (S n)) with (c - 1 - Z.of_nat n) by lia. rewrite Nat.add_succ_comm.
  intros k. rewrite (IH (S m) G (c - 1)); [|apply valid_left; [done|lia]|lia|].
  2:{ intros j Hj. unfold G. rewrite fupd_ne by lia. apply HF. lia. }
  cbn [afree]. rewrite Hb, HG, bool_decide_eq_true_2, Hl by set_solver.
  replace (c - 1 + 1) with c by lia. apply afree_feq. intros j.
  rewrite filter_cons_False by auto. unfold G, fupd. simpl.
  destruct (Z.eqb_spec j (c - 1)) as [->|]; [by rewrite HF by lia|done].
Qed.

Lemma alloc_free_spec FL order p FL' : Merged FL ->
  (forall a k, 0 <= k <= 11 -> a ∈ FL k -> valid (a, k)) ->
  0 <= order <= 10 -> alloc_spec FL order = Some (p, FL') ->
  exists i L, order <= i <= 11 /\ FL i = p :: L /\
    feq (free_spec FL' p order) (fupd i (L ++ [p]) FL).
Proof.
  intros HM HV Ho. unfold alloc_spec, free_spec, MAX_ORDER.
  destruct (afind _ FL order) as [[b i]|] eqn:Hf; [|done]. intros [= -> <-].
  apply afind_some in Hf as (Hi & (L & HL) & Hlow). exists i, L. split; [lia|]. split; [done|].
  assert (valid (p, i)) as Hv by (apply HV; [lia|rewrite HL; set_solver]).
  pose proof (afree_asplit (Z.to_nat (i - order)) (Z.to_nat (11 - i)) (fupd i L FL) p i Hv ltac:(lia)) as Ha.
  replace (i - Z.of_nat (Z.to_nat (i - order))) with order in Ha by lia.
  replace (Z.to_nat (i - order) + Z.to_nat (11 - i))%nat with (Z.to_nat (11 - order)) in Ha by lia.
  rewrite HL. cbn [tl]. intros k. rewrite Ha.
  2:{ intros j Hj. rewrite fupd_ne by lia. apply Hlow. lia. }
  assert (fupd i (fupd i L FL i ++ [p]) (fupd i L FL) k = fupd i (L ++ [p]) FL k) as He
    by (rewrite fupd_eq; unfold fupd; by destruct (k =? i)).
  destruct (Z.to_nat (11 - i)) as [|m] eqn:Hm; cbn [afree]; [exact He|].
  rewrite bool_decide_eq_false_2; [exact He|]. rewrite fupd_eq. intros Hin.
  apply (HM p i Hv ltac:(lia)); rewrite HL; set_solver.
Qed.

Lemma Buddy_lists {lay : Layout} {Hlay : @LayoutOk lay} w FL AL : Buddy w FL AL ->
  (forall a k, 0 <= k <= 11 -> a ∈ FL k -> valid (a, k)) /\
  (forall k, 0 <= k <= 11 -> NoDup (FL k)).
Proof.
  intros [HC _ _]. split.
  - intros a k Hk Ha. by eapply core_valid_free.
  - intros k Hk. eapply pairwise_NoDup; [|eapply (core_seps _ _ _ k HC Hk)]. unfold sep. lia.
Qed.

(** ** Theorems *)
Section contract.
Context {lay : Layout} {Hlay : @LayoutOk lay}.

Lemma get_page_bad km order s : ~ 0 <= order <= 10 -> get_page km order s = Ok (NULL, s).
Proof.
  intros Ho. unfold get_page, MAX_ORDER. destruct (Z.leb_spec 11 order), (Z.ltb_spec order 0); try lia; done.
Qed.

(** C33: whatever memory holds, [kmalloc_init] ends, and leaves a well-formed
    buddy allocator over the 56 MB of the heap, an empty header list, and one
    free 4 MB slab, the only block that is out. *)
Theorem kmalloc_init_correct s :
  exists s' FL, kmalloc_init kmalloc s = Ok (tt, s') /\ Ready FL s' /\
    total (free_blocks FL) + bsz 10 = HEAP_END - HEAP.
Proof.
  destruct (kmalloc_init_run kmalloc s) as (s' & FL & H & HR). exists s', FL. split; [done|]. split; [done|].
  rewrite (alloc_total (indexed 7) 10 HEAP FL ltac:(lia) (ready_free _ _ HR)). by vm_compute.
Qed.

(** C9: [get_page] implements [alloc_spec]: it returns the first block of the
    least order that has one, split down to the order asked for, and NULL
    exactly when no order has a block; the block is aligned, was free, overlaps
    no block that is out, and nothing in the blocks that are out changes. *)
Theorem get_page_correct s FL AL order :
  Buddy (word s) FL AL ->
  (order < 0 \/ 10 < order -> get_page kmalloc order s = Ok (NULL, s)) /\
  (0 <= order <= 10 ->
    match alloc_spec FL order with
    | None => get_page kmalloc order s = Ok (NULL, s) /\ forall k, order <= k <= 11 -> FL k = []
    | Some (p, FL') => exists w', get_page kmalloc order s = Ok (p, set_word w' s) /\ p <> NULL /\
        (p - HEAP) mod bsz order = 0 /\ (forall b, b ∈ AL -> disj (p, order) b) /\
        Buddy w' FL' ((p, order) :: AL) /\ Keep AL (word s) w' /\
        total (free_blocks FL') + bsz order = total (free_blocks FL)
    end).
Proof.
  intros HB. split.
  - intros Ho. apply get_page_bad. lia.
  - intros Ho. pose proof (get_page_run kmalloc s FL AL order HB Ho) as Hg.
    destruct (alloc_spec FL order) as [[p FL']|] eqn:Ha; [|exact Hg].
    destruct Hg as (w' & Hr & Hp & HB' & HK). exists w'. split; [done|]. split; [done|].
    destruct (core_out _ _ _ _ _ (buddy_core _ _ _ HB')) as (Hv & _ & Hd).
    split; [|split; [exact Hd|split; [exact HB'|split; [exact HK|by eapply alloc_total]]]].
    destruct Hv as (_ & q & _ & Hq). cbn [fst snd] in Hq. rewrite Hq.
    replace (HEAP + q * bsz order - HEAP) with (q * bsz order) by lia. apply Z_mod_mult.
Qed.

(** C10: [free_page] implements [free_spec]: the block joins the free list of
    its order, or merges with its buddy, and the result with its own, for as
    long as the buddy is free; the blocks that stay out keep their contents. *)
Theorem free_page_correct s FL AL p order :
  Buddy (word s) FL ((p, order) :: AL) ->
  exists w', free_page kfree p order s = Ok (tt, set_word w' s) /\
    Buddy w' (free_spec FL p order) AL /\ Keep AL (word s) w'.
Proof. apply free_page_run. Qed.

(** Freeing the page that was just allocated undoes every split and every
    bit of the bitmaps: the free lists are the old ones, but for the block the
    page came from, which is now last in its list. *)
Theorem get_page_free_page s FL AL order p s1 :
  Buddy (word s) FL AL -> 0 <= order <= 10 -> get_page kmalloc order s = Ok (p, s1) -> p <> NULL ->
  exists i L s2, FL i = p :: L /\ free_page kfree p order s1 = Ok (tt, s2) /\
    Buddy (word s2) (fupd i (L ++ [p]) FL) AL /\ Keep AL (word s) (word s2).
Proof.
  intros HB Ho Hr Hp. pose proof (get_page_run kmalloc s FL AL order HB Ho) as Hg.
  destruct (alloc_spec FL order) as [[q FL']|] eqn:Ha; [|destruct Hg as [Hg _]; congruence].
  destruct Hg as (w1 & Hr1 & _ & HB1 & HK1). rewrite Hr1 in Hr. injection Hr as -> <-.
  destruct (free_page_run kfree (set_word w1 s) FL' AL p order HB1) as (w2 & Hr2 & [HC2 HB2 HM2] & HK2).
  destruct (Buddy_lists _ _ _ HB) as [HV _].
  destruct (alloc_free_spec FL order p FL' (buddy_merged _ _ _ HB) HV Ho Ha) as (i & L & Hi & HL & He).
  exists i, L, (set_word w2 (set_word w1 s)). split; [done|]. split; [exact Hr2|].
  split; [|by eapply Keep_trans]. split.
  - eapply Core_ext; [|exact HC2]. intros k _. apply He.
  - eapply Bits_ext; [|exact HB2]. intros k _. apply He.
  - intros a k Hv Hk. rewrite <-(He k). by apply HM2.
Qed.

(** *** Any sequence of calls *)
(** What may happen once the allocator is up: pages are asked for and given
    back, and who holds a block may write anything in it. *)
Inductive page_step : kstate * list (Z * Z) -> kstate * list (Z * Z) -> Prop :=
  | step_get s AL order p s' : get_page kmalloc order s = Ok (p, s') -> p <> NULL ->
      page_step (s, AL) (s', (p, order) :: AL)
  | step_none s AL order s' : get_page kmalloc order s = Ok (NULL, s') -> page_step (s, AL) (s', AL)
  | step_free s AL1 AL2 p order s' : free_page kfree p order s = Ok (tt, s') ->
      page_step (s, AL1 ++ (p, order) :: AL2) (s', AL1 ++ AL2)
  | step_use s AL b x v : b ∈ AL -> inside x b -> page_step (s, AL) (set_word (upd x v (word s)) s, AL).
Inductive reach : kstate * list (Z * Z) -> Prop :=
  | reach_init s s' : kmalloc_init kmalloc s = Ok (tt, s') -> reach (s', [(HEAP, 10)])
  | reach_step x y : reach x -> page_step x y -> reach y.

Lemma total_free n FL b k : Z.of_nat n + k <= 11 -> 0 <= k -> valid (b, k) ->
  (forall j a, 0 <= j <= 11 -> a ∈ FL j -> valid (a, j)) -> (forall j, 0 <= j <= 11 -> NoDup (FL j)) ->
  total (free_blocks (afree n FL b k)) = total (free_blocks FL) + bsz k.
Proof.
  revert FL b k. induction n as [|n IH]; intros FL b k Hn Hk Hv HV Hd; cbn [afree].
  { rewrite total_fupd, length_app by lia. cbn [length]. lia. }
  destruct (bool_decide (bud b k ∈ FL k)) eqn:Hb.
  2:{ rewrite total_fupd, length_app by lia. cbn [length]. lia. }
  apply bool_decide_eq_true in Hb. destruct (merge_facts b k Hv ltac:(lia)) as [Hm _]. cbv zeta in Hm.
  destruct (list_elem_of_split _ _ Hb) as (L1 & L2 & HF). pose proof (Hd k ltac:(lia)) as Hdk. rewrite HF in Hdk.
  rewrite IH; [|lia|lia|done| |].
  - rewrite total_fupd, HF, (filter_ne _ _ _ Hdk), !length_app, (bsz_half (k + 1)) by lia. cbn [length].
    replace (k + 1 - 1) with k by lia. lia.
  - intros j a Hj. unfold fupd. destruct (Z.eqb_spec j k) as [->|]; [|by apply HV].
    rewrite list_elem_of_filter. intros [_ Ha]. by apply HV.
  - intros j Hj. unfold fupd. destruct (Z.eqb_spec j k) as [->|]; [|by apply Hd]. apply NoDup_filter. auto.
Qed.

Definition page_inv (x : kstate * list (Z * Z)) : Prop :=
  exists FL, Buddy (word x.1) FL x.2 /\ total (free_blocks FL) + total x.2 = HEAP_END - HEAP.

Lemma page_inv_step x y : page_inv x -> page_step x y -> page_inv y.
Proof using Hlay.
  intros (FL & HB & Ht) Hs. destruct Hs as [s AL order p s' Hr Hp|s AL order s' Hr|s AL1 AL2 p order s' Hr|s AL b x v Hb Hx];
    cbn [fst snd] in *.
  - destruct (decide (0 <= order <= 10)) as [Ho|Ho].
    2:{ rewrite get_page_bad in Hr by done. congruence. }
    pose proof (get_page_run kmalloc s FL AL order HB Ho) as Hg.
    destruct (alloc_spec FL order) as [[q FL']|] eqn:Ha; [|destruct Hg as [Hg _]; congruence].
    destruct Hg as (w1 & Hr1 & _ & HB1 & _). rewrite Hr1 in Hr. injection Hr as -> <-.
    exists FL'. split; [exact HB1|]. pose proof (alloc_total _ _ _ _ Ho Ha) as Hat. cbn [snd]. rewrite total_cons. cbn [snd]. lia.
  - assert (s' = s) as ->; [|by exists FL]. destruct (decide (0 <= order <= 10)) as [Ho|Ho].
    + pose proof (get_page_run kmalloc s FL AL order HB Ho) as Hg.
      destruct (alloc_spec FL order) as [[q FL']|]; [|destruct Hg as [Hg _]; congruence].
      destruct Hg as (w1 & Hr1 & Hq & _). congruence.
    + rewrite get_page_bad in Hr by done. congruence.
  - assert (AL1 ++ (p, order) :: AL2 ≡ₚ (p, order) :: AL1 ++ AL2) as Hperm by (symmetry; apply Permutation_middle).
    apply (Buddy_perm _ _ _ _ Hperm) in HB. rewrite (total_perm _ _ Hperm) in Ht.
    destruct (Buddy_lists _ _ _ HB) as [HV Hd].
    destruct (core_out _ _ _ _ _ (buddy_core _ _ _ HB)) as (Hv & _ & _). pose proof Hv as [Hk _].
    cbn [fst snd] in Hk. unfold MAX_ORDER in Hk.
    destruct (free_page_run kfree s FL (AL1 ++ AL2) p order HB) as (w1 & Hr1 & HB1 & _).
    rewrite Hr1 in Hr. injection Hr as <-. exists (free_spec FL p order). split; [exact HB1|]. cbn [snd].
    unfold free_spec, MAX_ORDER. rewrite total_free by (lia || done || (intros; apply HV; done)). rewrite total_cons in Ht. cbn [snd] in Ht. lia.
  - exists FL. split; [|done]. cbn [word set_word fst]. eapply buddy_other; [|exact HB]. intros y.
    destruct (decide (y = x)) as [->|]; [right; right; by exists b|left; by apply upd_ne].
Qed.

(** C2: in every state that calls of [get_page] and [free_page] lead to, with
    the holders of the blocks writing in them what they like, the blocks that
    are out are aligned, lie in the heap and do not overlap; free and used
    space add up to the heap; and both calls return. *)
Theorem pages_never_overlap s AL : reach (s, AL) ->
  Forall valid AL /\ pairwise disj AL /\
  (exists FL, Buddy (word s) FL AL /\ total (free_blocks FL) + total AL = HEAP_END - HEAP) /\
  (forall order, exists p s', get_page kmalloc order s = Ok (p, s')) /\
  (forall p order, (p, order) ∈ AL -> exists s', free_page kfree p order s = Ok (tt, s')).
Proof.
  intros HR. assert (page_inv (s, AL)) as (FL & HB & Ht).
  { remember (s, AL) as x eqn:E. clear E. induction HR as [s0 s' H|x y HR IH Hs]; [|by eapply page_inv_step].
    destruct (kmalloc_init_run kmalloc s0) as (s2 & FL & H2 & HRd). rewrite H2 in H. injection H as <-.
    exists FL. split; [apply HRd|]. cbn [snd]. rewrite total_cons.
    pose proof (alloc_total (indexed 7) 10 HEAP FL ltac:(lia) (ready_free _ _ HRd)) as Ha.
    change (total (free_blocks (indexed 7))) with 58720256 in Ha. change (total []) with 0. unfold HEAP, HEAP_END. cbn [snd]. lia. }
  pose proof (core_tiles _ _ _ (buddy_core _ _ _ HB)) as [HV HD]. cbn [fst snd] in *.
  apply Forall_app in HV as [_ HV]. apply pairwise_app in HD as (_ & HD & _).
  split; [done|]. split; [done|]. split; [by exists FL|]. split.
  - intros order. destruct (decide (0 <= order <= 10)) as [Ho|Ho].
    + pose proof (get_page_run kmalloc s FL AL order HB Ho) as Hg.
      destruct (alloc_spec FL order) as [[q FL']|]; [destruct Hg as (w1 & Hr1 & _)|destruct Hg as [Hr1 _]]; eauto.
    + exists NULL, s. by apply get_page_bad.
  - intros p order Hin. destruct (list_elem_of_split _ _ Hin) as (AL1 & AL2 & ->).
    apply (Buddy_perm _ _ _ ((p, order) :: AL1 ++ AL2)) in HB; [|symmetry; apply Permutation_middle].
    destruct (free_page_run kfree s FL (AL1 ++ AL2) p order HB) as (w1 & Hr1 & _). eauto.
Qed.
End contract.

(** *** The theorems on a booted allocator *)
Definition blank : kstate := Kstate (λ _, 0) 0 0 0.

Section witnesses.
#[local] Existing Instance sample_layout.
#[local] Existing Instance sample_layout_ok.

Lemma booted : exists s FL, kmalloc_init kmalloc blank = Ok (tt, s) /\ Ready FL s.
Proof. apply kmalloc_init_run. Qed.
(** The free lists after the boot have a page. *)
Lemma booted_page FL : alloc_spec (indexed 7) 10 = Some (HEAP, FL) ->
  exists FL', alloc_spec FL 0 = Some (HEAP + 4194304, FL').
Proof.
  intros E. assert (option_map fst (alloc_spec (indexed 7) 10 ≫= λ x, alloc_spec x.2 0) = Some (HEAP + 4194304))
    as H by (vm_compute; reflexivity).
  rewrite E in H. cbn [mbind option_bind snd] in H.
  destruct (alloc_spec FL 0) as [[p FL']|]; [|done]. injection H as ->. by exists FL'.
Qed.

Lemma get_page_correct_witness : exists s s', kmalloc_init kmalloc blank = Ok (tt, s) /\
  get_page kmalloc 0 s = Ok (12582912, s').
Proof.
  destruct booted as (s & FL & Hs & HR). exists s.
  destruct (get_page_correct s FL [(HEAP, 10)] 0 (ready_buddy _ _ HR)) as [_ Hg].
  destruct (booted_page FL (ready_free _ _ HR)) as (FL' & Ha).
  specialize (Hg ltac:(lia)). rewrite Ha in Hg. destruct Hg as (w' & Hr & _).
  exists (set_word w' s). split; [exact Hs|exact Hr].
Defined.

Lemma free_page_correct_witness : exists s s', kmalloc_init kmalloc blank = Ok (tt, s) /\
  free_page kfree 8388608 10 s = Ok (tt, s').
Proof.
  destruct booted as (s & FL & Hs & HR). exists s.
  destruct (free_page_correct s FL [] HEAP 10 (ready_buddy _ _ HR)) as (w' & Hr & _).
  exists (set_word w' s). split; [exact Hs|exact Hr].
Defined.

Lemma get_page_free_page_witness : exists s s1 s2, kmalloc_init kmalloc blank = Ok (tt, s) /\
  get_page kmalloc 0 s = Ok (12582912, s1) /\ free_page kfree 12582912 0 s1 = Ok (tt, s2).
Proof.
  destruct booted as (s & FL & Hs & HR). exists s.
  pose proof (get_page_run kmalloc s FL [(HEAP, 10)] 0 (ready_buddy _ _ HR) ltac:(lia)) as Hg.
  destruct (booted_page FL (ready_free _ _ HR)) as (FL' & Ha). rewrite Ha in Hg.
  destruct Hg as (w1 & Hr1 & Hp & _). exists (set_word w1 s).
  destruct (get_page_free_page s FL [(HEAP, 10)] 0 (HEAP + 4194304) (set_word w1 s)
    (ready_buddy _ _ HR) ltac:(lia) Hr1 Hp) as (i & L & s2 & _ & Hr2 & _).
  exists s2. split; [exact Hs|]. split; [exact Hr1|exact Hr2].
Defined.

Lemma pages_never_overlap_witness : exists s s1, kmalloc_init kmalloc blank = Ok (tt, s) /\
  get_page kmalloc 0 s = Ok (12582912, s1) /\ pairwise disj [(12582912, 0); (HEAP, 10)].
Proof.
  destruct booted as (s & FL & Hs & HR). exists s.
  pose proof (get_page_run kmalloc s FL [(HEAP, 10)] 0 (ready_buddy _ _ HR) ltac:(lia)) as Hg.
  destruct (booted_page FL (ready_free _ _ HR)) as (FL' & Ha). rewrite Ha in Hg.
  destruct Hg as (w1 & Hr1 & Hp & _). exists (set_word w1 s).
  destruct (pages_never_overlap (set_word w1 s) [(12582912, 0); (HEAP, 10)]) as (_ & Hd & _).
  - eapply reach_step; [eapply reach_init; exact Hs|]. eapply step_get; [exact Hr1|exact Hp].
  - split; [exact Hs|]. split; [exact Hr1|exact Hd].
Defined.
Lemma kmalloc_init_correct_witness : exists s, kmalloc_init kmalloc blank = Ok (tt, s) /\
  page_header s = 5245440 /\ start_slab s = HEAP.
Proof.
  destruct (kmalloc_init_correct blank) as (s & FL & Hs & HR & _). exists s. split; [exact Hs|].
  split; [apply (proj1 (ready_headers _ _ HR))|apply (proj1 (proj2 (ready_slabs _ _ HR)))].
Defined.
End witnesses.
