(* ===== verification/KmallocSlab.v ===== *)
(** * The slab allocator's memory

    Slots: an address and a size in units of 8 bytes, the 16 byte [slab_t] at
    its head included.  [Slots w S F A H] says how the words [w] hold them:
    the free slots [F] in the order of the list at [L1], the used slots [A],
    and slots [H] that an operation is working on, all disjoint and inside the
    pages [S].  The lemmas give each list operation's effect. *)
From S2P Require Import Prelude Kmalloc KmallocRing KmallocBuddy KmallocPages KmallocAlloc KmallocInit.

Abbreviation slot := (Z * Z)%type.
Definition in_slot (x : Z) (b : slot) : Prop := b.1 <= x < b.1 + 8 * b.2.
Definition apart (b c : slot) : Prop := b.1 + 8 * b.2 <= c.1 \/ c.1 + 8 * c.2 <= b.1.
(** An address in one of the pages [S]. *)
Definition in_pages (S : list Z) (x : Z) : Prop := exists p, p ∈ S /\ p <= x < p + 4194304.
Definition fits (S : list Z) (b : slot) : Prop :=
  2 <= b.2 /\ b.1 mod 8 = 0 /\ (HEAP <= b.1 /\ b.1 + 8 * b.2 <= HEAP_END) /\
  forall x, in_slot x b -> in_pages S x.
(** The [size] and [status] of a slot. *)
Definition header (w : Z -> Z) (b : slot) (status : Z) : Prop := w b.1 = b.2 /\ w (b.1 + 4) = status.

(** Distinct numbers below [n] are at most [n]. *)
Lemma length_below n (L : list Z) : NoDup L -> (forall x, x ∈ L -> 0 <= x < n) -> Z.of_nat (length L) <= Z.max 0 n.
Proof.
  intros Hd HL. assert (length L <= length (seqZ 0 n))%nat as H.
  { apply NoDup_incl_length; [by apply NoDup_ListNoDup|]. intros x Hx%list_elem_of_In.
    apply list_elem_of_In, elem_of_seqZ. specialize (HL x Hx). lia. }
  rewrite length_seqZ in H. lia.
Qed.

Lemma apart_sym b c : apart b c -> apart c b.
Proof. unfold apart. lia. Qed.

Lemma ring_mem h (L : list Z) : (forall x, x ∈ L ++ [h] -> x ∈ h :: L).
Proof. set_solver. Qed.

Section slots.
Context {lay : Layout} {Hlay : @LayoutOk lay}.
Implicit Types (w : Z -> Z) (S : list Z) (F A H : list slot) (b : slot).

Record Slots w S F A H : Prop := {
  sl_ring : ring 12 8 w L1 F.*1;
  sl_free b : b ∈ F -> header w b 0;
  sl_used b : b ∈ A -> header w b 1;
  sl_fits : Forall (fits S) (F ++ A ++ H);
  sl_apart : pairwise apart (F ++ A ++ H)
}.

Lemma slot_fits w S F A H b : Slots w S F A H -> b ∈ F ++ A ++ H -> fits S b.
Proof using Type. intros HS Hb. pose proof (sl_fits _ _ _ _ _ HS) as Hf. rewrite Forall_forall in Hf. auto. Qed.
Lemma slots_apart w S F A H b c : Slots w S F A H -> b ∈ F ++ A ++ H -> c ∈ F ++ A ++ H -> b = c \/ apart b c.
Proof using Type. intros HS. apply pairwise_in; [apply apart_sym|apply HS]. Qed.

Lemma l1_range : 4194304 <= L1 /\ L1 + 16 <= 8388608 /\ L1 mod 4 = 0.
Proof using Hlay. destruct layout_l1 as [H _]. unfold HEAP in H. lia. Qed.
Lemma fits_range S b : fits S b -> 8388608 <= b.1 /\ b.1 + 16 <= 67108864 /\ b.1 mod 8 = 0 /\
  2 <= b.2 <= 7340032 /\ b.1 + 8 * b.2 <= 67108864.
Proof using Type. unfold fits, HEAP, HEAP_END. lia. Qed.
Lemma slab_waddr S b f : fits S b \/ b.1 = L1 -> 0 <= f <= 12 -> f mod 4 = 0 -> waddr (b.1 + f).
Proof using Hlay.
  pose proof l1_range. intros [Hb%fits_range|Hb] Hf Hm; unfold waddr; lia_mod.
Qed.
Lemma slab_addr S b : fits S b \/ b.1 = L1 -> 4194304 <= b.1 < 67108864.
Proof using Hlay. pose proof l1_range. intros [Hb%fits_range|Hb]; lia. Qed.

(** *** Frame *)
(** The words the bookkeeping reads: the head of the list, the [slab_t] of a
    free slot, the size and status of a used one. *)
Definition meta F A (x : Z) : Prop :=
  L1 <= x < L1 + 16 \/ (exists b, b ∈ F /\ b.1 <= x < b.1 + 16) \/ (exists b, b ∈ A /\ b.1 <= x < b.1 + 8).
Lemma Slots_frame w w' S F A H :
  (forall x, meta F A x -> w' x = w x) -> Slots w S F A H -> Slots w' S F A H.
Proof using Type.
  intros Hw [H1 H2 H3 H4 H5]. split; [| | |exact H4|exact H5].
  - eapply ring_frame; [exact H1|]. intros x [->|Hx]%elem_of_cons.
    + split; apply Hw; left; lia.
    + apply list_elem_of_fmap in Hx as (b & -> & Hb). split; apply Hw; right; left; exists b; (split; [done|lia]).
  - intros b Hb. unfold header. rewrite !Hw by (right; left; exists b; split; [done|lia]). by apply H2.
  - intros b Hb. unfold header. rewrite !Hw by (right; right; exists b; split; [done|lia]). by apply H3.
Qed.

(** Nothing but the head of the list and the slots [l] changed. *)
Definition region (l : list slot) (x : Z) : Prop := exists b, b ∈ l /\ in_slot x b.
Definition Only l w w' : Prop := forall x, w' x = w x \/ L1 <= x < L1 + 16 \/ region l x.
Lemma Only_trans l w1 w2 w3 : Only l w1 w2 -> Only l w2 w3 -> Only l w1 w3.
Proof using Type. intros H1 H2 x. destruct (H2 x) as [->|]; auto. Qed.
Lemma Only_mono l l' w w' : (forall x, region l x -> region l' x) -> Only l w w' -> Only l' w w'.
Proof using Type. intros Hl H x. destruct (H x) as [|[|]]; auto. Qed.
Lemma Only_refl l w : Only l w w.
Proof using Type. by left. Qed.
Lemma region_sub l l' x : l ⊆ l' -> region l x -> region l' x.
Proof using Type. intros Hl (b & Hb & Hx). exists b. auto. Qed.
Lemma Only_upd l x v w : region l x -> Only l w (upd x v w).
Proof using Type. intros Hx y. destruct (decide (y = x)) as [->|]; [auto|left; by apply upd_ne]. Qed.

Lemma region_apart w S F A H l x b : Slots w S F A H -> b ∈ F ++ A ++ H -> in_slot x b ->
  region l x -> (forall c, c ∈ l -> c ∈ F ++ A ++ H /\ c <> b) -> False.
Proof using Type.
  intros HS Hb Hx (c & Hc & Hxc) Hl. destruct (Hl c Hc) as [Hin Hne].
  destruct (slots_apart _ _ _ _ _ _ _ HS Hb Hin) as [->|Ha]; [done|]. unfold apart, in_slot in *. lia.
Qed.

(** Writing inside a slot that is being worked on. *)
Lemma Slots_hole w w' S F A H :
  Slots w S F A H -> (forall x, w' x = w x \/ region H x) -> Slots w' S F A H.
Proof using Hlay.
  intros HS Hw. eapply Slots_frame; [|exact HS]. intros x Hx. destruct (Hw x) as [|(h & Hh & Hxh)]; [done|].
  assert (h ∈ F ++ A ++ H) as Hin by set_solver. pose proof (slot_fits _ _ _ _ _ _ HS Hin) as Hf%fits_range.
  pose proof l1_range. exfalso. unfold in_slot in Hxh.
  assert (forall b, b ∈ F ++ A -> b.1 <= x < b.1 + 16 -> False) as Hno.
  { intros b Hb Hxb. pose proof (slot_fits _ _ _ _ _ b HS ltac:(set_solver)) as Hf2%fits_range.
    pose proof (sl_apart _ _ _ _ _ HS) as Ha. rewrite app_assoc in Ha. apply pairwise_app in Ha as (_ & _ & Ha).
    specialize (Ha b h Hb Hh). unfold apart in Ha. lia. }
  destruct Hx as [|[(b & Hb & Hxb)|(b & Hb & Hxb)]]; [lia|apply (Hno b); [set_solver|lia]..].
Qed.
Lemma Slots_perm w S F A A' H H' : A ++ H ≡ₚ A' ++ H' -> (forall b, b ∈ A' -> header w b 1) ->
  Slots w S F A H -> Slots w S F A' H'.
Proof using Type.
  intros Hp HA [H1 H2 H3 H4 H5]. assert (F ++ A ++ H ≡ₚ F ++ A' ++ H') as Hp2 by by rewrite Hp.
  split; [done|done|done|by rewrite <-Hp2|eapply pairwise_perm; [apply apart_sym|exact Hp2|done]].
Qed.

Lemma use_slot w S F A H b : header w b 1 -> Slots w S F A (b :: H) -> Slots w S F (b :: A) H.
Proof using Type.
  intros Hb HS. eapply Slots_perm; [| |exact HS]; [by rewrite <-Permutation_middle|].
  intros c Hc. apply elem_of_cons in Hc as [->|Hc]; [done|by eapply sl_used].
Qed.
Lemma release_slot w S F A H b : Slots w S F (b :: A) H -> Slots w S F A (b :: H).
Proof using Type.
  intros HS. eapply Slots_perm; [| |exact HS]; [by rewrite <-Permutation_middle|].
  intros c Hc. eapply sl_used; [exact HS|]. apply elem_of_cons. by right.
Qed.

(** *** The nodes of the list *)
Lemma slots_seps w S F A H : Slots w S F A H -> pairwise (sep 16) (L1 :: F.*1).
Proof using Hlay.
  intros HS. pose proof l1_range. assert (forall b, b ∈ F -> fits S b) as Hf.
  { intros b Hb. apply (slot_fits _ _ _ _ _ _ HS). set_solver. }
  split.
  - apply Forall_forall. intros x (b & -> & Hb)%list_elem_of_fmap. specialize (Hf b Hb). apply fits_range in Hf.
    unfold sep. lia.
  - pose proof (sl_apart _ _ _ _ _ HS) as [Ha _]%pairwise_app. clear HS. induction F as [|b F IH]; [done|].
    destruct Ha as [Ha Hr]. split; [|apply IH; [set_solver|done]]. rewrite Forall_forall in Ha.
    apply Forall_forall. intros x (c & -> & Hc)%list_elem_of_fmap. specialize (Ha c Hc).
    pose proof (fits_range _ _ (Hf b ltac:(set_solver))). pose proof (fits_range _ _ (Hf c ltac:(set_solver))).
    unfold apart, sep in *. lia.
Qed.
Lemma slots_length w S F A H : Slots w S F A H -> Z.of_nat (length F) <= 7340032.
Proof using Hlay.
  intros HS. pose proof (slots_seps _ _ _ _ _ HS) as [_ Hs].
  pose proof (length_below 7340032 (map (λ x, (x - 8388608) / 8) F.*1)) as Hl. rewrite !length_map in Hl.
  assert (forall x, x ∈ F.*1 -> 8388608 <= x < 67108864 /\ x mod 8 = 0) as Hx.
  { intros x (b & -> & Hb)%list_elem_of_fmap. assert (fits S b) as Hf%fits_range; [apply (slot_fits _ _ _ _ _ _ HS); set_solver|lia]. }
  lapply Hl; [intros Hl2; lapply Hl2; [lia|]|].
  - intros q (x & -> & H1%Hx)%list_elem_of_fmap. lia_mod.
  - apply NoDup_fmap_2_strong; [|eapply (seps_NoDup 12 8 16); [lia|exact Hs]].
    intros x y H1%Hx H2%Hx E. lia_mod.
Qed.

(** *** Taking a slot off the list *)
Lemma list_addr w S F A H x : Slots w S F A H -> x ∈ L1 :: F.*1 -> forall f, 0 <= f <= 12 -> f mod 4 = 0 ->
  waddr (x + f).
Proof using Hlay.
  intros HS [->|(b & -> & Hb)%list_elem_of_fmap]%elem_of_cons f Hf Hm.
  - apply (slab_waddr S (L1, 0)); [by right|done..].
  - apply (slab_waddr S); [left|done..]. apply (slot_fits _ _ _ _ _ _ HS). set_solver.
Qed.
Lemma slots_two w S F A H b : Slots w S F A H -> b ∈ F ++ A ++ H -> 2 <= b.2.
Proof using Type. intros HS Hb. by apply (slot_fits _ _ _ _ _ _ HS). Qed.

(** The links of a node are not the header of a slot. *)
Lemma link_ne w S F A H y b f f' : Slots w S F A H -> y ∈ L1 :: (F ++ H).*1 -> b ∈ F ++ A ++ H ->
  0 <= f < 8 -> 8 <= f' < 16 -> b.1 + f <> y + f'.
Proof using Hlay.
  intros HS [->|(c & -> & Hc)%list_elem_of_fmap]%elem_of_cons Hb Hf Hf' E;
    pose proof (fits_range _ _ (slot_fits _ _ _ _ _ _ HS Hb)).
  - pose proof l1_range. lia.
  - assert (c ∈ F ++ A ++ H) as Hc' by set_solver. pose proof (slots_two _ _ _ _ _ c HS Hc').
    destruct (slots_apart _ _ _ _ _ b c HS Hb Hc') as [->|Ha]; [lia|]. unfold apart in Ha. lia.
Qed.

(** Changing the links of the nodes to those of another list. *)
Definition links_only (l : list slot) w w' : Prop :=
  forall x, w' x = w x \/ exists y, y ∈ L1 :: l.*1 /\ (x = y + 8 \/ x = y + 12).
Lemma relink_step w w' S F A H F' H' : Slots w S F A H -> F ++ H ≡ₚ F' ++ H' ->
  links_only (F ++ H) w w' -> ring 12 8 w' L1 F'.*1 -> (forall b, b ∈ F' -> header w b 0) ->
  Slots w' S F' A H' /\ (forall b st, b ∈ F ++ A ++ H -> header w b st -> header w' b st) /\ Only (F ++ H) w w'.
Proof using Hlay.
  intros HS Hp Hw Hr HF.
  assert (forall b st, b ∈ F ++ A ++ H -> header w b st -> header w' b st) as Hh.
  { intros b st Hb [H1 H2]. rewrite <-(Z.add_0_r b.1) in H1 at 1. unfold header. rewrite <-(Z.add_0_r b.1) at 1.
    split; [destruct (Hw (b.1 + 0)) as [->|(y & Hy & E)]|destruct (Hw (b.1 + 4)) as [->|(y & Hy & E)]]; try done;
      exfalso; destruct E as [E|E]; (eapply link_ne; [exact HS|exact Hy|exact Hb| |  |exact E]; lia). }
  assert (F ++ A ++ H ≡ₚ F' ++ A ++ H') as Hp2.
  { rewrite (Permutation_app_comm A H), (Permutation_app_comm A H'), !app_assoc. by rewrite Hp. }
  split; [|split; [exact Hh|]].
  - split; [done| | | |].
    + intros b Hb. apply Hh; [rewrite Hp2; set_solver|by apply HF].
    + intros b Hb. apply Hh; [set_solver|by apply HS].
    + rewrite <-Hp2. apply HS.
    + eapply pairwise_perm; [apply apart_sym|exact Hp2|apply HS].
  - intros x. destruct (Hw x) as [|(y & Hy & E)]; [by left|right].
    apply elem_of_cons in Hy as [->|(b & -> & Hb)%list_elem_of_fmap]; [left; lia|right].
    exists b. split; [done|]. pose proof (slots_two _ _ _ _ _ b HS ltac:(set_solver)). unfold in_slot. lia.
Qed.

Lemma take_step s S F1 b F2 A H : Slots (word s) S (F1 ++ b :: F2) A H ->
  exists w', slab_list_remove b.1 s = Ok (tt, set_word w' s) /\
    Slots w' S (F1 ++ F2) A (b :: H) /\ header w' b 0 /\ Only (F1 ++ b :: F2 ++ H) (word s) w' /\
    forall h st, h ∈ H -> header (word s) h st -> header w' h st.
Proof using Hlay.
  intros HS. pose proof (sl_ring _ _ _ _ _ HS) as Hr. pose proof (slots_seps _ _ _ _ _ HS) as Hs.
  assert (forall y, y ∈ L1 :: F1.*1 ++ b.1 :: F2.*1 -> y ∈ L1 :: (F1 ++ b :: F2).*1) as Hsub
    by (intros y; by rewrite fmap_app, fmap_cons).
  rewrite fmap_app, fmap_cons in Hr, Hs. set (l := last_node L1 F1.*1). set (n := hd L1 F2.*1).
  destruct (ring_at 12 8 _ _ _ _ _ Hr) as [Hn Hl]. fold l in Hn. fold n in Hl.
  assert (l ∈ L1 :: F1.*1) as Hlin by apply last_node_in.
  assert (n ∈ L1 :: F2.*1) as Hnin by (apply ring_mem, hd_in).
  assert (Hlw := list_addr _ _ _ _ _ l HS (Hsub l ltac:(set_solver))).
  assert (Hnw := list_addr _ _ _ _ _ n HS (Hsub n ltac:(set_solver))).
  assert (Hbw := list_addr _ _ _ _ _ b.1 HS (Hsub b.1 ltac:(set_solver))).
  assert (0 <= l < 4294967296 /\ 0 <= n < 4294967296) as [Hl32 Hn32].
  { pose proof (Hlw 0 ltac:(lia) eq_refl). pose proof (Hnw 0 ltac:(lia) eq_refl). unfold waddr in *. lia. }
  assert (forall f, 0 <= f < 16 -> b.1 + f <> l + 12) as Hne.
  { intros f Hf E. change (pairwise (sep 16) ((L1 :: F1.*1) ++ b.1 :: F2.*1)) in Hs.
    apply pairwise_app in Hs as (_ & _ & Hs). specialize (Hs l b.1 Hlin ltac:(set_solver)). unfold sep in Hs. lia. }
  set (w' := upd (n + 8) l (upd (l + 12) n (word s))).
  assert (unlinked 12 8 (word s) w' l n) as Hu.
  { apply (unlink_mem 12 8 16 ltac:(lia) _ (L1 :: (F1.*1 ++ b.1 :: F2.*1))); [done|set_solver..]. }
  exists w'. split.
  - unfold slab_list_remove, s_last, s_next. rewrite !ld_bind by (apply Hbw; lia || done).
    rewrite Hl, Hn, st_bind by (apply Hlw || lia; lia || done).
    rewrite !ld_bind by (apply Hbw; lia || done). cbn [word set_word].
    rewrite !upd_ne, Hl, Hn by (apply Hne; lia). rewrite st_ok by (apply Hnw || lia; lia || done). done.
  - destruct (relink_step (word s) w' S (F1 ++ b :: F2) A H (F1 ++ F2) (b :: H) HS) as (HS' & Hh & HO).
    + rewrite <-!app_assoc. apply Permutation_app_head, Permutation_middle.
    + intros x. destruct (decide (x = l + 12)) as [->|H1]; [|destruct (decide (x = n + 8)) as [->|H2]].
      * right. exists l. rewrite fmap_app. set_solver.
      * right. exists n. rewrite fmap_app. set_solver.
      * left. by apply Hu.
    + rewrite fmap_app. eapply (ring_remove 12 8 16); [lia|exact Hr|exact Hs|exact Hu].
    + intros c Hc. apply HS. set_solver.
    + split; [done|]. split; [apply Hh; [set_solver|apply HS; set_solver]|].
      split; [by rewrite <-app_assoc in HO|]. intros h st Hin. apply Hh. set_solver.
Qed.

Lemma push_run s p l : word s (L1 + 8) = l -> 0 <= l < 4294967296 -> 0 <= p < 4294967296 ->
  waddr (l + 12) -> waddr (p + 8) -> waddr (p + 12) ->
  slab_list_push L1 p s = Ok (tt, set_word (push_mem 12 8 (word s) L1 p) s).
Proof using Hlay.
  intros Hl Hl32 Hp32 H1 H2 H3. pose proof l1_range. unfold slab_list_push, s_last, s_next, push_mem.
  rewrite ld_bind by (unfold waddr; lia_mod). rewrite Hl, !st_bind by (done || lia).
  by rewrite st_ok by first [unfold waddr; lia_mod|lia].
Qed.
Lemma slab_push_step s S F A H b : Slots (word s) S F A (b :: H) -> header (word s) b 0 ->
  exists w', slab_list_push L1 b.1 s = Ok (tt, set_word w' s) /\
    Slots w' S (F ++ [b]) A H /\ Only (F ++ b :: H) (word s) w'.
Proof using Hlay.
  intros HS Hb. pose proof (sl_ring _ _ _ _ _ HS) as Hr. pose proof (slots_seps _ _ _ _ _ HS) as Hs.
  assert (b ∈ F ++ A ++ b :: H) as Hbin by set_solver.
  pose proof (slot_fits _ _ _ _ _ _ HS Hbin) as Hf.
  assert (Hbw := slab_waddr S b). pose proof (ring_last _ _ _ _ _ Hr) as Hl.
  set (l := last_node L1 F.*1) in *.
  assert (l ∈ L1 :: F.*1) as Hlin by apply last_node_in.
  assert (Hlw := list_addr _ _ _ _ _ l HS Hlin).
  assert (0 <= l < 4294967296 /\ 0 <= b.1 < 4294967296) as (Hl32 & Hb32).
  { pose proof (Hlw 0 ltac:(lia) eq_refl). pose proof (fits_range _ _ Hf). pose proof l1_range. unfold waddr in *. lia. }
  exists (push_mem 12 8 (word s) L1 b.1). split.
  - apply (push_run s b.1 l); [done|done|done|apply Hlw; [lia|done]|apply Hbw; [by left|lia|done]..].
  - destruct (relink_step (word s) (push_mem 12 8 (word s) L1 b.1) S F A (b :: H) (F ++ [b]) H HS) as (HS' & _ & HO).
    + by rewrite <-app_assoc.
    + intros x. unfold push_mem. rewrite Hl. unfold upd.
      repeat (match goal with |- context [if ?a =? ?c then _ else _] => destruct (Z.eqb_spec a c) as [->|] end);
        [right; exists L1|right; exists l|right; exists b.1|right; exists b.1|by left];
        rewrite fmap_app; split; try (by left); try (by right); set_solver.
    + rewrite fmap_app. apply (ring_push 12 8 16); [lia|done|done|]. intros x Hx.
      pose proof (fits_range _ _ Hf). pose proof l1_range. unfold sep.
      apply elem_of_cons in Hx as [->|(c & -> & Hc)%list_elem_of_fmap]; [lia|].
      assert (c ∈ F ++ A ++ b :: H) as Hcin by set_solver.
      pose proof (fits_range _ _ (slot_fits _ _ _ _ _ _ HS Hcin)).
      pose proof (sl_apart _ _ _ _ _ HS) as (_ & _ & Hpa)%pairwise_app.
      specialize (Hpa c b Hc ltac:(set_solver)). unfold apart in Hpa. lia.
    + intros c [Hc|Hc%list_elem_of_singleton]%elem_of_app; [by apply HS|by subst].
    + done.
Qed.

(** *** Cutting and joining what an operation works on *)
Lemma regroup w S F A K K' H : Slots w S F A (K ++ H) -> Forall (fits S) K' -> pairwise apart K' ->
  (forall x, region K' x -> region K x) -> Slots w S F A (K' ++ H).
Proof using Type.
  intros HS Hf Hp Hr. pose proof (sl_apart _ _ _ _ _ HS) as Ha.
  assert (forall K : list slot, F ++ A ++ K ++ H ≡ₚ K ++ F ++ A ++ H) as Hperm.
  { intros L. by rewrite (Permutation_app_swap_app A L H), (Permutation_app_swap_app F L). }
  apply (pairwise_perm _ apart_sym _ _ (Hperm K)), pairwise_app in Ha as (HK & Hrest & Hx).
  pose proof (sl_fits _ _ _ _ _ HS) as Hfit. rewrite Hperm, Forall_app in Hfit. destruct Hfit as [_ Hfit].
  destruct HS as [H1 H2 H3 _ _]. split; [done..| |].
  - rewrite Hperm. by apply Forall_app.
  - apply (pairwise_perm _ apart_sym _ _ (symmetry (Hperm K'))), pairwise_app. split; [done|]. split; [done|].
    intros c d Hc Hd. rewrite Forall_forall in Hf, Hfit. destruct (Hf c Hc) as [Hc2 _], (Hfit d Hd) as [Hd2 _].
    unfold apart. destruct (Z.le_gt_cases (c.1 + 8 * c.2) d.1) as [|E1]; [by left|].
    destruct (Z.le_gt_cases (d.1 + 8 * d.2) c.1) as [|E2]; [by right|]. exfalso.
    destruct (Hr (Z.max c.1 d.1)) as (k & Hk & Hxk).
    { exists c. split; [done|]. unfold in_slot. lia. }
    specialize (Hx k d Hk Hd). unfold apart, in_slot in *. lia.
Qed.

Lemma split_slot w S F A H a n m : Slots w S F A ((a, n + m) :: H) -> 2 <= n -> 2 <= m ->
  Slots w S F A ((a, n) :: (a + 8 * n, m) :: H).
Proof using Type.
  intros HS Hn Hm. assert ((a, n + m) ∈ F ++ A ++ (a, n + m) :: H) as Hin
    by (rewrite !elem_of_app; right; right; apply elem_of_cons; by left).
  pose proof (slot_fits _ _ _ _ _ _ HS Hin) as (_ & Hm8 & Hr & Hp). cbn [fst snd] in *.
  apply (regroup w S F A [(a, n + m)] [(a, n); (a + 8 * n, m)] H HS).
  - repeat constructor; cbn [fst snd]; try lia; try (lia_mod).
    + intros x Hx. apply Hp. unfold in_slot in *. cbn [fst snd] in *. lia.
    + intros x Hx. apply Hp. unfold in_slot in *. cbn [fst snd] in *. lia.
  - split; [|by split]. apply Forall_singleton. left. cbn [fst snd]. lia.
  - intros x (c & Hc & Hx). exists (a, n + m). split; [by apply list_elem_of_here|].
    apply elem_of_cons in Hc as [->|Hc%list_elem_of_singleton]; [|subst c]; unfold in_slot in *; cbn [fst snd] in *; lia.
Qed.
Lemma join_slots w S F A H a n m : Slots w S F A ((a, n) :: (a + 8 * n, m) :: H) ->
  Slots w S F A ((a, n + m) :: H).
Proof using Type.
  intros HS. set (b := (a, n)) in *. set (c := (a + 8 * n, m)) in *.
  assert (b ∈ F ++ A ++ b :: c :: H) as Hb by (rewrite !elem_of_app, !elem_of_cons; tauto).
  assert (c ∈ F ++ A ++ b :: c :: H) as Hc by (rewrite !elem_of_app, !elem_of_cons; tauto).
  pose proof (slot_fits _ _ _ _ _ _ HS Hb) as (H1 & H2 & H3 & H4).
  pose proof (slot_fits _ _ _ _ _ _ HS Hc) as (H5 & H6 & H7 & H8). unfold b, c, in_slot in *. cbn [fst snd] in *.
  apply (regroup w S F A [(a, n); (a + 8 * n, m)] [(a, n + m)] H HS).
  - repeat constructor; unfold in_slot; cbn [fst snd]; try lia. intros x Hx.
    destruct (Z.lt_ge_cases x (a + 8 * n)); [apply H4|apply H8]; lia.
  - split; [apply Forall_nil|done]. done.
  - intros x (d & Hd & Hx). apply list_elem_of_singleton in Hd as ->. unfold in_slot in Hx. cbn [fst snd] in Hx.
    destruct (Z.lt_ge_cases x (a + 8 * n)); [exists (a, n)|exists (a + 8 * n, m)];
      (split; [rewrite !elem_of_cons; tauto|]); unfold in_slot; cbn [fst snd]; lia.
Qed.

(** A page joins the slabs. *)
Lemma fits_mono S S' b : S ⊆ S' -> fits S b -> fits S' b.
Proof using Type.
  intros Hs (H1 & H2 & H3 & H4). split_and!; try done; [apply H3..|]. intros x Hx.
  destruct (H4 x Hx) as (p & Hp & Hr). exists p. auto.
Qed.
Lemma add_page w S F A H p : Slots w S F A H -> HEAP <= p -> p + 4194304 <= HEAP_END -> p mod 8 = 0 ->
  (forall x, p <= x < p + 4194304 -> ~ in_pages S x) -> Slots w (p :: S) F A ((p, PAGE_SLAB) :: H).
Proof using Type.
  intros [H1 H2 H3 H4 H5] Hp1 Hp2 Hm Hd. unfold PAGE_SLAB, PAGE_SIZE_4MB, SLAB_SIZE.
  change (4194304 / 8) with 524288.
  assert (F ++ A ++ (p, 524288) :: H ≡ₚ (p, 524288) :: F ++ A ++ H) as Hperm
    by (rewrite (app_assoc F A), <-Permutation_middle; by rewrite app_assoc).
  assert (S ⊆ p :: S) as Hs by (intros x Hx; apply elem_of_cons; by right).
  split; [done..| |].
  - rewrite Hperm. constructor.
    + split; [|split; [|split]]; cbn [fst snd]; try lia. intros x Hx. exists p. split; [by apply list_elem_of_here|].
      unfold in_slot in Hx. cbn [fst snd] in Hx. lia.
    + eapply Forall_impl; [exact H4|]. intros b. by apply fits_mono.
  - eapply pairwise_perm; [apply apart_sym|symmetry; exact Hperm|]. split; [|done].
    apply Forall_forall. intros b Hb. rewrite Forall_forall in H4. destruct (H4 b Hb) as (Hb2 & _ & _ & Hbp).
    unfold apart. cbn [fst snd]. destruct (Z.le_gt_cases (p + 8 * 524288) b.1) as [|E1]; [by left|].
    destruct (Z.le_gt_cases (b.1 + 8 * b.2) p) as [|E2]; [by right|]. exfalso.
    apply (Hd (Z.max p b.1)); [lia|]. apply Hbp. unfold in_slot. lia.
Qed.
End slots.
