(* ===== verification/KmallocSlabOps.v ===== *)
(** * [slab_alloc] and [slab_free] against lists of slots

    The abstract allocator: the first free slot that is big enough, cut to
    size ([first_fit], [rest_of]); a freed slot joined with its neighbours
    ([absorb]). *)
From S2P Require Import Prelude Kmalloc KmallocRing KmallocBuddy KmallocPages KmallocAlloc KmallocFree KmallocInit KmallocSource KmallocSlab.

(** ** The abstract allocator *)
(** The first free slot of at least [n] units, with what is before and after. *)
Fixpoint first_fit (n : Z) (F : list slot) : option (list slot * slot * list slot) :=
  match F with
  | [] => None
  | b :: F =>
      if n <=? b.2 then Some ([], b, F) else
      match first_fit n F with Some (F1, c, F2) => Some (b :: F1, c, F2) | None => None end
  end.
(** What is left of a slot when its first [n] units are taken. *)
Definition rest_of (n : Z) (b : slot) : list slot :=
  if b.2 =? n then [] else [(b.1 + 8 * n, b.2 - n)].
(** The units of a request of [size] bytes, with the [slab_t]. *)
Definition units (size : Z) : Z := (size + 23) / 8.

Lemma first_fit_some n F F1 b F2 : first_fit n F = Some (F1, b, F2) ->
  F = F1 ++ b :: F2 /\ n <= b.2 /\ forall c, c ∈ F1 -> c.2 < n.
Proof.
  revert F1. induction F as [|c F IH]; intros F1 H; [done|]. cbn in H. destruct (Z.leb_spec n c.2).
  - injection H as <- <- <-. split; [done|]. split; [done|]. set_solver.
  - destruct (first_fit n F) as [[[G1 d] G2]|]; [|done]. injection H as <- -> ->.
    destruct (IH G1 eq_refl) as (-> & H1 & H2). split; [done|]. split; [done|].
    intros e [->|He]%elem_of_cons; auto.
Qed.
Lemma first_fit_none n F : first_fit n F = None -> forall c, c ∈ F -> c.2 < n.
Proof.
  induction F as [|c F IH]; intros H; [set_solver|]. cbn in H. destruct (Z.leb_spec n c.2); [done|].
  destruct (first_fit n F) as [[[G1 d] G2]|]; [done|]. intros e [->|He]%elem_of_cons; auto.
Qed.

(** ** Looking for a slot *)
Section search.
Context {lay : Layout} {Hlay : @LayoutOk lay}.
Implicit Types (w : Z -> Z) (S : list Z) (F A H : list slot).

Lemma find_body s S n F1 b F2 A : Slots (word s) S (F1 ++ b :: F2) A [] ->
  if n <=? b.2 then exists w', find_slab_body n L1 b.1 s = Ok (inr b.1, set_word w' s) /\
    Slots w' S (F1 ++ F2) A [b] /\ header w' b 0 /\ Only (F1 ++ b :: F2) (word s) w'
  else find_slab_body n L1 b.1 s = Ok (inl (hd L1 F2.*1), s).
Proof using Hlay.
  intros HS. assert (b ∈ F1 ++ b :: F2) as Hb by set_solver.
  assert (b ∈ (F1 ++ b :: F2) ++ A ++ []) as Hin by set_solver.
  pose proof (slot_fits _ _ _ _ _ _ HS Hin) as Hf. pose proof (fits_range _ _ Hf). pose proof l1_range.
  destruct (sl_free _ _ _ _ _ HS b Hb) as [Hsz _].
  assert (Hbw := slab_waddr S b). unfold find_slab_body, s_size, s_next.
  rewrite (proj2 (Z.eqb_neq b.1 L1)) by lia.
  assert (waddr b.1) as Hw0 by (rewrite <-(Z.add_0_r b.1); apply Hbw; [by left|lia|done]).
  destruct (Z.leb_spec n b.2) as [Hn|Hn]; [destruct (take_step s S F1 b F2 A [] HS) as (w' & Hr & HS' & Hh & HO & _); exists w'; split|].
  - rewrite ld_bind by done. rewrite Hsz, i32_id, (proj2 (Z.leb_le n b.2)) by lia. by rewrite (bind_ok _ _ _ _ _ Hr).
  - split; [done|split; [done|by rewrite !app_nil_r in HO]].
  - rewrite ld_bind by done. rewrite Hsz, i32_id, (proj2 (Z.leb_gt n b.2)) by lia.
    rewrite ld_bind by (apply Hbw; [by left|lia|done]).
    pose proof (sl_ring _ _ _ _ _ HS) as Hr. rewrite fmap_app, fmap_cons in Hr.
    destruct (ring_at 12 8 _ _ _ _ _ Hr) as [_ ->]. done.
Qed.

Lemma find_loop s S n F1 F2 A m : Slots (word s) S (F1 ++ F2) A [] -> (length F2 < m)%nat ->
  match first_fit n F2 with
  | Some (G1, b, G2) => exists w', iter m (find_slab_body n L1) (hd L1 F2.*1) s = Ok (b.1, set_word w' s) /\
      Slots w' S (F1 ++ G1 ++ G2) A [b] /\ header w' b 0 /\ Only (F1 ++ F2) (word s) w'
  | None => iter m (find_slab_body n L1) (hd L1 F2.*1) s = Ok (L1, s)
  end.
Proof using Hlay.
  revert F1 m. induction F2 as [|b F2 IH]; intros F1 m HS Hm; destruct m as [|m]; try (cbn in Hm; lia).
  - cbn. unfold find_slab_body. by rewrite Z.eqb_refl.
  - pose proof (find_body s S n F1 b F2 A HS) as Hb. rewrite fmap_cons. cbn [hd first_fit iter].
    destruct (n <=? b.2).
    + destruct Hb as (w' & Hr & Hrest). exists w'. by erewrite bind_ok by exact Hr.
    + assert (Slots (word s) S ((F1 ++ [b]) ++ F2) A []) as HS' by by rewrite <-app_assoc.
      specialize (IH (F1 ++ [b]) m HS' ltac:(cbn in Hm; lia)).
      destruct (first_fit n F2) as [[[G1 c] G2]|].
      * destruct IH as (w' & Hr & HS2 & Hh & HO). exists w'. erewrite bind_ok by exact Hb.
        rewrite <-!app_assoc in *. done.
      * by erewrite bind_ok by exact Hb.
Qed.
Lemma find_slab_run s S n F A : slab_free_list s = L1 -> Slots (word s) S F A [] ->
  match first_fit n F with
  | Some (F1, b, F2) => exists w', find_slab n s = Ok (b.1, set_word w' s) /\
      Slots w' S (F1 ++ F2) A [b] /\ header w' b 0 /\ Only F (word s) w'
  | None => find_slab n s = Ok (L1, s)
  end.
Proof using Hlay.
  intros HL HS. pose proof (slots_length _ _ _ _ _ HS) as Hlen.
  assert (find_slab n s = iter list_fuel (find_slab_body n L1) (hd L1 F.*1) s) as ->.
  { unfold find_slab. erewrite bind_ok by done. rewrite HL. unfold s_next. pose proof l1_range.
    rewrite ld_bind by (unfold waddr; lia_mod).
    by rewrite (ring_first 12 8 _ _ _ (sl_ring _ _ _ _ _ HS)). }
  apply (find_loop s S n [] F A list_fuel HS). apply Nat2Z.inj_lt. rewrite list_fuel_Z. lia.
Qed.

(** The part of [slab_alloc] after the search, on a slot that is found. *)
Lemma cut_run s S F A b n : Slots (word s) S F A [b] -> header (word s) b 0 ->
  2 <= n <= b.2 -> b.2 <> n + 1 ->
  exists w', (st (s_status b.1) 1 ;;
    sz ← ld (s_size b.1);
    if i32 sz =? n then mret (u32 (b.1 + sizeof_slab)) else
    let ns := u32 (b.1 + n * SLAB_SIZE) in
    sz ← ld (s_size b.1);
    st (s_size ns) (i32 sz - n) ;;
    st (s_status ns) 0 ;;
    st (s_size b.1) n ;;
    slab_list_push L1 ns ;;
    mret (u32 (b.1 + sizeof_slab))) s = Ok (b.1 + 16, set_word w' s) /\
    Slots w' S (F ++ rest_of n b) ((b.1, n) :: A) [] /\ Only (F ++ [b]) (word s) w'.
Proof using Hlay.
  intros HS [Hsz Hst] Hn Hne.
  assert (b ∈ F ++ A ++ [b]) as Hin by (rewrite !elem_of_app, list_elem_of_singleton; tauto).
  pose proof (slot_fits _ _ _ _ _ _ HS Hin) as Hf. pose proof (fits_range _ _ Hf) as Hr.
  destruct b as [a m]. cbn [fst snd] in *.
  assert (forall f, 0 <= f < 8 * m -> f mod 4 = 0 -> waddr (a + f)) as Hw by (intros f H1 H2; unfold waddr; lia_mod).
  assert (forall x, a <= x < a + 8 * m -> region [(a, m)] x) as Hreg.
  { intros x Hx. exists (a, m). split; [by apply list_elem_of_here|]. unfold in_slot. cbn [fst snd]. lia. }
  pose proof (Hw 0 ltac:(lia) eq_refl) as Hw0. rewrite Z.add_0_r in Hw0.
  unfold s_status, s_size, sizeof_slab, SLAB_SIZE. rewrite st_bind by (apply Hw || lia; lia || done).
  rewrite ld_bind by done. cbn [word set_word]. rewrite upd_ne, Hsz, i32_id by lia.
  destruct (Z.eqb_spec m n) as [->|Hmn].
  - exists (upd (a + 4) 1 (word s)). rewrite u32_id by lia. split; [done|]. unfold rest_of. cbn [fst snd].
    rewrite Z.eqb_refl, app_nil_r. split.
    + apply use_slot; [split; cbn [fst snd]; [by rewrite upd_ne by lia|apply upd_eq]|].
      eapply Slots_hole; [exact HS|]. intros x. destruct (decide (x = a + 4)) as [->|]; [right; apply Hreg; lia|].
      left. by apply upd_ne.
    + eapply Only_mono; [|apply (Only_upd [(a, n)]), Hreg; lia]. intros x. apply region_sub. set_solver.
  - rewrite !u32_id by lia. rewrite ld_bind by done. cbn [word set_word]. rewrite upd_ne, Hsz, i32_id by lia.
    replace (a + n * 8) with (a + 8 * n) by lia. pose proof (Hw (8 * n) ltac:(lia) ltac:(lia_mod)) as Hw8.
    rewrite st_bind by (done || lia). replace (a + 8 * n + 4) with (a + (8 * n + 4)) by lia.
    rewrite st_bind by (apply Hw || lia; lia || lia_mod). rewrite st_bind by (done || lia). rewrite !set_word_set.
    cbn [word set_word]. set (w4 := upd a n _).
    assert (forall x, w4 x = word s x \/ region [(a, m)] x) as HW.
    { intros x. unfold w4, upd.
      repeat (match goal with |- context [if ?a =? ?c then _ else _] => destruct (Z.eqb_spec a c) as [->|] end);
        [right; apply Hreg; lia..|by left]. }
    assert (Slots w4 S F A [(a, n); (a + 8 * n, m - n)]) as HS4.
    { apply split_slot; [|lia|lia]. replace (n + (m - n)) with m by lia. by eapply Slots_hole. }
    assert (header w4 (a, n) 1 /\ header w4 (a + 8 * n, m - n) 0) as [Hh1 Hh2].
    { split; split; cbn [fst snd]; unfold w4; repeat (rewrite upd_ne by lia); rewrite ?upd_eq; try done.
      - replace (a + (8 * n + 4)) with (a + 8 * n + 4) by lia. apply upd_eq. }
    destruct (slab_push_step (set_word w4 s) S F ((a, n) :: A) [] (a + 8 * n, m - n)) as (w5 & Hp & HS5 & HO5);
      [by apply use_slot|done|]. cbn [fst snd] in Hp. erewrite bind_ok by exact Hp.
    exists w5. split; [done|]. unfold rest_of. cbn [fst snd]. rewrite (proj2 (Z.eqb_neq m n) Hmn). split; [done|].
    eapply Only_trans; [|eapply Only_mono; [|exact HO5]].
    + intros x. destruct (HW x) as [|Hx]; [by left|right; right]. eapply region_sub; [|exact Hx]. set_solver.
    + cbn [word set_word]. intros x (c & Hc & Hx). apply elem_of_app in Hc as [Hc|Hc%list_elem_of_singleton].
      * exists c. split; [set_solver|done].
      * subst c. exists (a, m). split; [set_solver|]. unfold in_slot in *. cbn [fst snd] in *. lia.
Qed.
End search.

Section slabs.
Context {lay : Layout} {Hlay : @LayoutOk lay}.
Context (Inv : kstate -> list (Z * Z) -> Prop) {PS : PageSource foreign Inv}.
Implicit Types (w : Z -> Z) (S : list Z) (Q : list (Z * Z)) (F A H : list slot).

(** The slab pages [S] and the other pages that are out, [Q]. *)
Definition out S Q : list (Z * Z) := map (λ p, (p, 10)) S ++ Q.
Record Slabs (s : kstate) S Q F A : Prop := {
  sb_inv : Inv s (out S Q);
  sb_list : slab_free_list s = L1;
  sb_slots : Slots (word s) S F A []
}.

(** What the operations leave alone: the used slots, the other pages, and the
    kernel's words but the head of the list. *)
Definition skept A Q (x : Z) : Prop := kept Q x /\ ~ (L1 <= x < L1 + 16) \/ region A x.
Definition SKeep A Q w w' : Prop := forall x, skept A Q x -> w' x = w x.
Lemma SKeep_trans A Q w1 w2 w3 : SKeep A Q w1 w2 -> SKeep A Q w2 w3 -> SKeep A Q w1 w3.
Proof using Type. intros H1 H2 x Hx. by rewrite H2, H1. Qed.

Lemma page_of S Q s p : Inv s (out S Q) -> p ∈ S -> valid (p, 10) /\ (p, 10) ∈ out S Q.
Proof using PS.
  intros HI Hp. assert ((p, 10) ∈ out S Q) as Hin.
  { unfold out. apply elem_of_app. left. by apply (list_elem_of_fmap_2 (λ p, (p, 10))). }
  split; [|done]. by eapply (ps_valid Inv).
Qed.
Lemma slot_page s S Q b x : Inv s (out S Q) -> fits S b -> in_slot x b ->
  exists p, (p, 10) ∈ out S Q /\ inside x (p, 10).
Proof using PS.
  intros HI (_ & _ & _ & Hf) Hx. destruct (Hf x Hx) as (p & Hp & Hr). exists p.
  split; [by eapply page_of|]. unfold inside. cbn [fst snd]. by change (bsz 10) with 4194304.
Qed.
(** A slot is none of the other pages' and none of the kernel's words. *)
Lemma slot_not_kept s S Q b x : Inv s (out S Q) -> fits S b -> in_slot x b -> ~ kept Q x.
Proof using Hlay PS.
  intros HI Hf Hx Hk. pose proof (fits_range _ _ Hf). unfold in_slot in Hx.
  destruct Hk as [Hk|(q & Hq & Hxq)]; [unfold HEAP in Hk; lia|].
  pose proof (ps_tiles _ _ HI) as [_ HD]. apply pairwise_app in HD as (_ & _ & HD).
  destruct Hf as (_ & _ & _ & Hf). destruct (Hf x Hx) as (p & Hp & Hr).
  specialize (HD (p, 10) q ltac:(by apply (list_elem_of_fmap_2 (λ p, (p, 10)))) Hq).
  unfold disj, inside in *. cbn [fst snd] in *. change (bsz 10) with 4194304 in HD. lia.
Qed.

(** The end of an operation: what it worked on were free slots and slots [B]. *)
Lemma slabs_close s S Q F A H B C w' F' A' :
  Inv s (out S Q) -> slab_free_list s = L1 -> Slots (word s) S F A H -> A ++ H ≡ₚ B ++ C ->
  Only (F ++ B) (word s) w' -> Slots w' S F' A' [] ->
  Slabs (set_word w' s) S Q F' A' /\ SKeep C Q (word s) w'.
Proof using Hlay PS.
  intros HI HL HS HA HO HS'. assert (F ++ A ++ H ≡ₚ (F ++ B) ++ C) as Hp by by rewrite HA, app_assoc.
  assert (forall b, b ∈ F ++ B \/ b ∈ C -> fits S b) as Hfit.
  { intros b Hb. apply (slot_fits _ _ _ _ _ _ HS). rewrite Hp, elem_of_app. done. }
  split; [split; [|done|done]|].
  - apply ps_ext; [done|]. intros x. destruct (HO x) as [|[Hx|(b & Hb & Hx)]]; [by left| |].
    + right. left. pose proof layout_l1 as (H1 & H2 & H3 & H4 & _). unfold foreign. lia.
    + right. right. destruct (slot_page s S Q b x HI (Hfit b (or_introl Hb)) Hx) as (p & Hpx). by exists (p, 10).
  - intros x Hx. destruct (HO x) as [|[Hl|(b & Hb & Hxb)]]; [done| |]; exfalso.
    + destruct Hx as [[_ Hx]|(b & Hb & Hx)]; [done|]. pose proof l1_range.
      pose proof (fits_range _ _ (Hfit b (or_intror Hb))). unfold in_slot in Hx. lia.
    + destruct Hx as [[Hk _]|(c & Hc & Hx)].
      * by eapply (slot_not_kept s S Q b x HI (Hfit b (or_introl Hb))).
      * pose proof (pairwise_perm _ apart_sym _ _ Hp (sl_apart _ _ _ _ _ HS)) as (_ & _ & Ha)%pairwise_app.
        specialize (Ha b c Hb Hc). unfold apart, in_slot in *. lia.
Qed.

(** What [get_page] and [free_page] do to the rest of the kernel does not
    touch the slots. *)
Lemma slots_keep s S Q F A H w' : Inv s (out S Q) -> Slots (word s) S F A H -> Keep (out S Q) (word s) w' ->
  Slots w' S F A H.
Proof using Hlay PS.
  intros HI HS HK. eapply Slots_frame; [|exact HS]. intros x Hx. apply HK. destruct Hx as [Hx|Hx].
  - left. pose proof layout_l1 as (H1 & H2 & H3 & H4 & _). lia.
  - right. assert (exists b, b ∈ F ++ A ++ H /\ in_slot x b) as (b & Hb & Hxb).
    { destruct Hx as [(b & Hb & Hxb)|(b & Hb & Hxb)]; exists b; (split; [rewrite !elem_of_app; tauto|]);
        assert (b ∈ F ++ A ++ H) as Hin by (rewrite !elem_of_app; tauto);
        pose proof (slots_two _ _ _ _ _ _ HS Hin); unfold in_slot; lia. }
    destruct (slot_page s S Q b x HI (slot_fits _ _ _ _ _ _ HS Hb) Hxb) as (p & Hp). by exists (p, 10).
Qed.
Lemma keep_skeep s S Q F A H w' : Inv s (out S Q) -> Slots (word s) S F A H -> Keep (out S Q) (word s) w' ->
  SKeep A Q (word s) w'.
Proof using Hlay PS.
  intros HI HS HK x [[Hx _]|(b & Hb & Hx)]; apply HK.
  - destruct Hx as [Hx|(q & Hq & Hx)]; [by left|right]. exists q. split; [|done]. unfold out.
    apply elem_of_app. by right.
  - right. assert (b ∈ F ++ A ++ H) as Hin by (rewrite !elem_of_app; tauto).
    destruct (slot_page s S Q b x HI (slot_fits _ _ _ _ _ _ HS Hin) Hx) as (p & Hp). by exists (p, 10).
Qed.

(** *** [slab_space_grow] *)
Lemma new_page_apart s S Q p : Inv s ((p, 10) :: out S Q) ->
  HEAP <= p /\ p + 4194304 <= HEAP_END /\ p mod 8 = 0 /\ (forall x, p <= x < p + 4194304 -> ~ in_pages S x) /\
  p mod 4194304 = 0.
Proof using PS.
  intros HI. pose proof (ps_tiles _ _ HI) as [HV [HD _]]. apply Forall_cons in HV as [Hv _].
  pose proof (valid_range _ Hv) as Hr. destruct Hv as (_ & q & _ & Hq). cbn [fst snd] in *.
  change (bsz 10) with 4194304 in *. unfold HEAP, HEAP_END in *.
  split; [lia|]. split; [lia|]. split; [lia_mod|]. split; [|lia_mod].
  intros x Hx (p' & Hp' & Hx'). rewrite Forall_forall in HD.
  specialize (HD (p', 10)). unfold out, disj in HD. cbn [fst snd] in HD. change (bsz 10) with 4194304 in HD.
  specialize (HD ltac:(apply elem_of_app; left; by apply (list_elem_of_fmap_2 (λ p, (p, 10))))). lia.
Qed.

Lemma grow_run km s S Q F A : Slabs s S Q F A ->
  (get_page km 10 s = Ok (NULL, s) /\ slab_space_grow km s = Ok (-1, s)) \/
  exists p w', slab_space_grow km s = Ok (0, set_word w' s) /\
    Slabs (set_word w' s) (p :: S) Q (F ++ [(p, PAGE_SLAB)]) A /\ SKeep A Q (word s) w'.
Proof using Hlay PS.
  intros [HI HL HS]. destruct (ps_get km s _ 10 ltac:(lia) HI) as (p & w1 & Hg & [[-> ->]|(Hp & HI1 & HK)]).
  { left. split; [rewrite Hg; by destruct s|]. unfold slab_space_grow. change (MAX_ORDER - 1) with 10.
    erewrite bind_ok by exact Hg. by destruct s. }
  right. destruct (new_page_apart _ _ _ _ HI1) as (H1 & H2 & H3 & H4 & _).
  pose proof (add_page _ _ _ _ _ _ (slots_keep _ _ _ _ _ _ _ HI HS HK) H1 H2 H3 H4) as HS1.
  set (w2 := upd (p + 4) 0 (upd p PAGE_SLAB w1)). unfold HEAP, HEAP_END in *.
  assert (forall x, w2 x = w1 x \/ region [(p, PAGE_SLAB)] x) as HW.
  { intros x. assert (x = p \/ x = p + 4 -> region [(p, PAGE_SLAB)] x) as Hr.
    { intros E. exists (p, PAGE_SLAB). split; [by apply list_elem_of_here|]. unfold in_slot. cbn [fst snd].
      change (8 * PAGE_SLAB) with 4194304. lia. }
    unfold w2, upd. destruct (Z.eqb_spec x (p + 4)), (Z.eqb_spec x p); auto. }
  destruct (slab_push_step (set_word w2 s) (p :: S) F A [] (p, PAGE_SLAB)) as (w3 & Hr3 & HS3 & HO3).
  { by eapply Slots_hole. }
  { split; cbn [word set_word fst snd]; unfold w2; [by rewrite upd_ne, upd_eq by lia|apply upd_eq]. }
  exists p, w3. split.
  - unfold slab_space_grow. change (MAX_ORDER - 1) with 10. erewrite bind_ok by exact Hg.
    rewrite (proj2 (Z.eqb_neq p NULL) Hp). unfold s_size, s_status.
    rewrite !st_bind by first [split; lia_mod|done]. erewrite bind_ok by done. cbn [slab_free_list set_word]. rewrite HL.
    by erewrite bind_ok by exact Hr3.
  - destruct (slabs_close (set_word w1 s) (p :: S) Q F A [(p, PAGE_SLAB)] [(p, PAGE_SLAB)] A w3 (F ++ [(p, PAGE_SLAB)]) A)
      as [HR HK3]; try done.
    + apply Permutation_app_comm.
    + eapply Only_trans; [|exact HO3]. intros x. destruct (HW x) as [|Hx]; [by left|right; right].
      eapply region_sub; [|exact Hx]. set_solver.
    + split; [done|]. eapply SKeep_trans; [eapply keep_skeep; [exact HI|exact HS|exact HK]|exact HK3].
Qed.

(** *** [slab_alloc] *)
Lemma slab_alloc_run km s S Q F A size : Slabs s S Q F A -> 0 < size <= 4194304 ->
  match first_fit (units size) F with
  | Some (F1, b, F2) => b.2 <> units size + 1 -> exists w',
      slab_alloc km size s = Ok (b.1 + 16, set_word w' s) /\
      Slabs (set_word w' s) S Q (F1 ++ F2 ++ rest_of (units size) b) ((b.1, units size) :: A) /\
      SKeep A Q (word s) w'
  | None =>
      (get_page km 10 s = Ok (NULL, s) /\ forall fuel, slab_alloc_rec km fuel size s = Bad NoFuel) \/
      exists p w', slab_alloc km size s = Ok (NULL, set_word w' s) /\
        Slabs (set_word w' s) (p :: S) Q (F ++ [(p, PAGE_SLAB)]) A /\ SKeep A Q (word s) w'
  end.
Proof using Hlay PS.
  intros HB Hs. pose proof HB as [HI HL HS].
  pose proof (find_slab_run s S (units size) F A HL HS) as Hf.
  assert (Z.quot (i32 (i32 (size + sizeof_slab) + SLAB_SIZE - 1)) SLAB_SIZE = units size) as Hu.
  { unfold sizeof_slab, SLAB_SIZE, units. rewrite (i32_id (size + 16)), i32_id, Z.quot_div_nonneg by lia.
    by replace (size + 16 + 8 - 1) with (size + 23) by lia. }
  assert (2 <= units size) as H2 by (unfold units; lia_mod).
  destruct (first_fit (units size) F) as [[[F1 b] F2]|] eqn:Hff.
  - intros Hne. destruct (first_fit_some _ _ _ _ _ Hff) as (-> & Hle & _).
    destruct Hf as (w1 & Hr1 & HS1 & Hh1 & HO1).
    assert (b ∈ (F1 ++ F2) ++ A ++ [b]) as Hin by (rewrite !elem_of_app, list_elem_of_singleton; tauto).
    pose proof (fits_range _ _ (slot_fits _ _ _ _ _ _ HS1 Hin)) as Hr. pose proof l1_range.
    destruct (cut_run (set_word w1 s) S (F1 ++ F2) A b (units size) HS1 Hh1 ltac:(lia) Hne) as (w2 & Hr2 & HS2 & HO2).
    exists w2. split.
    + unfold slab_alloc. cbn [slab_alloc_rec]. cbv zeta. rewrite Hu. erewrite bind_ok by exact Hr1.
      erewrite bind_ok by done. cbn [slab_free_list set_word]. rewrite HL, (proj2 (Z.eqb_neq b.1 L1)) by lia. exact Hr2.
    + rewrite <-app_assoc in HS2. apply (slabs_close s S Q (F1 ++ b :: F2) A [] [] A); try done.
      { by rewrite app_nil_r. }
      rewrite app_nil_r. eapply Only_trans; [exact HO1|]. eapply Only_mono; [|exact HO2].
      intros x. apply region_sub. intros c. rewrite !elem_of_app, !elem_of_cons. set_solver.
  - destruct (grow_run km s S Q F A HB) as [[Hg Hr]|(p & w' & Hr & HB' & HK)]; [left; split; [done|]|right].
    + intros fuel. induction fuel as [|fuel IH]; [done|]. cbn [slab_alloc_rec]. cbv zeta. rewrite Hu.
      erewrite bind_ok by exact Hf. erewrite bind_ok by done. rewrite HL, Z.eqb_refl. erewrite bind_ok by exact Hr.
      change (-1 =? 0) with false. cbn iota. unfold sizeof_slab.
      rewrite (i32_id (size + 16)), Z.add_simpl_r, i32_id by lia. exact IH.
    + exists p, w'. split; [|done]. unfold slab_alloc. cbn [slab_alloc_rec]. cbv zeta. rewrite Hu.
      erewrite bind_ok by exact Hf. erewrite bind_ok by done. rewrite HL, Z.eqb_refl. by erewrite bind_ok by exact Hr.
Qed.
End slabs.
