(* ===== verification/KmallocSlabFree.v ===== *)
(** * [slab_free] against lists of slots

    The freed slot is joined with the free slots it touches, one after the
    other ([absorb]), and put at the end of the list. *)
From S2P Require Import Prelude Kmalloc KmallocRing KmallocBuddy KmallocPages KmallocAlloc KmallocFree KmallocInit KmallocSource KmallocSlab KmallocSlabOps.

(** ** The abstract operation *)
(** Two slots that touch, and do not both begin a page. *)
Definition touching (b c : slot) : bool :=
  ((c.1 + 8 * c.2 =? b.1) || (b.1 + 8 * b.2 =? c.1)) &&
  (negb (c.1 mod 4194304 =? 0) || negb (b.1 mod 4194304 =? 0)).
Definition join (b c : slot) : slot := (Z.min b.1 c.1, c.2 + b.2).
Fixpoint neighbour (b : slot) (F : list slot) : option (list slot * slot * list slot) :=
  match F with
  | [] => None
  | c :: F =>
      if touching b c then Some ([], c, F) else
      match neighbour b F with Some (F1, d, F2) => Some (c :: F1, d, F2) | None => None end
  end.
(** At most [n] joins; the number of free slots is enough. *)
Fixpoint absorb (n : nat) (F : list slot) (b : slot) : list slot * slot :=
  match n with
  | O => (F, b)
  | S n =>
      match neighbour b F with
      | Some (F1, c, F2) => absorb n (F1 ++ F2) (join b c)
      | None => (F, b)
      end
  end.

Lemma neighbour_some b F F1 c F2 : neighbour b F = Some (F1, c, F2) -> F = F1 ++ c :: F2 /\ touching b c = true.
Proof.
  revert F1. induction F as [|d F IH]; intros F1 H; [done|]. cbn in H. destruct (touching b d) eqn:Ht.
  - by injection H as <- <- <-.
  - destruct (neighbour b F) as [[[G1 e] G2]|]; [|done]. injection H as <- -> ->.
    by destruct (IH G1 eq_refl) as [-> ?].
Qed.
Lemma neighbour_none b F c : neighbour b F = None -> c ∈ F -> touching b c = false.
Proof.
  induction F as [|d F IH]; intros H; [set_solver|]. cbn in H. destruct (touching b d) eqn:Ht; [done|].
  destruct (neighbour b F) as [[[G1 e] G2]|]; [done|]. intros [->|He]%elem_of_cons; auto.
Qed.
(** What is left does not touch the slot. *)
Lemma absorb_done n F b F' b' : absorb n F b = (F', b') -> (length F <= n)%nat ->
  forall c, c ∈ F' -> touching b' c = false.
Proof.
  revert F b. induction n as [|n IH]; intros F b H Hn; cbn in H.
  - destruct F; [|cbn in Hn; lia]. injection H as <- <-. set_solver.
  - destruct (neighbour b F) as [[[F1 c] F2]|] eqn:E.
    + apply neighbour_some in E as [-> _]. eapply IH; [exact H|]. rewrite length_app in *. cbn in Hn. lia.
    + injection H as <- <-. intros c. by apply neighbour_none.
Qed.

Lemma region_join b c x : touching b c = true -> 2 <= b.2 -> 2 <= c.2 -> region [join b c] x -> region [c; b] x.
Proof.
  intros Ht H1 H2 (d & Hd & Hx). apply list_elem_of_singleton in Hd as ->. unfold join, in_slot in Hx. cbn [fst snd] in Hx.
  unfold touching in Ht. apply andb_true_iff in Ht as [Ht _]. apply orb_true_iff in Ht.
  destruct (Z.lt_ge_cases x b.1), (Z.lt_ge_cases x c.1), (Z.lt_ge_cases x (b.1 + 8 * b.2));
    try (exists b; split; [by apply elem_of_cons; right; apply list_elem_of_here|unfold in_slot; lia]);
    exists c; (split; [by apply list_elem_of_here|]); unfold in_slot; destruct Ht as [E|E]; apply Z.eqb_eq in E; lia.
Qed.

Definition wide (l : list slot) : Prop := forall b, b ∈ l -> 2 <= b.2.
Lemma join_region F1 c F2 b x : touching b c = true -> wide ((F1 ++ c :: F2) ++ [b]) ->
  region ((F1 ++ F2) ++ [join b c]) x -> region ((F1 ++ c :: F2) ++ [b]) x.
Proof.
  intros Ht Hw (d & Hd & Hx). apply elem_of_app in Hd as [Hd|Hd]; [exists d; split; [set_solver|done]|].
  apply (region_sub [c; b]); [set_solver|]. apply region_join; [done|apply Hw; set_solver..|by exists d].
Qed.
Lemma join_wide F1 c F2 b : wide ((F1 ++ c :: F2) ++ [b]) -> wide ((F1 ++ F2) ++ [join b c]).
Proof.
  intros Hw d Hd. apply elem_of_app in Hd as [Hd|Hd%list_elem_of_singleton]; [apply Hw; set_solver|subst d].
  pose proof (Hw b ltac:(set_solver)). pose proof (Hw c ltac:(set_solver)). unfold join. cbn [snd]. lia.
Qed.
Lemma absorb_region n F b x : wide (F ++ [b]) ->
  region ((absorb n F b).1 ++ [(absorb n F b).2]) x -> region (F ++ [b]) x.
Proof.
  revert F b. induction n as [|n IH]; intros F b Hw; cbn [absorb]; [done|].
  destruct (neighbour b F) as [[[F1 c] F2]|] eqn:E; [|done]. apply neighbour_some in E as [-> Ht].
  intros Hx. apply join_region; [done|done|]. by apply IH; [apply join_wide|].
Qed.

Lemma absorb_enough n m F b : (length F <= n)%nat -> (length F <= m)%nat -> absorb n F b = absorb m F b.
Proof.
  revert m F b. induction n as [|n IH]; intros m F b Hn Hm; destruct m as [|m]; [done|..].
  - destruct F; [done|cbn in Hn; lia].
  - destruct F; [done|cbn in Hm; lia].
  - cbn [absorb]. destruct (neighbour b F) as [[[F1 c] F2]|] eqn:E; [|done].
    apply neighbour_some in E as [-> _]. rewrite length_app in *. cbn in Hn, Hm.
    apply IH; rewrite length_app; lia.
Qed.

Section free.
Context {lay : Layout} {Hlay : @LayoutOk lay}.
Implicit Types (w : Z -> Z) (S : list Z) (F A H : list slot).

Lemma join_hole w S F A b c : touching b c = true -> Slots w S F A [b; c] -> Slots w S F A [join b c].
Proof using Hlay.
  intros Ht HS. assert (b.1 + 8 * b.2 = c.1 \/ c.1 + 8 * c.2 = b.1) as Hadj.
  { unfold touching in Ht. apply andb_true_iff in Ht as [Ht _]. apply orb_true_iff in Ht as [E|E];
      apply Z.eqb_eq in E; auto. }
  assert (forall d, d ∈ [b; c] -> fits S d) as Hf.
  { intros d Hd. apply (slot_fits _ _ _ _ _ _ HS). rewrite !elem_of_app. auto. }
  pose proof (fits_range _ _ (Hf b ltac:(set_solver))). pose proof (fits_range _ _ (Hf c ltac:(set_solver))).
  destruct b as [a n], c as [a2 m]. unfold join. cbn [fst snd] in *. destruct Hadj as [E|E].
  - rewrite Z.min_l, Z.add_comm by lia. apply (join_slots w S F A [] a n m). by rewrite E.
  - rewrite Z.min_r by lia. apply (join_slots w S F A [] a2 m n). rewrite E.
    eapply Slots_perm; [| |exact HS]; [|by intros d; apply HS].
    apply Permutation_app_head. apply perm_swap.
Qed.

(** One free slot of the list. *)
Lemma free_body s S F1 c F2 A b : Slots (word s) S (F1 ++ c :: F2) A [b] -> word s b.1 = b.2 ->
  if touching b c then exists w', slab_free_body L1 b.1 c.1 s = Ok (inr (Some (join b c).1), set_word w' s) /\
    Slots w' S (F1 ++ F2) A [join b c] /\ w' (join b c).1 = (join b c).2 /\ Only (F1 ++ c :: F2 ++ [b]) (word s) w'
  else slab_free_body L1 b.1 c.1 s = Ok (inl (hd L1 F2.*1), s).
Proof using Hlay.
  intros HS Hb. assert (c ∈ F1 ++ c :: F2) as Hc by set_solver.
  assert (c ∈ (F1 ++ c :: F2) ++ A ++ [b]) as Hcin by set_solver.
  assert (b ∈ (F1 ++ c :: F2) ++ A ++ [b]) as Hbin by set_solver.
  pose proof (slot_fits _ _ _ _ _ _ HS Hcin) as Hcf. pose proof (slot_fits _ _ _ _ _ _ HS Hbin) as Hbf.
  pose proof (fits_range _ _ Hcf). pose proof (fits_range _ _ Hbf). pose proof l1_range.
  destruct (sl_free _ _ _ _ _ HS c Hc) as [Hcs _]. assert (Hcw := slab_waddr S c). assert (Hbw := slab_waddr S b).
  assert (waddr b.1 /\ waddr c.1) as [Hb0 Hc0] by (unfold waddr; lia_mod).
  unfold slab_free_body, s_size, s_next, SLAB_SIZE. rewrite (proj2 (Z.eqb_neq c.1 L1)) by lia.
  rewrite !ld_bind by done. rewrite Hb, Hcs, (Z.mul_comm c.2), (Z.mul_comm b.2), !u32_id by lia.
  change PAGE_SIZE_4MB with 4194304. fold (touching b c).
  destruct (touching b c) eqn:Ht.
  - destruct (take_step s S F1 c F2 A [b] HS) as (w1 & Hr & HS1 & [Hh1 _] & HO1 & Hh).
    destruct (Hh b (word s (b.1 + 4)) ltac:(set_solver) (conj Hb eq_refl)) as [Hb1 _].
    assert (Slots w1 S (F1 ++ F2) A [b; c]) as HS2.
    { eapply Slots_perm; [| |exact HS1]; [|by intros d; apply HS1]. apply Permutation_app_head, perm_swap. }
    apply (join_hole _ _ _ _ _ _ Ht) in HS2. set (w2 := upd (join b c).1 (join b c).2 w1).
    assert (region [join b c] (join b c).1) as Hreg.
    { exists (join b c). split; [by apply list_elem_of_here|]. unfold in_slot, join. cbn [fst snd]. lia. }
    exists w2. split; [|split; [|split; [apply upd_eq|]]].
    + erewrite bind_ok by exact Hr. rewrite !ld_bind by done. cbn [word set_word].
      rewrite Hh1, Hb1, i32_id by lia. unfold w2, join. cbn [fst snd]. destruct (Z.ltb_spec b.1 c.1).
      * rewrite Z.min_l by lia. by rewrite st_bind by (done || lia).
      * rewrite Z.min_r by lia. by rewrite st_bind by (done || lia).
    + eapply Slots_hole; [exact HS2|]. intros x. unfold w2. destruct (decide (x = (join b c).1)) as [->|]; [by right|].
      left. by apply upd_ne.
    + eapply Only_trans; [exact HO1|]. intros x. unfold w2. destruct (decide (x = (join b c).1)) as [->|].
      * right. right. apply (region_sub [c; b]); [set_solver|]. apply region_join; [done|lia|lia|done].
      * left. by apply upd_ne.
  - rewrite ld_bind by (apply Hcw; [by left|lia|done]).
    pose proof (sl_ring _ _ _ _ _ HS) as Hr. rewrite fmap_app, fmap_cons in Hr.
    destruct (ring_at 12 8 _ _ _ _ _ Hr) as [_ ->]. done.
Qed.

Lemma free_loop s S F1 F2 A b m : Slots (word s) S (F1 ++ F2) A [b] -> word s b.1 = b.2 -> (length F2 < m)%nat ->
  match neighbour b F2 with
  | Some (G1, c, G2) => exists w',
      iter m (slab_free_body L1 b.1) (hd L1 F2.*1) s = Ok (Some (join b c).1, set_word w' s) /\
      Slots w' S (F1 ++ G1 ++ G2) A [join b c] /\ w' (join b c).1 = (join b c).2 /\
      Only (F1 ++ F2 ++ [b]) (word s) w'
  | None => iter m (slab_free_body L1 b.1) (hd L1 F2.*1) s = Ok (None, s)
  end.
Proof using Hlay.
  revert F1 m. induction F2 as [|c F2 IH]; intros F1 m HS Hb Hm; destruct m as [|m]; try (cbn in Hm; lia).
  - cbn. unfold slab_free_body. by rewrite Z.eqb_refl.
  - pose proof (free_body s S F1 c F2 A b HS Hb) as H1. rewrite fmap_cons. cbn [hd neighbour iter].
    destruct (touching b c).
    + destruct H1 as (w' & Hr & Hrest). exists w'. by erewrite bind_ok by exact Hr.
    + assert (Slots (word s) S ((F1 ++ [c]) ++ F2) A [b]) as HS' by by rewrite <-app_assoc.
      specialize (IH (F1 ++ [c]) m HS' Hb ltac:(cbn in Hm; lia)).
      destruct (neighbour b F2) as [[[G1 d] G2]|].
      * destruct IH as (w' & Hr & HS2 & Hh & HO). exists w'. erewrite bind_ok by exact H1.
        rewrite <-!app_assoc in *. done.
      * by erewrite bind_ok by exact H1.
Qed.

Lemma slots_wide w S F A b : Slots w S F A [b] -> wide (F ++ [b]).
Proof using Hlay. intros HS c Hc. apply (slots_two _ _ _ _ _ c HS). set_solver. Qed.
Lemma free_rec_slots n s S F A b : slab_free_list s = L1 -> Slots (word s) S F A [b] -> word s b.1 = b.2 ->
  (length F <= n)%nat -> exists w', _slab_free_rec (1 + n) b.1 s = Ok ((absorb n F b).2.1, set_word w' s) /\
    Slots w' S (absorb n F b).1 A [(absorb n F b).2] /\ w' (absorb n F b).2.1 = (absorb n F b).2.2 /\
    Only (F ++ [b]) (word s) w'.
Proof using Hlay.
  intros HL. revert s F b HL. induction n as [|n IH]; intros s F b HL HS Hb Hn.
  all: pose proof (slots_length _ _ _ _ _ HS) as Hlen; pose proof l1_range.
  all: pose proof (free_loop s S [] F A b list_fuel HS Hb
    ltac:(apply Nat2Z.inj_lt; rewrite list_fuel_Z; lia)) as Hloop.
  all: assert (forall k, _slab_free_rec (1 + k) b.1 s = (r ← iter list_fuel (slab_free_body L1 b.1) (hd L1 F.*1);
    match r with Some ns => _slab_free_rec k ns | None => mret b.1 end) s) as Hstep.
  1,3: intros k; change (1 + k)%nat with (Datatypes.S k); cbn [_slab_free_rec]; erewrite bind_ok by done; rewrite HL;
    unfold s_next; rewrite ld_bind by (unfold waddr; lia_mod);
    by rewrite (ring_first 12 8 _ _ _ (sl_ring _ _ _ _ _ HS)).
  - destruct F; [|cbn in Hn; lia]. exists (word s). rewrite Hstep. erewrite bind_ok by exact Hloop.
    split; [by destruct s|]. split; [done|]. split; [done|]. apply Only_refl.
  - rewrite Hstep. cbn [absorb]. destruct (neighbour b F) as [[[F1 c] F2]|] eqn:En.
    + destruct Hloop as (w1 & Hr & HS1 & Hb1 & HO1). pose proof (neighbour_some _ _ _ _ _ En) as [-> Ht].
      erewrite bind_ok by exact Hr. cbn [app] in HS1, HO1.
      destruct (IH (set_word w1 s) (F1 ++ F2) (join b c) HL HS1 Hb1) as (w2 & Hr2 & HS2 & Hb2 & HO2).
      { rewrite length_app in *. cbn in Hn. lia. }
      exists w2. split; [exact Hr2|]. split; [done|]. split; [done|].
      eapply Only_trans; [exact HO1|].
      eapply Only_mono; [|exact HO2]. intros x. by apply join_region, (slots_wide _ _ _ _ _ HS).
    + exists (word s). erewrite bind_ok by exact Hloop. split; [by destruct s|]. split; [done|]. split; [done|].
      apply Only_refl.
Qed.
End free.

Section slab_free.
Context {lay : Layout} {Hlay : @LayoutOk lay}.
Context (Inv : kstate -> list (Z * Z) -> Prop) {PS : PageSource foreign Inv}.
Implicit Types (w : Z -> Z) (S : list Z) (Q : list (Z * Z)) (F A H : list slot).

(** An extra page that has become free in one piece: [slab_free] gives it back
    to the page allocator. *)
Definition extra_page (start : Z) (b : slot) : bool :=
  negb (b.1 =? start) && (b.1 mod 4194304 =? 0) && (b.2 =? PAGE_SLAB).

Lemma Slabs_used s S Q F A A' : A ≡ₚ A' -> Slabs Inv s S Q F A -> Slabs Inv s S Q F A'.
Proof using Type.
  intros Hp [HI HL HS]. split; [done|done|]. eapply Slots_perm; [| |exact HS]; [by rewrite Hp|].
  intros b Hb. eapply sl_used; [exact HS|]. by rewrite Hp.
Qed.

Lemma slab_free_depth p : _slab_free p = _slab_free_rec (1 + pred list_fuel) p.
Proof using Type.
  unfold _slab_free. pose proof list_fuel_Z. replace (1 + pred list_fuel)%nat with list_fuel by lia. reflexivity.
Qed.

Lemma slab_free_run kf s S Q F A b F' b' : Slabs Inv s S Q F (b :: A) -> absorb (length F) F b = (F', b') ->
  extra_page (start_slab s) b' = false ->
  exists w', slab_free kf b.1 s = Ok (tt, set_word w' s) /\
    Slabs Inv (set_word w' s) S Q (F' ++ [b']) A /\ SKeep A Q (word s) w'.
Proof using Hlay PS.
  intros [HI HL HS] Hab Hx. pose proof (release_slot _ _ _ _ _ _ HS) as HS0.
  destruct (sl_used _ _ _ _ _ HS b ltac:(set_solver)) as [Hb _].
  pose proof (slots_length _ _ _ _ _ HS) as Hlen. pose proof list_fuel_Z as Hfuel.
  destruct (free_rec_slots (pred list_fuel) s S F A b HL HS0 Hb ltac:(lia)) as (w1 & Hr1 & HS1 & Hb1 & HO1).
  rewrite (absorb_enough _ (length F)), Hab in Hr1, HS1, Hb1 by lia. cbn [fst snd] in *.
  assert (b' ∈ F' ++ A ++ [b']) as Hin by (rewrite !elem_of_app, list_elem_of_singleton; tauto).
  pose proof (slot_fits _ _ _ _ _ _ HS1 Hin) as Hf. pose proof (fits_range _ _ Hf) as Hrg.
  assert (waddr (b'.1 + 4) /\ waddr b'.1) as [Hw4 Hw0] by (clear -Hrg; unfold waddr; lia_mod).
  set (w2 := upd (b'.1 + 4) 0 w1).
  assert (region [b'] (b'.1 + 4)) as Hreg.
  { exists b'. split; [by apply list_elem_of_here|]. unfold in_slot. lia. }
  assert (Slots w2 S F' A [b']) as HS2.
  { eapply Slots_hole; [exact HS1|]. intros x. destruct (decide (x = b'.1 + 4)) as [->|]; [by right|left; by apply upd_ne]. }
  destruct (slab_push_step (set_word w2 s) S F' A [] b' HS2) as (w3 & Hr3 & HS3 & HO3).
  { split; cbn [word set_word]; unfold w2; [by rewrite upd_ne by lia|apply upd_eq]. }
  assert (Only (F ++ [b]) (word s) w3) as HO.
  { eapply Only_trans; [exact HO1|]. apply (Only_mono (F' ++ [b'])).
    - intros x. pose proof (absorb_region (length F) F b x (slots_wide _ _ _ _ _ HS0)) as Hreg2. by rewrite Hab in Hreg2.
    - eapply Only_trans; [|exact HO3]. apply (Only_mono [b']); [|by apply Only_upd]. intros x.
      apply region_sub. intros c Hc. apply elem_of_app. by right. }
  exists w3. split.
  - unfold slab_free, s_status, s_size. rewrite slab_free_depth, (bind_ok _ _ _ _ _ Hr1).
    rewrite st_bind by first [exact Hw4|lia].
    erewrite bind_ok by reflexivity. cbn [start_slab set_word word].
    rewrite ld_bind by exact Hw0. cbn [word set_word]. rewrite upd_ne, Hb1, i32_id by lia.
    change PAGE_SIZE_4MB with 4194304. fold (extra_page (start_slab s) b'). rewrite Hx.
    erewrite bind_ok by reflexivity. erewrite bind_ok by reflexivity. cbn [slab_free_list set_word]. rewrite HL. exact Hr3.
  - clear Hr1 Hlen Hfuel. apply (slabs_close Inv s S Q F (b :: A) [] [b] A); try done. by rewrite app_nil_r.
Qed.
End slab_free.
