(* ===== verification/KmallocHeap.v ===== *)
(** * [kmalloc] and [kfree] against lists of blocks

    Requests of less than a page come from the slabs; a larger one takes pages
    of its own, recorded in the list of [page_header_t] at [ph], whose nodes
    come from the slabs themselves. *)
From S2P Require Import Prelude Kmalloc KmallocRing KmallocBuddy KmallocPages KmallocAlloc KmallocFree KmallocInit KmallocSource KmallocSlab KmallocSlabOps KmallocSlabFree.

(** The order of a request in pages. *)
Lemma page_order_loop n k size (s : kstate) : Z.of_nat n = 10 - k -> 0 <= k -> size <= 2 ^ 10 ->
  (k = 0 \/ 2 ^ (k - 1) < size) ->
  exists o, iter (32 - Z.to_nat k) (λ x : Z * Z, let '(temp, order) := x in
      mret (if temp <? size then inl (i32 (temp * 2), order + 1) else inr order)) (2 ^ k, k) s = Ok (o, s) /\
    k <= o <= 10 /\ size <= 2 ^ o /\ (o = 0 \/ 2 ^ (o - 1) < size).
Proof.
  revert k. induction n as [|n IH]; intros k Hn Hk Hs Hlo.
  all: replace (32 - Z.to_nat k)%nat with (1 + (32 - Z.to_nat (k + 1)))%nat by lia; cbn [iter Nat.add].
  - replace k with 10 in * by lia. erewrite bind_ok by done. rewrite (proj2 (Z.ltb_ge (2 ^ 10) size)) by lia.
    exists 10. split; [done|]. lia.
  - erewrite bind_ok by done. destruct (Z.ltb_spec (2 ^ k) size) as [Hlt|Hge].
    + pose proof (Z.pow_le_mono_r 2 k 10 ltac:(lia) ltac:(lia)) as Hp. change (2 ^ 10) with 1024 in *.
      pose proof (Z.pow_pos_nonneg 2 k ltac:(lia) Hk).
      replace (i32 (2 ^ k * 2)) with (2 ^ (k + 1)) by (rewrite Z.pow_add_r, i32_id by lia; lia).
      destruct (IH (k + 1)) as (o & Hr & Ho); [lia|lia|lia|right; by replace (k + 1 - 1) with k by lia|].
      exists o. split; [exact Hr|]. lia.
    + exists k. split; [done|]. lia.
Qed.
Lemma page_order_run size (s : kstate) : 1 <= size <= 1024 ->
  exists o, page_order size s = Ok (o, s) /\ 0 <= o <= 10 /\ size <= 2 ^ o /\ (o = 0 \/ 2 ^ (o - 1) < size).
Proof.
  intros Hs. destruct (page_order_loop 10 0 size s) as (o & Hr & Ho); [done|done|change (2 ^ 10) with 1024; lia|by left|].
  exists o. split; [exact Hr|done].
Qed.

Section heap.
Context {lay : Layout} {Hlay : @LayoutOk lay}.
Context (Inv : kstate -> list (Z * Z) -> Prop) {PS : PageSource foreign Inv}.
Implicit Types (w : Z -> Z) (S : list Z) (Q : list (Z * Z)) (F A H : list slot).

(** The records of the page list: the address of the record, the page and its
    order.  A record is the 12 bytes of a slot of 4 units. *)
Record pagerec := Pagerec { r_at : Z; r_page : Z; r_order : Z }.
Implicit Types (hs : list pagerec).
Definition rec_slot (r : pagerec) : slot := (r_at r - 16, 4).
Definition rec_block (r : pagerec) : Z * Z := (r_page r, r_order r).
Fixpoint chain w (x : Z) hs : Prop :=
  match hs with
  | [] => w (x + 8) = PH
  | r :: hs => w (x + 8) = r_at r /\ chain w (r_at r) hs
  end.
Definition rec_ok w (r : pagerec) : Prop :=
  w (r_at r) = r_page r /\ w (r_at r + 4) = r_order r /\ 0 <= r_order r <= 10.

(** The heap: slab pages [S], free slots [F], small blocks [A], large blocks
    [hs]; the pages [Q] are out for others. *)
Record Heap (s : kstate) S Q F A hs : Prop := {
  hp_slabs : Slabs Inv s S (map rec_block hs ++ Q) F (map rec_slot hs ++ A);
  hp_head : page_header s = PH;
  hp_chain : chain (word s) PH hs;
  hp_recs : Forall (rec_ok (word s)) hs
}.

Lemma Slabs_pages s S Q Q' F A : Q ≡ₚ Q' -> Slabs Inv s S Q F A -> Slabs Inv s S Q' F A.
Proof using PS.
  intros Hp [HI HL HS]. split; [|done|done]. eapply ps_perm; [|exact HI]. unfold out. by rewrite Hp.
Qed.

Lemma ph_kept Q x : PH <= x < PH + 12 -> kept Q x /\ ~ (L1 <= x < L1 + 16).
Proof using Hlay. intros Hx. destruct layout_ph_l1 as (HP & HL & HD & Ho). split; [left; pose proof (Ho x); unfold HEAP in *|]; lia. Qed.
Lemma skept_rec hs r A Q f : r ∈ hs -> 0 <= f < 16 -> skept (map rec_slot hs ++ A) Q (r_at r + f).
Proof using Type.
  intros Hr Hf. right. exists (rec_slot r). split; [apply elem_of_app; left; by apply (list_elem_of_fmap_2 rec_slot)|].
  unfold in_slot, rec_slot. cbn [fst snd]. lia.
Qed.
Lemma chain_frame w w' x y hs : w' (y + 8) = w (x + 8) -> (forall r, r ∈ hs -> w' (r_at r + 8) = w (r_at r + 8)) ->
  chain w x hs -> chain w' y hs.
Proof using Type.
  revert x y. induction hs as [|r hs IH]; intros x y Hx Hw; cbn [chain]; [by rewrite Hx|]. rewrite Hx. intros [H1 H2].
  split; [done|]. apply (IH (r_at r)); [apply Hw; by apply list_elem_of_here| |done].
  intros r' Hr'. apply Hw, elem_of_cons. by right.
Qed.
(** Operations of the slabs keep the list of records. *)
Lemma recs_keep w w' hs A Q : SKeep (map rec_slot hs ++ A) Q w w' ->
  chain w PH hs -> Forall (rec_ok w) hs -> chain w' PH hs /\ Forall (rec_ok w') hs.
Proof using Hlay.
  intros HK HC HR. split.
  - eapply chain_frame; [| |exact HC].
    + apply HK. left. apply ph_kept. lia.
    + intros r Hr. apply HK. apply (skept_rec hs r A Q 8); [done|lia].
  - rewrite Forall_forall in *. intros r Hr. unfold rec_ok. rewrite <-(Z.add_0_r (r_at r)) at 1.
    rewrite !HK by (apply (skept_rec hs r A Q); [done|lia]). rewrite Z.add_0_r. by apply HR.
Qed.

(** What [kmalloc] and [kfree] leave alone: the blocks [A] and [Q] and the
    kernel's words but the heads of their lists. *)
Definition hkept A Q (x : Z) : Prop := kept Q x /\ ~ other_static x \/ region A x.
Definition HKeep A Q w w' : Prop := forall x, hkept A Q x -> w' x = w x.
Lemma HKeep_trans A Q w1 w2 w3 : HKeep A Q w1 w2 -> HKeep A Q w2 w3 -> HKeep A Q w1 w3.
Proof using Type. intros H1 H2 x Hx. by rewrite H2, H1. Qed.
Lemma kept_sub Q Q' x : Q ⊆ Q' -> kept Q x -> kept Q' x.
Proof using Type. intros Hs [Hx|(b & Hb & Hx)]; [by left|right]. exists b. auto. Qed.
Lemma HKeep_sub A A' Q Q' w w' : A ⊆ A' -> Q ⊆ Q' -> HKeep A' Q' w w' -> HKeep A Q w w'.
Proof using Type.
  intros HA HQ HK x [[Hk Hx]|Hx]; apply HK; [left; split; [by eapply kept_sub|done]|right; by eapply region_sub].
Qed.
Lemma SKeep_HKeep A Q w w' : SKeep A Q w w' -> HKeep A Q w w'.
Proof using Type.
  intros HK x [[Hk Hx]|Hx]; apply HK; [left; split; [done|]|by right]. intros Hl. apply Hx. by right.
Qed.

(** The clients may write their blocks and the kernel its words. *)
Lemma Slabs_write s S Q F A w' : Slabs Inv s S Q F A ->
  (forall x, w' x = word s x \/ foreign x /\ ~ (L1 <= x < L1 + 16) \/ (exists b, b ∈ A /\ b.1 + 16 <= x /\ in_slot x b) \/
    (exists q, q ∈ Q /\ inside x q)) -> Slabs Inv (set_word w' s) S Q F A.
Proof using Hlay PS.
  intros [HI HL HS] Hw.
  assert (forall b, b ∈ F ++ A -> fits S b) as Hfit.
  { intros b Hb. apply (slot_fits _ _ _ _ _ _ HS). rewrite app_nil_r. done. }
  split; [|done|].
  - apply ps_ext; [done|]. intros x. destruct (Hw x) as [|[[Hx _]|[(b & Hb & _ & Hx)|(q & Hq & Hx)]]]; auto; right; right.
    + destruct (slot_page Inv s S Q b x HI (Hfit b ltac:(apply elem_of_app; by right)) Hx) as (p & Hp). by exists (p, 10).
    + exists q. split; [apply elem_of_app; by right|done].
  - eapply Slots_frame; [|exact HS]. intros x Hx.
    destruct (Hw x) as [|[[Hf Hl]|[(b & Hb & Hlo & Hxb)|(q & Hq & Hxq)]]]; [done|exfalso..].
    + destruct Hf as [Hf _]. unfold HEAP in Hf. destruct Hx as [|[(c & Hc & Hx)|(c & Hc & Hx)]]; [done|..];
        pose proof (fits_range _ _ (Hfit c ltac:(apply elem_of_app; auto))); lia.
    + pose proof (fits_range _ _ (Hfit b ltac:(apply elem_of_app; auto))) as Hb2. pose proof l1_range.
      pose proof (sl_apart _ _ _ _ _ HS) as Ha. unfold in_slot in Hxb.
      destruct Hx as [|[(c & Hc & Hx)|(c & Hc & Hx)]]; [lia|..].
      * apply pairwise_app in Ha as (_ & _ & Ha). specialize (Ha c b Hc ltac:(apply elem_of_app; by left)).
        pose proof (fits_range _ _ (Hfit c ltac:(apply elem_of_app; auto))). unfold apart in Ha. lia.
      * apply pairwise_app in Ha as (_ & Ha & _). rewrite app_nil_r in Ha.
        pose proof (fits_range _ _ (Hfit c ltac:(apply elem_of_app; auto))).
        destruct (pairwise_in _ apart_sym _ _ _ Ha Hb Hc) as [->|Hbc]; [|unfold apart in Hbc]; lia.
    + assert (kept Q x) as Hk by (right; by exists q). destruct Hx as [Hx|[(c & Hc & Hx)|(c & Hc & Hx)]].
      * pose proof l1_range. pose proof (valid_range q (ps_valid Inv s (out S Q) q HI ltac:(apply elem_of_app; by right))).
        unfold inside, HEAP in *. lia.
      * assert (fits S c) as Hcf by (apply Hfit, elem_of_app; by left). pose proof (fits_range _ _ Hcf).
        eapply (slot_not_kept Inv s S Q c x); [done|exact Hcf|unfold in_slot; lia|done].
      * assert (fits S c) as Hcf by (apply Hfit, elem_of_app; by right). pose proof (fits_range _ _ Hcf).
        eapply (slot_not_kept Inv s S Q c x); [done|exact Hcf|unfold in_slot; lia|done].
Qed.

(** *** [kmalloc] *)
Lemma heap_slabs s S S' Q Q2 F F' A A' hs w' : Heap s S Q F A hs ->
  Slabs Inv (set_word w' s) S' (map rec_block hs ++ Q2) F' (map rec_slot hs ++ A') ->
  SKeep (map rec_slot hs ++ A) (map rec_block hs ++ Q) (word s) w' -> Heap (set_word w' s) S' Q2 F' A' hs.
Proof using Hlay.
  intros [HB HH HC HR] HB' HK. destruct (recs_keep _ _ _ _ _ HK HC HR) as [HC' HR']. by split.
Qed.

Lemma small_run km size s S Q F A hs : Heap s S Q F A hs -> 0 < size -> size + 16 < 4096 ->
  match first_fit (units size) F with
  | Some (F1, b, F2) => b.2 <> units size + 1 -> exists w',
      kmalloc_body km size s = Ok (b.1 + 16, set_word w' s) /\
      Heap (set_word w' s) S Q (F1 ++ F2 ++ rest_of (units size) b) ((b.1, units size) :: A) hs /\
      SKeep (map rec_slot hs ++ A) (map rec_block hs ++ Q) (word s) w'
  | None =>
      (get_page km 10 s = Ok (NULL, s) /\ kmalloc_body km size s = Bad NoFuel) \/
      exists p w', kmalloc_body km size s = Ok (NULL, set_word w' s) /\
        Heap (set_word w' s) (p :: S) Q (F ++ [(p, PAGE_SLAB)]) A hs /\
        SKeep (map rec_slot hs ++ A) (map rec_block hs ++ Q) (word s) w'
  end.
Proof using Hlay PS.
  intros HH Hs1 Hs2. pose proof (hp_slabs _ _ _ _ _ _ HH) as HB.
  pose proof (slab_alloc_run Inv km s S _ F _ size HB ltac:(lia)) as H.
  assert (kmalloc_body km size = slab_alloc km size) as ->.
  { unfold kmalloc_body, sizeof_slab, PAGE_SIZE, PAGE_SIZE_4MB. rewrite (proj2 (Z.leb_gt size 0)) by lia.
    rewrite (proj2 (Z.ltb_ge 4194304 size)), u32_id by lia. by rewrite (proj2 (Z.ltb_lt _ _)) by lia. }
  destruct (first_fit (units size) F) as [[[F1 b] F2]|].
  - intros Hne. destruct (H Hne) as (w' & Hr & HB' & HK). exists w'. split; [done|]. split; [|done].
    eapply heap_slabs; [exact HH| |exact HK]. eapply Slabs_used; [|exact HB']. by rewrite <-Permutation_middle.
  - destruct H as [[Hg Hr]|(p & w' & Hr & HB' & HK)]; [left; split; [done|apply Hr]|right].
    exists p, w'. split; [done|]. split; [|done]. by eapply heap_slabs.
Qed.

(** Giving the page [p] a record in the block [h]. *)
Definition record_mem w (h p o : Z) : Z -> Z :=
  upd (PH + 8) h (upd (h + 8) (w (PH + 8)) (upd (h + 4) o (upd h p w))).
Lemma record_heap s S Q F A hs a p o : Heap s S ((p, o) :: Q) F ((a, 4) :: A) hs -> 0 <= o <= 10 ->
  Heap (set_word (record_mem (word s) (a + 16) p o) s) S Q F A (Pagerec (a + 16) p o :: hs) /\
  HKeep A (map rec_block hs ++ (p, o) :: Q) (word s) (record_mem (word s) (a + 16) p o).
Proof using Hlay PS.
  intros [HB HH HC HR] Ho. set (w4 := record_mem _ _ _ _). pose proof (layout_ph_l1) as (HP & HL & HD & Hst).
  assert (fits S (a, 4)) as Hf.
  { apply (slot_fits _ _ _ _ _ _ (sb_slots _ _ _ _ _ _ HB)). rewrite !elem_of_app, elem_of_cons. tauto. }
  pose proof (fits_range _ _ Hf) as Hr. cbn [fst snd] in Hr. unfold HEAP in *.
  assert (forall x, w4 x = word s x \/ x = PH + 8 \/ a + 16 <= x < a + 32) as HW.
  { intros x. unfold w4, record_mem, upd.
    repeat (match goal with |- context [if ?a =? ?c then _ else _] => destruct (Z.eqb_spec a c) end); lia. }
  assert (forall c x, c ∈ map rec_slot hs ++ A -> in_slot x c -> w4 x = word s x) as Hother.
  { intros c x Hc Hx. assert (fits S c) as Hcf.
    { apply (slot_fits _ _ _ _ _ _ (sb_slots _ _ _ _ _ _ HB)). revert Hc. rewrite !elem_of_app, elem_of_cons. tauto. }
    pose proof (fits_range _ _ Hcf). unfold in_slot in Hx. destruct (HW x) as [|[|Hxa]]; [done|lia|exfalso].
    pose proof (sl_apart _ _ _ _ _ (sb_slots _ _ _ _ _ _ HB)) as (_ & Ha & _)%pairwise_app.
    rewrite app_nil_r in Ha. eapply pairwise_perm in Ha; [|apply apart_sym|symmetry; apply Permutation_middle].
    destruct Ha as [Ha _]. rewrite Forall_forall in Ha. specialize (Ha c Hc). unfold apart in Ha. cbn [fst snd] in Ha. lia. }
  assert (forall r f, r ∈ hs -> 0 <= f < 16 -> w4 (r_at r + f) = word s (r_at r + f)) as Hrec.
  { intros r f Hr' Hfr. apply (Hother (rec_slot r)); [apply elem_of_app; left; by apply (list_elem_of_fmap_2 rec_slot)|].
    unfold in_slot, rec_slot. cbn [fst snd]. lia. }
  assert (rec_slot (Pagerec (a + 16) p o) = (a, 4)) as Hslot by (unfold rec_slot; cbn [r_at]; f_equal; lia).
  split.
  - split; [|done| |].
    + cbn [map]. rewrite Hslot. apply Slabs_write.
      * eapply Slabs_pages; [|eapply Slabs_used; [|exact HB]].
        { by rewrite <-Permutation_middle. }
        { by rewrite <-Permutation_middle. }
      * intros x. destruct (HW x) as [|[->|Hx]]; [by left| |].
        { right. left. pose proof (Hst (PH + 8)). unfold foreign, HEAP. lia. }
        { right. right. left. exists (a, 4). split; [apply elem_of_cons; by left|]. unfold in_slot. cbn [fst snd]. lia. }
    + cbn [chain r_at]. split; [apply upd_eq|]. eapply chain_frame; [| |exact HC].
      * cbn [word set_word]. unfold w4, record_mem. rewrite upd_ne by lia. apply upd_eq.
      * intros r Hr'. apply Hrec; [done|lia].
    + constructor.
      * unfold rec_ok. cbn [r_at r_page r_order word set_word]. split; [|split; [|done]]; unfold w4, record_mem;
          repeat (rewrite upd_ne by lia); apply upd_eq.
      * rewrite Forall_forall in *. intros r Hr'. destruct (HR r Hr') as (H1 & H2 & H3). unfold rec_ok.
        cbn [word set_word]. rewrite <-(Z.add_0_r (r_at r)) at 1. rewrite !Hrec, Z.add_0_r by (done || lia). done.
  - intros x [[Hk Hx]|(c & Hc & Hx)]; [|apply (Hother c); [apply elem_of_app; by right|done]].
    destruct (HW x) as [|[->|Hxa]]; [done|exfalso; apply Hx; left; lia|exfalso].
    eapply (slot_not_kept Inv s S _ (a, 4) x); [apply HB|exact Hf|unfold in_slot; cbn [fst snd]; lia|exact Hk].
Qed.

Lemma rec_fits s S Q F A hs r : Heap s S Q F A hs -> r ∈ hs -> fits S (rec_slot r).
Proof using Type.
  intros HH Hr. apply (slot_fits _ _ _ _ _ _ (sb_slots _ _ _ _ _ _ (hp_slabs _ _ _ _ _ _ HH))).
  rewrite !elem_of_app. right. left. left. by apply (list_elem_of_fmap_2 rec_slot).
Qed.
Lemma head_range s S Q F A hs : Heap s S Q F A hs -> 0 <= word s (PH + 8) < 4294967296.
Proof using Hlay.
  intros HH. pose proof layout_ph as ((HP1 & HP2 & HP3) & _). pose proof (hp_chain _ _ _ _ _ _ HH) as HC.
  unfold HEAP in *. destruct hs as [|r hs]; cbn [chain] in HC; [lia|]. destruct HC as [-> _].
  pose proof (fits_range _ _ (rec_fits _ _ _ _ _ _ r HH ltac:(by apply list_elem_of_here))) as Hr.
  unfold rec_slot in Hr. cbn [fst snd] in Hr. lia.
Qed.

Lemma add_header_run n s S Q F A hs p o F1 b F2 :
  Heap s S ((p, o) :: Q) F A hs -> 0 <= o <= 10 -> 0 <= p < 4294967296 ->
  first_fit 4 F = Some (F1, b, F2) -> b.2 <> 5 ->
  exists w', add_header (kmalloc_rec (1 + n)) p o s = Ok (0, set_word w' s) /\
    Heap (set_word w' s) S Q (F1 ++ F2 ++ rest_of 4 b) A (Pagerec (b.1 + 16) p o :: hs) /\
    HKeep A (map rec_block hs ++ (p, o) :: Q) (word s) w'.
Proof using Hlay PS.
  intros HH Ho Hp Hff Hne. pose proof (small_run (kmalloc_rec n) 12 s _ _ _ _ _ HH ltac:(lia) ltac:(lia)) as Hsm.
  change (units 12) with 4 in Hsm. rewrite Hff in Hsm. destruct (Hsm Hne) as (w1 & Hr1 & HH1 & HK1).
  assert (fits S (b.1, 4)) as Hf.
  { apply (slot_fits _ _ _ _ _ _ (sb_slots _ _ _ _ _ _ (hp_slabs _ _ _ _ _ _ HH1))).
    rewrite !elem_of_app, elem_of_cons. tauto. }
  pose proof (fits_range _ _ Hf) as Hr. cbn [fst snd] in Hr. pose proof layout_ph as ((HP1 & HP2 & HP3) & _).
  unfold HEAP in *.
  destruct (record_heap _ _ _ _ _ _ _ _ _ HH1 Ho) as [HH2 HK2]. eexists. split; [|split; [exact HH2|]].
  - unfold add_header. change (kmalloc_rec (1 + n) sizeof_page_header) with (kmalloc_body (kmalloc_rec n) 12).
    erewrite bind_ok by exact Hr1. rewrite (proj2 (Z.eqb_neq (b.1 + 16) 0)) by lia. unfold h_addr, h_order, h_next.
    assert (forall f, 0 <= f <= 8 -> f mod 4 = 0 -> waddr (b.1 + 16 + f)) as Hw.
    { intros f H1 H2. unfold waddr. lia_mod. }
    pose proof (Hw 0 ltac:(lia) eq_refl) as Hw0. rewrite Z.add_0_r in Hw0.
    rewrite st_bind by (done || lia). rewrite st_bind by first [apply Hw; [lia|done]|lia].
    erewrite bind_ok by reflexivity. cbn [page_header set_word]. rewrite (hp_head _ _ _ _ _ _ HH).
    assert (waddr (PH + 8)) as HwP by (unfold waddr; lia_mod).
    rewrite ld_bind by done. cbn [word set_word]. rewrite !upd_ne by lia.
    pose proof (head_range _ _ _ _ _ _ HH1) as Hn. cbn [word set_word] in Hn.
    rewrite st_bind by first [apply Hw; [lia|done]|lia]. rewrite st_bind by (done || lia). reflexivity.
  - eapply HKeep_trans; [|exact HK2]. eapply HKeep_sub; [| |apply SKeep_HKeep, HK1].
    + intros c Hc. apply elem_of_app. by right.
    + done.
Qed.
(** A page is taken for a request. *)
Lemma take_page km s S Q F A hs o : Heap s S Q F A hs -> 0 <= o <= 10 ->
  exists p w', get_page km o s = Ok (p, set_word w' s) /\ (p = NULL /\ w' = word s \/
    p <> NULL /\ 0 <= p < 4294967296 /\ Heap (set_word w' s) S ((p, o) :: Q) F A hs /\
    HKeep A (map rec_block hs ++ Q) (word s) w' /\ Keep Q (word s) w').
Proof using Hlay PS.
  intros HH Ho. pose proof HH as [[HI HL HS] HP HC HR].
  destruct (ps_get km s _ o Ho HI) as (p & w' & Hg & [[-> ->]|(Hp & HI' & HK)]); exists p, w' || exists NULL, (word s);
    (split; [done|]); [by left|right].
  assert (SKeep (map rec_slot hs ++ A) (map rec_block hs ++ Q) (word s) w') as HSK by by eapply keep_skeep.
  split; [done|]. split.
  { pose proof (valid_range (p, o) (ps_valid Inv _ _ (p, o) HI' ltac:(by apply list_elem_of_here))) as Hv.
    unfold HEAP, HEAP_END in Hv. cbn [fst snd] in Hv. lia. }
  split.
  - eapply heap_slabs; [exact HH| |exact HSK]. split; [|done|].
    + eapply ps_perm; [|exact HI']. unfold out. by rewrite !app_assoc, <-Permutation_middle.
    + by eapply slots_keep.
  - split.
    + eapply HKeep_sub; [| |apply SKeep_HKeep, HSK]; [|done]. intros c Hc. apply elem_of_app. by right.
    + eapply kept_mono; [|exact HK]. intros b Hb. unfold out. rewrite !elem_of_app. by right; right.
Qed.

(** What becomes of a request in pages. *)
Inductive large_result (S : list Z) Q F A hs (o : Z) s : Z -> kstate -> Prop :=
  (** there are no pages *)
  | large_none : large_result S Q F A hs o s NULL s
  (** the pages have a record *)
  | large_some p w' F1 b F2 : first_fit 4 F = Some (F1, b, F2) -> p <> NULL ->
      Heap (set_word w' s) S Q (F1 ++ F2 ++ rest_of 4 b) A (Pagerec (b.1 + 16) p o :: hs) ->
      HKeep A (map rec_block hs ++ Q) (word s) w' ->
      large_result S Q F A hs o s p (set_word w' s)
  (** the slabs had no room for the record: they have grown, and the pages are
      lost *)
  | large_lost p p' w' : first_fit 4 F = None -> p <> NULL ->
      Heap (set_word w' s) (p' :: S) ((p, o) :: Q) (F ++ [(p', PAGE_SLAB)]) A hs ->
      HKeep A (map rec_block hs ++ Q) (word s) w' ->
      large_result S Q F A hs o s NULL (set_word w' s).

(** Room for a record of 12 bytes. *)
Definition room F : Prop := forall F1 b F2, first_fit 4 F = Some (F1, b, F2) -> b.2 <> 5.

Lemma large_run n s S Q F A hs size : Heap s S Q F A hs -> 4080 <= size <= 4194304 -> room F ->
  exists o, 0 <= o <= 10 /\ size <= 4096 * 2 ^ o /\
    ((exists p s', kmalloc_body (kmalloc_rec (1 + n)) size s = Ok (p, s') /\ large_result S Q F A hs o s p s') \/
     first_fit 4 F = None /\ kmalloc_body (kmalloc_rec (1 + n)) size s = Bad NoFuel).
Proof using Hlay PS.
  intros HH Hs HF. destruct (page_order_run ((size + 4095) / 4096) s) as (o & Hor & Ho & Hso & _).
  { split; [apply Z.div_le_lower_bound; lia|lia_mod]. }
  exists o. split; [done|]. split; [lia_mod|].
  set (km := kmalloc_rec (1 + n)).
  assert (kmalloc_body km size s = (pt ← get_page km o; if pt =? 0 then mret 0 else
    r ← add_header km pt o; if r =? -1 then mret 0 else mret pt) s) as ->.
  { unfold kmalloc_body, sizeof_slab, PAGE_SIZE, PAGE_SIZE_4MB. rewrite (proj2 (Z.leb_gt size 0)) by lia.
    rewrite (proj2 (Z.ltb_ge 4194304 size)), u32_id by lia. rewrite (proj2 (Z.ltb_ge _ _)) by lia.
    rewrite i32_id, Z.quot_div_nonneg by lia. replace (size + 4096 - 1) with (size + 4095) by lia.
    by erewrite bind_ok by exact Hor. }
  destruct (take_page km s S Q F A hs o HH Ho) as (p & w1 & Hg & [[-> ->]|(Hp & Hp32 & HH1 & HK1 & _)]).
  { left. exists NULL, s. split; [|constructor]. erewrite bind_ok by exact Hg. by destruct s. }
  erewrite bind_ok by exact Hg. rewrite (proj2 (Z.eqb_neq p 0) Hp).
  destruct (first_fit 4 F) as [[[F1 b] F2]|] eqn:Hff.
  - left. destruct (add_header_run n _ _ _ _ _ _ _ _ _ _ _ HH1 Ho Hp32 Hff (HF _ _ _ Hff)) as (w2 & Hr2 & HH2 & HK2).
    exists p, (set_word w2 s). split; [by erewrite bind_ok by exact Hr2|].
    eapply large_some; [done|done|exact HH2|]. eapply HKeep_trans; [exact HK1|].
    eapply HKeep_sub; [| |exact HK2]; [done|]. intros c. rewrite !elem_of_app, elem_of_cons. tauto.
  - pose proof (small_run (kmalloc_rec n) 12 _ _ _ _ _ _ HH1 ltac:(lia) ltac:(lia)) as Hsm.
    change (units 12) with 4 in Hsm. rewrite Hff in Hsm. unfold add_header, km.
    change (kmalloc_rec (1 + n) sizeof_page_header) with (kmalloc_body (kmalloc_rec n) 12).
    destruct Hsm as [[_ Hr]|(p' & w2 & Hr & HH2 & HK2)]; [right; split; [done|]|left].
    + apply bind_bad. by apply bind_bad.
    + exists NULL, (set_word w2 s). split; [by erewrite bind_ok by (by erewrite bind_ok by exact Hr)|].
      eapply large_lost; [done|done|exact HH2|]. eapply HKeep_trans; [exact HK1|].
      eapply HKeep_sub; [| |apply SKeep_HKeep, HK2].
      * intros c Hc. apply elem_of_app. by right.
      * intros c. rewrite !elem_of_app, elem_of_cons. tauto.
Qed.
End heap.
