(* ===== verification/KmallocHeapFree.v ===== *)
(** * [kfree] against lists of blocks

    [pop_header] looks for the record of a large block; the record goes back
    to the slabs and the pages to the page allocator.  A block without a
    record is one of the slabs'. *)
From S2P Require Import Prelude Kmalloc KmallocRing KmallocBuddy KmallocPages KmallocAlloc KmallocFree KmallocInit KmallocSource KmallocSlab KmallocSlabOps KmallocSlabFree KmallocHeap.

Section chains.
Context {lay : Layout}.
Implicit Types (w : Z -> Z) (hs : list pagerec).
Fixpoint last_at (x : Z) hs : Z := match hs with [] => x | r :: hs => last_at (r_at r) hs end.
Lemma last_at_in x hs : last_at x hs ∈ x :: map r_at hs.
Proof.
  revert x. induction hs as [|r hs IH]; intros x; cbn [last_at map]; [by apply list_elem_of_here|].
  apply elem_of_cons. right. apply IH.
Qed.
Lemma chain_at w x hs1 r hs2 : chain w x (hs1 ++ r :: hs2) -> w (last_at x hs1 + 8) = r_at r /\ chain w (r_at r) hs2.
Proof. revert x. induction hs1 as [|q hs1 IH]; intros x; cbn [chain app last_at]; [done|]. intros [_ H]. by apply IH. Qed.
Lemma chain_unlink w x hs1 r hs2 : chain w x (hs1 ++ r :: hs2) -> NoDup (x :: map r_at (hs1 ++ r :: hs2)) ->
  chain (upd (last_at x hs1 + 8) (w (r_at r + 8)) w) x (hs1 ++ hs2).
Proof.
  revert x. induction hs1 as [|q hs1 IH]; intros x HC Hd; cbn [app map last_at] in *.
  - destruct HC as [_ HC]. eapply chain_frame; [apply upd_eq| |exact HC]. intros r' Hr'. apply upd_ne.
    apply NoDup_cons in Hd as [Hx _]. intros E. apply Hx. apply elem_of_cons. right.
    replace x with (r_at r') by lia. by apply (list_elem_of_fmap_2 r_at).
  - destruct HC as [HC1 HC2]. pose proof (NoDup_cons_1_2 _ _ Hd) as Hd2. cbn [chain]. split; [|by apply IH].
    rewrite upd_ne; [done|]. apply NoDup_cons in Hd as [Hx _]. intros E. apply Hx.
    pose proof (last_at_in (r_at q) hs1) as Hl. replace x with (last_at (r_at q) hs1) by lia.
    revert Hl. rewrite map_app, !elem_of_cons, elem_of_app. tauto.
Qed.
End chains.

Section kfree.
Context {lay : Layout} {Hlay : @LayoutOk lay}.
Context (Inv : kstate -> list (Z * Z) -> Prop) {PS : PageSource foreign Inv}.
Implicit Types (w : Z -> Z) (S : list Z) (Q : list (Z * Z)) (F A H : list slot) (hs : list pagerec).
Abbreviation heap := (Heap Inv).

Lemma recs_distinct s S Q F A hs : heap s S Q F A hs -> NoDup (PH :: map r_at hs).
Proof using Hlay.
  intros HH. pose proof (sl_apart _ _ _ _ _ (sb_slots _ _ _ _ _ _ (hp_slabs _ _ _ _ _ _ _ HH))) as Ha.
  rewrite app_nil_r in Ha. apply pairwise_app in Ha as (_ & (Ha & _)%pairwise_app & _).
  assert (forall r, r ∈ hs -> fits S (rec_slot r)) as Hf by (intros r Hr; by eapply rec_fits).
  constructor.
  - intros (r & E & Hr)%list_elem_of_fmap. pose proof (fits_range _ _ (Hf r Hr)) as Hrg.
    pose proof layout_ph as ((HP1 & HP2 & HP3) & _). unfold rec_slot, HEAP in *. cbn [fst snd] in *. lia.
  - clear HH Hf. induction hs as [|r hs IH]; cbn [map] in *; [constructor|]. destruct Ha as [Ha Hr].
    constructor; [|by apply IH]. intros (r' & E & Hr')%list_elem_of_fmap. rewrite Forall_forall in Ha.
    specialize (Ha (rec_slot r') ltac:(by apply (list_elem_of_fmap_2 rec_slot))).
    unfold apart, rec_slot in Ha. cbn [fst snd] in Ha. lia.
Qed.
Lemma node_words s S Q F A hs x f : heap s S Q F A hs -> x ∈ PH :: map r_at hs -> 0 <= f <= 8 -> f mod 4 = 0 ->
  waddr (x + f).
Proof using Hlay.
  intros HH Hx Hf Hm. apply elem_of_cons in Hx as [->|(r & -> & Hr)%list_elem_of_fmap].
  - pose proof layout_ph as ((HP1 & HP2 & HP3) & _). unfold waddr, HEAP in *. lia_mod.
  - pose proof (fits_range _ _ (rec_fits _ _ _ _ _ _ _ _ HH Hr)) as Hrg. unfold rec_slot in Hrg. cbn [fst snd] in Hrg.
    unfold waddr. lia_mod.
Qed.
Lemma page_range s S Q F A hs r : heap s S Q F A hs -> r ∈ hs -> 8388608 <= r_page r < 67108864.
Proof using PS.
  intros HH Hr. pose proof (hp_slabs _ _ _ _ _ _ _ HH) as [HI _ _].
  assert (rec_block r ∈ out S (map rec_block hs ++ Q)) as Hin.
  { apply elem_of_app. right. apply elem_of_app. left. by apply (list_elem_of_fmap_2 rec_block). }
  pose proof (valid_range _ (ps_valid Inv _ _ _ HI Hin)) as Hv. unfold HEAP, HEAP_END, rec_block in Hv.
  cbn [fst snd] in Hv. lia.
Qed.

(** *** [pop_header] *)
Lemma pop_skip kf s S Q F A hs x r hs2 addr : heap s S Q F A hs -> r ∈ hs -> x ∈ PH :: map r_at hs ->
  chain (word s) x (r :: hs2) -> r_page r <> addr ->
  pop_header_body kf PH addr x s = Ok (inl (r_at r), s).
Proof using Hlay PS.
  intros HH Hr Hx [HC _] Hne. pose proof (recs_distinct _ _ _ _ _ _ HH) as Hd. unfold pop_header_body, h_next, h_addr.
  rewrite ld_bind by (by eapply node_words; [exact HH|exact Hx|..]). rewrite HC.
  assert (r_at r ∈ map r_at hs) as Hin by (by apply (list_elem_of_fmap_2 r_at)).
  assert (r_at r <> PH) as HneP by (intros E; apply NoDup_cons in Hd as [Hd _]; apply Hd; by rewrite <-E).
  rewrite (proj2 (Z.eqb_neq _ _) HneP). rewrite <-(Z.add_0_r (r_at r)) at 1.
  rewrite ld_bind by (eapply node_words; [exact HH|apply elem_of_cons; by right|lia|done]). rewrite Z.add_0_r.
  pose proof (hp_recs _ _ _ _ _ _ _ HH) as HR. rewrite Forall_forall in HR. destruct (HR r Hr) as (-> & _ & _).
  pose proof (page_range _ _ _ _ _ _ _ HH Hr). rewrite i32_id by lia. by rewrite (proj2 (Z.eqb_neq _ _) Hne).
Qed.
Lemma pop_walk kf s S Q F A hs m addr x hs1 hs2 : heap s S Q F A hs -> hs1 ⊆ hs -> x ∈ PH :: map r_at hs ->
  chain (word s) x (hs1 ++ hs2) -> (forall r, r ∈ hs1 -> r_page r <> addr) ->
  iter (length hs1 + m) (pop_header_body kf PH addr) x s = iter m (pop_header_body kf PH addr) (last_at x hs1) s.
Proof using Hlay PS.
  intros HH. revert x. induction hs1 as [|r hs1 IH]; intros x Hin Hx HC Hne; [done|].
  assert (r ∈ hs) as Hr by (apply Hin; by apply list_elem_of_here). cbn [length Nat.add iter last_at app] in *.
  erewrite bind_ok by (eapply pop_skip; [exact HH|exact Hr|exact Hx|exact HC|apply Hne; by apply list_elem_of_here]).
  apply IH.
  - intros q Hq. apply Hin, elem_of_cons. by right.
  - apply elem_of_cons. right. by apply (list_elem_of_fmap_2 r_at).
  - by apply HC.
  - intros q Hq. apply Hne, elem_of_cons. by right.
Qed.
Lemma recs_length s S Q F A hs : heap s S Q F A hs -> Z.of_nat (length hs) <= 7340032.
Proof using Hlay.
  intros HH. pose proof (recs_distinct _ _ _ _ _ _ HH) as [_ Hd]%NoDup_cons.
  pose proof (length_below 7340032 (map (λ x, (x - 8388608) / 8) (map r_at hs))) as Hl. rewrite !length_map in Hl.
  assert (forall x, x ∈ map r_at hs -> 8388608 <= x < 67108864 /\ x mod 8 = 0) as Hx.
  { intros x (r & -> & Hr)%list_elem_of_fmap.
    pose proof (fits_range _ _ (rec_fits _ _ _ _ _ _ _ _ HH Hr)) as Hrg. unfold rec_slot in Hrg. cbn [fst snd] in Hrg. lia_mod. }
  lapply Hl; [intros Hl2; lapply Hl2; [lia|]|].
  - intros q (x & -> & H1%Hx)%list_elem_of_fmap. lia_mod.
  - apply NoDup_fmap_2_strong; [|done]. intros x y H1%Hx H2%Hx E. lia_mod.
Qed.
Lemma pop_iter kf addr s n : Z.of_nat n <= 7340032 -> page_header s = PH -> exists m,
  pop_header kf addr s = iter (n + (1 + m)) (pop_header_body kf PH addr) PH s.
Proof using Type.
  intros Hn HP. pose proof list_fuel_Z. exists (list_fuel - n - 1)%nat. unfold pop_header.
  erewrite bind_ok by reflexivity. rewrite HP. f_equal. lia.
Qed.

Lemma pop_none kf addr s S Q F A hs : heap s S Q F A hs -> (forall r, r ∈ hs -> r_page r <> addr) ->
  pop_header kf addr s = Ok (-1, s).
Proof using Hlay PS.
  intros HH Hne. destruct (pop_iter kf addr s (length hs) (recs_length _ _ _ _ _ _ HH) (hp_head _ _ _ _ _ _ _ HH)) as (m & ->).
  pose proof (hp_chain _ _ _ _ _ _ _ HH) as HC.
  rewrite (pop_walk kf s S Q F A hs (1 + m) addr PH hs []); [|done|done|by apply list_elem_of_here|by rewrite app_nil_r|done].
  assert (word s (last_at PH hs + 8) = PH) as Hl.
  { clear -HC. set (x := PH) in HC at 1 |- * at 1. clearbody x. revert x HC. induction hs as [|r hs IH]; intros x; cbn [chain last_at]; [done|].
    intros [_ HC]. by apply IH. }
  cbn [iter Nat.add]. unfold pop_header_body, h_next.
  assert (waddr (last_at PH hs + 8)) as Hw by (eapply node_words; [exact HH|apply last_at_in|lia|done]).
  erewrite bind_ok; [|rewrite ld_bind by exact Hw; rewrite Hl, Z.eqb_refl; reflexivity]. done.
Qed.

(** The record of [p] is taken off the list, and freed. *)
Definition unlink_mem_rec w hs1 (r : pagerec) : Z -> Z := upd (last_at PH hs1 + 8) (w (r_at r + 8)) w.
Lemma pop_some kf s S Q F A hs1 r hs2 s' : heap s S Q F A (hs1 ++ r :: hs2) ->
  (forall q, q ∈ hs1 -> r_page q <> r_page r) ->
  kf (r_at r) (set_word (unlink_mem_rec (word s) hs1 r) s) = Ok (tt, s') ->
  pop_header kf (r_page r) s = Ok (r_order r, s').
Proof using Hlay PS.
  intros HH Hne Hkf. pose proof (recs_length _ _ _ _ _ _ HH) as Hlen. rewrite length_app in Hlen. cbn [length] in Hlen.
  destruct (pop_iter kf (r_page r) s (length hs1) ltac:(lia) (hp_head _ _ _ _ _ _ _ HH)) as (m & ->).
  pose proof (hp_chain _ _ _ _ _ _ _ HH) as HC. pose proof (recs_distinct _ _ _ _ _ _ HH) as Hd.
  rewrite (pop_walk kf s S Q F A _ (1 + m) (r_page r) PH hs1 (r :: hs2) HH);
    [|intros q Hq; apply elem_of_app; by left|by apply list_elem_of_here|done|done].
  destruct (chain_at _ _ _ _ _ HC) as [Hl HC2]. pose proof (last_at_in PH hs1) as Hlin.
  assert (r_at r ∈ map r_at (hs1 ++ r :: hs2)) as Hrin.
  { apply (list_elem_of_fmap_2 r_at), elem_of_app. right. by apply list_elem_of_here. }
  assert (last_at PH hs1 ∈ PH :: map r_at (hs1 ++ r :: hs2)) as Hlin2.
  { revert Hlin. rewrite map_app, !elem_of_cons, elem_of_app. tauto. }
  assert (r_at r <> PH) as HneP by (intros E; apply NoDup_cons in Hd as [Hd _]; apply Hd; by rewrite <-E).
  pose proof (hp_recs _ _ _ _ _ _ _ HH) as HR. rewrite Forall_forall in HR.
  assert (r ∈ hs1 ++ r :: hs2) as Hr by (apply elem_of_app; right; by apply list_elem_of_here).
  destruct (HR r Hr) as (Hrp & Hro & Hor). pose proof (page_range _ _ _ _ _ _ _ HH Hr) as Hpr.
  assert (Hrw := λ f, node_words _ _ _ _ _ _ (r_at r) f HH ltac:(apply elem_of_cons; by right)).
  pose proof (Hrw 0 ltac:(lia) eq_refl) as Hw0. rewrite Z.add_0_r in Hw0.
  assert (0 <= word s (r_at r + 8) < 4294967296) as Hn32.
  { destruct hs2 as [|q hs2]; cbn [chain] in HC2.
    - rewrite HC2. pose proof layout_ph as ((HP1 & HP2 & HP3) & _). unfold HEAP in *. lia.
    - destruct HC2 as [-> _]. assert (waddr (r_at q + 0)) as Hq; [|unfold waddr in Hq; lia].
      eapply node_words; [exact HH|apply elem_of_cons; right|lia|done].
      apply (list_elem_of_fmap_2 r_at), elem_of_app. right. apply elem_of_cons. right. by apply list_elem_of_here. }
  cbn [iter Nat.add]. rewrite (bind_ok _ _ _ (inr (r_order r)) s'); [reflexivity|].
  unfold pop_header_body, h_next, h_addr, h_order.
  rewrite ld_bind by (eapply node_words; [exact HH|exact Hlin2|lia|done]). rewrite Hl, (proj2 (Z.eqb_neq _ _) HneP).
  rewrite ld_bind by done. rewrite Hrp, i32_id, Z.eqb_refl by lia.
  rewrite !ld_bind by (apply Hrw; lia || done). rewrite Hro, st_bind by first [eapply node_words; [exact HH|exact Hlin2|lia|done]|lia].
  erewrite bind_ok by exact Hkf. by rewrite i32_id by lia.
Qed.

Lemma heap_unlink s S Q F A hs1 r hs2 : heap s S Q F A (hs1 ++ r :: hs2) ->
  heap (set_word (unlink_mem_rec (word s) hs1 r) s) S (rec_block r :: Q) F (rec_slot r :: A) (hs1 ++ hs2) /\
  HKeep A (map rec_block (hs1 ++ r :: hs2) ++ Q) (word s) (unlink_mem_rec (word s) hs1 r).
Proof using Hlay PS.
  intros HH. pose proof HH as [HB HP HC HR]. set (w' := unlink_mem_rec (word s) hs1 r).
  pose proof (recs_distinct _ _ _ _ _ _ HH) as Hd.
  set (u := last_at PH hs1 + 8) in *.
  assert (u = PH + 8 \/ exists q, q ∈ hs1 ++ r :: hs2 /\ u = r_at q + 8) as Hu.
  { unfold u. pose proof (last_at_in PH hs1) as Hl. apply elem_of_cons in Hl as [->|(q & -> & Hq)%list_elem_of_fmap]; [by left|].
    right. exists q. split; [apply elem_of_app; by left|done]. }
  assert (forall x, x <> u -> w' x = word s x) as HW by (intros x Hx; by apply upd_ne).
  assert (map rec_slot (hs1 ++ r :: hs2) ++ A ≡ₚ map rec_slot (hs1 ++ hs2) ++ rec_slot r :: A) as HpA.
  { rewrite !map_app. cbn [map]. rewrite <-!app_assoc. apply Permutation_app_head. cbn [app]. apply Permutation_middle. }
  assert (map rec_block (hs1 ++ r :: hs2) ++ Q ≡ₚ map rec_block (hs1 ++ hs2) ++ rec_block r :: Q) as HpQ.
  { rewrite !map_app. cbn [map]. rewrite <-!app_assoc. apply Permutation_app_head. cbn [app]. apply Permutation_middle. }
  split; [split|].
  - apply (Slabs_pages Inv _ _ _ _ _ _ HpQ). eapply Slabs_used; [exact HpA|]. apply (Slabs_write Inv); [done|].
    intros x. destruct (decide (x = u)) as [->|Hx]; [right|left; by apply HW].
    destruct Hu as [->|(q & Hq & ->)].
    + left. destruct layout_ph_l1 as (_ & HL & HD & Ho). pose proof (Ho (PH + 8)). pose proof layout_ph as (HP1 & _).
      unfold foreign, HEAP in *. lia.
    + right. left. exists (rec_slot q). split; [apply elem_of_app; left; by apply (list_elem_of_fmap_2 rec_slot)|].
      unfold rec_slot, in_slot. cbn [fst snd]. lia.
  - done.
  - by apply chain_unlink.
  - rewrite Forall_forall in *. intros q Hq.
    assert (q ∈ hs1 ++ r :: hs2) as Hq' by (revert Hq; rewrite !elem_of_app, elem_of_cons; tauto).
    destruct (HR q Hq') as (H1 & H2 & H3). unfold rec_ok. cbn [word set_word].
    rewrite !HW; [done|..]; intros E; destruct Hu as [Hu|(q' & Hq2 & Hu)];
      try (pose proof (fits_range _ _ (rec_fits _ _ _ _ _ _ _ _ HH Hq')) as Hf;
           pose proof layout_ph as ((HP1 & HP2 & HP3) & _); unfold rec_slot, HEAP in *; cbn [fst snd] in *; lia).
    all: pose proof (slots_apart _ _ _ _ _ (rec_slot q) (rec_slot q') (sb_slots _ _ _ _ _ _ HB)) as Ha.
    all: assert (forall v, v ∈ hs1 ++ r :: hs2 -> rec_slot v ∈ F ++ (map rec_slot (hs1 ++ r :: hs2) ++ A) ++ []) as Hin
      by (intros v Hv; apply elem_of_app; right; rewrite app_nil_r; apply elem_of_app; left; by apply (list_elem_of_fmap_2 rec_slot)).
    all: destruct (Ha (Hin _ Hq') (Hin _ Hq2)) as [Hs|Hs]; [injection Hs as Hs; lia|unfold apart, rec_slot in Hs; cbn [fst snd] in Hs; lia].
  - intros x Hx. destruct (decide (x = u)) as [->|Hne]; [exfalso|by apply HW].
    destruct Hu as [Hu|(q & Hq & Hu)].
    + destruct Hx as [[_ Hx]|(c & Hc & Hx)]; [apply Hx; left; lia|].
      assert (fits S c) as Hcf.
      { apply (slot_fits _ _ _ _ _ _ (sb_slots _ _ _ _ _ _ HB)). rewrite !elem_of_app. tauto. }
      pose proof (fits_range _ _ Hcf). pose proof layout_ph as ((HP1 & HP2 & HP3) & _). unfold in_slot, HEAP in *. lia.
    + pose proof (rec_fits _ _ _ _ _ _ _ _ HH Hq) as Hf.
      assert (in_slot u (rec_slot q)) as Hus by (unfold in_slot, rec_slot; cbn [fst snd]; lia).
      destruct Hx as [[Hk _]|(c & Hc & Hx)].
      * by eapply (slot_not_kept Inv s S _ (rec_slot q) u); [apply HB|..].
      * pose proof (sl_apart _ _ _ _ _ (sb_slots _ _ _ _ _ _ HB)) as (_ & Ha & _)%pairwise_app.
        rewrite app_nil_r in Ha. apply pairwise_app in Ha as (_ & _ & Ha).
        specialize (Ha (rec_slot q) c ltac:(by apply (list_elem_of_fmap_2 rec_slot)) Hc).
        unfold apart, in_slot in *. lia.
Qed.

(** *** [kfree] of a small block *)
Lemma small_not_page s S Q F A hs c x r : heap s S Q F A hs -> c ∈ F ++ A -> in_slot x c -> r ∈ hs -> r_page r <> x.
Proof using Hlay PS.
  intros HH Hc Hx Hr E. pose proof (hp_slabs _ _ _ _ _ _ _ HH) as [HI _ HS].
  assert (fits S c) as Hf.
  { apply (slot_fits _ _ _ _ _ _ HS). revert Hc. rewrite !elem_of_app. tauto. }
  apply (slot_not_kept Inv s S _ c x HI Hf Hx). right. exists (rec_block r). split.
  - apply elem_of_app. left. by apply (list_elem_of_fmap_2 rec_block).
  - pose proof (hp_recs _ _ _ _ _ _ _ HH) as HR. rewrite Forall_forall in HR. destruct (HR r Hr) as (_ & _ & Ho).
    unfold inside, rec_block. cbn [fst snd]. pose proof (bsz_range (r_order r) ltac:(lia)). lia.
Qed.

Lemma kfree_small_run kf s S Q F A hs a n F' b' : heap s S Q F ((a, n) :: A) hs -> 3 <= n < 4080 ->
  absorb (length F) F (a, n) = (F', b') -> extra_page (start_slab s) b' = false ->
  exists w', kfree_body kf (a + 16) s = Ok (tt, set_word w' s) /\
    heap (set_word w' s) S Q (F' ++ [b']) A hs /\ SKeep (map rec_slot hs ++ A) (map rec_block hs ++ Q) (word s) w'.
Proof using Hlay PS.
  intros HH Hn Hab Hx. pose proof (hp_slabs _ _ _ _ _ _ _ HH) as HB.
  assert (Slabs Inv s S (map rec_block hs ++ Q) F ((a, n) :: map rec_slot hs ++ A)) as HB2.
  { eapply Slabs_used; [|exact HB]. by rewrite <-Permutation_middle. }
  destruct (slab_free_run Inv kf s S _ F _ (a, n) F' b' HB2 Hab Hx) as (w' & Hr & HB' & HK).
  exists w'. split; [|split; [|exact HK]].
  - pose proof (sb_slots _ _ _ _ _ _ HB2) as HS.
    assert (fits S (a, n)) as Hf by (apply (slot_fits _ _ _ _ _ _ HS); rewrite !elem_of_app, elem_of_cons; tauto).
    pose proof (fits_range _ _ Hf) as Hrg. cbn [fst snd] in *.
    destruct (sl_used _ _ _ _ _ HS (a, n) ltac:(by apply list_elem_of_here)) as [Hsz Hst]. cbn [fst snd] in *.
    assert (waddr a /\ waddr (a + 4)) as [Hw0 Hw4] by (unfold waddr; lia_mod).
    unfold kfree_body. rewrite (proj2 (Z.eqb_neq (a + 16) NULL)) by (unfold NULL; lia). rewrite i32_id by lia.
    assert (forall r, r ∈ hs -> r_page r <> a + 16) as Hnp.
    { intros r Hr'. eapply small_not_page; [exact HH| | |done]; [apply elem_of_app; right; apply list_elem_of_here|].
      unfold in_slot. cbn [fst snd]. lia. }
    erewrite bind_ok by (eapply pop_none; [exact HH|exact Hnp]).
    change (negb (-1 =? -1)) with false. cbn iota. unfold sizeof_slab, s_status, s_size.
    replace (a + 16 - 16) with a by lia. rewrite u32_id, ld_bind by (done || lia). rewrite Hst.
    change (i32 1 =? 0) with false. cbn iota. rewrite ld_bind, Hsz by done.
    rewrite u32_id, (proj2 (Z.ltb_lt _ _)) by (unfold PAGE_SIZE; lia). exact Hr.
  - destruct (recs_keep _ _ hs A (map rec_block hs ++ Q) HK (hp_chain _ _ _ _ _ _ _ HH) (hp_recs _ _ _ _ _ _ _ HH)) as [HC HR].
    split; [done|apply HH|done|done].
Qed.
(** A double free finds the status 0 that the first one left. *)
Lemma kfree_free_run kf s S Q F A hs a n : heap s S Q F A hs -> (a, n) ∈ F -> 3 <= n ->
  kfree_body kf (a + 16) s = Ok (tt, s).
Proof using Hlay PS.
  intros HH Hin Hn. pose proof (sb_slots _ _ _ _ _ _ (hp_slabs _ _ _ _ _ _ _ HH)) as HS.
  assert (fits S (a, n)) as Hf by (apply (slot_fits _ _ _ _ _ _ HS); rewrite !elem_of_app; tauto).
  pose proof (fits_range _ _ Hf) as Hrg. destruct (sl_free _ _ _ _ _ HS _ Hin) as [_ Hst]. cbn [fst snd] in *.
  unfold kfree_body. rewrite (proj2 (Z.eqb_neq (a + 16) NULL)) by (unfold NULL; lia). rewrite i32_id by lia.
  erewrite bind_ok.
  2:{ eapply pop_none; [exact HH|]. intros r Hr. eapply small_not_page; [exact HH|apply elem_of_app; by left| |done].
      unfold in_slot. cbn [fst snd]. lia. }
  change (negb (-1 =? -1)) with false. cbn iota. unfold sizeof_slab, s_status.
  replace (a + 16 - 16) with a by lia. rewrite u32_id, ld_bind by first [unfold waddr; lia_mod|lia]. by rewrite Hst.
Qed.

(** *** [kfree] of a large block *)
Lemma heap_free_page kf s S Q F A hs p o : heap s S ((p, o) :: Q) F A hs -> 0 <= o <= 10 ->
  exists w', free_page kf p o s = Ok (tt, set_word w' s) /\ heap (set_word w' s) S Q F A hs /\
    HKeep A (map rec_block hs ++ Q) (word s) w' /\ Keep Q (word s) w'.
Proof using Hlay PS.
  intros HH Ho. pose proof HH as [[HI HL HS] HP HC HR].
  assert (Inv s ((p, o) :: out S (map rec_block hs ++ Q))) as HI2.
  { eapply ps_perm; [|exact HI]. unfold out. rewrite !app_assoc. symmetry. apply Permutation_middle. }
  destruct (ps_free kf s _ p o Ho HI2) as (w' & Hr & HI' & HK). exists w'. split; [done|].
  assert (HS' := HS).
  assert (Inv s (out S (map rec_block hs ++ (p, o) :: Q))) as HI3 by done.
  assert (Slots w' S F (map rec_slot hs ++ A) [] /\ SKeep (map rec_slot hs ++ A) (map rec_block hs ++ Q) (word s) w') as [HS2 HSK].
  { assert (forall x b, b ∈ F ++ (map rec_slot hs ++ A) ++ [] -> in_slot x b -> kept (out S (map rec_block hs ++ Q)) x) as Hk.
    { intros x b Hb Hx. destruct (slot_fits _ _ _ _ _ _ HS Hb) as (_ & _ & _ & Hfp). destruct (Hfp x Hx) as (q & Hq & Hxq).
      right. exists (q, 10). split; [apply elem_of_app; left; by apply (list_elem_of_fmap_2 (λ p, (p, 10)))|].
      unfold inside. cbn [fst snd]. by change (bsz 10) with 4194304. }
    split.
    - eapply Slots_frame; [|exact HS]. intros x Hx. apply HK.
      destruct Hx as [Hx|[(b & Hb & Hx)|(b & Hb & Hx)]].
      + left. pose proof layout_l1 as (H1 & H2 & H3 & H4 & _). lia.
      + assert (b ∈ F ++ (map rec_slot hs ++ A) ++ []) as Hin by (rewrite !elem_of_app; tauto).
        apply (Hk x b Hin). pose proof (slots_two _ _ _ _ _ _ HS Hin). unfold in_slot. lia.
      + assert (b ∈ F ++ (map rec_slot hs ++ A) ++ []) as Hin.
        { apply elem_of_app. right. apply elem_of_app. by left. }
        apply (Hk x b Hin). pose proof (slots_two _ _ _ _ _ _ HS Hin). unfold in_slot. lia.
    - intros x [[Hx _]|(b & Hb & Hx)]; apply HK.
      + destruct Hx as [Hx|(q & Hq & Hx)]; [by left|right]. exists q. split; [apply elem_of_app; by right|done].
      + apply (Hk x b); [|done]. apply elem_of_app. right. apply elem_of_app. by left. }
  split.
  - destruct (recs_keep _ _ hs A _ HSK HC HR) as [HC' HR']. split; [by split|done..].
  - split.
    + eapply HKeep_sub; [| |apply SKeep_HKeep, HSK]; [|done]. intros c Hc. apply elem_of_app. by right.
    + eapply kept_mono; [|exact HK]. intros b Hb. unfold out. rewrite !elem_of_app. by right; right.
Qed.

Lemma pages_distinct s S Q F A hs1 r hs2 q : heap s S Q F A (hs1 ++ r :: hs2) -> q ∈ hs1 -> r_page q <> r_page r.
Proof using PS.
  intros HH Hq E. pose proof (hp_slabs _ _ _ _ _ _ _ HH) as [HI _ _]. pose proof (ps_tiles _ _ HI) as [HV HD].
  apply pairwise_app in HD as (_ & (HD & _)%pairwise_app & _). rewrite map_app in HD.
  apply pairwise_app in HD as (_ & _ & HD). apply Forall_app in HV as [_ [HV _]%Forall_app].
  rewrite Forall_forall in HV.
  assert (forall v, v ∈ hs1 ++ r :: hs2 -> 4096 <= bsz (r_order v)) as Hb.
  { intros v Hv. pose proof (valid_range _ (HV (rec_block v) ltac:(by apply (list_elem_of_fmap_2 rec_block)))). unfold rec_block in *. cbn [fst snd] in *. lia. }
  specialize (HD (rec_block q) (rec_block r) ltac:(by apply (list_elem_of_fmap_2 rec_block))
    ltac:(cbn [map]; by apply list_elem_of_here)).
  pose proof (Hb q ltac:(apply elem_of_app; by left)). pose proof (Hb r ltac:(apply elem_of_app; right; by apply list_elem_of_here)).
  unfold disj, rec_block in HD. cbn [fst snd] in HD. lia.
Qed.

Lemma kfree_large_run n s S Q F A hs1 r hs2 F' b' : heap s S Q F A (hs1 ++ r :: hs2) ->
  absorb (length F) F (rec_slot r) = (F', b') -> extra_page (start_slab s) b' = false ->
  exists w', kfree_rec (2 + n) (r_page r) s = Ok (tt, set_word w' s) /\
    heap (set_word w' s) S Q (F' ++ [b']) A (hs1 ++ hs2) /\
    HKeep A (map rec_block (hs1 ++ hs2) ++ Q) (word s) w'.
Proof using Hlay PS.
  intros HH Hab Hx. assert (r ∈ hs1 ++ r :: hs2) as Hr by (apply elem_of_app; right; by apply list_elem_of_here).
  pose proof (page_range _ _ _ _ _ _ _ HH Hr) as Hpr.
  pose proof (hp_recs _ _ _ _ _ _ _ HH) as HR. rewrite Forall_forall in HR. destruct (HR r Hr) as (_ & _ & Ho).
  destruct (heap_unlink _ _ _ _ _ _ _ _ HH) as [HH1 HK1].
  destruct (kfree_small_run (kfree_rec n) _ _ _ _ _ _ (r_at r - 16) 4 F' b' HH1 ltac:(lia) Hab Hx) as (w2 & Hr2 & HH2 & HK2).
  replace (r_at r - 16 + 16) with (r_at r) in Hr2 by lia.
  destruct (heap_free_page (kfree_rec (1 + n)) _ _ _ _ _ _ _ _ HH2 Ho) as (w3 & Hr3 & HH3 & HK3 & _).
  exists w3. split; [|split; [exact HH3|]].
  - change (kfree_rec (2 + n)) with (kfree_body (kfree_rec (1 + n))). unfold kfree_body.
    rewrite (proj2 (Z.eqb_neq (r_page r) NULL)) by (unfold NULL; lia). rewrite i32_id by lia.
    erewrite bind_ok.
    2:{ eapply pop_some; [exact HH|intros q Hq; by eapply pages_distinct|]. exact Hr2. }
    rewrite (proj2 (Z.eqb_neq (r_order r) (-1))) by lia. exact Hr3.
  - eapply HKeep_trans; [|eapply HKeep_trans; [|exact HK3]].
    + eapply HKeep_sub; [| |exact HK1]; [done|]. intros c. rewrite !map_app, !elem_of_app. cbn [map]. rewrite elem_of_cons. tauto.
    + eapply HKeep_sub; [| |apply SKeep_HKeep, HK2].
      * intros c Hc. apply elem_of_app. by right.
      * intros c. rewrite !elem_of_app, elem_of_cons. tauto.
Qed.
End kfree.
