(* ===== verification/KmallocHeapContract.v ===== *)
(** * What [kmalloc] and [kfree] promise, and where they break the promise *)
From S2P Require Import Prelude Kmalloc KmallocRing KmallocBuddy KmallocPages KmallocAlloc KmallocFree KmallocInit KmallocSource KmallocContract KmallocSlab KmallocSlabOps KmallocSlabFree KmallocHeap KmallocHeapFree.

Section contract.
Context {lay : Layout} {Hlay : @LayoutOk lay}.
Context (Inv : kstate -> list (Z * Z) -> Prop) {PS : PageSource foreign Inv}.
Implicit Types (S : list Z) (Q : list (Z * Z)) (F A : list slot) (hs : list pagerec).
Abbreviation heap := (Heap Inv).



(** *** The heap on top of the pages is a source of pages *)
(** The blocks and the pages that are out may be written, and the kernel's
    other words. *)
Definition client A Q (x : Z) : Prop :=
  plain x \/ (exists b, b ∈ A /\ b.1 + 16 <= x /\ in_slot x b) \/ (exists q, q ∈ Q /\ inside x q).
Lemma client_not_rec s S Q F A hs x c : heap s S Q F A hs -> client A (map rec_block hs ++ Q) x ->
  c ∈ hs -> ~ in_slot x (rec_slot c).
Proof using Hlay PS.
  intros HH Hx Hc Hxc. pose proof (hp_slabs _ _ _ _ _ _ _ HH) as HB. pose proof (rec_fits _ _ _ _ _ _ _ _ HH Hc) as Hf.
  pose proof (fits_range _ _ Hf) as Hr. destruct Hx as [[[Hx _] _]|[(b & Hb & _ & Hxb)|(q & Hq & Hxq)]].
  - unfold in_slot, HEAP in *. lia.
  - pose proof (sl_apart _ _ _ _ _ (sb_slots _ _ _ _ _ _ HB)) as (_ & Ha & _)%pairwise_app.
    rewrite app_nil_r in Ha. apply pairwise_app in Ha as (_ & _ & Ha).
    specialize (Ha (rec_slot c) b ltac:(by apply (list_elem_of_fmap_2 rec_slot)) Hb). unfold apart, in_slot in *. lia.
  - eapply (slot_not_kept Inv s S _ _ x); [apply HB|exact Hf|exact Hxc|]. right. by exists q.
Qed.
Lemma heap_ext w' s S Q F A hs : heap s S Q F A hs ->
  (forall x, w' x = word s x \/ client A (map rec_block hs ++ Q) x) -> heap (set_word w' s) S Q F A hs.
Proof using Hlay PS.
  intros HH Hw. pose proof HH as [HB HP HC HR].
  assert (forall r f, r ∈ hs -> 0 <= f < 16 -> w' (r_at r + f) = word s (r_at r + f)) as Hrec.
  { intros r f Hr Hf. destruct (Hw (r_at r + f)) as [|Hx]; [done|exfalso].
    eapply client_not_rec; [exact HH|exact Hx|exact Hr|]. unfold in_slot, rec_slot. cbn [fst snd]. lia. }
  assert (w' (PH + 8) = word s (PH + 8)) as Hph.
  { destruct (Hw (PH + 8)) as [|Hx]; [done|exfalso]. pose proof layout_ph as ((HP1 & HP2 & HP3) & _). unfold HEAP in *.
    destruct Hx as [[_ Hx]|[(b & Hb & Hlo & _)|(q & Hq & Hx)]]; [apply Hx; left; lia|..].
    - assert (fits S b) as Hf by (apply (slot_fits _ _ _ _ _ _ (sb_slots _ _ _ _ _ _ HB)); rewrite !elem_of_app; tauto).
      pose proof (fits_range _ _ Hf). lia.
    - pose proof (valid_range q (ps_valid Inv _ _ q (sb_inv _ _ _ _ _ _ HB) ltac:(apply elem_of_app; by right))) as Hv.
      unfold inside, HEAP in *. lia. }
  split; [|done| |].
  - apply (Slabs_write Inv); [done|]. intros x. destruct (Hw x) as [|[[Hf Ho]|[(b & Hb & Hx)|Hx]]]; [by left|right..].
    + left. split; [done|]. intros Hl. apply Ho. by right.
    + right. left. exists b. split; [apply elem_of_app; by right|done].
    + by right; right.
  - eapply chain_frame; [exact Hph| |exact HC]. intros r Hr. apply Hrec; [done|lia].
  - rewrite Forall_forall in *. intros r Hr. unfold rec_ok. cbn [word set_word]. rewrite <-(Z.add_0_r (r_at r)) at 1.
    rewrite !Hrec, Z.add_0_r by (done || lia). by apply HR.
Qed.

(** *** Where the slabs go wrong *)
(** A request that no free slab can hold.  If there is a page of
    slabs left, [slab_alloc] puts it in the list and then returns NULL all the
    same; if there is none, it calls itself again in the same state, and
    whatever the depth of its stack it does not return. *)
Theorem slab_alloc_exhausted km s S Q F A size :
  Slabs Inv s S Q F A -> 0 < size <= 4194304 -> (forall b, b ∈ F -> b.2 < units size) ->
  (get_page km 10 s = Ok (NULL, s) /\ forall fuel, slab_alloc_rec km fuel size s = Bad NoFuel) \/
  (exists p w', slab_alloc km size s = Ok (NULL, set_word w' s) /\
    Slabs Inv (set_word w' s) (p :: S) Q (F ++ [(p, PAGE_SLAB)]) A).
Proof using Hlay PS.
  intros HB Hs HF. pose proof (slab_alloc_run Inv km s S Q F A size HB Hs) as H.
  destruct (first_fit (units size) F) as [[[F1 b] F2]|] eqn:Hff.
  - apply first_fit_some in Hff as (-> & Hle & _). specialize (HF b). exfalso.
    apply (Z.lt_irrefl (units size)), (Z.le_lt_trans _ _ _ Hle), HF, elem_of_app. right. by apply list_elem_of_here.
  - destruct H as [H|(p & w' & Hr & HB' & _)]; [by left|right]. by exists p, w'.
Qed.

(** When the slab that is taken has exactly one unit more than the
    request, [slab_alloc] writes the header of a free slab of 8 bytes there,
    whose 16 bytes reach into the header of the slab behind it: the status of
    a slab in use becomes the address of the list's head. *)
Theorem slab_split_overruns km s S Q F A size F1 b F2 c :
  Slabs Inv s S Q F A -> 0 < size <= 4194304 ->
  first_fit (units size) F = Some (F1, b, F2) -> b.2 = units size + 1 ->
  c ∈ A -> c.1 = b.1 + 8 * b.2 ->
  header (word s) c 1 /\
  exists s', slab_alloc km size s = Ok (b.1 + 16, s') /\ word s' (s_status c.1) = L1.
Proof using Hlay PS.
  intros HB Hs Hff Hb2 Hc Hcb. pose proof HB as [HI HL HS]. split; [by eapply sl_used|].
  pose proof (find_slab_run s S (units size) F A HL HS) as Hf. rewrite Hff in Hf.
  destruct Hf as (w1 & Hr1 & HS1 & [Hsz Hst] & HO1).
  assert (b ∈ (F1 ++ F2) ++ A ++ [b]) as Hbin by (rewrite !elem_of_app, list_elem_of_singleton; tauto).
  assert (c ∈ (F1 ++ F2) ++ A ++ [b]) as Hcin by (rewrite !elem_of_app, list_elem_of_singleton; tauto).
  pose proof (fits_range _ _ (slot_fits _ _ _ _ _ _ HS1 Hbin)) as Hbr.
  pose proof (fits_range _ _ (slot_fits _ _ _ _ _ _ HS1 Hcin)) as Hcr. pose proof l1_range as HLr.
  set (l := w1 (L1 + 8)).
  assert (l ∈ L1 :: (F1 ++ F2).*1) as Hl.
  { unfold l. rewrite (ring_last 12 8 _ _ _ (sl_ring _ _ _ _ _ HS1)). apply last_node_in. }
  pose proof (list_addr _ _ _ _ _ l HS1 Hl 12 ltac:(lia) eq_refl) as Hlw.
  assert (l + 12 <> c.1 + 4 /\ l <> b.1 + 8 * units size /\ 4194304 <= l < 67108864) as (Hl1 & Hl2 & Hl3).
  { apply elem_of_cons in Hl as [->|(d & -> & Hd)%list_elem_of_fmap]; [lia|].
    assert (d ∈ (F1 ++ F2) ++ A ++ [b]) as Hdin by (rewrite elem_of_app; tauto).
    pose proof (fits_range _ _ (slot_fits _ _ _ _ _ _ HS1 Hdin)).
    pose proof (sl_apart _ _ _ _ _ HS1) as (_ & _ & Ha)%pairwise_app.
    pose proof (Ha d c Hd ltac:(apply elem_of_app; by left)). pose proof (Ha d b Hd ltac:(apply elem_of_app; right; by apply list_elem_of_here)).
    unfold apart in *. lia. }
  assert (Z.quot (i32 (i32 (size + sizeof_slab) + SLAB_SIZE - 1)) SLAB_SIZE = units size) as Hu.
  { unfold sizeof_slab, SLAB_SIZE, units. rewrite (i32_id (size + 16)), i32_id, Z.quot_div_nonneg by lia.
    by replace (size + 16 + 8 - 1) with (size + 23) by lia. }
  assert (2 <= units size) as H2 by (unfold units; lia_mod).
  eexists. split.
  - unfold slab_alloc. cbn [slab_alloc_rec]. cbv zeta. rewrite Hu. erewrite bind_ok by exact Hr1.
    erewrite bind_ok by reflexivity. cbn [slab_free_list set_word]. rewrite HL, (proj2 (Z.eqb_neq b.1 L1)) by lia.
    unfold s_status, s_size, sizeof_slab, SLAB_SIZE.
    rewrite st_bind by first [unfold waddr; lia_mod|lia]. rewrite ld_bind by (unfold waddr; lia_mod).
    cbn [word set_word]. rewrite upd_ne, Hsz, i32_id, (proj2 (Z.eqb_neq b.2 (units size))) by lia.
    rewrite !u32_id by lia. rewrite ld_bind by (unfold waddr; lia_mod). cbn [word set_word].
    rewrite upd_ne, Hsz, i32_id by lia. rewrite !st_bind by first [unfold waddr; lia_mod|lia]. cbn [word set_word].
    erewrite bind_ok by (apply (push_run _ _ l); [cbn [word set_word]; by rewrite !upd_ne by lia|lia|lia|done|unfold waddr; lia_mod..]).
    reflexivity.
  - cbn [word set_word]. unfold push_mem, s_status. rewrite upd_ne by lia. rewrite upd_ne.
    + replace (b.1 + units size * 8 + 12) with (c.1 + 4) by lia. apply upd_eq.
    + rewrite !upd_ne by lia. fold l. lia.
Qed.
End contract.
