(* ===== verification/KmallocHeapSafe.v ===== *)
(** * A run of [kmalloc] and [kfree]

    The kernel's use of the heap as a step relation on the memory and the
    blocks the kernel holds, and what every reachable state satisfies. *)
From S2P Require Import Prelude Kmalloc KmallocRing KmallocBuddy KmallocPages KmallocAlloc KmallocFree KmallocInit KmallocSource KmallocContract KmallocSlab KmallocSlabOps KmallocSlabFree KmallocHeap KmallocHeapFree KmallocHeapContract.

Section run.
Context {lay : Layout} {Hlay : @LayoutOk lay}.
Implicit Types (S : list Z) (Q : list (Z * Z)) (F A : list slot) (hs : list pagerec) (B : list (Z * Z)).

(** The pages below the heap. *)
Definition pages (s : kstate) (AL : list (Z * Z)) : Prop := exists FL, Buddy (word s) FL AL.
Abbreviation heap := (Heap pages).

(** A request whose slot has an even number of units, or that takes pages. *)
Definition even_request (size : Z) : bool := (4080 <=? size) || (units size mod 2 =? 0).

(** One step of the kernel: it holds the blocks [B] (address, bytes). *)
Inductive hstep : kstate * list (Z * Z) -> kstate * list (Z * Z) -> Prop :=
  | h_alloc s B size p s' : 0 < size <= 4194304 -> even_request size = true ->
      kmalloc size s = Ok (p, s') -> p <> NULL -> hstep (s, B) (s', (p, size) :: B)
  | h_free s B1 p n B2 s' : kfree p s = Ok (tt, s') -> hstep (s, B1 ++ (p, n) :: B2) (s', B1 ++ B2)
  | h_write s B p n x v : (p, n) ∈ B -> p <= x < p + n -> hstep (s, B) (set_word (upd x v (word s)) s, B).

(** The bytes of the blocks of a heap. *)
Definition small_block (b : slot) : Z * Z := (b.1 + 16, 8 * b.2 - 16).
Definition large_block (r : pagerec) : Z * Z := (r_page r, bsz (r_order r)).
Definition blocks A hs : list (Z * Z) := map small_block A ++ map large_block hs.
(** A held block is at the beginning of a block of the heap. *)
Definition held (b c : Z * Z) : Prop := b.1 = c.1 /\ b.2 <= c.2.
Definition bytes_apart (b c : Z * Z) : Prop := b.1 + b.2 <= c.1 \/ c.1 + c.2 <= b.1.

Record Run (s : kstate) Q F A hs B : Prop := {
  run_heap : heap s [HEAP] Q F A hs;
  run_start : start_slab s = HEAP;
  run_even : Forall (λ b, b.2 mod 2 = 0) (F ++ A);
  run_small : Forall (λ b, 3 <= b.2 < 4080) A;
  run_held : exists L, Forall2 held B L /\ L ≡ₚ blocks A hs
}.

Lemma booted_heap FL s : Ready FL s -> heap s [HEAP] [] [(HEAP, 524288)] [] [].
Proof using Hlay.
  intros [_ HB [HP HC] (HL & _ & HR & Hsz & Hst)].
  split; [|done|exact HC|by constructor]. split; [by exists FL|done|]. split.
  - exact HR.
  - intros b ->%list_elem_of_singleton. by split.
  - intros b Hb. by apply elem_of_nil in Hb.
  - repeat constructor; cbn [fst snd]; unfold HEAP, HEAP_END; try lia; try done.
    intros x Hx. exists 8388608. split; [by apply list_elem_of_here|]. unfold in_slot in Hx. cbn [fst snd] in Hx. lia.
  - cbn. done.
Qed.
Lemma booted_run FL s : Ready FL s -> Run s [] [(HEAP, 524288)] [] [] [].
Proof using Hlay.
  intros HR. split; [by eapply booted_heap|apply HR|by repeat constructor|constructor|].
  exists []. split; [constructor|done].
Qed.

(** No extra page as long as the slabs have one page. *)
Lemma no_extra s Q F A hs b : heap s [HEAP] Q F A hs -> start_slab s = HEAP -> fits [HEAP] b ->
  extra_page (start_slab s) b = false.
Proof using Type.
  intros _ -> (H2 & H8 & Hr & Hp). unfold extra_page. destruct (Hp b.1) as (p & ->%list_elem_of_singleton & Hb).
  { unfold in_slot. lia. }
  unfold HEAP in *. destruct (Z.eqb_spec b.1 8388608); [done|]. cbn [negb andb].
  destruct (Z.eqb_spec (b.1 mod 4194304) 0); [exfalso; lia_mod|done].
Qed.

(** *** Even sizes *)
Abbreviation evens := (Forall (λ b : slot, b.2 mod 2 = 0)).
Lemma evens_fit n F F1 b F2 : evens F -> n mod 2 = 0 -> first_fit n F = Some (F1, b, F2) ->
  b.2 <> n + 1 /\ evens (F1 ++ F2 ++ rest_of n b).
Proof using Type.
  intros HF Hn Hf. apply first_fit_some in Hf as (-> & Hle & _). apply Forall_app in HF as [H1 [Hb H2]%Forall_cons].
  split; [lia_mod|]. apply Forall_app. split; [done|]. apply Forall_app. split; [done|].
  unfold rest_of. destruct (b.2 =? n); [constructor|]. repeat constructor. cbn [snd]. lia_mod.
Qed.
Lemma evens_absorb n F b : evens (F ++ [b]) -> evens ((absorb n F b).1 ++ [(absorb n F b).2]).
Proof using Type.
  revert F b. induction n as [|n IH]; intros F b HF; cbn [absorb]; [done|].
  destruct (neighbour b F) as [[[F1 c] F2]|] eqn:E; [|done]. apply neighbour_some in E as [-> _]. apply IH.
  apply Forall_app in HF as [[H1 [Hc H2]%Forall_cons]%Forall_app [Hb _]%Forall_cons].
  apply Forall_app. split; [by apply Forall_app|]. repeat constructor. unfold join. cbn [fst snd] in *. lia_mod.
Qed.

(** *** Blocks *)
Lemma rec_valid s S Q F A hs r : heap s S Q F A hs -> r ∈ hs -> valid (rec_block r).
Proof using Hlay.
  intros HH Hr. eapply (ps_valid pages); [apply HH|]. apply elem_of_app. right. apply elem_of_app. left.
  by apply (list_elem_of_fmap_2 rec_block).
Qed.
Lemma blocks_kept s S Q F A hs x c : heap s S Q F A hs -> c ∈ blocks A hs -> c.1 <= x < c.1 + c.2 ->
  hkept A (map rec_block hs ++ Q) x.
Proof using Hlay.
  intros HH [Hc|Hc]%elem_of_app Hx; apply list_elem_of_fmap in Hc as (b & -> & Hb).
  - right. exists b. split; [done|]. unfold small_block, in_slot in *. cbn [fst snd] in *. lia.
  - left. split.
    + right. exists (rec_block b). split; [apply elem_of_app; left; by apply (list_elem_of_fmap_2 rec_block)|done].
    + pose proof (valid_range _ (rec_valid _ _ _ _ _ _ _ HH Hb)) as Hv. unfold large_block, rec_block in *. cbn [fst snd] in *.
      destruct layout_ph_l1 as ((HP1 & HP2 & _) & (HL1 & HL2 & _) & _). unfold other_static. unfold HEAP in *. lia.
Qed.

(** The blocks of a heap are disjoint. *)
Lemma blocks_apart s S Q F A hs : heap s S Q F A hs -> pairwise bytes_apart (blocks A hs) /\
  Forall (λ c, HEAP <= c.1 /\ c.1 + c.2 <= HEAP_END) (blocks A hs).
Proof using Hlay.
  intros HH. pose proof (hp_slabs _ _ _ _ _ _ _ HH) as [HI _ HS].
  assert (forall b, b ∈ A -> fits S b) as HfA.
  { intros b Hb. apply (slot_fits _ _ _ _ _ _ HS). rewrite !elem_of_app. tauto. }
  split.
  - apply pairwise_app. split; [|split].
    + pose proof (sl_apart _ _ _ _ _ HS) as (_ & Ha & _)%pairwise_app. rewrite app_nil_r in Ha.
      apply pairwise_app in Ha as (_ & Ha & _). clear -Ha. induction A as [|b A IH]; [done|]. destruct Ha as [Ha Hr].
      split; [|by apply IH]. rewrite Forall_forall in Ha. apply Forall_forall. intros c (d & -> & Hd)%list_elem_of_fmap.
      specialize (Ha d Hd). unfold apart, bytes_apart, small_block in *. cbn [fst snd]. lia.
    + pose proof (ps_tiles _ _ HI) as [_ HD]. apply pairwise_app in HD as (_ & (HD & _)%pairwise_app & _). clear -HD.
      induction hs as [|r hs IH]; [done|]. destruct HD as [Ha Hr]. split; [|by apply IH].
      rewrite Forall_forall in Ha. apply Forall_forall. intros c (d & -> & Hd)%list_elem_of_fmap.
      exact (Ha (rec_block d) ltac:(by apply (list_elem_of_fmap_2 rec_block))).
    + intros c d (b & -> & Hb)%list_elem_of_fmap (r & -> & Hr)%list_elem_of_fmap.
      pose proof (fits_range _ _ (HfA b Hb)). pose proof (valid_range _ (rec_valid _ _ _ _ _ _ _ HH Hr)) as Hv.
      unfold bytes_apart, small_block, large_block, rec_block in *. cbn [fst snd] in *.
      destruct (Z.le_gt_cases (b.1 + 16 + (8 * b.2 - 16)) (r_page r)) as [|H1]; [by left|].
      destruct (Z.le_gt_cases (r_page r + bsz (r_order r)) (b.1 + 16)) as [|H2]; [by right|exfalso].
      eapply (slot_not_kept pages s S (map rec_block hs ++ Q) b (Z.max b.1 (r_page r)) HI (HfA b Hb)); [unfold in_slot; lia|].
      right. exists (rec_block r). split; [apply elem_of_app; left; by apply (list_elem_of_fmap_2 rec_block)|].
      unfold inside, rec_block. cbn [fst snd]. lia.
  - apply Forall_app. split; apply Forall_forall; intros c (d & -> & Hd)%list_elem_of_fmap.
    + pose proof (fits_range _ _ (HfA d Hd)). unfold small_block, HEAP, HEAP_END. cbn [fst snd]. lia.
    + pose proof (valid_range _ (rec_valid _ _ _ _ _ _ _ HH Hd)) as Hv. unfold large_block, rec_block in *. cbn [fst snd] in *. lia.
Qed.

(** *** Steps *)
Lemma heap_used s S Q F A A' hs : A ≡ₚ A' -> heap s S Q F A hs -> heap s S Q F A' hs.
Proof using Type. intros Hp [HB HP HC HR]. split; [|done..]. eapply Slabs_used; [|exact HB]. by rewrite Hp. Qed.

Lemma HKeep_blocks s S Q F A hs w w' c x : heap s S Q F A hs -> HKeep A (map rec_block hs ++ Q) w w' ->
  c ∈ blocks A hs -> c.1 <= x < c.1 + c.2 -> w' x = w x.
Proof using Hlay. intros HH HK Hc Hx. apply HK. by eapply blocks_kept. Qed.

Lemma run_alloc_small s Q F A hs B size F1 b F2 : Run s Q F A hs B -> 0 < size < 4080 -> units size mod 2 = 0 ->
  first_fit (units size) F = Some (F1, b, F2) ->
  exists w', kmalloc size s = Ok (b.1 + 16, set_word w' s) /\
    Run (set_word w' s) Q (F1 ++ F2 ++ rest_of (units size) b) ((b.1, units size) :: A) hs ((b.1 + 16, size) :: B) /\
    HKeep A (map rec_block hs ++ Q) (word s) w'.
Proof using Hlay.
  intros [HH Hst HE HSm (L & HL & HLp)] Hs Hu Hff. apply Forall_app in HE as [HF HA].
  pose proof (small_run pages (kmalloc_rec 1) size s _ _ _ _ _ HH ltac:(lia) ltac:(lia)) as H. rewrite Hff in H.
  destruct (evens_fit _ _ _ _ _ HF Hu Hff) as [Hne HF']. destruct (H Hne) as (w' & H1 & HH' & HK).
  exists w'. split; [exact H1|]. split.
  - split; [exact HH'|done|apply Forall_app; split; [done|by constructor]|constructor; [cbn [snd]; unfold units; lia_mod|done]|].
    exists ((b.1 + 16, 8 * units size - 16) :: L). split.
    + constructor; [|done]. split; cbn [fst snd]; [done|]. unfold units. lia_mod.
    + cbn. by rewrite HLp.
  - apply SKeep_HKeep.
    intros y [Hy|Hy]; apply HK; [by left|right]. eapply region_sub; [|exact Hy]. intros d Hd. apply elem_of_app. by right.
Qed.
Lemma run_alloc s Q F A hs B size p s' : Run s Q F A hs B -> 0 < size <= 4194304 -> even_request size = true ->
  kmalloc size s = Ok (p, s') -> p <> NULL ->
  exists F' A' hs' w', s' = set_word w' s /\ Run s' Q F' A' hs' ((p, size) :: B) /\
    HKeep A (map rec_block hs ++ Q) (word s) w'.
Proof using Hlay.
  intros HRun Hs He Hr Hp. pose proof HRun as [HH Hst HE HSm (L & HL & HLp)]. apply Forall_app in HE as [HF HA].
  destruct (Z.lt_ge_cases size 4080) as [Hlt|Hge].
  - assert (units size mod 2 = 0) as Hu.
    { unfold even_request in He. rewrite (proj2 (Z.leb_gt 4080 size) Hlt) in He. by apply Z.eqb_eq in He. }
    destruct (first_fit (units size) F) as [[[F1 b] F2]|] eqn:Hff.
    + destruct (run_alloc_small s _ _ _ _ _ size _ _ _ HRun (conj (proj1 Hs) Hlt) Hu Hff) as (w' & H1 & HR' & HK).
      rewrite H1 in Hr. injection Hr as <- <-. eauto 8.
    + change (kmalloc size) with (kmalloc_body (kmalloc_rec 1) size) in Hr.
      pose proof (small_run pages (kmalloc_rec 1) size s _ _ _ _ _ HH ltac:(lia) ltac:(lia)) as H. rewrite Hff in H.
      destruct H as [[_ H]|(q & w' & H & _)]; rewrite H in Hr; [done|]. by injection Hr as <- _.
  - change (kmalloc size) with (kmalloc_body (kmalloc_rec 1) size) in Hr.
    destruct (large_run pages 0 s _ _ _ _ _ size HH ltac:(lia)) as (o & Ho & Hso & [(q & s2 & H1 & Hres)|[_ H1]]).
    { intros F1 b F2 Hff. by apply (evens_fit 4 F F1 b F2 HF). }
    2:{ change (kmalloc_rec (1 + 0)) with (kmalloc_rec 1) in H1. rewrite H1 in Hr. done. }
    change (kmalloc_rec (1 + 0)) with (kmalloc_rec 1) in H1. rewrite H1 in Hr. injection Hr as -> ->.
    destruct Hres as [|q w' F1 b F2 Hff _ HH' HK|]; [done| |done].
    exists (F1 ++ F2 ++ rest_of 4 b), A, (Pagerec (b.1 + 16) q o :: hs), w'. split; [done|]. split.
    + split; [exact HH'|done| |done|].
      * apply Forall_app. split; [|done]. by apply (evens_fit 4 F F1 b F2 HF).
      * exists ((q, bsz o) :: L). split; [constructor; [|done]; split; cbn [fst snd]; [done|unfold bsz; lia]|].
        unfold blocks. cbn [map]. rewrite <-Permutation_middle. by rewrite HLp.
    + exact HK.
Qed.
Lemma kfree_depth : exists n, forall p, kfree p = kfree_rec (2 + n) p.
Proof using Type.
  exists (list_fuel - 2)%nat. intros p. unfold kfree. pose proof list_fuel_Z.
  replace (2 + (list_fuel - 2))%nat with list_fuel by lia. reflexivity.
Qed.
(** What a freed slot becomes is inside the page. *)
Lemma absorb_ok s Q F A hs b : heap s [HEAP] Q F (b :: A) hs -> start_slab s = HEAP ->
  extra_page (start_slab s) (absorb (length F) F b).2 = false.
Proof using Hlay.
  intros HH Hst. assert (Slots (word s) [HEAP] F (b :: map rec_slot hs ++ A) []) as HS.
  { eapply Slots_perm; [|intros c Hc; eapply (sl_used _ _ _ _ _ (sb_slots _ _ _ _ _ _ (hp_slabs _ _ _ _ _ _ _ HH)))|apply HH].
    - by rewrite !app_nil_r, <-Permutation_middle.
    - revert Hc. rewrite elem_of_cons, !elem_of_app, elem_of_cons. tauto. }
  destruct (sl_used _ _ _ _ _ HS b ltac:(by apply list_elem_of_here)) as [Hb _].
  pose proof (release_slot _ _ _ _ _ _ HS) as HS0.
  destruct (free_rec_slots (length F) s _ F _ b (sb_list _ _ _ _ _ _ (hp_slabs _ _ _ _ _ _ _ HH)) HS0 Hb ltac:(lia))
    as (w' & _ & HS1 & _).
  eapply no_extra; [exact HH|done|]. apply (slot_fits _ _ _ _ _ _ HS1). rewrite !elem_of_app, list_elem_of_singleton. tauto.
Qed.

Lemma run_kfree s Q F A hs B1 p n B2 : Run s Q F A hs (B1 ++ (p, n) :: B2) ->
  exists w' F' A' hs', kfree p s = Ok (tt, set_word w' s) /\ Run (set_word w' s) Q F' A' hs' (B1 ++ B2) /\
    HKeep A' (map rec_block hs' ++ Q) (word s) w'.
Proof using Hlay.
  intros [HH Hst HE HSm (L & HL & HLp)].
  apply Forall2_app_inv_l in HL as (L1 & L2' & HL1 & HL2 & ->).
  apply Forall2_cons_inv_l in HL2 as (c & L2 & [Hc _] & HL2 & ->). cbn [fst] in Hc. subst p.
  destruct kfree_depth as [fuel Hfuel].
  assert (c ∈ blocks A hs) as Hin by (rewrite <-HLp; apply elem_of_app; right; by apply list_elem_of_here).
  apply elem_of_app in Hin as [(b & -> & Hb)%list_elem_of_fmap|(r & -> & Hr)%list_elem_of_fmap].
  - apply elem_of_Permutation in Hb as (A' & HA). pose proof (heap_used _ _ _ _ _ _ _ HA HH) as HH1.
    rewrite HA in HSm. rewrite HA in HE. apply Forall_app in HE as [HF [Hbe HAe]%Forall_cons].
    apply Forall_cons in HSm as [Hb3 HSm]. destruct b as [a m]. cbn [fst snd] in *.
    pose proof (absorb_ok _ _ _ _ _ _ HH1 Hst) as Hx.
    pose proof (evens_absorb (length F) F (a, m) ltac:(apply Forall_app; split; [done|by repeat constructor])) as He.
    destruct (absorb (length F) F (a, m)) as [F' b'] eqn:Hab. cbn [fst snd] in *.
    destruct (kfree_small_run pages (kfree_rec (1 + fuel)) s _ _ _ _ _ a m F' b' HH1 Hb3 Hab Hx) as (w' & Hr & HH' & HK).
    exists w', (F' ++ [b']), A', hs. split; [|split; [split|]].
    + rewrite Hfuel. exact Hr.
    + exact HH'.
    + done.
    + by apply Forall_app.
    + done.
    + exists (L1 ++ L2). split; [by apply Forall2_app|]. apply (Permutation_cons_inv (a := small_block (a, m))).
      rewrite Permutation_middle, HLp. unfold blocks. by rewrite HA.
    + apply SKeep_HKeep.
      intros y [Hy|Hy]; apply HK; [by left|right]. eapply region_sub; [|exact Hy]. intros e Hin. apply elem_of_app. by right.
  - apply list_elem_of_split in Hr as (hs1 & hs2 & ->). apply Forall_app in HE as [HF HAe].
    destruct (heap_unlink pages _ _ _ _ _ _ _ _ HH) as [HH1 _].
    pose proof (absorb_ok _ _ _ _ _ _ HH1 Hst) as Hx. cbn [start_slab set_word] in Hx.
    pose proof (evens_absorb (length F) F (rec_slot r) ltac:(apply Forall_app; split; [done|by repeat constructor])) as He.
    destruct (absorb (length F) F (rec_slot r)) as [F' b'] eqn:Hab. cbn [fst snd] in *.
    destruct (kfree_large_run pages fuel s _ _ _ _ _ _ _ F' b' HH Hab Hx) as (w' & Hr & HH' & HK).
    exists w', (F' ++ [b']), A, (hs1 ++ hs2). split; [|split; [split|]].
    + rewrite Hfuel. exact Hr.
    + exact HH'.
    + done.
    + by apply Forall_app.
    + done.
    + exists (L1 ++ L2). split; [by apply Forall2_app|]. apply (Permutation_cons_inv (a := large_block r)).
      rewrite Permutation_middle, HLp. unfold blocks. rewrite !map_app. cbn [map].
      rewrite !Permutation_middle. by rewrite <-Permutation_middle.
    + exact HK.
Qed.

Lemma run_write s Q F A hs B p n x v : Run s Q F A hs B -> (p, n) ∈ B -> p <= x < p + n ->
  Run (set_word (upd x v (word s)) s) Q F A hs B.
Proof using Hlay.
  intros [HH Hst HE HSm (L & HL & HLp)] Hin Hx. split; [|done..|by exists L].
  apply list_elem_of_lookup in Hin as (i & Hi). destruct (Forall2_lookup_l _ _ _ _ _ HL Hi) as (c & Hc & [E1 E2]).
  cbn [fst snd] in *. assert (c ∈ blocks A hs) as Hcin by (rewrite <-HLp; by eapply list_elem_of_lookup_2).
  apply (heap_ext pages); [done|]. intros y. destruct (decide (y = x)) as [->|Hne]; [right|left; by apply upd_ne].
  right. apply elem_of_app in Hcin as [(b & -> & Hb)%list_elem_of_fmap|(r & -> & Hr)%list_elem_of_fmap].
  - left. exists b. split; [done|]. unfold small_block, in_slot in *. cbn [fst snd] in *. lia.
  - right. exists (rec_block r). split; [apply elem_of_app; left; by apply (list_elem_of_fmap_2 rec_block)|].
    unfold inside, rec_block, large_block in *. cbn [fst snd] in *. lia.
Qed.

(** *** Reachable states *)
Inductive reachable : kstate * list (Z * Z) -> Prop :=
  | reach_init s0 s : kmalloc_init kmalloc s0 = Ok (tt, s) -> reachable (s, [])
  | reach_step c c' : reachable c -> hstep c c' -> reachable c'.
Lemma reachable_run c : reachable c -> exists F A hs, Run c.1 [] F A hs c.2.
Proof using Hlay.
  induction 1 as [s0 s Hi|c c' _ (F & A & hs & HR) Hstep].
  - destruct (kmalloc_init_run kmalloc s0) as (s' & FL & Hi' & HR). rewrite Hi in Hi'. injection Hi' as <-.
    exists [(HEAP, 524288)], [], []. by eapply booted_run.
  - destruct Hstep as [s B size p s' Hs He Hr Hp|s B1 p n B2 s' Hr|s B p n x v Hin Hx]; cbn [fst snd] in *.
    + destruct (run_alloc _ _ _ _ _ _ _ _ _ HR Hs He Hr Hp) as (F' & A' & hs' & w' & _ & HR' & _). by exists F', A', hs'.
    + destruct (run_kfree _ _ _ _ _ _ _ _ _ HR) as (w' & F' & A' & hs' & Hr' & HR' & _).
      rewrite Hr in Hr'. injection Hr' as ->. by exists F', A', hs'.
    + exists F, A, hs. by eapply run_write.
Qed.

(** Held blocks are disjoint, and inside the blocks of the heap. *)
Lemma held_apart B L : Forall2 held B L -> pairwise bytes_apart L -> pairwise bytes_apart B.
Proof using Type.
  induction 1 as [|b c B L [H1 H2] HL IH]; [done|]. intros [Ha Hr]. split; [|by apply IH].
  apply Forall_forall. intros d Hd. rewrite Forall_forall in Ha. apply list_elem_of_lookup in Hd as (i & Hi).
  destruct (Forall2_lookup_l _ _ _ _ _ HL Hi) as (e & He & [H3 H4]).
  specialize (Ha e ltac:(by eapply list_elem_of_lookup_2)). unfold bytes_apart in *. lia.
Qed.

Definition in_block (x : Z) (b : Z * Z) : Prop := b.1 <= x < b.1 + b.2.
End run.

(** ** The theorems on a booted kernel *)
#[local] Existing Instances sample_layout sample_layout_ok.
Lemma booted_slabs : exists s, kmalloc_init kmalloc blank = Ok (tt, s) /\ start_slab s = HEAP /\
  Slabs pages s [HEAP] [] [(HEAP, 524288)] [] /\ Run s [] [(HEAP, 524288)] [] [] [].
Proof.
  destruct booted as (s & FL & Hs & HR). exists s. split; [done|]. pose proof (booted_run _ _ HR) as HRun.
  split; [apply HRun|]. split; [|done]. exact (hp_slabs _ _ _ _ _ _ _ (run_heap _ _ _ _ _ _ HRun)).
Qed.


(** 24 and then 12 bytes are allocated, and the 24 are freed. *)
Lemma freed_slabs : exists s1 s2, slab_alloc kmalloc 12 s1 = Ok (HEAP + 56, s2) /\ start_slab s2 = HEAP /\
  Slabs pages s2 [HEAP] [] [(HEAP + 72, 524279)] [(HEAP, 5); (HEAP + 40, 4)].
Proof.
  destruct booted_slabs as (s & Hs & Hst & HB & _).
  pose proof (slab_alloc_run pages kmalloc s _ _ _ _ 24 HB ltac:(lia)) as H1.
  change (first_fit (units 24) [(HEAP, 524288)]) with (Some (@nil slot, (HEAP, 524288), @nil slot)) in H1.
  destruct (H1 ltac:(by vm_compute)) as (w1 & _ & HB1 & _).
  change ([] ++ [] ++ rest_of (units 24) (HEAP, 524288)) with [(HEAP + 40, 524283)] in HB1.
  pose proof (slab_alloc_run pages kmalloc _ _ _ _ _ 12 HB1 ltac:(lia)) as H2.
  change (first_fit (units 12) [(HEAP + 40, 524283)]) with (Some (@nil slot, (HEAP + 40, 524283), @nil slot)) in H2.
  destruct (H2 ltac:(by vm_compute)) as (w2 & Hr2 & HB2 & _).
  exists (set_word w1 s), (set_word w2 (set_word w1 s)). split; [exact Hr2|]. split; [exact Hst|].
  eapply Slabs_used; [|exact HB2]. apply perm_swap.
Qed.


Lemma slab_alloc_exhausted_witness : exists s, kmalloc_init kmalloc blank = Ok (tt, s) /\
  ((forall fuel, slab_alloc_rec kmalloc fuel 4194304 s = Bad NoFuel) \/ exists s', slab_alloc kmalloc 4194304 s = Ok (NULL, s')).
Proof.
  destruct booted_slabs as (s & Hs & _ & HB & _). exists s. split; [exact Hs|].
  destruct (slab_alloc_exhausted pages kmalloc s _ _ _ _ 4194304 HB) as [[_ H]|(p & w' & H & _)].
  { lia. }
  { intros b ->%list_elem_of_singleton. by vm_compute. }
  { left. exact H. }
  { right. exists (set_word w' s). exact H. }
Defined.

Lemma slab_split_overruns_witness : exists s s', slab_alloc kmalloc 12 s = Ok (HEAP + 16, s') /\
  word s (HEAP + 44) = 1 /\ word s' (HEAP + 44) = L1.
Proof.
  destruct freed_slabs as (s1 & s & _ & Hst & HB).
  destruct (slab_free_run pages kfree s _ _ _ _ (HEAP, 5) [(HEAP + 72, 524279)] (HEAP, 5) HB) as (w2 & _ & HB2 & _).
  { vm_compute. reflexivity. }
  { rewrite Hst. vm_compute. reflexivity. }
  change ([(HEAP + 72, 524279)] ++ [(HEAP, 5)]) with [(HEAP + 72, 524279); (HEAP, 5)] in HB2.
  pose proof (slab_alloc_run pages kmalloc _ _ _ _ _ 12 HB2 ltac:(lia)) as H3.
  change (first_fit (units 12) [(HEAP + 72, 524279); (HEAP, 5)]) with
    (Some (@nil slot, (HEAP + 72, 524279), [(HEAP, 5)])) in H3.
  destruct (H3 ltac:(by vm_compute)) as (w3 & _ & HB3 & _).
  change ([] ++ [(HEAP, 5)] ++ rest_of (units 12) (HEAP + 72, 524279)) with [(HEAP, 5); (HEAP + 104, 524275)] in HB3.
  destruct (slab_split_overruns pages kmalloc _ _ _ _ _ 12 [] (HEAP, 5) [(HEAP + 104, 524275)] (HEAP + 40, 4) HB3)
    as ([_ Hc] & s' & Hr & Hw).
  { lia. }
  { vm_compute. reflexivity. }
  { vm_compute. reflexivity. }
  { apply elem_of_cons. right. by apply list_elem_of_here. }
  { vm_compute. reflexivity. }
  eexists _, s'. split; [exact Hr|]. split; [exact Hc|exact Hw].
Defined.


