(* ===== verification/KHeap.v ===== *)
(** * What the rest of the kernel needs of [kmalloc] and [kfree]

    [KernelHeap H]: [H s Q B] holds while the kernel has the pages [Q] of
    [get_page] and the blocks [B] (address, bytes) of [kmalloc].  The theorems
    on processes are proved against this interface; the heap of [KmallocHeap]
    over the buddy allocator implements it, as long as no request has failed
    and the sizes are even numbers of units. *)
From S2P Require Import Prelude Kmalloc KmallocRing KmallocBuddy KmallocPages KmallocAlloc KmallocFree KmallocInit KmallocSource KmallocContract KmallocSlab KmallocSlabOps KmallocSlabFree KmallocHeap KmallocHeapFree KmallocHeapContract KmallocHeapSafe.

Section interface.
Context {lay : Layout}.
Implicit Types (Q B : list (Z * Z)).

(** The words that belong to the kernel. *)
Definition spared Q B (x : Z) : Prop :=
  plain x \/ (exists q, q ∈ Q /\ inside x q) \/ (exists b, b ∈ B /\ in_block x b).
Definition Spares Q B (w w' : Z -> Z) : Prop := forall x, spared Q B x -> w' x = w x.

Class KernelHeap (H : kstate -> list (Z * Z) -> list (Z * Z) -> Prop) : Prop := {
  kh_pages B : PageSource plain (λ s Q, H s Q B);
  kh_alloc s Q B size p s' : H s Q B -> 0 < size <= 4194304 -> even_request size = true ->
    kmalloc size s = Ok (p, s') -> p <> NULL ->
    exists w', s' = set_word w' s /\ H s' Q ((p, size) :: B) /\ Spares Q B (word s) w';
  kh_free s Q B1 p n B2 : H s Q (B1 ++ (p, n) :: B2) -> exists w', kfree p s = Ok (tt, set_word w' s) /\
    H (set_word w' s) Q (B1 ++ B2) /\ Spares Q (B1 ++ B2) (word s) w';
  kh_write w' s Q B : H s Q B -> (forall x, w' x = word s x \/ spared Q B x) -> H (set_word w' s) Q B;
  kh_apart s Q B : H s Q B -> pairwise bytes_apart B /\
    Forall (λ b, (HEAP <= b.1 /\ b.1 + b.2 <= HEAP_END) /\ b.1 mod 4 = 0) B /\
    forall b q x, b ∈ B -> q ∈ Q -> in_block x b -> ~ inside x q
}.

Lemma Spares_trans Q B w1 w2 w3 : Spares Q B w1 w2 -> Spares Q B w2 w3 -> Spares Q B w1 w3.
Proof using Type. intros H1 H2 x Hx. by rewrite H2, H1. Qed.
Lemma Spares_sub Q B B' w w' : B ⊆ B' -> Spares Q B' w w' -> Spares Q B w w'.
Proof using Type.
  intros HB HS x [Hx|[Hx|(b & Hb & Hx)]]; apply HS; [by left|by right; left|right; right]. exists b. auto.
Qed.

Section client.
Context (H : kstate -> list (Z * Z) -> list (Z * Z) -> Prop) {KH : KernelHeap H}.
(** A word of the kernel is not in a block that is freed. *)
Lemma spared_not_in s Q B1 p n B2 x : H s Q (B1 ++ (p, n) :: B2) -> spared Q (B1 ++ B2) x -> x < p \/ p + n <= x.
Proof using KH.
  intros HH Hx. destruct (kh_apart _ _ _ HH) as (Hap & Hrg & HQ).
  assert ((p, n) ∈ B1 ++ (p, n) :: B2) as Hin by (apply elem_of_app; right; by left).
  rewrite Forall_forall in Hrg. specialize (Hrg _ Hin). cbn [fst snd] in Hrg.
  destruct Hx as [[Hf _]|[(q & Hq & Hx)|(b & Hb & Hx)]].
  - unfold foreign in Hf. lia.
  - destruct (decide (p <= x < p + n)) as [Hi|]; [|lia]. exfalso. by apply (HQ (p, n) q x Hin Hq Hi).
  - assert (forall a b, bytes_apart a b -> bytes_apart b a) as Hsym by (unfold bytes_apart; lia).
    apply (pairwise_perm bytes_apart Hsym _ ((p, n) :: B1 ++ B2)) in Hap; [|by rewrite Permutation_middle].
    destruct Hap as [Hap _]. rewrite Forall_forall in Hap. specialize (Hap _ Hb). unfold bytes_apart, in_block in *. cbn [fst snd] in *. lia.
Qed.
End client.
End interface.

Section implementation.
Context {lay : Layout} {Hlay : @LayoutOk lay}.
Implicit Types (Q B : list (Z * Z)).
Definition Running (s : kstate) Q B : Prop := exists F A hs, Run s Q F A hs B.

Lemma run_block s Q F A hs B b : Run s Q F A hs B -> b ∈ B -> exists c, c ∈ blocks A hs /\ held b c.
Proof using Type.
  intros [_ _ _ _ (L & HL & HLp)] Hb. apply list_elem_of_lookup in Hb as (i & Hi).
  destruct (Forall2_lookup_l _ _ _ _ _ HL Hi) as (c & Hc & Hbc). exists c. split; [|done].
  rewrite <-HLp. by eapply list_elem_of_lookup_2.
Qed.
Lemma run_spared s Q F A hs B x : Run s Q F A hs B -> spared Q B x -> hkept A (map rec_block hs ++ Q) x.
Proof using Hlay.
  intros HR [[Hf Ho]|[(q & Hq & Hx)|(b & Hb & Hx)]].
  - left. split; [|done]. left. unfold foreign in Hf. lia.
  - left. split; [right; exists q; split; [apply elem_of_app; by right|done]|].
    pose proof (hp_slabs _ _ _ _ _ _ _ (run_heap _ _ _ _ _ _ HR)) as [HI _ _].
    pose proof (valid_range q (ps_valid pages _ _ q HI ltac:(apply elem_of_app; right; apply elem_of_app; by right))) as Hv.
    destruct layout_ph_l1 as ((HP1 & HP2 & _) & (HL1 & HL2 & _) & _). unfold other_static, inside, HEAP in *. lia.
  - destruct (run_block _ _ _ _ _ _ _ HR Hb) as (c & Hc & [H1 H2]).
    eapply blocks_kept; [apply HR|exact Hc|]. unfold in_block in Hx. lia.
Qed.
Lemma run_client s Q F A hs B x : Run s Q F A hs B -> spared Q B x -> client A (map rec_block hs ++ Q) x.
Proof using Hlay.
  intros HR [Hp|[(q & Hq & Hx)|(b & Hb & Hx)]]; [by left|right; right|right].
  - exists q. split; [apply elem_of_app; by right|done].
  - destruct (run_block _ _ _ _ _ _ _ HR Hb) as (c & Hc & [H1 H2]). unfold in_block in Hx.
    apply elem_of_app in Hc as [(d & -> & Hd)%list_elem_of_fmap|(r & -> & Hr)%list_elem_of_fmap]; [left|right].
    + exists d. split; [done|]. unfold small_block, in_slot in *. cbn [fst snd] in *. lia.
    + exists (rec_block r). split; [apply elem_of_app; left; by apply (list_elem_of_fmap_2 rec_block)|].
      unfold inside, rec_block, large_block in *. cbn [fst snd] in *. lia.
Qed.

Lemma run_writes w' s Q F A hs B : Run s Q F A hs B -> (forall x, w' x = word s x \/ spared Q B x) -> Run (set_word w' s) Q F A hs B.
Proof using Hlay.
  intros HR Hw. pose proof HR as [HH Hst HE HSm HL].
  split; [|done..]. apply (heap_ext pages); [done|]. intros x. destruct (Hw x) as [|Hx]; [by left|right].
  by eapply run_client.
Qed.

Lemma block_aligned s Q F A hs B c : Run s Q F A hs B -> c ∈ blocks A hs -> c.1 mod 4 = 0.
Proof using Hlay.
  intros HR Hc. pose proof (hp_slabs _ _ _ _ _ _ _ (run_heap _ _ _ _ _ _ HR)) as [HI _ HS].
  apply elem_of_app in Hc as [(d & -> & Hd)%list_elem_of_fmap|(r & -> & Hr)%list_elem_of_fmap]; cbn [small_block large_block fst].
  - assert (fits [HEAP] d) as (_ & Hm & _) by (apply (slot_fits _ _ _ _ _ _ HS); rewrite !elem_of_app; tauto). lia_mod.
  - pose proof (ps_valid pages s _ (rec_block r) HI ltac:(apply elem_of_app; right; apply elem_of_app; left; by apply (list_elem_of_fmap_2 rec_block))) as Hv.
    apply valid_range in Hv as (_ & _ & Hm & _). cbn [rec_block fst] in Hm. clear -Hm. lia_mod.
Qed.

Lemma running_pages B : PageSource plain (λ s Q, Running s Q B).
Proof using Hlay.
  split.
  - intros km s AL k Hk (F & A & hs & [HH Hst HE HSm HL]).
    destruct (take_page pages km s _ AL F A hs k HH Hk) as (p & w' & Hr & [[-> ->]|(Hp & _ & HH' & _ & HK)]).
    { exists NULL, (word s). split; [done|by left]. }
    exists p, w'. split; [done|]. right. split; [done|]. split; [by exists F, A, hs|done].
  - intros kf s AL p k Hk (F & A & hs & [HH Hst HE HSm HL]).
    destruct (heap_free_page pages kf s _ AL F A hs p k HH Hk) as (w' & Hr & HH' & _ & HK).
    exists w'. split; [done|]. split; [by exists F, A, hs|done].
  - intros w' s AL (F & A & hs & [HH Hst HE HSm HL]) Hw. exists F, A, hs. split; [|done..].
    apply (heap_ext pages); [done|]. intros x. destruct (Hw x) as [|[Hx|(b & Hb & Hx)]]; [by left|right; by left|right; right; right].
    exists b. split; [apply elem_of_app; by right|done].
  - intros s AL (F & A & hs & [HH _ _ _ _]).
    pose proof (ps_tiles _ _ (sb_inv _ _ _ _ _ _ (hp_slabs _ _ _ _ _ _ _ HH))) as [HV HD].
    apply Forall_app in HV as [_ [_ HV]%Forall_app]. apply pairwise_app in HD as (_ & (_ & HD & _)%pairwise_app & _).
    by split.
  - intros s AL AL' Hp (F & A & hs & [[HB HP HC HR] Hst HE HSm HL]). exists F, A, hs. split; [|done..].
    split; [|done..]. eapply (Slabs_pages pages); [|exact HB]. by rewrite Hp.
Qed.

#[export] Instance running_heap : KernelHeap Running.
Proof using Hlay.
  split.
  - apply running_pages.
  - intros s Q B size p s' (F & A & hs & HR) Hs He Hr Hp.
    destruct (run_alloc _ _ _ _ _ _ _ _ _ HR Hs He Hr Hp) as (F' & A' & hs' & w' & -> & HR' & HK).
    exists w'. split; [done|]. split; [by exists F', A', hs'|]. intros x Hx. apply HK. by eapply run_spared.
  - intros s Q B1 p n B2 (F & A & hs & HR).
    destruct (run_kfree _ _ _ _ _ _ _ _ _ HR) as (w' & F' & A' & hs' & Hr & HR' & HK).
    exists w'. split; [done|]. split; [by exists F', A', hs'|]. intros x Hx. apply HK. by eapply run_spared.
  - intros w' s Q B (F & A & hs & HR) Hw. exists F, A, hs. by apply run_writes.
  - intros s Q B (F & A & hs & HR). destruct (blocks_apart _ _ _ _ _ _ (run_heap _ _ _ _ _ _ HR)) as [Hap Hrg].
    pose proof (run_held _ _ _ _ _ _ HR) as (L & HL & HLp). split; [|split].
    + eapply held_apart; [exact HL|]. eapply pairwise_perm; [|symmetry; exact HLp|exact Hap]. unfold bytes_apart. lia.
    + apply Forall_forall. intros b Hb. destruct (run_block _ _ _ _ _ _ _ HR Hb) as (c & Hc & [H1 H2]).
      rewrite Forall_forall in Hrg. specialize (Hrg c Hc). split; [lia|]. rewrite H1. by eapply block_aligned.
    + intros b q x Hb Hq Hx Hxq. destruct (run_block _ _ _ _ _ _ _ HR Hb) as (c & Hc & [H1 H2]). unfold in_block in Hx.
      pose proof (hp_slabs _ _ _ _ _ _ _ (run_heap _ _ _ _ _ _ HR)) as [HI _ HS].
      apply elem_of_app in Hc as [(d & -> & Hd)%list_elem_of_fmap|(r & -> & Hr)%list_elem_of_fmap].
      * assert (fits [HEAP] d) as Hf by (apply (slot_fits _ _ _ _ _ _ HS); rewrite !elem_of_app; tauto).
        unfold small_block in *. cbn [fst snd] in *.
        eapply (slot_not_kept pages s _ _ d x HI Hf); [unfold in_slot; lia|]. right. exists q. split; [|done].
        apply elem_of_app. by right.
      * pose proof (ps_tiles _ _ HI) as [_ HD]. apply pairwise_app in HD as (_ & (_ & _ & HD)%pairwise_app & _).
        specialize (HD (rec_block r) q ltac:(by apply (list_elem_of_fmap_2 rec_block)) Hq).
        unfold disj, inside, rec_block, large_block in *. cbn [fst snd] in *. lia.
Qed.
End implementation.
