(* ===== verification/Device.v ===== *)
(** * The devices behind the I/O ports

    [kernel/i8259.c] (interrupt controller), [drivers/rtc.c] (real-time
    clock), the cursor of [drivers/vga.c] and [pit_init] of [drivers/time.c].
    The processor's side of a device is the sequence of bytes it writes to the
    ports and the bytes it reads from them: [outs] is the list of the writes
    [(port, byte)], the latest last, and [input n port] is the byte the
    hardware answers to the [n]-th read. *)
From S2P Require Import Prelude.

Record dev := Dev {
  outs : list (Z * Z);
  input : nat -> Z -> Z;
  reads : nat;
  irq_mask : Z;
  sys_ticks : Z;
  global_interrupt_flag : Z
}.

Definition with_outs l d := Dev l (input d) (reads d) (irq_mask d) (sys_ticks d) (global_interrupt_flag d).
Definition with_reads n d := Dev (outs d) (input d) n (irq_mask d) (sys_ticks d) (global_interrupt_flag d).
Definition with_irq_mask v d := Dev (outs d) (input d) (reads d) v (sys_ticks d) (global_interrupt_flag d).
Definition with_sys_ticks v d := Dev (outs d) (input d) (reads d) (irq_mask d) v (global_interrupt_flag d).
Definition with_rtc_flag v d := Dev (outs d) (input d) (reads d) (irq_mask d) (sys_ticks d) v.

(** ** Port access: the macros of [lib.h] *)
Definition outb (data port : Z) : M dev unit :=
  modify (λ d, with_outs (outs d ++ [(port, u8 data)]) d).
Definition outb_p (data port : Z) : M dev unit := outb data port.
Definition inb (port : Z) : M dev Z :=
  v ← gets (λ d, u8 (input d (reads d) port));
  modify (λ d, with_reads (S (reads d)) d) ;;
  mret v.

(** ** The interrupt controller *)
Definition PIC_PORT_TOTAL : Z := 8.
Definition PIC_MASTER_CMD : Z := 32.
Definition PIC_SLAVE_CMD : Z := 160.
Definition PIC_MASTER_IMR : Z := 33.
Definition PIC_SLAVE_IMR : Z := 161.
Definition PIC_SLAVE_PORT : Z := 2.
Definition EOI : Z := 96.

(** The two bytes of [irq_mask]. *)
Definition master_mask (m : Z) : Z := Z.land m 255.
Definition slave_mask (m : Z) : Z := Z.land (Z.shiftr m 8) 255.

(** [1 << irq_num] is undefined from 32 on. *)
Definition irq_bit (irq_num : Z) : M dev Z :=
  if irq_num <? 32 then mret (u32 (Z.shiftl 1 irq_num)) else raise Undef.

Definition out_mask (irq_num : Z) : M dev unit :=
  m ← gets irq_mask;
  if negb (Z.land irq_num PIC_PORT_TOTAL =? 0) then outb (slave_mask m) PIC_SLAVE_IMR
  else outb (master_mask m) PIC_MASTER_IMR.
Definition enable_irq (irq_num : Z) : M dev unit :=
  b ← irq_bit irq_num;
  modify (λ d, with_irq_mask (u16 (Z.land (irq_mask d) (u32 (Z.lnot b)))) d) ;;
  out_mask irq_num.
Definition disable_irq (irq_num : Z) : M dev unit :=
  b ← irq_bit irq_num;
  modify (λ d, with_irq_mask (u16 (Z.lor (irq_mask d) b)) d) ;;
  out_mask irq_num.

Definition i8259_init : M dev unit :=
  outb 255 PIC_MASTER_IMR ;; outb 255 PIC_SLAVE_IMR ;;
  outb 17 PIC_MASTER_CMD ;; outb 32 PIC_MASTER_IMR ;;
  outb 4 PIC_MASTER_IMR ;; outb 1 PIC_MASTER_IMR ;;
  outb 17 PIC_SLAVE_CMD ;; outb 40 PIC_SLAVE_IMR ;;
  outb 2 PIC_SLAVE_IMR ;; outb 1 PIC_SLAVE_IMR ;;
  m ← gets irq_mask;
  outb (master_mask m) PIC_MASTER_IMR ;;
  outb (slave_mask m) PIC_SLAVE_IMR ;;
  enable_irq PIC_SLAVE_PORT.

(** An interrupt of the slave is acknowledged there and, by the recursive
    call, at the master's line 2; the call for line 2 does not recur. *)
Fixpoint send_eoi_rec (depth : nat) (irq_num : Z) : M dev unit :=
  match depth with
  | O => raise NoFuel
  | S depth =>
      if negb (Z.land irq_num PIC_PORT_TOTAL =? 0) then
        outb (u8 (Z.lor EOI (u32 (irq_num - PIC_PORT_TOTAL)))) PIC_SLAVE_CMD ;;
        send_eoi_rec depth PIC_SLAVE_PORT
      else outb (u8 (Z.lor EOI irq_num)) PIC_MASTER_CMD
  end.
Definition send_eoi (irq_num : Z) : M dev unit := send_eoi_rec 2 irq_num.

(** ** The cursor of the text screen *)
Definition VGA_WIDTH : Z := 80.
Definition VGA_HEIGHT : Z := 25.
Definition vga_enable_cursor (cursor_start cursor_end : Z) : M dev unit :=
  outb 10 980 ;;
  v ← inb 981;
  outb (Z.lor (Z.land v 192) cursor_start) 981 ;;
  outb 11 980 ;;
  v ← inb 981;
  outb (Z.lor (Z.land v 224) cursor_end) 981.
Definition vga_disable_cursor : M dev unit := outb 10 980 ;; outb 32 981.
Definition vga_init : M dev unit := vga_enable_cursor 0 15.
Definition vga_update_cursor (x y : Z) : M dev unit :=
  let pos := u16 (y * VGA_WIDTH + x) in
  outb 15 980 ;;
  outb (u8 (Z.land pos 255)) 981 ;;
  outb 14 980 ;;
  outb (u8 (Z.land (Z.shiftr pos 8) 255)) 981.

(** ** The interval timer *)
Definition LATCH : Z := (1193182 + 1000 / 2) / 1000.
Definition pit_init : M dev unit :=
  outb_p 52 67 ;;
  outb_p (Z.land LATCH 255) 64 ;;
  outb (Z.shiftr LATCH 8) 64 ;;
  modify (with_sys_ticks 0) ;;
  enable_irq 0.

(** ** The real-time clock *)
Definition RTC_CMD_port : Z := 112.
Definition RTC_DATA_port : Z := 113.
Definition RTC_A_reg : Z := 138.
Definition RTC_B_reg : Z := 139.
Definition RTC_C_reg : Z := 140.
Definition RTC_MAX_freq : Z := 1024.
Definition RTC_MIN_freq : Z := 2.
Definition RTC_IRQ : Z := 8.

(** The loop of [log2_of] ends for a positive frequency only: 0 and -1 are
    fixed points of the shift.  32 iterations are enough for 32 bits. *)
Definition log2_body (x : Z * Z) : M dev ((Z * Z) + Z) :=
  let '(frequency, count) := x in
  mret (if negb (frequency =? 1) then inl (Z.shiftr frequency 1, i8 (count + 1))
        else inr count).
Definition log2_of (frequency : Z) : M dev Z := iter 32 log2_body (frequency, 0).

Definition set_rtc_freq (frequency : Z) : M dev unit :=
  l ← log2_of frequency;
  let rate := Z.land (i8 (15 - l + 1)) 15 in
  if rate <? 3 then mret ()
  else
    outb RTC_A_reg RTC_CMD_port ;;
    prev ← inb RTC_DATA_port;
    outb RTC_A_reg RTC_CMD_port ;;
    outb (Z.lor (Z.land (i8 prev) 240) rate) RTC_DATA_port.

Definition rtc_init : M dev unit :=
  outb RTC_B_reg RTC_CMD_port ;;
  prev ← inb RTC_DATA_port;
  outb RTC_B_reg RTC_CMD_port ;;
  outb (Z.lor (i8 prev) 64) RTC_DATA_port ;;
  enable_irq RTC_IRQ ;;
  set_rtc_freq RTC_MAX_freq ;;
  modify (with_rtc_flag 0).

(** [cli] and [sti] around it do not concern the device. *)
Definition do_rtc : M dev unit :=
  modify (with_rtc_flag 1) ;;
  send_eoi RTC_IRQ ;;
  outb RTC_C_reg RTC_CMD_port ;;
  inb RTC_DATA_port ;;
  mret ().

(** [rtc_write], after the word [new_freq] has been read from the buffer. *)
Definition rtc_set (new_freq : Z) : M dev Z :=
  if (RTC_MAX_freq <? new_freq) || (new_freq <? RTC_MIN_freq) then mret (-1)
  else if negb (Z.land new_freq 1 =? 0) then mret (-1)
  else set_rtc_freq new_freq ;; mret 0.
