(* ===== verification/DeviceContract.v ===== *)
(** * The contract of the devices

    The clock's rate, the interrupt masks and the acknowledgement. *)
From S2P Require Import Prelude Device.

(** ** The clock *)
Lemma log2_run n f c d :
  0 < f -> Z.log2 f < Z.of_nat n -> -128 <= c -> c + Z.log2 f <= 127 ->
  iter n log2_body (f, c) d = Ok (c + Z.log2 f, d).
Proof.
  revert f c. induction n as [|n IH]; intros f c Hf Hn Hlo Hhi.
  { pose proof (Z.log2_nonneg f). lia. }
  cbn [iter]. unfold mbind, M_bind. cbn [log2_body].
  destruct (Z.eqb_spec f 1) as [->|Hne]; cbn [negb]; [by rewrite Z.add_0_r|].
  assert (Z.log2 f = 1 + Z.log2 (Z.shiftr f 1)) as Hl.
  { rewrite Z.log2_shiftr by lia. pose proof (Z.log2_le_mono 2 f ltac:(lia)) as H2.
    change (Z.log2 2) with 1 in H2. lia. }
  pose proof (Z.log2_nonneg (Z.shiftr f 1)).
  assert (0 < Z.shiftr f 1) by (rewrite Z.shiftr_div_pow2 by lia; change (2 ^ 1) with 2; lia_mod).
  unfold mret, M_ret. rewrite IH; [|lia|lia|unfold i8; lia_mod|unfold i8; lia_mod].
  do 2 f_equal. unfold i8. lia_mod.
Qed.

(** The rate selected for a frequency, and the state after it is programmed:
    the upper half of the register is kept. *)
Definition rtc_rate (f : Z) : Z := 16 - Z.log2 f.
Definition rtc_programmed (f : Z) (d : dev) : dev :=
  let prev := u8 (input d (reads d) RTC_DATA_port) in
  with_reads (S (reads d)) (with_outs (outs d ++
    [(RTC_CMD_port, RTC_A_reg); (RTC_CMD_port, RTC_A_reg);
     (RTC_DATA_port, u8 (Z.lor (Z.land (i8 prev) 240) (rtc_rate f)))]) d).

Lemma log2_range f : 2 <= f <= 1024 -> 1 <= Z.log2 f <= 10.
Proof.
  intros H. pose proof (Z.log2_le_mono 2 f ltac:(lia)). pose proof (Z.log2_le_mono f 1024 ltac:(lia)).
  change (Z.log2 2) with 1 in *. change (Z.log2 1024) with 10 in *. lia.
Qed.

Lemma set_rtc_freq_run f d : 2 <= f <= 1024 -> set_rtc_freq f d = Ok (tt, rtc_programmed f d).
Proof.
  intros Hf. pose proof (log2_range f Hf). unfold set_rtc_freq, log2_of.
  erewrite bind_ok; [|apply log2_run; lia].
  assert (Z.land (i8 (15 - (0 + Z.log2 f) + 1)) 15 = rtc_rate f) as ->.
  { change 15 with (Z.ones 4) at 2. rewrite Z.land_ones by lia. unfold i8, rtc_rate.
    change (2 ^ 4) with 16. lia_mod. }
  destruct (Z.ltb_spec (rtc_rate f) 3); [unfold rtc_rate in *; lia|].
  unfold rtc_programmed, outb, inb, mbind, M_bind, modify, gets, mret, M_ret. destruct d. cbn.
  by rewrite <-!app_assoc.
Qed.

(** The frequency that a rate gives is [32768 >> (rate - 1)]. *)
Lemma rate_frequency f :
  2 <= f <= 1024 -> Z.shiftr 32768 (rtc_rate f - 1) = 2 ^ Z.log2 f.
Proof.
  intros Hf. pose proof (log2_range f Hf). unfold rtc_rate.
  change 32768 with (2 ^ 15). rewrite Z.shiftr_div_pow2 by lia.
  rewrite <-Z.pow_sub_r by lia. f_equal. lia.
Qed.

(** [rtc_write] accepts exactly the even frequencies from 2 to 1024, for
    which it returns 0, and rejects all others with -1 and without touching
    the device.  Its loop ends.  The rate it programs makes the clock run at
    the largest power of two that is not above the frequency asked for; so an
    even number that is not a power of two, which the comment says is
    rejected, is rounded down. *)
Theorem rtc_set_correct f d :
  rtc_set f d = (if (2 <=? f) && (f <=? 1024) && Z.even f
                 then Ok (0, rtc_programmed f d) else Ok (-1, d)) /\
  (2 <= f <= 1024 ->
     Z.shiftr 32768 (rtc_rate f - 1) = 2 ^ Z.log2 f /\ 2 ^ Z.log2 f <= f < 2 * 2 ^ Z.log2 f).
Proof.
  split.
  - unfold rtc_set. change RTC_MAX_freq with 1024. change RTC_MIN_freq with 2.
    change (Z.land f 1) with (Z.land f (Z.ones 1)). rewrite Z.land_ones by lia.
    change (2 ^ 1) with 2. rewrite Zmod_even.
    destruct (Z.ltb_spec 1024 f), (Z.leb_spec f 1024), (Z.ltb_spec f 2), (Z.leb_spec 2 f);
      try lia; try done; simpl.
    destruct (Z.even f); simpl; [|done].
    erewrite bind_ok; [|by apply set_rtc_freq_run]. done.
  - intros Hf. split; [by apply rate_frequency|].
    pose proof (Z.log2_spec f ltac:(lia)) as H. rewrite Z.pow_succ_r in H by apply Z.log2_nonneg. lia.
Qed.

(** Six is even and no power of two: the clock is set to 4 Hz. *)
Lemma rtc_set_correct_witness :
  (2 <= 6 <= 1024) /\ Z.shiftr 32768 (rtc_rate 6 - 1) = 4.
Proof.
  split; [lia|]. destruct (proj2 (rtc_set_correct 6 (Dev [] (λ _ _, 0) 0 0 0 0)) ltac:(lia)) as [H _].
  exact H.
Defined.

(** ** The interrupt masks *)

(** The byte of the mask that controls the line, at the port of its
    controller. *)
Definition mask_write (n m : Z) : Z * Z :=
  if n <? 8 then (PIC_MASTER_IMR, m mod 256) else (PIC_SLAVE_IMR, m / 256).
Definition masked (d : dev) (k : Z) : bool := Z.testbit (irq_mask d) k.

Lemma out_mask_run n d :
  0 <= n < 16 -> 0 <= irq_mask d < 65536 ->
  out_mask n d = Ok (tt, with_outs (outs d ++ [mask_write n (irq_mask d)]) d).
Proof.
  intros Hn Hm. unfold out_mask, mask_write, outb, mbind, M_bind, gets, modify.
  replace (negb (Z.land n PIC_PORT_TOTAL =? 0)) with (negb (n <? 8)).
  2: { f_equal. apply (forall_seqZ (λ n, eqb (n <? 8) (Z.land n PIC_PORT_TOTAL =? 0)) 16) in Hn;
       [by apply eqb_true_iff|by vm_compute]. }
  destruct (n <? 8); simpl; unfold master_mask, slave_mask, u8; do 4 f_equal;
    change 255 with (Z.ones 8); rewrite Z.land_ones, ?Z.shiftr_div_pow2 by lia;
    change (2 ^ 8) with 256; do 2 f_equal; lia_mod.
Qed.

Lemma irq_bit_run n (d : dev) : 0 <= n < 16 -> irq_bit n d = Ok (2 ^ n, d).
Proof.
  intros Hn. unfold irq_bit. destruct (Z.ltb_spec n 32); [|lia]. unfold mret, M_ret.
  rewrite Z.shiftl_1_l. rewrite u32_id; [done|].
  pose proof (Z.pow_lt_mono_r 2 n 32). change (2 ^ 32) with 4294967296 in *. lia.
Qed.
Lemma mask_range m : (forall k, 16 <= k -> Z.testbit m k = false) -> 0 <= m -> 0 <= m < 65536.
Proof.
  intros H Hm. split; [done|]. destruct (Z.ltb_spec m 65536); [done|].
  assert (m <> 0) as Hz by lia. pose proof (Z.bit_log2 m ltac:(lia)) as Hb.
  pose proof (Z.log2_le_mono 65536 m ltac:(lia)) as Hl. change (Z.log2 65536) with 16 in Hl.
  by rewrite H in Hb.
Qed.
Lemma high_bits m k : 0 <= m < 65536 -> 16 <= k -> Z.testbit m k = false.
Proof.
  intros Hm Hk. destruct (decide (m = 0)) as [->|]; [apply Z.testbit_0_l|].
  apply Z.bits_above_log2; [lia|]. pose proof (Z.log2_lt_pow2 m 16 ltac:(lia)) as [H _].
  change (2 ^ 16) with 65536 in H. lia.
Qed.

Lemma clear_bit n m k :
  0 <= n < 16 -> 0 <= m < 65536 -> 0 <= k ->
  Z.testbit (Z.land m (u32 (Z.lnot (2 ^ n)))) k = Z.testbit m k && negb (k =? n).
Proof.
  intros Hn Hm Hk. rewrite Z.land_spec. destruct (Z.leb_spec 16 k).
  { by rewrite high_bits. }
  f_equal. unfold u32. change 4294967296 with (2 ^ 32).
  rewrite Z.mod_pow2_bits_low, Z.lnot_spec, Z.pow2_bits_eqb by lia.
  by rewrite Z.eqb_sym.
Qed.
Lemma set_bit n m k : 0 <= n -> Z.testbit (Z.lor m (2 ^ n)) k = Z.testbit m k || (k =? n).
Proof. intros Hn. rewrite Z.lor_spec, Z.pow2_bits_eqb by lia. by rewrite Z.eqb_sym. Qed.

(** The mask operations as functions. *)
Definition unmask (n : Z) (d : dev) : dev :=
  let m := Z.land (irq_mask d) (u32 (Z.lnot (2 ^ n))) in
  with_irq_mask m (with_outs (outs d ++ [mask_write n m]) d).
Definition mask_out (n : Z) (d : dev) : dev :=
  let m := Z.lor (irq_mask d) (2 ^ n) in
  with_irq_mask m (with_outs (outs d ++ [mask_write n m]) d).

Lemma clear_range n m :
  0 <= n < 16 -> 0 <= m < 65536 -> 0 <= Z.land m (u32 (Z.lnot (2 ^ n))) < 65536.
Proof.
  intros Hn Hm. apply mask_range.
  - intros k Hk. rewrite clear_bit by lia. by rewrite high_bits.
  - apply Z.land_nonneg. lia.
Qed.
Lemma set_range n m : 0 <= n < 16 -> 0 <= m < 65536 -> 0 <= Z.lor m (2 ^ n) < 65536.
Proof.
  intros Hn Hm. pose proof (Z.pow_pos_nonneg 2 n ltac:(lia) ltac:(lia)). apply mask_range.
  - intros k Hk. rewrite set_bit by lia. rewrite high_bits by lia. apply Z.eqb_neq. lia.
  - apply Z.lor_nonneg. lia.
Qed.

Lemma enable_irq_run n d :
  0 <= n < 16 -> 0 <= irq_mask d < 65536 -> enable_irq n d = Ok (tt, unmask n d).
Proof.
  intros Hn Hm. unfold enable_irq. erewrite bind_ok; [|by apply irq_bit_run].
  pose proof (clear_range n _ Hn Hm). erewrite bind_ok; [|done].
  unfold u16. rewrite Z.mod_small by done. by rewrite out_mask_run.
Qed.
Lemma disable_irq_run n d :
  0 <= n < 16 -> 0 <= irq_mask d < 65536 -> disable_irq n d = Ok (tt, mask_out n d).
Proof.
  intros Hn Hm. unfold disable_irq. erewrite bind_ok; [|by apply irq_bit_run].
  pose proof (set_range n _ Hn Hm). erewrite bind_ok; [|done].
  unfold u16. rewrite Z.mod_small by done. by rewrite out_mask_run.
Qed.

(** [enable_irq] unmasks exactly its line and [disable_irq] masks exactly
    its line; each sends one byte, to the controller that owns the line, and
    the byte is that controller's half of the new mask.  Disabling a line and
    enabling it again restores a mask in which it was enabled. *)
Theorem irq_lines n d :
  0 <= n < 16 -> 0 <= irq_mask d < 65536 ->
  exists d1 d2,
    enable_irq n d = Ok (tt, d1) /\ disable_irq n d = Ok (tt, d2) /\
    (forall k, 0 <= k -> masked d1 k = masked d k && negb (k =? n)) /\
    (forall k, 0 <= k -> masked d2 k = masked d k || (k =? n)) /\
    outs d1 = outs d ++ [mask_write n (irq_mask d1)] /\
    outs d2 = outs d ++ [mask_write n (irq_mask d2)] /\
    (masked d n = false ->
       exists d3, enable_irq n d2 = Ok (tt, d3) /\ irq_mask d3 = irq_mask d).
Proof.
  intros Hn Hm. exists (unmask n d), (mask_out n d).
  pose proof (set_range n _ Hn Hm) as Hr.
  split; [by apply enable_irq_run|]. split; [by apply disable_irq_run|].
  split; [intros k Hk; by apply clear_bit|]. split; [intros k Hk; apply set_bit; lia|].
  split; [done|]. split; [done|]. intros Hoff. eexists.
  split; [by apply enable_irq_run|]. cbn. apply Z.bits_inj'. intros k Hk.
  rewrite clear_bit, set_bit by (done || lia). destruct (Z.eqb_spec k n) as [->|]; simpl.
  - by rewrite andb_false_r.
  - by rewrite andb_true_r, orb_false_r.
Qed.

(** The clock's line, behind the slave, with all lines masked at first. *)
Lemma irq_lines_witness :
  (0 <= 8 < 16) /\ exists d1, enable_irq 8 (Dev [] (λ _ _, 0) 0 65535 0 0) = Ok (tt, d1) /\
    masked d1 8 = false /\ masked d1 1 = true.
Proof.
  split; [lia|].
  destruct (irq_lines 8 (Dev [] (λ _ _, 0) 0 65535 0 0) ltac:(lia) ltac:(simpl; lia))
    as (d1 & d2 & H1 & _ & H2 & _).
  exists d1. split; [exact H1|]. rewrite !H2 by lia. split; reflexivity.
Defined.

(** ** Acknowledgement *)

(** The command bytes that end interrupt [n]: at the slave and, for the
    slave's line, at the master; or at the master only. *)
Definition eoi_writes (n : Z) : list (Z * Z) :=
  if n <? 8 then [(PIC_MASTER_CMD, 96 + n)] else [(PIC_SLAVE_CMD, 96 + (n - 8)); (PIC_MASTER_CMD, 98)].

Definition eoi_byte (n : Z) : Z :=
  u8 (u8 (Z.lor EOI (if n <? 8 then n else u32 (n - PIC_PORT_TOTAL)))).
Lemma eoi_bytes n :
  0 <= n < 16 ->
  negb (Z.land n PIC_PORT_TOTAL =? 0) = negb (n <? 8) /\ eoi_byte n = 96 + n mod 8.
Proof.
  intros Hn.
  apply (forall_seqZ (λ n, eqb (negb (Z.land n PIC_PORT_TOTAL =? 0)) (negb (n <? 8)) &&
    (eoi_byte n =? 96 + n mod 8)) 16) in Hn; [|by vm_compute].
  apply andb_prop in Hn as [H1%eqb_prop H2%Z.eqb_eq]. done.
Qed.

Lemma send_eoi_run n d :
  0 <= n < 16 -> send_eoi n d = Ok (tt, with_outs (outs d ++ eoi_writes n) d).
Proof.
  intros Hn. destruct d as [o i r m t g].
  destruct (eoi_bytes n Hn) as [H1 H2]. unfold send_eoi, eoi_writes. cbn [send_eoi_rec]. rewrite H1.
  unfold eoi_byte in H2. destruct (Z.ltb_spec n 8); cbn [negb].
  - unfold outb, modify, with_outs. cbn [outs input reads irq_mask sys_ticks global_interrupt_flag].
    rewrite H2. do 4 f_equal. rewrite Z.mod_small by lia. done.
  - unfold outb, modify, mbind, M_bind, with_outs. cbn -[u8 u32 Z.lor].
    rewrite H2. change (negb (Z.land PIC_SLAVE_PORT PIC_PORT_TOTAL =? 0)) with false. cbv iota beta.
    cbn [outs input reads irq_mask sys_ticks global_interrupt_flag].
    rewrite <-app_assoc. replace (n mod 8) with (n - 8) by lia_mod. done.
Qed.
