(* ===== verification/Kernel.v ===== *)
(** * The state of the kernel above the allocators

    The memory, the devices, the scheduler, the terminals and their consoles,
    the processes and their file tables: what [lib/io.c], the drivers, the
    virtual file system and the system calls share.  Structures that the code
    reaches through pointers are kept by address. *)
From S2P Require Import Prelude Bytes RbTree Cfs Fs Device.

(** ** Terminals: [include/drivers/terminal.h] *)
Definition TERBUF_SIZE : Z := 128.
Definition VIDMEM_SIZE : Z := 4096.

(** [terminal_t]; [tsize] is its field [size], and the 128 bytes at [buffer]
    are the list of that name. *)
Record terminal_t := Terminal_t {
  capslock : Z;
  shift : Z;
  ctrl : Z;
  alt : Z;
  bufhd : Z;
  buftl : Z;
  tsize : Z;
  buffer : list Z;
  exit : Z;
  screen_x : Z;
  screen_y : Z;
  vidmem : Z;
  saved_vidmem : Z
}.

Definition set_capslock v t := Terminal_t v (shift t) (ctrl t) (alt t) (bufhd t) (buftl t) (tsize t)
  (buffer t) (exit t) (screen_x t) (screen_y t) (vidmem t) (saved_vidmem t).
Definition set_shift v t := Terminal_t (capslock t) v (ctrl t) (alt t) (bufhd t) (buftl t) (tsize t)
  (buffer t) (exit t) (screen_x t) (screen_y t) (vidmem t) (saved_vidmem t).
Definition set_ctrl v t := Terminal_t (capslock t) (shift t) v (alt t) (bufhd t) (buftl t) (tsize t)
  (buffer t) (exit t) (screen_x t) (screen_y t) (vidmem t) (saved_vidmem t).
Definition set_alt v t := Terminal_t (capslock t) (shift t) (ctrl t) v (bufhd t) (buftl t) (tsize t)
  (buffer t) (exit t) (screen_x t) (screen_y t) (vidmem t) (saved_vidmem t).
(** The line buffer: head, tail, count and bytes. *)
Definition set_line hd tl n b t := Terminal_t (capslock t) (shift t) (ctrl t) (alt t) hd tl n
  b (exit t) (screen_x t) (screen_y t) (vidmem t) (saved_vidmem t).
Definition set_exit v t := Terminal_t (capslock t) (shift t) (ctrl t) (alt t) (bufhd t) (buftl t) (tsize t)
  (buffer t) v (screen_x t) (screen_y t) (vidmem t) (saved_vidmem t).
Definition set_cursor x y t := Terminal_t (capslock t) (shift t) (ctrl t) (alt t) (bufhd t) (buftl t) (tsize t)
  (buffer t) (exit t) x y (vidmem t) (saved_vidmem t).
Definition set_vidmem v t := Terminal_t (capslock t) (shift t) (ctrl t) (alt t) (bufhd t) (buftl t) (tsize t)
  (buffer t) (exit t) (screen_x t) (screen_y t) v (saved_vidmem t).

(** ** Open files: [include/vfs/file.h], [include/vfs/vfs.h] *)
Definition OPEN_MAX : Z := 8.
Definition stdin : Z := 0.
Definition stdout : Z := 1.

(** [file_op]: the four tables of functions of the kernel. *)
Inductive file_op := f_op | dir_op | terminal_op | rtc_op.

Record file_t := File {
  f_dentry : dentry_t;
  fop : file_op;
  f_count : Z;
  f_pos : Z
}.
Record files := Files {
  count : Z;
  max_fd : Z;
  fd : list file_t
}.

(** ** Processes and consoles: [include/pro/process.h]

    The fields of [thread_t] that the scheduler does not use; those it uses
    are in [Cfs]. *)
Record proc_t := Proc {
  terminal : Z;
  fds : Z;
  parent : Z
}.
Definition set_fds v p := Proc (terminal p) v (parent p).

(** [task] of the current console is the scheduler's [console_task]. *)
Record console_t := Console {
  fkey : Z;
  task : Z
}.

Record kst := Kst {
  memory : mem;
  device : dev;
  sched : cfs_rq;
  terminals : gmap Z terminal_t;
  procs : gmap Z proc_t;
  tables : gmap Z files;
  consoles : list console_t;
  current : nat;
  terminal_boot : Z;
  g_screen_x : Z;
  g_screen_y : Z;
  vidmap_table : gmap Z Z;
  fs : fs_t
}.

Definition with_memory v k := Kst v (device k) (sched k) (terminals k) (procs k) (tables k)
  (consoles k) (current k) (terminal_boot k) (g_screen_x k) (g_screen_y k) (vidmap_table k) (fs k).
Definition with_device v k := Kst (memory k) v (sched k) (terminals k) (procs k) (tables k)
  (consoles k) (current k) (terminal_boot k) (g_screen_x k) (g_screen_y k) (vidmap_table k) (fs k).
Definition with_sched v k := Kst (memory k) (device k) v (terminals k) (procs k) (tables k)
  (consoles k) (current k) (terminal_boot k) (g_screen_x k) (g_screen_y k) (vidmap_table k) (fs k).
Definition with_terminals v k := Kst (memory k) (device k) (sched k) v (procs k) (tables k)
  (consoles k) (current k) (terminal_boot k) (g_screen_x k) (g_screen_y k) (vidmap_table k) (fs k).
Definition with_procs v k := Kst (memory k) (device k) (sched k) (terminals k) v (tables k)
  (consoles k) (current k) (terminal_boot k) (g_screen_x k) (g_screen_y k) (vidmap_table k) (fs k).
Definition with_tables v k := Kst (memory k) (device k) (sched k) (terminals k) (procs k) v
  (consoles k) (current k) (terminal_boot k) (g_screen_x k) (g_screen_y k) (vidmap_table k) (fs k).
Definition with_consoles l c k := Kst (memory k) (device k) (sched k) (terminals k) (procs k) (tables k)
  l c (terminal_boot k) (g_screen_x k) (g_screen_y k) (vidmap_table k) (fs k).
Definition with_screen x y k := Kst (memory k) (device k) (sched k) (terminals k) (procs k) (tables k)
  (consoles k) (current k) (terminal_boot k) x y (vidmap_table k) (fs k).
Definition with_vidmap v k := Kst (memory k) (device k) (sched k) (terminals k) (procs k) (tables k)
  (consoles k) (current k) (terminal_boot k) (g_screen_x k) (g_screen_y k) v (fs k).

Abbreviation KM := (M kst).

(** The components' operations, on the kernel state. *)
Definition on_mem {A} (m : M mem A) : KM A := zoom memory with_memory m.
Definition on_dev {A} (m : M dev A) : KM A := zoom device with_device m.
Definition on_sched {A} (m : M cfs_rq A) : KM A := zoom sched with_sched m.

(** [cli], [sti] and the saved flags. *)
Definition cli : KM unit := on_sched (modify (with_if false)).
Definition sti : KM unit := on_sched (modify (with_if true)).
Definition cli_and_save : KM bool := b ← on_sched (gets cpu_if); cli ;; mret b.
Definition restore_flags (b : bool) : KM unit := on_sched (modify (with_if b)).

(** Structures by address; a null or dangling pointer faults. *)
Definition get_terminal (t : Z) : KM terminal_t :=
  gets_opt (λ k, if t =? NULL then None else terminals k !! t).
Definition upd_terminal (t : Z) (f : terminal_t -> terminal_t) : KM unit :=
  x ← get_terminal t; modify (λ k, with_terminals (<[t := f x]> (terminals k)) k).
Definition get_proc (p : Z) : KM proc_t :=
  gets_opt (λ k, if p =? NULL then None else procs k !! p).
Definition upd_proc (p : Z) (f : proc_t -> proc_t) : KM unit :=
  x ← get_proc p; modify (λ k, with_procs (<[p := f x]> (procs k)) k).
Definition get_files (p : Z) : KM files :=
  gets_opt (λ k, if p =? NULL then None else tables k !! p).
Definition upd_files (p : Z) (f : files -> files) : KM unit :=
  x ← get_files p; modify (λ k, with_tables (<[p := f x]> (tables k)) k).

(** [GETPRO]: the running thread, found from the stack pointer. *)
Definition GETPRO : KM Z := on_sched (gets cpu_thread).
(** [current->task] and [current->task->terminal]. *)
Definition current_task : KM Z := on_sched (gets_opt console_task).
Definition current_terminal : KM Z := t ← current_task; p ← get_proc t; mret (terminal p).

(** ** The timer interrupt: [do_timer] of [drivers/time.c]

    The clock of the run queue advances by a millisecond, the running task is
    charged, and the scheduler runs when the task is to be replaced. *)
Definition TICKUNIT : Z := 1000000.
Definition with_clock v s := Cfs (rq_load s) (nr_running s) (min_vruntime_of s) v (rq_tree s)
  (left_most s) (rq_current s) (scheds s) (threads s) (console_task s) (cpu_thread s) (cpu_if s).
Definition do_timer : KM unit :=
  flags ← cli_and_save;
  on_sched (modify (λ s, with_clock (u64 (clock s + TICKUNIT)) s)) ;;
  on_dev (send_eoi 0) ;;
  cur ← GETPRO;
  on_sched (task_tick cur) ;;
  th ← on_sched (get_thread cur);
  when (flag th =? NEED_RESCHED) (on_sched schedule) ;;
  restore_flags flags.
