(* ===== verification/Console.v ===== *)
(** * Text output: [drivers/vga.c] and [lib/io.c]

    The screen is 25 rows of 80 cells of two bytes (character, attribute) in
    the byte memory, at [video_mem] or at the buffer of a terminal. *)
From S2P Require Import Prelude Bytes KString Cfs Device Kernel.

Definition NUM_COLS : Z := 80.
Definition NUM_ROWS : Z := 25.
Definition ATTRIB : Z := 7.
Definition video_mem : Z := 753664.

(** ** [vga.c] *)
Definition cell (vidmem i : Z) : Z := u32 (vidmem + 2 * i).
Definition write_cell (vidmem i c : Z) : M mem unit :=
  st8 (cell vidmem i) c ;; st8 (cell vidmem i + 1) ATTRIB.
Definition vga_write (vidmem x y c : Z) : M mem unit :=
  write_cell vidmem (VGA_WIDTH * u8 y + u8 x) c.
Definition vga_clear (vidmem : Z) : M mem unit :=
  for_loop 0 2000 (λ i, write_cell vidmem i 32).
Definition scroll_up (vidmem i : Z) : M mem unit :=
  c ← ld8 (cell vidmem (i + VGA_WIDTH));
  write_cell vidmem i c.
Definition vga_scrolling (vidmem : Z) : M mem unit :=
  for_loop 0 1920 (scroll_up vidmem) ;;
  for_loop 1920 80 (λ i, write_cell vidmem i 32).

(** ** Characters *)

(** The screen, the column and the row after [c]. *)
Definition put_at (vidmem x y c : Z) : M mem (Z * Z) :=
  if (c =? 10) || (c =? 13) then
    if y + 1 =? NUM_ROWS then vga_scrolling vidmem ;; mret (0, y)
    else mret (0, y + 1)
  else
    vga_write vidmem x y c ;;
    let x := Z.rem (x + 1) NUM_COLS in
    if x =? 0 then
      if negb (y + 1 =? NUM_ROWS) then mret (x, y + 1)
      else vga_scrolling vidmem ;; mret (x, y)
    else mret (x, y).

(** [_putc]; before the terminals are up ([terminal_boot] is 0) the pointer
    is not looked at. *)
Definition _putc (c : Z) (terminal : Z) : KM unit :=
  b ← gets terminal_boot;
  if b =? 0 then
    x ← gets g_screen_x; y ← gets g_screen_y;
    xy ← on_mem (put_at video_mem x y c);
    modify (with_screen xy.1 xy.2) ;;
    on_dev (vga_update_cursor (u8 xy.1) (u8 xy.2))
  else
    t ← get_terminal terminal;
    xy ← on_mem (put_at (vidmem t) (screen_x t) (screen_y t) c);
    upd_terminal terminal (set_cursor (u8 xy.1) (u8 xy.2)) ;;
    cur ← current_terminal;
    when (terminal =? cur) (on_dev (vga_update_cursor (u8 xy.1) (u8 xy.2))).

Definition putc (c : Z) : KM unit :=
  b ← gets terminal_boot;
  if b =? 0 then _putc (u8 c) NULL
  else curr ← GETPRO; p ← get_proc curr; _putc (u8 c) (terminal p).

Definition clear : KM unit :=
  b ← gets terminal_boot;
  if b =? 0 then on_mem (vga_clear video_mem) ;; modify (with_screen 0 0)
  else
    terminal ← current_terminal;
    t ← get_terminal terminal;
    on_mem (vga_clear (vidmem t)) ;;
    upd_terminal terminal (set_cursor 0 0).

Definition back (terminal : Z) : KM unit :=
  t ← get_terminal terminal;
  if (screen_x t =? 0) && (screen_y t =? 0) then mret ()
  else
    (if screen_x t =? 0 then upd_terminal terminal (set_cursor (NUM_COLS - 1) (u8 (screen_y t - 1)))
     else upd_terminal terminal (set_cursor (u8 (screen_x t - 1)) (screen_y t))) ;;
    t ← get_terminal terminal;
    on_mem (vga_write (vidmem t) (screen_x t) (screen_y t) 32) ;;
    cur ← current_terminal;
    when (terminal =? cur) (on_dev (vga_update_cursor (screen_x t) (screen_y t))).

(** The debugging aid that marks every cell. *)
Definition test_interrupts : M mem unit :=
  for_loop 0 2000 (λ i, c ← ld8 (cell video_mem i); st8 (cell video_mem i) (c + 1)).

(** ** Strings and formats *)
Definition puts_body (s : Z) (index : Z) : KM (Z + Z) :=
  c ← on_mem (ldc (s + index));
  if c =? 0 then mret (inr index) else putc c ;; mret (inl (i32 (index + 1))).
Definition puts (s : Z) : KM Z :=
  fuel ← gets (λ k, mem_fuel (memory k)); iter fuel (puts_body s) 0.

(** The next argument of a variadic call. *)
Definition next_arg (esp : list Z) : KM (Z * list Z) :=
  match esp with a :: esp => mret (a, esp) | [] => raise Undef end.

(** [%x] with the flag [#]: digits from the 9th byte of [conv_buf], zeros
    before them so that 8 digits are printed. *)
Definition pad_body (conv_buf : Z) (i : Z) : M mem (Z + unit) :=
  if i <? 8 then st8 (conv_buf + i) 48 ;; mret (inl (i + 1)) else mret (inr ()).
Definition put_hex (conv_buf alternate v : Z) : KM unit :=
  if alternate =? 0 then
    on_mem (KString.itoa (u32 v) conv_buf 16) ;; puts conv_buf ;; mret ()
  else
    on_mem (KString.itoa (u32 v) (conv_buf + 8) 16) ;;
    starting_index ← on_mem (KString.strlen (conv_buf + 8));
    on_mem (iter 9 (pad_body conv_buf) (i32 starting_index)) ;;
    puts (conv_buf + i32 starting_index) ;; mret ().
Definition put_signed (conv_buf v : Z) : KM unit :=
  let value := i32 v in
  (if value <? 0 then
     on_mem (st8 conv_buf 45 ;; KString.itoa (u32 (i32 (- value))) (conv_buf + 1) 10)
   else on_mem (KString.itoa (u32 value) conv_buf 10)) ;;
  puts conv_buf ;; mret ().

(** [format_char_switch]: the character at [buf] of a conversion.  The loop
    is the [goto] of the flag [#]; the result is where the conversion ends
    and the arguments that are left. *)
Definition conversion (conv_buf : Z) (x : Z * Z * list Z) : KM ((Z * Z * list Z) + (Z * list Z)) :=
  let '(buf, alternate, esp) := x in
  c ← on_mem (ldc buf);
  if c =? 37 then putc 37 ;; mret (inr (buf, esp))
  else if c =? 35 then mret (inl (u32 (buf + 1), 1, esp))
  else if c =? 120 then
    a ← next_arg esp; put_hex conv_buf alternate a.1 ;; mret (inr (buf, a.2))
  else if c =? 117 then
    a ← next_arg esp;
    on_mem (KString.itoa (u32 a.1) conv_buf 10) ;; puts conv_buf ;; mret (inr (buf, a.2))
  else if c =? 100 then
    a ← next_arg esp; put_signed conv_buf a.1 ;; mret (inr (buf, a.2))
  else if c =? 99 then
    a ← next_arg esp; putc (u8 a.1) ;; mret (inr (buf, a.2))
  else if c =? 115 then
    a ← next_arg esp; puts a.1 ;; mret (inr (buf, a.2))
  else mret (inr (buf, esp)).

(** [conv_buf] is the address of the local array of that name; [esp] are the
    variadic arguments. *)
Definition printf_body (conv_buf : Z) (x : Z * list Z) : KM ((Z * list Z) + Z) :=
  let '(buf, esp) := x in
  c ← on_mem (ldc buf);
  if c =? 0 then mret (inr buf)
  else if c =? 37 then
    fuel ← gets (λ k, mem_fuel (memory k));
    r ← iter fuel (conversion conv_buf) (u32 (buf + 1), 0, esp);
    mret (inl (u32 (r.1 + 1), r.2))
  else putc c ;; mret (inl (u32 (buf + 1), esp)).
Definition printf (conv_buf format : Z) (args : list Z) : KM Z :=
  fuel ← gets (λ k, mem_fuel (memory k));
  buf ← iter fuel (printf_body conv_buf) (format, args);
  mret (i32 (buf - format)).

(** [panic]: the message and a newline, then a loop that never ends. *)
Definition panic (s : Z) : KM unit := cli ;; puts s ;; putc 10 ;; raise Panic.
