(* ===== verification/ConsoleProps.v ===== *)
(** * The text screen

    [cells m v f]: the memory [m] holds at [v] a screen whose [i]-th
    character is [f i].  The operations of [vga.c] and [put_at] act on it as
    [text] operations do. *)
From S2P Require Import Prelude Bytes Device Kernel Console.

(** ** An abstract screen: its characters, the column and the row *)
Definition blank : Z := 32.
Definition t_write (i c : Z) (f : Z -> Z) : Z -> Z := λ j, if j =? i then c else f j.
Definition t_scroll (f : Z -> Z) : Z -> Z := λ j, if j <? 1920 then f (j + 80) else blank.
Record text := Text { chars : Z -> Z; col : Z; row : Z }.

(** A new line: the screen scrolls when the cursor is in the last row. *)
Definition t_newline (t : text) : text :=
  if row t =? 24 then Text (t_scroll (chars t)) 0 24 else Text (chars t) 0 (row t + 1).
Definition t_put (c : Z) (t : text) : text :=
  if (c =? 10) || (c =? 13) then t_newline t
  else
    let t := Text (t_write (80 * row t + col t) c (chars t)) (col t + 1) (row t) in
    if col t =? 80 then t_newline t else t.
Definition t_puts (l : list Z) (t : text) : text := fold_left (λ t c, t_put c t) l t.
(** Erasing: the cursor steps back and the character there is blanked. *)
Definition t_back (t : text) : text :=
  if (col t =? 0) && (row t =? 0) then t
  else
    let '(x, y) := if col t =? 0 then (79, row t - 1) else (col t - 1, row t) in
    Text (t_write (80 * y + x) blank (chars t)) x y.

(** The cursor is on the screen and the characters are bytes. *)
Record text_ok (t : text) : Prop := {
  ok_col : 0 <= col t < 80;
  ok_row : 0 <= row t < 25
}.

Lemma t_newline_ok t : 0 <= row t < 25 -> text_ok (t_newline t).
Proof.
  intros Hr. unfold t_newline. destruct (Z.eqb_spec (row t) 24); split; simpl; lia.
Qed.
Lemma t_put_ok c t : text_ok t -> text_ok (t_put c t).
Proof.
  intros [Hc Hr]. unfold t_put.
  destruct ((c =? 10) || (c =? 13)); [by apply t_newline_ok|]. simpl.
  destruct (Z.eqb_spec (col t + 1) 80); [by apply t_newline_ok|]. split; simpl; lia.
Qed.
Lemma t_puts_ok l t : text_ok t -> text_ok (t_puts l t).
Proof.
  revert t. induction l as [|c l IH]; intros t Ht; simpl; [done|]. by apply IH, t_put_ok.
Qed.
Lemma t_back_ok t : text_ok t -> text_ok (t_back t).
Proof.
  intros [Hc Hr]. unfold t_back.
  destruct (Z.eqb_spec (col t) 0), (Z.eqb_spec (row t) 0); simpl; split; simpl; lia.
Qed.

(** ** The screen in memory *)
Definition on_screen (v a : Z) : Prop := v <= a < v + 4000.
Definition screen_range (v : Z) : Prop := 0 <= v /\ v + 4000 <= 4294967296.
Definition cells (m : mem) (v : Z) (f : Z -> Z) : Prop :=
  forall i, 0 <= i < 2000 -> m !! (v + 2 * i) = Some (f i) /\ is_Some (m !! (v + 2 * i + 1)) /\ 0 <= f i < 256.
Definition outside (v : Z) (m m' : mem) : Prop := forall a, ~ on_screen v a -> m' !! a = m !! a.

Lemma outside_refl v m : outside v m m.
Proof. by intros a Ha. Qed.
Lemma outside_trans v m1 m2 m3 : outside v m1 m2 -> outside v m2 m3 -> outside v m1 m3.
Proof. intros H1 H2 a Ha. by rewrite H2, H1. Qed.
#[export] Hint Resolve outside_refl : core.

Lemma cells_ext m v f g : (forall i, 0 <= i < 2000 -> f i = g i) -> cells m v f -> cells m v g.
Proof. intros He H i Hi. rewrite <-He by done. by apply H. Qed.
Lemma cells_outside m m' v w f :
  outside v m m' -> (forall a, on_screen w a -> ~ on_screen v a) -> cells m w f -> cells m' w f.
Proof.
  intros Ho Hd H i Hi. rewrite !Ho by (apply Hd; unfold on_screen; lia). by apply H.
Qed.

Section screen.
Context (v : Z) (Hv : screen_range v).
Implicit Types m : mem.

(** What an operation on the screen does: new characters, the rest kept. *)
Definition shows (m : mem) (f : Z -> Z) (m' : mem) : Prop := cells m' v f /\ outside v m m'.

Lemma cell_addr i : 0 <= i < 2000 -> cell v i = v + 2 * i.
Proof using Hv. intros Hi. unfold cell. apply u32_id. unfold screen_range in Hv. lia. Qed.

Lemma wp_write_cell m f i c :
  cells m v f -> 0 <= i < 2000 ->
  wp m (write_cell v i c) (λ _, shows m (t_write i (u8 c) f)).
Proof using Hv.
  intros H Hi. unfold write_cell. rewrite cell_addr by done. destruct (H i Hi) as (H1 & H2 & _).
  assert (Ha : u32 (v + 2 * i) = v + 2 * i) by (apply u32_id; unfold screen_range in Hv; lia).
  assert (Hb : u32 (v + 2 * i + 1) = v + 2 * i + 1) by (apply u32_id; unfold screen_range in Hv; lia).
  apply wp_bind, wp_st8; rewrite Ha; [by eexists|]. apply wp_st8; rewrite Hb.
  { by rewrite lookup_insert_ne by lia. }
  split.
  - intros j Hj. unfold t_write. destruct (H j Hj) as (H3 & H4 & H5).
    rewrite lookup_insert_ne by lia. destruct (Z.eqb_spec j i) as [->|].
    + rewrite lookup_insert_eq, lookup_insert_eq. pose proof (u8_range c). eauto.
    + rewrite !lookup_insert_ne by lia. done.
  - intros a Ho. unfold on_screen in Ho. by rewrite !lookup_insert_ne by lia.
Qed.

(** A loop that writes cells from [lo] on. *)
Lemma wp_cells_loop (body : Z -> M mem unit) (g : Z -> Z -> Z) lo n m f :
  0 <= lo -> lo + Z.of_nat n <= 2000 -> cells m v f ->
  (forall i, 0 <= i < 2000 -> g lo i = f i) ->
  (forall i m', lo <= i < lo + Z.of_nat n -> cells m' v (g i) -> wp m' (body i) (λ _, shows m' (g (i + 1)))) ->
  wp m (for_loop lo n body) (λ _, shows m (g (lo + Z.of_nat n))).
Proof using Hv.
  intros H0 Hn Hc He Hb.
  apply (wp_for (λ i m', shows m (g i) m')); [|split; [|done]|done].
  - intros i m' Hi [H1 H2]. eapply wp_mono; [by apply Hb|].
    intros _ m2 [H3 H4]. split; [done|by eapply outside_trans].
  - eapply cells_ext; [|done]. intros i Hi. by rewrite He.
Qed.

Lemma wp_vga_clear m f : cells m v f -> wp m (vga_clear v) (λ _, shows m (λ _, blank)).
Proof using Hv.
  intros H. unfold vga_clear.
  eapply wp_mono; [apply (wp_cells_loop _ (λ k j, if j <? k then blank else f j) 0 2000 m f)|].
  - lia.
  - lia.
  - done.
  - intros i Hi. by destruct (Z.ltb_spec i 0); [lia|].
  - intros i m' Hi H1. eapply wp_mono; [apply wp_write_cell; [done|lia]|].
    intros _ m2 [H2 H3]. split; [|done]. eapply cells_ext; [|done]. intros j Hj. unfold t_write.
    change (u8 32) with blank.
    destruct (Z.eqb_spec j i), (Z.ltb_spec j i), (Z.ltb_spec j (i + 1)); try lia; done.
  - intros _ m' [H1 H2]. split; [|done]. eapply cells_ext; [|done]. intros j Hj.
    change (0 + Z.of_nat 2000) with 2000. cbv beta. by destruct (Z.ltb_spec j 2000); [|lia].
Qed.

Lemma wp_ld_cell m f i : cells m v f -> 0 <= i < 2000 -> wp m (ld8 (cell v i)) (λ c m', c = f i /\ m' = m).
Proof using Hv.
  intros H Hi. destruct (H i Hi) as (H1 & _). rewrite cell_addr by done. eapply wp_ld8; [|done].
  rewrite u32_id by (unfold screen_range in Hv; lia). done.
Qed.

Lemma wp_scroll_up m f : cells m v f ->
  wp m (for_loop 0 1920 (scroll_up v)) (λ _, shows m (λ j, if j <? 1920 then f (j + 80) else f j)).
Proof using Hv.
  intros H.
  eapply wp_mono; [apply (wp_cells_loop _ (λ k j, if j <? k then f (j + 80) else f j) 0 1920 m f)|].
  - lia.
  - lia.
  - done.
  - intros i Hi. by destruct (Z.ltb_spec i 0); [lia|].
  - intros i m' Hi H1. unfold scroll_up. change VGA_WIDTH with 80.
    eapply wp_seq; [apply wp_ld_cell; [done|lia]|]. intros c m1 [-> ->].
    destruct (H (i + 80) ltac:(lia)) as (_ & _ & Hb).
    eapply wp_mono; [apply wp_write_cell; [done|lia]|]. intros _ m2 [H2 H3]. split; [|done].
    eapply cells_ext; [|done]. intros j Hj. unfold t_write. cbv beta.
    destruct (Z.ltb_spec (i + 80) i); [lia|]. rewrite u8_id by lia.
    destruct (Z.eqb_spec j i), (Z.ltb_spec j (i + 1)), (Z.ltb_spec j i); try lia; by subst.
  - done.
Qed.

Lemma wp_vga_scrolling m f : cells m v f -> wp m (vga_scrolling v) (λ _, shows m (t_scroll f)).
Proof using Hv.
  intros H. unfold vga_scrolling. eapply wp_seq; [by apply wp_scroll_up|].
  intros _ m1 [H1 H2].
  eapply wp_mono; [apply (wp_cells_loop _
    (λ k j, if j <? 1920 then f (j + 80) else if j <? k then blank else f j) 1920 80 m1
    (λ j, if j <? 1920 then f (j + 80) else f j))|].
  - lia.
  - lia.
  - done.
  - intros i Hi. destruct (Z.ltb_spec i 1920); done.
  - intros i m' Hi H3. eapply wp_mono; [apply wp_write_cell; [done|lia]|].
    intros _ m2 [H4 H5]. split; [|done]. eapply cells_ext; [|done]. intros j Hj. unfold t_write.
    change (u8 32) with blank.
    destruct (Z.eqb_spec j i), (Z.ltb_spec j 1920), (Z.ltb_spec j i), (Z.ltb_spec j (i + 1));
      try lia; done.
  - intros _ m' [H3 H4]. split; [|by eapply outside_trans]. eapply cells_ext; [|done].
    intros j Hj. cbv beta. unfold t_scroll. destruct (Z.ltb_spec j 1920); [done|].
    change (1920 + Z.of_nat 80) with 2000. by destruct (Z.ltb_spec j 2000); [|lia].
Qed.

(** ** Characters *)
Lemma wp_put_at m t c :
  text_ok t -> cells m v (chars t) -> 0 <= c < 256 ->
  wp m (put_at v (col t) (row t) c)
    (λ xy m', xy = (col (t_put c t), row (t_put c t)) /\ shows m (chars (t_put c t)) m').
Proof using Hv.
  intros [Hc Hr] H Hb. unfold put_at, t_put. change NUM_ROWS with 25. change NUM_COLS with 80.
  assert (forall t, 0 <= row t < 25 -> (row t + 1 =? 25) = (row t =? 24)) as He.
  { intros t' Ht. destruct (Z.eqb_spec (row t' + 1) 25), (Z.eqb_spec (row t') 24); lia. }
  rewrite He by done.
  destruct ((c =? 10) || (c =? 13)).
  - unfold t_newline. destruct (Z.eqb_spec (row t) 24) as [Hl|].
    + eapply wp_seq; [by apply wp_vga_scrolling|]. intros [] m1 H1. apply wp_ret. simpl. by rewrite Hl.
    + apply wp_ret. done.
  - unfold vga_write. change VGA_WIDTH with 80. rewrite !u8_id by lia.
    eapply wp_seq; [apply wp_write_cell; [done|lia]|]. intros [] m1 [H1 H2]. rewrite u8_id in H1 by lia.
    cbn [col row chars]. destruct (Z.eqb_spec (col t + 1) 80) as [Hl|Hl].
    + rewrite Hl. change (Z.rem 80 80 =? 0) with true. cbv iota.
      unfold t_newline. cbn [col row chars]. destruct (Z.eqb_spec (row t) 24) as [Hl2|]; cbn [negb].
      * eapply wp_seq; [by apply wp_vga_scrolling|]. intros [] m2 [H3 H4]. apply wp_ret. simpl.
        split; [by rewrite Hl2|]. split; [done|by eapply outside_trans].
      * apply wp_ret. done.
    + rewrite Z.rem_small by lia. destruct (Z.eqb_spec (col t + 1) 0); [lia|]. apply wp_ret. done.
Qed.
End screen.
