(* ===== verification/Terminal.v ===== *)
(** * The terminals: [drivers/terminal.c] and [drivers/keyboard.c]

    The keyboard handler edits the line buffer of the terminal in the
    foreground; [terminal_read] hands its first line to a process. *)
From S2P Require Import Prelude Bytes KString Cfs Device Kernel Console.

(** ** Keys: [keyboard.h] *)
Definition KEYBOARD_SIZE : Z := 58.
Definition SCANCODES_SIZE : Z := 128.
Definition LSHIFT : Z := 42.
Definition RSHIFT : Z := 54.
Definition BACKSPACE : Z := 14.
Definition CAPSLOCK : Z := 58.
Definition SPACE : Z := 57.
Definition CTRL : Z := 29.
Definition LALT : Z := 56.
Definition TAB : Z := 15.
Definition TAB_SPACE : Z := 4.
Definition F1 : Z := 30.
Definition F2 : Z := 31.
Definition F3 : Z := 32.
Definition KEY_L : Z := 38.

(** Two characters a row: without and with the shift. *)
Definition scancodes : list (list Z) :=
  [ [0; 0]; [27; 0]; lit "1!"; lit "2@"; lit "3#"; lit "4$"; lit "5%"; lit "6^"; lit "7&"; lit "8*";
    lit "9("; lit "0)"; lit "-_"; lit "=+"; [8; 8];
    [0; 0]; lit "qQ"; lit "wW"; lit "eE"; lit "rR"; lit "tT"; lit "yY"; lit "uU"; lit "iI"; lit "oO";
    lit "pP"; lit "[{"; lit "]}";
    [13; 13]; [0; 0]; lit "aA"; lit "sS"; lit "dD"; lit "fF"; lit "gG"; lit "hH"; lit "jJ"; lit "kK";
    lit "lL"; lit ";:"; [39; 34];
    lit "`~"; [0; 0]; [92; 124]; lit "zZ"; lit "xX"; lit "cC"; lit "vV"; lit "bB"; lit "nN"; lit "mM";
    lit ",<"; lit ".>"; lit "/?";
    [0; 0]; [0; 0]; [0; 0]; lit "  " ].

Definition isletter (scancode : Z) : Z :=
  Z.b2z (((16 <=? scancode) && (scancode <=? 25)) || ((30 <=? scancode) && (scancode <=? 38)) ||
         ((44 <=? scancode) && (scancode <=? 50))).

(** An array access: an index outside the array faults. *)
Definition at_index {S A} (l : list A) (i : Z) : M S A :=
  gets_opt (λ _, if i <? 0 then None else l !! Z.to_nat i).
Definition set_index {S A} (l : list A) (i : Z) (a : A) : M S (list A) :=
  gets_opt (λ _, if (i <? 0) || (Z.of_nat (length l) <=? i) then None
                 else Some (<[Z.to_nat i := a]> l)).

(** ** Storing and erasing *)
Definition in_ (scancode caps terminal : Z) : KM unit :=
  if KEYBOARD_SIZE <=? scancode then mret () else
  row ← at_index scancodes scancode;
  character ← at_index row caps;
  let character := if character =? 13 then 10 else character in
  when (negb (character =? 0))
    (_putc character terminal ;;
     t ← get_terminal terminal;
     let hd := if tsize t =? TERBUF_SIZE then Z.rem (bufhd t + 1) TERBUF_SIZE else bufhd t in
     b ← set_index (buffer t) (buftl t) character;
     let tl := Z.rem (buftl t + 1) TERBUF_SIZE in
     let n := if negb (tsize t =? TERBUF_SIZE) then u8 (tsize t + 1) else tsize t in
     upd_terminal terminal (set_line hd tl n b)).

(** [i < n - NUM_COLS % n] compares unsigned numbers. *)
Definition out_tab (n terminal : Z) : KM unit :=
  if n =? 0 then raise Undef else
  for_loop 0 (Z.to_nat (u32 (n - NUM_COLS mod n))) (λ _, in_ SPACE 0 terminal).

Definition backspace (terminal : Z) : KM unit :=
  t ← get_terminal terminal;
  if tsize t =? 0 then mret ()
  else
    back terminal ;;
    t ← get_terminal terminal;
    let tl := if buftl t =? 0 then TERBUF_SIZE - 1 else u8 (buftl t - 1) in
    upd_terminal terminal (set_line (bufhd t) tl (u8 (tsize t - 1)) (buffer t)).

(** [bufcpy]: the bytes it copies, from the ring [src] at the index [i] on. *)
Fixpoint bufcpy {S} (src : list Z) (nbytes : nat) (i : Z) : M S (list Z) :=
  match nbytes with
  | O => mret []
  | Datatypes.S nbytes =>
      b ← at_index src i;
      l ← bufcpy src nbytes (Z.rem (i + 1) TERBUF_SIZE);
      mret (b :: l)
  end.
(** The same bytes stored at [dest]. *)
Fixpoint store (dest : Z) (l : list Z) : M mem unit :=
  match l with [] => mret () | b :: l => st8 dest b ;; store (dest + 1) l end.

(** [out] of an array of the function's own, and of memory. *)
Fixpoint out_list (l : list Z) : KM unit :=
  match l with [] => mret () | c :: l => putc (i8 c) ;; out_list l end.
Definition out (buf nbytes : Z) : KM unit :=
  for_loop 0 (Z.to_nat nbytes) (λ i, c ← on_mem (ldc (buf + i)); putc c).

(** ** Consoles *)
Definition console_task_of (i : nat) : KM Z :=
  c ← gets current;
  if decide (i = c) then current_task
  else gets_opt (λ k, option_map task (consoles k !! i)).
Definition console_terminal (i : nat) : KM Z :=
  t ← console_task_of i; p ← get_proc t; mret (terminal p).

(** [current = consoles[i]]: the task of the old console goes back to its
    structure, that of the new one to the scheduler. *)
Definition set_current (i : nat) : KM unit :=
  old ← current_task;
  new ← console_task_of i;
  modify (λ k, with_consoles (alter (λ c, Console (fkey c) old) (current k) (consoles k)) i k) ;;
  on_sched (modify (with_console_task (Some new))).

(** [PTE_PRESENT | PTE_RW | PTE_US | ADDR_TO_PTE(a)] at entry [184 + i]; the
    flush of the translation buffer has no effect on the state. *)
Definition set_vidmap (i : nat) (a : Z) : KM unit :=
  modify (λ k, with_vidmap (<[184 + Z.of_nat i := Z.lor 7 (Z.land (u32 a) 4294963200)]> (vidmap_table k)) k).
Definition switch_vidmap (src dest : nat) : KM unit :=
  console_task_of dest ;;
  t ← console_terminal src;
  s ← get_terminal t;
  set_vidmap src (saved_vidmem s) ;;
  set_vidmap dest video_mem.

Definition terminal_switch (scancode terminal : Z) (idx : nat) : KM unit :=
  c ← gets_opt (λ k, consoles k !! current k);
  if scancode =? fkey c then mret () else
  next ← console_task_of idx;
  p ← get_proc next;
  let next_terminal := Kernel.terminal p in
  t ← get_terminal terminal;
  on_mem (KString.memcpy (saved_vidmem t) video_mem VIDMEM_SIZE) ;;
  upd_terminal terminal (set_vidmem (saved_vidmem t)) ;;
  upd_terminal terminal (set_alt 0) ;;
  nt ← get_terminal next_terminal;
  on_mem (KString.memcpy video_mem (saved_vidmem nt) VIDMEM_SIZE) ;;
  th ← on_sched (get_thread next);
  when (match state th with UNUSED => true | _ => false end)
    (on_sched (upd_thread next (set_state RUNNABLE) ;; sched_fork next ;; activate_task next) ;;
     on_mem (vga_clear video_mem)) ;;
  th ← on_sched (get_thread next);
  when (match state th with SLEEPING => true | _ => false end)
    (on_sched (upd_thread next (set_state RUNNABLE) ;; enqueue_task next true)) ;;
  upd_terminal next_terminal (set_vidmem video_mem) ;;
  nt ← get_terminal next_terminal;
  on_dev (vga_update_cursor (screen_x nt) (screen_y nt)) ;;
  cur ← gets current;
  switch_vidmap cur idx ;;
  set_current idx.

(** ** Key strokes *)

(** A character key: [caps] as the shift and the caps lock select it. *)
Definition key_char (scancode terminal : Z) : KM unit :=
  t ← get_terminal terminal;
  let l := Z.land (capslock t) (isletter scancode) in
  if negb (shift t =? 0) then in_ scancode (u8 (1 - l)) terminal
  else in_ scancode (u8 l) terminal.

(** The cases [F1], [F2] and [F3]. *)
Definition key_fn (scancode terminal : Z) (idx : nat) : KM unit :=
  t ← get_terminal terminal;
  if negb (alt t =? 0) then terminal_switch scancode terminal idx
  else key_char scancode terminal.

(** The clear-screen key: the prompt and the line buffer are shown again. *)
Definition key_l (scancode terminal : Z) : KM unit :=
  t ← get_terminal terminal;
  if negb (ctrl t =? 0) then
    clear ;;
    out_list (lit "391OS> ") ;;
    t ← get_terminal terminal;
    buf ← bufcpy (buffer t) (Z.to_nat (tsize t)) (bufhd t);
    out_list buf
  else key_char scancode terminal.

(** The case [LALT] falls through to [BACKSPACE], and [TAB] to [F1]. *)
Definition key_press (scancode terminal : Z) : KM unit :=
  if scancode =? CAPSLOCK then
    upd_terminal terminal (λ t, set_capslock (if capslock t =? 0 then 1 else 0) t)
  else if (scancode =? LSHIFT) || (scancode =? RSHIFT) then upd_terminal terminal (set_shift 1)
  else if scancode =? LALT then upd_terminal terminal (set_alt 1) ;; backspace terminal
  else if scancode =? BACKSPACE then backspace terminal
  else if scancode =? CTRL then upd_terminal terminal (set_ctrl 1)
  else if scancode =? TAB then out_tab TAB_SPACE terminal ;; key_fn scancode terminal 0
  else if scancode =? F1 then key_fn scancode terminal 0
  else if scancode =? F2 then key_fn scancode terminal 1
  else if scancode =? F3 then key_fn scancode terminal 2
  else if scancode =? KEY_L then key_l scancode terminal
  else key_char scancode terminal.

Definition key_release (scancode terminal : Z) : KM unit :=
  if (scancode =? LSHIFT) || (scancode =? RSHIFT) then upd_terminal terminal (set_shift 0)
  else if scancode =? CTRL then upd_terminal terminal (set_ctrl 0)
  else if scancode =? LALT then upd_terminal terminal (set_alt 0)
  else mret ().

Definition keyboard_init : KM unit := on_dev (enable_irq 1).

(** The interrupt handler: one byte from port 0x60. *)
Definition do_keyboard : KM unit :=
  cli ;;
  scancode ← on_dev (inb 96);
  on_dev (send_eoi 1) ;;
  terminal ← current_terminal;
  (if scancode <? SCANCODES_SIZE then key_press scancode terminal
   else key_release (scancode - SCANCODES_SIZE) terminal) ;;
  sti.

(** ** The file operations *)

(** [p] is the answer of [kmalloc], [t] what lies there: the cursor and the
    bytes of the buffer are not initialised. *)
Definition terminal_create (p : Z) (t : terminal_t) : KM Z :=
  if p =? NULL then raise Undef else
  modify (λ k, with_terminals (<[p := Terminal_t 0 0 0 0 0 0 0 (buffer t) 0
    (screen_x t) (screen_y t) (vidmem t) (saved_vidmem t)]> (terminals k)) k) ;;
  mret p.
Definition terminal_free (p : Z) : KM unit :=
  if p =? NULL then mret ()
  else get_terminal p ;; modify (λ k, with_terminals (delete p (terminals k)) k).

Definition terminal_open (fname : Z) : KM Z := mret 0.
Definition terminal_close (fd : Z) : KM Z := mret (-1).

(** The search for the end of the line: [Some n] when the [n]-th byte is it. *)
Definition scan_body {S} (t : terminal_t) (x : Z * Z) : M S ((Z * Z) + (Z * bool)) :=
  let '(nread, start) := x in
  if nread <? tsize t then
    c ← at_index (buffer t) start;
    mret (if (c =? 10) || (c =? 13) then inr (nread + 1, true)
          else inl (nread + 1, Z.rem (start + 1) TERBUF_SIZE))
  else mret (inr (nread, false)).
Definition scan_line {S} (t : terminal_t) : M S (Z * bool) := iter 257 (scan_body t) (0, bufhd t).

(** [n] keyboard interrupts. *)
Fixpoint keyboard_irqs (n : nat) : KM unit :=
  match n with O => mret () | S n => do_keyboard ;; keyboard_irqs n end.

(** [while (!terminal->exit)]: [irqs] are the numbers of keyboard interrupts
    between one search and the next; when there are no more the process waits
    for ever. *)
Fixpoint wait_line (terminal : Z) (irqs : list nat) : KM Z :=
  flags ← cli_and_save;
  t ← get_terminal terminal;
  r ← scan_line t;
  when r.2 (upd_terminal terminal (set_exit 1)) ;;
  restore_flags flags ;;
  t ← get_terminal terminal;
  if negb (exit t =? 0) then mret r.1
  else
    match irqs with
    | [] => raise NoFuel
    | n :: irqs => keyboard_irqs n ;; wait_line terminal irqs
    end.

Definition terminal_read (fd buf nbytes : Z) (irqs : list nat) : KM Z :=
  curr ← current_task;
  p ← get_proc curr;
  let terminal := Kernel.terminal p in
  if terminal =? NULL then mret (-1)
  else if negb (fd =? stdin) then mret (-1)
  else if nbytes <? 0 then mret (-1)
  else if nbytes =? 0 then mret 0
  else
    let nbytes := if TERBUF_SIZE <? nbytes then TERBUF_SIZE else nbytes in
    upd_terminal terminal (set_exit 0) ;;
    nread ← wait_line terminal irqs;
    let nread := if nbytes <? nread then nbytes else nread in
    t ← get_terminal terminal;
    l ← bufcpy (buffer t) (Z.to_nat nread) (bufhd t);
    on_mem (store buf l) ;;
    upd_terminal terminal (λ t, set_line (u8 (Z.rem (bufhd t + nread) TERBUF_SIZE)) (buftl t)
      (u8 (tsize t - nread)) (buffer t) t) ;;
    mret nread.

Definition terminal_write (fd buf nbytes : Z) : KM Z :=
  if buf =? NULL then mret (-1)
  else if negb (fd =? stdout) then mret (-1)
  else
    flags ← cli_and_save;
    out buf nbytes ;;
    restore_flags flags ;;
    mret nbytes.
