(* ===== verification/TerminalProps.v ===== *)
(** * The line editor of a terminal

    An abstract terminal [aterm] (modifier keys, the line typed so far, the
    screen) and the relation [represents] between it and the kernel state;
    every operation of [Terminal] keeps the relation. *)
From S2P Require Import Prelude Bytes Cfs Device DeviceContract Kernel Console ConsoleProps Terminal.

(** ** The line buffer

    A ring of 128 bytes: [hd] is where the line [q] starts, [tl] where the
    next character goes. *)
Record line_ok (hd tl n : Z) (b q : list Z) : Prop := {
  lo_length : length b = 128%nat;
  lo_hd : 0 <= hd < 128;
  lo_n : n = Z.of_nat (length q);
  lo_max : n <= 128;
  lo_tl : tl = (hd + n) mod 128;
  lo_data : forall i c, q !! i = Some c -> b !! Z.to_nat ((hd + Z.of_nat i) mod 128) = Some c;
  lo_bytes : Forall (λ c, 0 <= c < 256) q
}.

(** A full line loses its oldest character to a new one. *)
Definition l_push (c : Z) (q : list Z) : list Z :=
  (if decide (length q = 128%nat) then tail q else q) ++ [c].
Definition l_pop (q : list Z) : list Z := take (length q - 1) q.

Lemma ring_index_inj hd i j :
  0 <= i < 128 -> 0 <= j < 128 -> (hd + i) mod 128 = (hd + j) mod 128 -> i = j.
Proof. lia_mod. Qed.

Lemma line_append hd (b q : list Z) c :
  length b = 128%nat -> 0 <= hd < 128 -> (length q < 128)%nat ->
  (forall i c, q !! i = Some c -> b !! Z.to_nat ((hd + Z.of_nat i) mod 128) = Some c) ->
  forall i x, (q ++ [c]) !! i = Some x ->
  <[Z.to_nat ((hd + Z.of_nat (length q)) mod 128) := c]> b !! Z.to_nat ((hd + Z.of_nat i) mod 128) = Some x.
Proof.
  intros Hb Hhd Hq Hd i x Hi.
  assert (forall k, Z.to_nat ((hd + Z.of_nat k) mod 128) < length b)%nat as Hin.
  { intros k. rewrite Hb. lia_mod. }
  apply lookup_app_Some in Hi as [Hi|[Hle Hi]].
  - pose proof (lookup_lt_Some _ _ _ Hi). rewrite list_lookup_insert_ne; [by apply Hd|].
    intros He. apply Z2Nat.inj in He; [|lia_mod|lia_mod]. apply ring_index_inj in He; lia.
  - apply list_lookup_singleton_Some in Hi as [H0 ->].
    replace i with (length q) by lia. apply list_lookup_insert_eq. apply Hin.
Qed.

Lemma line_push hd tl n b q c :
  line_ok hd tl n b q -> 0 <= c < 256 ->
  line_ok (if n =? 128 then (hd + 1) mod 128 else hd) ((tl + 1) mod 128)
    (if negb (n =? 128) then u8 (n + 1) else n) (<[Z.to_nat tl := c]> b) (l_push c q).
Proof.
  intros [Hb Hhd Hn Hm Htl Hd Hby] Hc. unfold l_push.
  destruct (Z.eqb_spec n 128) as [He|He]; cbn [negb].
  - rewrite decide_True by lia. destruct q as [|q0 q]; [simpl in *; lia|]. cbn [tail length] in *.
    assert (Hl : Z.of_nat (length q) = 127) by lia.
    assert (Hi : tl = ((hd + 1) mod 128 + Z.of_nat (length q)) mod 128) by (rewrite Htl, Hl; lia_mod).
    constructor.
    + by rewrite length_insert.
    + lia_mod.
    + rewrite length_app. simpl. lia.
    + lia.
    + rewrite Hi. lia_mod.
    + rewrite Hi. apply line_append; [done|lia_mod|lia|]. intros i x Hx.
      specialize (Hd (S i) x Hx). rewrite <-Hd. do 2 f_equal. lia_mod.
    + apply Forall_app. split; [by inversion Hby|]. by constructor.
  - rewrite decide_False by lia. rewrite u8_id by lia. constructor.
    + by rewrite length_insert.
    + done.
    + rewrite length_app. simpl. lia.
    + lia.
    + rewrite Htl. lia_mod.
    + rewrite Htl, Hn. apply line_append; [done|done|lia|done].
    + apply Forall_app. split; [done|]. by constructor.
Qed.

Lemma line_pop hd tl n b q :
  line_ok hd tl n b q -> 0 < n ->
  line_ok hd (if tl =? 0 then 127 else u8 (tl - 1)) (u8 (n - 1)) b (l_pop q).
Proof.
  intros [Hb Hhd Hn Hm Htl Hd Hby] Hpos. unfold l_pop.
  assert (0 <= tl < 128) by (rewrite Htl; lia_mod).
  rewrite (u8_id (n - 1)) by lia. constructor.
  - done.
  - done.
  - rewrite length_take. lia.
  - lia.
  - destruct (Z.eqb_spec tl 0); [lia_mod|]. rewrite u8_id by lia. lia_mod.
  - intros i c Hi. apply lookup_take_Some in Hi as [Hi _]. by apply Hd.
  - by apply Forall_take.
Qed.

(** Taking the first [k] characters out. *)
Lemma line_drop hd tl n b q k :
  line_ok hd tl n b q -> 0 <= k <= n ->
  line_ok ((hd + k) mod 128) tl (n - k) b (drop (Z.to_nat k) q).
Proof.
  intros [Hb Hhd Hn Hm Htl Hd Hby] Hk. constructor.
  - done.
  - lia_mod.
  - rewrite length_drop. lia.
  - lia.
  - rewrite Htl. lia_mod.
  - intros i c Hi. rewrite lookup_drop in Hi. apply Hd in Hi. rewrite <-Hi. do 2 f_equal. lia_mod.
  - by apply Forall_drop.
Qed.

Lemma at_index_run {S A} (s : S) (l : list A) i a :
  0 <= i -> l !! Z.to_nat i = Some a -> at_index l i s = Ok (a, s).
Proof.
  intros H0 Hi. unfold at_index, gets_opt. destruct (Z.ltb_spec i 0); [lia|]. by rewrite Hi.
Qed.

(** Reading the ring gives the line. *)
Lemma bufcpy_run {S} (s : S) hd tl n b q k i :
  line_ok hd tl n b q -> (i + k <= length q)%nat ->
  bufcpy b k ((hd + Z.of_nat i) mod 128) s = Ok (take k (drop i q), s).
Proof.
  intros Hl. revert i. induction k as [|k IH]; intros i Hk; [done|]. cbn [bufcpy].
  destruct (lookup_lt_is_Some_2 q i ltac:(lia)) as [c Hc].
  rewrite (drop_S q c i Hc). cbn [take].
  erewrite bind_ok; [|apply at_index_run; [lia_mod|by eapply lo_data]].
  change TERBUF_SIZE with 128. rewrite Z.rem_mod_nonneg by lia_mod.
  replace (((hd + Z.of_nat i) mod 128 + 1) mod 128) with ((hd + Z.of_nat (Datatypes.S i)) mod 128) by lia_mod.
  erewrite bind_ok; [|apply IH; lia]. done.
Qed.

(** ** The search for the end of the line *)
Definition is_nl (c : Z) : bool := (c =? 10) || (c =? 13).
Fixpoint line_end (q : list Z) : option nat :=
  match q with
  | [] => None
  | c :: q => if is_nl c then Some 1%nat else option_map S (line_end q)
  end.

Lemma line_end_le q j : line_end q = Some j -> (0 < j <= length q)%nat.
Proof.
  revert j. induction q as [|c q IH]; intros j; simpl; [done|].
  destruct (is_nl c); [intros [= <-]; lia|].
  destruct (line_end q) as [j'|]; simpl; [|done]. intros [= <-]. specialize (IH _ eq_refl). lia.
Qed.

Lemma scan_run {S} (s : S) t q i fuel :
  line_ok (bufhd t) (buftl t) (tsize t) (buffer t) q ->
  (i <= length q)%nat -> (length q - i < fuel)%nat ->
  iter fuel (scan_body t) (Z.of_nat i, (bufhd t + Z.of_nat i) mod 128) s =
    Ok (match line_end (drop i q) with
        | Some j => (Z.of_nat (i + j), true)
        | None => (Z.of_nat (length q), false)
        end, s).
Proof.
  intros Hl. revert i. induction fuel as [|fuel IH]; intros i Hi Hf; [lia|].
  pose proof (lo_n _ _ _ _ _ Hl) as Hn. cbn [iter].
  destruct (Z.ltb_spec (Z.of_nat i) (tsize t)) as [Hlt|Hlt]; apply Z.ltb_lt in Hlt as Hlt' || apply Z.ltb_ge in Hlt as Hlt'.
  - destruct (lookup_lt_is_Some_2 q i ltac:(lia)) as [c Hc].
    rewrite (drop_S q c i Hc). cbn [line_end]. unfold is_nl.
    erewrite bind_ok.
    2: { unfold scan_body. rewrite Hlt'. erewrite bind_ok; [|apply at_index_run; [lia_mod|by eapply lo_data]]. done. }
    destruct ((c =? 10) || (c =? 13)); cbv iota.
    { unfold mret, M_ret. do 3 f_equal. lia. }
    change TERBUF_SIZE with 128. rewrite Z.rem_mod_nonneg by lia_mod.
    replace (((bufhd t + Z.of_nat i) mod 128 + 1) mod 128)
      with ((bufhd t + Z.of_nat (Datatypes.S i)) mod 128) by lia_mod.
    replace (Z.of_nat i + 1) with (Z.of_nat (Datatypes.S i)) by lia. rewrite IH by lia.
    destruct (line_end (drop (Datatypes.S i) q)); simpl; do 3 f_equal; lia.
  - rewrite drop_ge by lia. cbn [line_end]. erewrite bind_ok; [|unfold scan_body; by rewrite Hlt'].
    unfold mret, M_ret. do 3 f_equal. lia.
Qed.
Lemma scan_line_run {S} (s : S) t q :
  line_ok (bufhd t) (buftl t) (tsize t) (buffer t) q ->
  scan_line t s = Ok (match line_end q with
                      | Some j => (Z.of_nat j, true)
                      | None => (Z.of_nat (length q), false)
                      end, s).
Proof.
  intros Hl. pose proof (lo_n _ _ _ _ _ Hl). pose proof (lo_max _ _ _ _ _ Hl). pose proof (lo_hd _ _ _ _ _ Hl).
  unfold scan_line. change 0 with (Z.of_nat 0) at 1.
  replace (bufhd t) with ((bufhd t + Z.of_nat 0) mod 128) at 1 by lia_mod.
  rewrite (scan_run s t q 0) by (done || lia). by rewrite drop_0.
Qed.
