(* ===== verification/TerminalKeys.v ===== *)
(** * The keyboard handler implements the line editor *)
From S2P Require Import Prelude Bytes Cfs Device DeviceContract Kernel Console ConsoleProps Terminal TerminalProps.

(** ** The abstract terminal *)
Record aterm := ATerm {
  a_caps : Z;
  a_shift : Z;
  a_ctrl : Z;
  a_alt : Z;
  a_line : list Z;
  a_text : text
}.

(** A character goes to the line and to the screen; erasing takes the last
    character of the line, if any, off both. *)
Definition a_type (c : Z) (a : aterm) : aterm :=
  ATerm (a_caps a) (a_shift a) (a_ctrl a) (a_alt a) (l_push c (a_line a)) (t_put c (a_text a)).
Definition a_erase (a : aterm) : aterm :=
  match a_line a with
  | [] => a
  | _ => ATerm (a_caps a) (a_shift a) (a_ctrl a) (a_alt a) (l_pop (a_line a)) (t_back (a_text a))
  end.

(** The character of a key, 0 when it has none; Enter is a newline. *)
Definition key_code (sc caps : Z) : Z :=
  let c := default 0 (scancodes !! Z.to_nat sc ≫= λ row, row !! Z.to_nat caps) in
  if c =? 13 then 10 else c.
Definition a_in (sc caps : Z) (a : aterm) : aterm :=
  if (KEYBOARD_SIZE <=? sc) || (key_code sc caps =? 0) then a else a_type (key_code sc caps) a.
(** Shift reverses caps lock on letters and selects the upper row elsewhere. *)
Definition a_upper (sc : Z) (a : aterm) : Z :=
  let l := if negb (a_caps a =? 0) && (isletter sc =? 1) then 1 else 0 in
  if negb (a_shift a =? 0) then 1 - l else l.
Definition a_char (sc : Z) (a : aterm) : aterm := a_in sc (a_upper sc a) a.

Definition a_press (sc : Z) (a : aterm) : aterm :=
  if sc =? CAPSLOCK then
    ATerm (if a_caps a =? 0 then 1 else 0) (a_shift a) (a_ctrl a) (a_alt a) (a_line a) (a_text a)
  else if (sc =? LSHIFT) || (sc =? RSHIFT) then
    ATerm (a_caps a) 1 (a_ctrl a) (a_alt a) (a_line a) (a_text a)
  else if sc =? LALT then
    a_erase (ATerm (a_caps a) (a_shift a) (a_ctrl a) 1 (a_line a) (a_text a))
  else if sc =? BACKSPACE then a_erase a
  else if sc =? CTRL then ATerm (a_caps a) (a_shift a) 1 (a_alt a) (a_line a) (a_text a)
  else if sc =? TAB then Nat.iter 4 (a_type 32) a
  else a_char sc a.
Definition a_release (sc : Z) (a : aterm) : aterm :=
  if (sc =? LSHIFT) || (sc =? RSHIFT) then
    ATerm (a_caps a) 0 (a_ctrl a) (a_alt a) (a_line a) (a_text a)
  else if sc =? CTRL then ATerm (a_caps a) (a_shift a) 0 (a_alt a) (a_line a) (a_text a)
  else if sc =? LALT then ATerm (a_caps a) (a_shift a) (a_ctrl a) 0 (a_line a) (a_text a)
  else a.
(** What the handler does with a byte of the keyboard. *)
Definition a_key (sc : Z) (a : aterm) : aterm :=
  if sc <? 128 then a_press sc a else a_release (sc - 128) a.

(** The byte neither switches consoles nor redraws the screen. *)
Definition plain (sc : Z) (a : aterm) : bool :=
  negb ((sc =? TAB) || (sc =? F1) || (sc =? F2) || (sc =? F3)) || (a_alt a =? 0).
Definition no_redraw (sc : Z) (a : aterm) : bool := negb (sc =? KEY_L) || (a_ctrl a =? 0).

(** ** The terminal in the kernel *)

(** The terminal of the console in the foreground. *)
Record foreground (tm : Z) (k : kst) : Prop := {
  fg_boot : terminal_boot k <> 0;
  fg_null : tm <> NULL;
  fg_task : exists ct p, console_task (sched k) = Some ct /\ ct <> NULL /\
              procs k !! ct = Some p /\ terminal p = tm
}.
Record term_is (t : terminal_t) (a : aterm) : Prop := {
  ti_caps : capslock t = a_caps a /\ (a_caps a = 0 \/ a_caps a = 1);
  ti_shift : shift t = a_shift a;
  ti_ctrl : ctrl t = a_ctrl a;
  ti_alt : alt t = a_alt a;
  ti_line : line_ok (bufhd t) (buftl t) (tsize t) (buffer t) (a_line a);
  ti_x : screen_x t = col (a_text a);
  ti_y : screen_y t = row (a_text a);
  ti_text : text_ok (a_text a)
}.
Record represents (tm v : Z) (k : kst) (a : aterm) : Prop := {
  rp_fg : foreground tm k;
  rp_screen : screen_range v;
  rp_cells : cells (memory k) v (chars (a_text a));
  rp_term : exists t, terminals k !! tm = Some t /\ vidmem t = v /\ term_is t a
}.

(** What an operation leaves alone, after [n] reads of ports. *)
Record keeps (n : nat) (tm v : Z) (k k' : kst) : Prop := {
  kp_mem : outside v (memory k) (memory k');
  kp_input : input (device k') = input (device k);
  kp_reads : reads (device k') = (n + reads (device k))%nat;
  kp_sched : with_if true (sched k') = with_if true (sched k);
  kp_procs : procs k' = procs k;
  kp_tables : tables k' = tables k;
  kp_consoles : consoles k' = consoles k;
  kp_current : current k' = current k;
  kp_boot : terminal_boot k' = terminal_boot k;
  kp_fs : fs k' = fs k;
  kp_exit : option_map exit (terminals k' !! tm) = option_map exit (terminals k !! tm);
  kp_terminals : forall t, t <> tm -> terminals k' !! t = terminals k !! t
}.

Lemma keeps_refl tm v k : keeps 0 tm v k k.
Proof. by constructor. Qed.
Lemma keeps_trans n n' tm v k1 k2 k3 :
  keeps n tm v k1 k2 -> keeps n' tm v k2 k3 -> keeps (n' + n) tm v k1 k3.
Proof.
  intros [] []. constructor; try congruence.
  - by eapply outside_trans.
  - rewrite kp_reads1, kp_reads0. lia.
  - intros t Ht. by rewrite kp_terminals1, kp_terminals0.
Qed.
#[export] Hint Resolve keeps_refl : core.

(** The state with a new memory, device and terminal. *)
Definition place (tm : Z) (m : mem) (d : dev) (t : terminal_t) (k : kst) : kst :=
  with_terminals (<[tm := t]> (terminals k)) (with_device d (with_memory m k)).

Section editor.
Context (tm v : Z).
Implicit Types (k : kst) (a : aterm).

Lemma place_ok k a t m d t' a' :
  represents tm v k a -> terminals k !! tm = Some t -> vidmem t' = v -> exit t' = exit t -> term_is t' a' ->
  outside v (memory k) m -> cells m v (chars (a_text a')) ->
  input d = input (device k) -> reads d = reads (device k) ->
  represents tm v (place tm m d t' k) a' /\ keeps 0 tm v k (place tm m d t' k).
Proof.
  intros [[Hb Hn Hf] Hs Hc Ht] Hk Hv He Hi Ho Hc' Hin Hr. split.
  - constructor; [by constructor|done|done|]. exists t'. split; [|done]. apply lookup_insert_eq.
  - constructor; try done; unfold place, with_terminals; cbn.
    + rewrite lookup_insert_eq, Hk. simpl. by f_equal.
    + intros t2 Ht2. by rewrite lookup_insert_ne.
Qed.

Lemma get_terminal_run k a :
  represents tm v k a ->
  exists t, terminals k !! tm = Some t /\ vidmem t = v /\ term_is t a /\ get_terminal tm k = Ok (t, k).
Proof.
  intros [[Hb Hn Hf] Hs Hc (t & Ht & Hv & Hi)]. exists t. do 3 (split; [done|]).
  unfold get_terminal, gets_opt. destruct (Z.eqb_spec tm NULL); [done|]. by rewrite Ht.
Qed.

Lemma upd_terminal_run k t f :
  tm <> NULL -> terminals k !! tm = Some t ->
  upd_terminal tm f k = Ok (tt, with_terminals (<[tm := f t]> (terminals k)) k).
Proof.
  intros Hn Ht. unfold upd_terminal. erewrite bind_ok; [done|].
  unfold get_terminal, gets_opt. destruct (Z.eqb_spec tm NULL); [done|]. by rewrite Ht.
Qed.

Lemma current_terminal_run k : foreground tm k -> current_terminal k = Ok (tm, k).
Proof.
  intros [Hb Hn (ct & p & H1 & H2 & H3 & H4)]. unfold current_terminal, current_task, on_sched.
  erewrite bind_ok; [|unfold zoom, gets_opt; by rewrite H1].
  erewrite bind_ok; [|unfold get_proc, gets_opt; destruct (Z.eqb_spec ct NULL); [done|];
    cbn [procs with_sched]; by rewrite H3].
  rewrite H4. by destruct k.
Qed.

Definition cursor_writes (x y : Z) : list (Z * Z) :=
  let pos := u16 (y * 80 + x) in
  [(980, 15); (981, u8 (u8 (Z.land pos 255))); (980, 14); (981, u8 (u8 (Z.land (Z.shiftr pos 8) 255)))].
Lemma cursor_run x y d :
  vga_update_cursor x y d = Ok (tt, with_outs (outs d ++ cursor_writes x y) d).
Proof.
  destruct d. unfold vga_update_cursor, outb, mbind, M_bind, modify, with_outs, cursor_writes.
  change VGA_WIDTH with 80. cbn -[u8 u16 Z.land Z.shiftr]. rewrite <-!app_assoc. reflexivity.
Qed.
Lemma show_cursor_run k x y :
  (when (tm =? tm) (on_dev (vga_update_cursor x y))) k =
    Ok (tt, with_device (with_outs (outs (device k) ++ cursor_writes x y) (device k)) k).
Proof. rewrite Z.eqb_refl. unfold when, on_dev, zoom. by rewrite cursor_run. Qed.

Lemma on_mem_wp {A} k (m : M mem A) (Q : A -> mem -> Prop) :
  wp (memory k) m Q -> exists r m', on_mem m k = Ok (r, with_memory m' k) /\ Q r m'.
Proof. intros (r & m' & H & HQ)%wp_iff. exists r, m'. unfold on_mem, zoom. by rewrite H. Qed.

(** ** Characters on the screen *)
Definition set_text (t : text) (a : aterm) : aterm :=
  ATerm (a_caps a) (a_shift a) (a_ctrl a) (a_alt a) (a_line a) t.

Lemma putc_run k a c :
  represents tm v k a -> 0 <= c < 256 ->
  exists k', _putc c tm k = Ok (tt, k') /\
    represents tm v k' (set_text (t_put c (a_text a)) a) /\ keeps 0 tm v k k'.
Proof.
  intros Hr Hc. destruct (get_terminal_run k a Hr) as (t & Ht & Hv & Hi & Hg).
  pose proof (t_put_ok c _ (ti_text _ _ Hi)) as [Hx Hy].
  assert (wp (memory k) (put_at (vidmem t) (screen_x t) (screen_y t) c) (λ xy m',
    xy = (col (t_put c (a_text a)), row (t_put c (a_text a))) /\ shows v (memory k) (chars (t_put c (a_text a))) m')) as Hwp.
  { rewrite (ti_x _ _ Hi), (ti_y _ _ Hi), Hv.
    apply wp_put_at; [apply (rp_screen _ _ _ _ Hr)|apply (ti_text _ _ Hi)|apply Hr|done]. }
  apply on_mem_wp in Hwp as (xy & m & Hm & -> & Hcl & Ho).
  set (a' := set_text (t_put c (a_text a)) a).
  set (t' := set_cursor (col (a_text a')) (row (a_text a')) t).
  assert (Hi' : term_is t' a') by (destruct Hi; constructor; try done; by apply t_put_ok).
  eexists. split.
  - unfold _putc. erewrite bind_ok; [|done].
    destruct (Z.eqb_spec (terminal_boot k) 0) as [H0|_]; [by destruct (fg_boot _ _ (rp_fg _ _ _ _ Hr))|].
    erewrite bind_ok; [|exact Hg]. erewrite bind_ok; [|exact Hm].
    cbn [fst snd]. rewrite !u8_id by lia.
    erewrite bind_ok; [|apply (upd_terminal_run _ t); [apply (rp_fg _ _ _ _ Hr)|done]].
    erewrite bind_ok; [|apply current_terminal_run; by destruct (rp_fg _ _ _ _ Hr)].
    apply show_cursor_run.
  - apply (place_ok k a t m (with_outs _ (device k)) t' a'); try done.
Qed.

(** ** Storing and erasing *)
Lemma scancodes_ok sc caps :
  0 <= sc < 58 -> 0 <= caps < 2 ->
  exists row c, scancodes !! Z.to_nat sc = Some row /\ row !! Z.to_nat caps = Some c /\ 0 <= c < 256 /\
    key_code sc caps = if c =? 13 then 10 else c.
Proof.
  intros Hs Hc. unfold key_code.
  apply (forall_seqZ (λ sc, forallb (λ caps,
    match scancodes !! Z.to_nat sc ≫= λ row, row !! Z.to_nat caps with
    | Some c => (0 <=? c) && (c <? 256) | None => false end) [0; 1]) 58) in Hs; [|by vm_compute].
  rewrite forallb_forall in Hs. specialize (Hs caps ltac:(destruct (decide (caps = 0)); simpl; lia)).
  destruct (scancodes !! Z.to_nat sc) as [row|]; simpl in *; [|done].
  destruct (row !! Z.to_nat caps) as [c|] eqn:Hr; [|done]. exists row, c.
  apply andb_prop in Hs as [H1%Z.leb_le H2%Z.ltb_lt]. eauto.
Qed.

Lemma in_run k a sc caps :
  represents tm v k a -> 0 <= sc -> 0 <= caps < 2 ->
  exists k', in_ sc caps tm k = Ok (tt, k') /\ represents tm v k' (a_in sc caps a) /\ keeps 0 tm v k k'.
Proof.
  intros Hr Hs Hc. unfold in_, a_in. destruct (Z.leb_spec KEYBOARD_SIZE sc) as [Hl|Hl]; cbn [orb].
  { exists k. auto. }
  change KEYBOARD_SIZE with 58 in Hl.
  destruct (scancodes_ok sc caps ltac:(lia) Hc) as (row & c & Hrow & Hcc & Hb & ->).
  erewrite bind_ok; [|by apply at_index_run]. erewrite bind_ok; [|apply at_index_run; [lia|done]].
  set (ch := if c =? 13 then 10 else c). assert (0 <= ch < 256) by (unfold ch; destruct (c =? 13); lia).
  destruct (Z.eqb_spec ch 0) as [H0|H0]; cbn [negb when].
  { exists k. auto. }
  destruct (putc_run k a ch Hr ltac:(done)) as (k1 & H1 & Hr1 & Hk1).
  destruct (get_terminal_run k1 _ Hr1) as (t & Ht & Hv & Hi & Hg).
  pose proof (line_push _ _ _ _ _ ch (ti_line _ _ Hi) ltac:(done)) as Hp.
  destruct (ti_line _ _ Hi) as [Lb Lh Ln Lm Lt Ld _].
  assert (0 <= buftl t < 128) by (rewrite Lt; lia_mod).
  eexists. split.
  - erewrite bind_ok; [|exact H1]. erewrite bind_ok; [|exact Hg].
    erewrite bind_ok.
    2: { unfold set_index, gets_opt. destruct (Z.ltb_spec (buftl t) 0); [lia|]. cbn [orb].
         destruct (Z.leb_spec (Z.of_nat (length (buffer t))) (buftl t)); [lia|]. done. }
    apply (upd_terminal_run _ t); [apply (rp_fg _ _ _ _ Hr1)|done].
  - assert (forall k', represents tm v k' (a_type ch a) /\ keeps 0 tm v k1 k' ->
      represents tm v k' (a_type ch a) /\ keeps 0 tm v k k') as Hkeep.
    { intros k' [Hq1 Hq2]. split; [done|]. by eapply (keeps_trans 0 0). }
    apply Hkeep. clear Hkeep.
    eapply (place_ok k1 _ t (memory k1) (device k1)); try done.
    + destruct Hi. constructor; try done. cbn. change TERBUF_SIZE with 128.
      rewrite !Z.rem_mod_nonneg by lia. exact Hp.
    + apply Hr1.
Qed.

(** The steps of a sequence: what [keeps] and [represents] say of each. *)
Lemma keeps_step k k1 k2 n a' :
  keeps 0 tm v k k1 -> represents tm v k2 a' /\ keeps n tm v k1 k2 ->
  represents tm v k2 a' /\ keeps n tm v k k2.
Proof.
  intros H1 [H2 H3]. split; [done|]. rewrite <-(Nat.add_0_r n). by eapply keeps_trans.
Qed.

Lemma back_run k a :
  represents tm v k a ->
  exists k', back tm k = Ok (tt, k') /\
    represents tm v k' (set_text (t_back (a_text a)) a) /\ keeps 0 tm v k k'.
Proof.
  intros Hr. destruct (get_terminal_run k a Hr) as (t & Ht & Hv & Hi & Hg).
  pose proof (rp_fg _ _ _ _ Hr) as Hfg. pose proof (fg_null _ _ Hfg) as Hn.
  destruct (ti_text _ _ Hi) as [Hx Hy]. unfold back. erewrite bind_ok; [|exact Hg].
  rewrite (ti_x _ _ Hi), (ti_y _ _ Hi).
  destruct ((col (a_text a) =? 0) && (row (a_text a) =? 0)) eqn:H0.
  { exists k. split; [done|]. unfold t_back. rewrite H0.
    replace (set_text (a_text a) a) with a by (by destruct a). auto. }
  set (T := t_back (a_text a)).
  assert (HT : text_ok T) by (apply t_back_ok; by constructor).
  assert (HU : (if col (a_text a) =? 0 then upd_terminal tm (set_cursor (NUM_COLS - 1) (u8 (row (a_text a) - 1)))
     else upd_terminal tm (set_cursor (u8 (col (a_text a) - 1)) (row (a_text a)))) k =
     Ok (tt, with_terminals (<[tm := set_cursor (col T) (row T) t]> (terminals k)) k) /\
     chars T = t_write (80 * row T + col T) blank (chars (a_text a))).
  { unfold T, t_back. rewrite H0. change (NUM_COLS - 1) with 79.
    apply andb_false_iff in H0 as [H0%Z.eqb_neq|H0%Z.eqb_neq].
    - destruct (Z.eqb_spec (col (a_text a)) 0); [done|]. cbn [col row chars].
      rewrite u8_id by lia. split; [|done]. by apply upd_terminal_run.
    - destruct (Z.eqb_spec (col (a_text a)) 0); cbn [col row chars]; rewrite u8_id by lia;
        (split; [|done]); by apply upd_terminal_run. }
  destruct HU as [HU HC]. erewrite bind_ok; [|exact HU].
  set (t1 := set_cursor (col T) (row T) t). set (k1 := with_terminals _ k).
  assert (Hg1 : get_terminal tm k1 = Ok (t1, k1)).
  { unfold get_terminal, gets_opt. destruct (Z.eqb_spec tm NULL); [done|]. cbn. by rewrite lookup_insert_eq. }
  erewrite bind_ok; [|exact Hg1]. destruct HT as [Hx1 Hy1].
  assert (wp (memory k1) (vga_write (vidmem t1) (screen_x t1) (screen_y t1) 32)
    (λ _, shows v (memory k) (chars T))) as Hwp.
  { unfold vga_write. cbn [t1 set_cursor vidmem screen_x screen_y]. rewrite Hv, !u8_id by lia.
    change VGA_WIDTH with 80. rewrite HC. change blank with (u8 32).
    apply wp_write_cell; [apply (rp_screen _ _ _ _ Hr)|apply (rp_cells _ _ _ _ Hr)|lia]. }
  apply on_mem_wp in Hwp as ([] & m & Hm & Hcl & Ho).
  eexists. split.
  - erewrite bind_ok; [|exact Hm].
    erewrite bind_ok; [|apply current_terminal_run; by destruct Hfg]. apply show_cursor_run.
  - apply (place_ok k a t m (with_outs _ (device k)) t1 (set_text T a)); try done.
    destruct Hi. by constructor.
Qed.

Lemma erase_run k a :
  represents tm v k a ->
  exists k', backspace tm k = Ok (tt, k') /\ represents tm v k' (a_erase a) /\ keeps 0 tm v k k'.
Proof.
  intros Hr. destruct (get_terminal_run k a Hr) as (t & Ht & Hv & Hi & Hg).
  unfold backspace. erewrite bind_ok; [|exact Hg]. pose proof (lo_n _ _ _ _ _ (ti_line _ _ Hi)) as Hn.
  destruct (Z.eqb_spec (tsize t) 0) as [H0|H0].
  { exists k. split; [done|]. unfold a_erase. destruct (a_line a); [done|simpl in *; lia]. }
  destruct (back_run k a Hr) as (k1 & H1 & Hr1 & Hk1).
  destruct (get_terminal_run k1 _ Hr1) as (t1 & Ht1 & Hv1 & Hi1 & Hg1).
  pose proof (lo_n _ _ _ _ _ (ti_line _ _ Hi1)) as Hn1. cbn [a_line set_text] in Hn1.
  pose proof (line_pop _ _ _ _ _ (ti_line _ _ Hi1) ltac:(lia)) as Hp.
  assert (Ha : a_erase a = ATerm (a_caps a) (a_shift a) (a_ctrl a) (a_alt a) (l_pop (a_line a)) (t_back (a_text a))).
  { unfold a_erase. destruct (a_line a); [simpl in *; lia|done]. }
  eexists. split.
  - erewrite bind_ok; [|exact H1]. erewrite bind_ok; [|exact Hg1].
    apply (upd_terminal_run _ t1); [apply (rp_fg _ _ _ _ Hr1)|done].
  - eapply keeps_step; [exact Hk1|]. rewrite Ha.
    eapply (place_ok k1 _ t1 (memory k1) (device k1)); try done; [|apply Hr1].
    destruct Hi1. by constructor.
Qed.
(** ** Keys *)

(** What one operation does to the terminal. *)
Definition edits (m : KM unit) (k : kst) (a' : aterm) : Prop :=
  exists k', m k = Ok (tt, k') /\ represents tm v k' a' /\ keeps 0 tm v k k'.

Lemma edits_seq m1 m2 k a1 a2 :
  edits m1 k a1 -> (forall k1, represents tm v k1 a1 -> edits m2 k1 a2) -> edits (m1 ;; m2) k a2.
Proof.
  intros (k1 & H1 & Hr1 & Hk1) H2. destruct (H2 k1 Hr1) as (k2 & H3 & Hr2).
  exists k2. split; [by erewrite bind_ok|]. by eapply keeps_step.
Qed.

Lemma mods_run k a f a' :
  represents tm v k a ->
  (forall t, term_is t a -> term_is (f t) a' /\ vidmem (f t) = vidmem t /\ exit (f t) = exit t) -> a_text a' = a_text a ->
  edits (upd_terminal tm f) k a'.
Proof.
  intros Hr Hf Ht. destruct (get_terminal_run k a Hr) as (t & Hl & Hv & Hi & Hg).
  destruct (Hf t Hi) as (Hi' & Hv' & He'). eexists. split.
  - apply (upd_terminal_run _ t); [apply (rp_fg _ _ _ _ Hr)|done].
  - eapply (place_ok k a t (memory k) (device k)); try done; [congruence|].
    rewrite Ht. apply Hr.
Qed.
Ltac mods := match goal with H : represents _ _ _ _ |- edits (upd_terminal _ _) _ _ =>
  eapply mods_run; [exact H| |done]; intros ? []; split; [constructor; try done|done] end.

Lemma char_run k a sc : represents tm v k a -> 0 <= sc -> edits (key_char sc tm) k (a_char sc a).
Proof.
  intros Hr Hs. destruct (get_terminal_run k a Hr) as (t & Hl & Hv & Hi & Hg).
  unfold edits, key_char, a_char. erewrite bind_ok; [|exact Hg].
  assert (isletter sc = 0 \/ isletter sc = 1) as Hlet by (unfold isletter; destruct (_ || _); auto).
  destruct (ti_caps _ _ Hi) as [Hc1 Hc2]. rewrite Hc1, (ti_shift _ _ Hi). unfold a_upper.
  assert (Z.land (a_caps a) (isletter sc) =
          if negb (a_caps a =? 0) && (isletter sc =? 1) then 1 else 0) as ->.
  { destruct Hc2 as [-> | ->], Hlet as [-> | ->]; done. }
  set (l := if _ && _ then 1 else 0). assert (0 <= l < 2) by (unfold l; destruct (_ && _); lia).
  destruct (negb (a_shift a =? 0)); rewrite u8_id by lia; apply in_run; try done; lia.
Qed.

Lemma key_code_space : key_code SPACE 0 = 32.
Proof. done. Qed.
Lemma spaces_run n k a lo :
  represents tm v k a -> edits (for_loop lo n (λ _, in_ SPACE 0 tm)) k (Nat.iter n (a_type 32) a).
Proof.
  revert lo k a. induction n as [|n IH]; intros lo k a Hr; simpl for_loop.
  { exists k. auto. }
  rewrite Nat.iter_succ_r. eapply edits_seq.
  - destruct (in_run k a SPACE 0 Hr) as (k' & H); [unfold SPACE; lia|lia|]. exists k'. exact H.
  - intros k1 H1. apply IH. exact H1.
Qed.

Lemma iter_type_mods n a :
  a_alt (Nat.iter n (a_type 32) a) = a_alt a.
Proof. induction n as [|n IH]; [done|]. simpl. exact IH. Qed.
Lemma tab_no_char a : a_char TAB a = a.
Proof.
  unfold a_char, a_in. destruct (KEYBOARD_SIZE <=? TAB) eqn:He; [done|]. cbn [orb].
  assert (forall c, key_code TAB c = 0) as ->; [|done].
  intros c. unfold key_code. change (scancodes !! Z.to_nat TAB) with (Some [0; 0]). simpl.
  destruct (Z.to_nat c) as [|[|[|n]]]; done.
Qed.

Lemma fn_run k a sc i :
  represents tm v k a -> 0 <= sc -> a_alt a = 0 -> edits (key_fn sc tm i) k (a_char sc a).
Proof.
  intros Hr Hs Ha. destruct (get_terminal_run k a Hr) as (t & Hl & Hv & Hi & Hg).
  unfold edits, key_fn. erewrite bind_ok; [|exact Hg]. rewrite (ti_alt _ _ Hi), Ha. by apply char_run.
Qed.

Lemma press_run k a sc :
  represents tm v k a -> 0 <= sc -> plain sc a = true -> no_redraw sc a = true ->
  edits (key_press sc tm) k (a_press sc a).
Proof.
  intros Hr Hs Hp Hl. unfold key_press, a_press.
  destruct (Z.eqb_spec sc CAPSLOCK).
  { eapply mods_run; [exact Hr| |done]. intros t []. destruct ti_caps0 as [Hc1 Hc2]. rewrite <-Hc1.
    split; [|done]. constructor; try done. split; [done|]. cbn. destruct (capslock t =? 0); auto. }
  destruct ((sc =? LSHIFT) || (sc =? RSHIFT)); [mods|].
  destruct (Z.eqb_spec sc LALT).
  { apply (edits_seq _ _ _ (ATerm (a_caps a) (a_shift a) (a_ctrl a) 1 (a_line a) (a_text a))); [mods|].
    intros k1 H1. by apply erase_run. }
  destruct (Z.eqb_spec sc BACKSPACE); [by apply erase_run|].
  destruct (Z.eqb_spec sc CTRL); [mods|].
  unfold plain in Hp. destruct (Z.eqb_spec sc TAB) as [->|].
  { cbn [orb negb] in Hp. apply Z.eqb_eq in Hp. eapply edits_seq.
    - unfold out_tab. change (TAB_SPACE =? 0) with false. by apply spaces_run.
    - intros k1 H1. rewrite <-(tab_no_char (Nat.iter 4 (a_type 32) a)).
      apply fn_run; [done|done|]. by rewrite iter_type_mods. }
  cbn [orb] in Hp.
  destruct (Z.eqb_spec sc F1); [apply fn_run; [done|done|by apply Z.eqb_eq]|].
  destruct (Z.eqb_spec sc F2); [apply fn_run; [done|done|by apply Z.eqb_eq]|].
  destruct (Z.eqb_spec sc F3); [apply fn_run; [done|done|by apply Z.eqb_eq]|].
  unfold no_redraw in Hl. destruct (Z.eqb_spec sc KEY_L); [|by apply char_run].
  cbn in Hl. apply Z.eqb_eq in Hl. destruct (get_terminal_run k a Hr) as (t & Hk & Hv & Hi & Hg).
  unfold edits, key_l. erewrite bind_ok; [|exact Hg]. rewrite (ti_ctrl _ _ Hi), Hl. by apply char_run.
Qed.

Lemma release_run k a sc : represents tm v k a -> edits (key_release sc tm) k (a_release sc a).
Proof.
  intros Hr. unfold key_release, a_release.
  destruct ((sc =? LSHIFT) || (sc =? RSHIFT)); [mods|].
  destruct (Z.eqb_spec sc CTRL); [mods|]. destruct (Z.eqb_spec sc LALT); [mods|].
  exists k. auto.
Qed.

(** ** The interrupt handler *)

(** The byte that the keyboard gives to the [i]-th read from now. *)
Definition scan_byte (k : kst) (i : nat) : Z := u8 (input (device k) (i + reads (device k)) 96).
Definition harmless (sc : Z) (a : aterm) : bool := (128 <=? sc) || (plain sc a && no_redraw sc a).

(** A state that differs in the interrupt flag and in what was written to the
    ports represents the same terminal. *)
Lemma represents_frame k k' a :
  represents tm v k a -> memory k' = memory k -> terminals k' = terminals k -> procs k' = procs k ->
  terminal_boot k' = terminal_boot k -> console_task (sched k') = console_task (sched k) ->
  represents tm v k' a.
Proof.
  intros [[Hb Hn Hf] Hs Hc Ht] Hm Hts Hp Hbo Hct.
  constructor; [constructor; [by rewrite Hbo|done|by rewrite Hct, Hp]|done|by rewrite Hm|by rewrite Hts].
Qed.

Lemma do_keyboard_run k a :
  represents tm v k a -> harmless (scan_byte k 0) a = true ->
  exists k', do_keyboard k = Ok (tt, k') /\
    represents tm v k' (a_key (scan_byte k 0) a) /\ keeps 1 tm v k k'.
Proof.
  intros Hr Hh. unfold do_keyboard.
  set (sc := scan_byte k 0). pose proof (u8_range (input (device k) (0 + reads (device k)) 96)) as Hsc.
  fold (scan_byte k 0) in Hsc. fold sc in Hsc, Hh.
  set (k1 := with_sched (with_if false (sched k)) k).
  set (k2 := with_device (with_reads (S (reads (device k))) (device k)) k1).
  set (k3 := with_device (with_outs (outs (device k2) ++ eoi_writes 1) (device k2)) k2).
  assert (Hr3 : represents tm v k3 a) by by eapply represents_frame.
  assert (Hk3 : keeps 1 tm v k k3) by (constructor; done).
  assert (H4 : edits (if sc <? SCANCODES_SIZE then key_press sc tm else key_release (sc - SCANCODES_SIZE) tm)
    k3 (a_key sc a)).
  { unfold a_key, harmless in *. change SCANCODES_SIZE with 128.
    destruct (Z.ltb_spec sc 128); [|by apply release_run].
    destruct (Z.leb_spec 128 sc); [lia|]. apply andb_prop in Hh as [Hp Hl]. apply press_run; try done. lia. }
  destruct H4 as (k4 & H4 & Hr4 & Hk4).
  exists (with_sched (with_if true (sched k4)) k4). split.
  - erewrite bind_ok; [|done]. erewrite bind_ok; [|done].
    erewrite bind_ok; [|unfold on_dev, zoom; rewrite send_eoi_run by lia; reflexivity].
    erewrite bind_ok; [|apply current_terminal_run; apply Hr3]. by erewrite bind_ok.
  - split; [by eapply represents_frame|]. apply (keeps_trans 1 0 tm v k k3 _ Hk3).
    by destruct Hk4.
Qed.

(** A batch of interrupts delivers the next bytes of the keyboard. *)
Definition bytes_next (k : kst) (l : list Z) : Prop :=
  forall i c, l !! i = Some c -> scan_byte k i = c.
Fixpoint all_harmless (l : list Z) (a : aterm) : bool :=
  match l with [] => true | sc :: l => harmless sc a && all_harmless l (a_key sc a) end.
Definition a_keys (l : list Z) (a : aterm) : aterm := fold_left (λ a sc, a_key sc a) l a.

Lemma bytes_next_keeps n k k' l :
  keeps n tm v k k' -> forall l0, length l0 = n -> bytes_next k (l0 ++ l) -> bytes_next k' l.
Proof.
  intros [] l0 Hl H i c Hi. rewrite <-(H (n + i)%nat c).
  - unfold scan_byte. rewrite kp_input0, kp_reads0. do 2 f_equal. lia.
  - rewrite lookup_app_r by lia. by replace (n + i - length l0)%nat with i by lia.
Qed.

Lemma keyboard_irqs_run l k a :
  represents tm v k a -> bytes_next k l -> all_harmless l a = true ->
  exists k', keyboard_irqs (length l) k = Ok (tt, k') /\
    represents tm v k' (a_keys l a) /\ keeps (length l) tm v k k'.
Proof.
  revert k a. induction l as [|sc l IH]; intros k a Hr Hb Hh; cbn [keyboard_irqs length].
  { exists k. auto. }
  cbn [all_harmless] in Hh. apply andb_prop in Hh as [Hh1 Hh2].
  pose proof (Hb O sc eq_refl) as H0.
  destruct (do_keyboard_run k a Hr) as (k1 & H1 & Hr1 & Hk1); [by rewrite H0|]. rewrite H0 in Hr1.
  destruct (IH k1 (a_key sc a)) as (k2 & H2 & Hr2 & Hk2); [done| |done|].
  { by apply (bytes_next_keeps 1 k k1 l Hk1 [sc]). }
  exists k2. split; [by erewrite bind_ok|]. split; [done|].
  replace (S (length l)) with (length l + 1)%nat by lia. by eapply keeps_trans.
Qed.
End editor.
