(* ===== verification/TerminalContract.v ===== *)
(** * The contract of the terminals

    The keyboard handler implements a line editor, [terminal_read] hands out
    the first line of it once there is one, [terminal_write] shows what it is
    given. *)
From S2P Require Import Prelude Bytes RbTree StringProps Cfs Fs Device DeviceContract Kernel Console ConsoleProps Terminal TerminalProps TerminalKeys.


(** ** Waiting for a line *)
Fixpoint await (a : aterm) (batches : list (list Z)) : option aterm :=
  match line_end (a_line a) with
  | Some _ => Some a
  | None => match batches with [] => None | l :: bs => await (a_keys l a) bs end
  end.

Definition with_line (q : list Z) (a : aterm) : aterm :=
  ATerm (a_caps a) (a_shift a) (a_ctrl a) (a_alt a) q (a_text a).

Section read.
Context (tm v : Z).

Definition exit_is (e : Z) (k : kst) : Prop := option_map exit (terminals k !! tm) = Some e.

Lemma restore_run k :
  restore_flags (cpu_if (sched k)) (with_sched (with_if false (sched k)) k) = Ok (tt, k).
Proof. by destruct k as [? ? []]. Qed.

(** The flag [exit] of the terminal is no part of what it represents. *)
Lemma set_exit_run e k a :
  represents tm v k a ->
  exists k', upd_terminal tm (set_exit e) k = Ok (tt, k') /\ represents tm v k' a /\
    exit_is e k' /\ memory k' = memory k /\ device k' = device k.
Proof.
  intros Hr. destruct (get_terminal_run tm v k a Hr) as (t & Ht & Hv & Hi & Hg).
  exists (with_terminals (<[tm := set_exit e t]> (terminals k)) k). split.
  { apply upd_terminal_run; [apply (rp_fg _ _ _ _ Hr)|done]. }
  split; [|split; [|done]].
  - destruct Hr as [[] Hs Hc _]. constructor; try done. exists (set_exit e t).
    split; [apply lookup_insert_eq|]. split; [done|]. by destruct Hi.
  - unfold exit_is. cbn. by rewrite lookup_insert_eq.
Qed.

(** One search of the line. *)
Lemma search_found k a j irqs :
  represents tm v k a -> line_end (a_line a) = Some j ->
  exists k', wait_line tm irqs k = Ok (Z.of_nat j, k') /\ represents tm v k' a /\
    memory k' = memory k.
Proof.
  intros Hr Hj. destruct (get_terminal_run tm v k a Hr) as (t & Ht & Hv & Hi & Hg).
  set (k1 := with_sched (with_if false (sched k)) k).
  assert (Hr1 : represents tm v k1 a) by by eapply represents_frame.
  assert (Hg1 : get_terminal tm k1 = Ok (t, k1)).
  { destruct (get_terminal_run tm v k1 a Hr1) as (t1 & Ht1 & _ & _ & Hg1).
    change (terminals k1) with (terminals k) in Ht1. congruence. }
  destruct (set_exit_run 1 k1 a Hr1) as (k2 & H2 & Hr2 & He2 & Hm2 & Hd2).
  set (k3 := with_sched (with_if (cpu_if (sched k)) (sched k2)) k2).
  assert (Hr3 : represents tm v k3 a) by by eapply represents_frame.
  destruct (get_terminal_run tm v k3 a Hr3) as (t3 & Ht3 & _ & _ & Hg3).
  exists k3. split; [|done].
  destruct irqs as [|n irqs]; cbn [wait_line];
    (erewrite bind_ok; [|reflexivity]); (erewrite bind_ok; [|exact Hg1]);
    (erewrite bind_ok; [|apply scan_line_run, (ti_line _ _ Hi)]); rewrite Hj; cbn [snd fst when];
    (erewrite bind_ok; [|exact H2]); (erewrite bind_ok; [|reflexivity]); (erewrite bind_ok; [|exact Hg3]);
    unfold exit_is in He2; change (terminals k2) with (terminals k3) in He2; rewrite Ht3 in He2;
    injection He2 as ->; done.
Qed.

Lemma search_missed k a n irqs :
  represents tm v k a -> line_end (a_line a) = None -> exit_is 0 k ->
  wait_line tm (n :: irqs) k = (keyboard_irqs n ;; wait_line tm irqs) k /\
  wait_line tm [] k = Bad NoFuel.
Proof.
  intros Hr Hj He. destruct (get_terminal_run tm v k a Hr) as (t & Ht & Hv & Hi & Hg).
  set (k1 := with_sched (with_if false (sched k)) k).
  assert (Hr1 : represents tm v k1 a) by by eapply represents_frame.
  assert (Hg1 : get_terminal tm k1 = Ok (t, k1)).
  { destruct (get_terminal_run tm v k1 a Hr1) as (t1 & Ht1 & _ & _ & Hg1).
    change (terminals k1) with (terminals k) in Ht1. congruence. }
  unfold exit_is in He. rewrite Ht in He. injection He as He.
  split; cbn [wait_line];
    (erewrite bind_ok; [|reflexivity]); (erewrite bind_ok; [|exact Hg1]);
    (erewrite bind_ok; [|apply scan_line_run, (ti_line _ _ Hi)]); rewrite Hj; cbn [snd fst when];
    (erewrite bind_ok; [|reflexivity]);
    (erewrite bind_ok; [|apply restore_run]);
    (erewrite bind_ok; [|exact Hg]); rewrite He; done.
Qed.

Lemma wait_run batches k a :
  represents tm v k a -> exit_is 0 k -> bytes_next k (concat batches) ->
  all_harmless (concat batches) a = true ->
  match await a batches with
  | None => wait_line tm (map length batches) k = Bad NoFuel
  | Some a' => exists j k', line_end (a_line a') = Some j /\
      wait_line tm (map length batches) k = Ok (Z.of_nat j, k') /\
      represents tm v k' a' /\ outside v (memory k) (memory k')
  end.
Proof.
  revert k a. induction batches as [|l bs IH]; intros k a Hr He Hb Hh; cbn [await map];
    destruct (line_end (a_line a)) as [j|] eqn:Hj.
  - destruct (search_found k a j [] Hr Hj) as (k' & H1 & H2 & H3). exists j, k'. rewrite H3. auto.
  - by apply (search_missed k a 0 []).
  - destruct (search_found k a j (length l :: map length bs) Hr Hj) as (k' & H1 & H2 & H3).
    exists j, k'. rewrite H3. auto.
  - rewrite (proj1 (search_missed k a (length l) (map length bs) Hr Hj He)).
    cbn [concat] in Hb, Hh. assert (Hh' : all_harmless l a = true /\ all_harmless (concat bs) (a_keys l a) = true).
    { clear -Hh. revert a Hh. induction l as [|sc l IH]; intros a Hh; [done|]. cbn in *.
      apply andb_prop in Hh as [H1 H2]. rewrite H1. apply (IH (a_key sc a)), H2. }
    destruct (keyboard_irqs_run tm v l k a Hr) as (k1 & H1 & Hr1 & Hk1); [|apply Hh'|].
    { intros i c Hi. apply Hb. by apply lookup_app_l_Some. }
    rewrite (bind_ok _ _ _ _ _ H1).
    specialize (IH k1 (a_keys l a) Hr1). destruct (await (a_keys l a) bs) as [a'|].
    + destruct IH as (j & k2 & H2 & H3 & H4 & H5); [|by eapply bytes_next_keeps|apply Hh'|].
      { unfold exit_is. by rewrite (kp_exit _ _ _ _ _ Hk1). }
      exists j, k2. do 3 (split; [done|]). eapply outside_trans; [apply Hk1|done].
    + apply IH; [|by eapply bytes_next_keeps|apply Hh'].
      unfold exit_is. by rewrite (kp_exit _ _ _ _ _ Hk1).
Qed.

(** Storing the line in the buffer of the process. *)
Lemma store_run l p (m : mem) :
  mapped m p (length l) -> Forall (λ c, 0 <= c < 256) l -> store p l m = Ok (tt, poke p l m).
Proof.
  revert p m. induction l as [|b l IH]; intros p m Hm Hl; cbn [store poke]; [done|].
  inversion_clear Hl as [|? ? Hb Hl']. destruct (Hm O ltac:(simpl; lia)) as [x Hx]. rewrite Z.add_0_r in Hx.
  erewrite bind_ok.
  2: { unfold st8. erewrite bind_ok; [done|]. unfold ld8, gets_opt. by rewrite Hx. }
  rewrite u8_id by done. apply IH; [|done]. intros i Hi.
  destruct (Hm (S i) ltac:(simpl; lia)) as [y Hy].
  replace (p + 1 + Z.of_nat i) with (p + Z.of_nat (S i)) by lia.
  destruct (decide (u32 p = u32 (p + Z.of_nat (S i)))) as [->|].
  - by rewrite lookup_insert_eq.
  - rewrite lookup_insert_ne by done. eauto.
Qed.

Lemma cells_poke m f p l :
  (forall i, (i < length l)%nat -> ~ on_screen v (u32 (p + Z.of_nat i))) ->
  cells m v f -> cells (poke p l m) v f.
Proof.
  intros Ho H i Hi. rewrite !poke_out; [by apply H| |]; intros j Hj He; apply (Ho j Hj); rewrite He;
    unfold on_screen; lia.
Qed.

(** Where [terminal_read] looks for its terminal. *)
Lemma foreground_proc k :
  foreground tm k -> exists ct p, current_task k = Ok (ct, k) /\ get_proc ct k = Ok (p, k) /\ terminal p = tm.
Proof.
  intros [Hb Hn (ct & p & H1 & H2 & H3 & H4)]. exists ct, p. split; [|split; [|done]].
  - unfold current_task, on_sched, zoom, gets_opt. rewrite H1. by destruct k.
  - unfold get_proc, gets_opt. destruct (Z.eqb_spec ct NULL); [done|]. by rewrite H3.
Qed.

(** [terminal_read] after the wait. *)
Definition take_line (buf nbytes nread : Z) : KM Z :=
  let nread := if nbytes <? nread then nbytes else nread in
  t ← get_terminal tm;
  l ← bufcpy (buffer t) (Z.to_nat nread) (bufhd t);
  on_mem (store buf l) ;;
  upd_terminal tm (λ t, set_line (u8 (Z.rem (bufhd t + nread) TERBUF_SIZE)) (buftl t)
    (u8 (tsize t - nread)) (buffer t) t) ;;
  mret nread.

Lemma terminal_read_unfold k a buf nbytes irqs :
  represents tm v k a -> 0 < nbytes ->
  exists k1, represents tm v k1 a /\ exit_is 0 k1 /\ memory k1 = memory k /\ device k1 = device k /\
    terminal_read stdin buf nbytes irqs k =
      (nread ← wait_line tm irqs; take_line buf (Z.min nbytes 128) nread) k1.
Proof.
  intros Hr Hn. destruct (set_exit_run 0 k a Hr) as (k1 & H1 & Hr1 & He1 & Hm1 & Hd1).
  exists k1. do 4 (split; [done|]). destruct (foreground_proc k (rp_fg _ _ _ _ Hr)) as (ct & p & H2 & H3 & H4).
  unfold terminal_read. erewrite bind_ok; [|exact H2]. erewrite bind_ok; [|exact H3]. rewrite H4.
  destruct (Z.eqb_spec tm NULL) as [H0|_]; [by destruct (fg_null _ _ (rp_fg _ _ _ _ Hr))|].
  change (negb (stdin =? stdin)) with false. cbv iota.
  destruct (Z.ltb_spec nbytes 0); [lia|]. destruct (Z.eqb_spec nbytes 0); [lia|].
  replace (if TERBUF_SIZE <? nbytes then TERBUF_SIZE else nbytes) with (Z.min nbytes 128)
    by (change TERBUF_SIZE with 128; destruct (Z.ltb_spec 128 nbytes); lia).
  erewrite bind_ok; [|exact H1]. reflexivity.
Qed.

Lemma take_line_run k a buf nbytes j :
  represents tm v k a -> line_end (a_line a) = Some j -> 0 < nbytes ->
  let n := Z.min nbytes (Z.of_nat j) in
  mapped (memory k) buf (Z.to_nat n) ->
  (forall i, Z.of_nat i < n -> ~ on_screen v (u32 (buf + Z.of_nat i))) ->
  exists k', take_line buf nbytes (Z.of_nat j) k = Ok (n, k') /\
    represents tm v k' (with_line (drop (Z.to_nat n) (a_line a)) a) /\
    memory k' = poke buf (take (Z.to_nat n) (a_line a)) (memory k).
Proof.
  intros Hr Hj Hnb n Hmap Hout. pose proof (line_end_le _ _ Hj) as Hjl.
  destruct (get_terminal_run tm v k a Hr) as (t & Ht & Hv & Hi & Hg).
  pose proof (ti_line _ _ Hi) as Hl. pose proof (lo_n _ _ _ _ _ Hl) as Ln.
  pose proof (lo_max _ _ _ _ _ Hl) as Lm. pose proof (lo_hd _ _ _ _ _ Hl) as Lh.
  set (q := take (Z.to_nat n) (a_line a)).
  assert (Hq : length q = Z.to_nat n) by (unfold q; rewrite length_take; lia).
  set (k1 := with_memory (poke buf q (memory k)) k).
  set (t' := set_line ((bufhd t + n) mod 128) (buftl t) (tsize t - n) (buffer t) t).
  exists (with_terminals (<[tm := t']> (terminals k1)) k1). split; [|split; [|done]].
  - unfold take_line. replace (if nbytes <? Z.of_nat j then nbytes else Z.of_nat j) with n
      by (unfold n; destruct (Z.ltb_spec nbytes (Z.of_nat j)); lia).
    erewrite bind_ok; [|exact Hg]. erewrite bind_ok.
    2: { replace (bufhd t) with ((bufhd t + Z.of_nat 0) mod 128) at 1 by lia_mod.
         apply (bufcpy_run _ _ _ _ _ _ _ 0 Hl). lia. }
    rewrite drop_0. fold q. erewrite bind_ok.
    2: { unfold on_mem, zoom. rewrite store_run; [reflexivity| |apply Forall_take, (lo_bytes _ _ _ _ _ Hl)].
         by rewrite Hq. }
    erewrite bind_ok; [done|]. change TERBUF_SIZE with 128.
    erewrite upd_terminal_run; [|apply (rp_fg _ _ _ _ Hr)|exact Ht].
    rewrite Z.rem_mod_nonneg, !u8_id by lia_mod. reflexivity.
  - destruct Hr as [[] Hs Hc _]. constructor; try done.
    + cbn [a_text with_line memory k1 with_memory with_terminals]. apply cells_poke; [|done].
      intros i Hi'. apply Hout. lia.
    + exists t'. split; [apply lookup_insert_eq|]. split; [done|].
      destruct Hi. constructor; try done. apply line_drop; [done|lia].
Qed.

Lemma mapped_outside m m' p n :
  outside v m m' -> (forall i, (i < n)%nat -> ~ on_screen v (u32 (p + Z.of_nat i))) ->
  mapped m p n -> mapped m' p n.
Proof. intros Ho Hs Hm i Hi. rewrite Ho by auto. by apply Hm. Qed.
End read.

Lemma terminal_read_run tm v k a buf nbytes batches :
  represents tm v k a -> 0 < nbytes ->
  bytes_next k (concat batches) -> all_harmless (concat batches) a = true ->
  mapped (memory k) buf (Z.to_nat (Z.min nbytes 128)) ->
  (forall i, Z.of_nat i < Z.min nbytes 128 -> ~ on_screen v (u32 (buf + Z.of_nat i))) ->
  match await a batches with
  | None => terminal_read stdin buf nbytes (map length batches) k = Bad NoFuel
  | Some a' => exists j k' m,
      line_end (a_line a') = Some j /\
      let n := Z.min nbytes (Z.of_nat j) in
      terminal_read stdin buf nbytes (map length batches) k = Ok (n, k') /\
      represents tm v k' (with_line (drop (Z.to_nat n) (a_line a')) a') /\
      outside v (memory k) m /\ memory k' = poke buf (take (Z.to_nat n) (a_line a')) m
  end.
Proof.
  intros Hr Hn Hb Hh Hmap Hout.
  destruct (terminal_read_unfold tm v k a buf nbytes (map length batches) Hr Hn)
    as (k1 & Hr1 & He1 & Hm1 & Hd1 & ->).
  assert (Hb1 : bytes_next k1 (concat batches)) by (unfold bytes_next, scan_byte in *; by rewrite Hd1).
  pose proof (wait_run tm v batches k1 a Hr1 He1 Hb1 Hh) as Hw. rewrite Hm1 in Hw.
  destruct (await a batches) as [a'|]; [|by apply bind_bad].
  destruct Hw as (j & k2 & Hj & Hw & Hr2 & Ho). pose proof (line_end_le _ _ Hj) as Hjl.
  destruct (rp_term _ _ _ _ Hr2) as (t & _ & _ & Hi).
  pose proof (lo_n _ _ _ _ _ (ti_line _ _ Hi)). pose proof (lo_max _ _ _ _ _ (ti_line _ _ Hi)).
  destruct (take_line_run tm v k2 a' buf (Z.min nbytes 128) j Hr2 Hj ltac:(lia)) as (k3 & H1 & H2 & H3).
  { eapply mapped_outside; [exact Ho| |]; intros i Hi'; [apply Hout; lia|apply Hmap; lia]. }
  { intros i Hi'. apply Hout. lia. }
  replace (Z.min (Z.min nbytes 128) (Z.of_nat j)) with (Z.min nbytes (Z.of_nat j)) in * by lia.
  exists j, k3, (memory k2). split; [done|]. cbv zeta. split; [by rewrite (bind_ok _ _ _ _ _ Hw)|done].
Qed.


(** ** Typing a line and reading it *)

(** The key of a character and the characters that a plain key types. *)
Definition scan_of (c : Z) : Z :=
  default 0 (head (filter (λ sc, key_code sc 0 = c) (seqZ 0 58))).
Definition typeable (c : Z) : bool :=
  let sc := scan_of c in
  (key_code sc 0 =? c) && negb ((c =? 0) || is_nl c) &&
  negb ((sc =? CAPSLOCK) || (sc =? LSHIFT) || (sc =? RSHIFT) || (sc =? LALT) || (sc =? BACKSPACE) ||
        (sc =? CTRL) || (sc =? TAB)) && (0 <=? sc) && (sc <? 58).
Definition ENTER : Z := 28.

(** No modifier is held. *)
Record relaxed (a : aterm) : Prop := {
  rx_caps : a_caps a = 0; rx_shift : a_shift a = 0; rx_ctrl : a_ctrl a = 0; rx_alt : a_alt a = 0
}.

Lemma plain_key sc c a :
  relaxed a -> key_code sc 0 = c -> c <> 0 -> 0 <= sc < 58 ->
  (sc =? CAPSLOCK) || (sc =? LSHIFT) || (sc =? RSHIFT) || (sc =? LALT) || (sc =? BACKSPACE) ||
    (sc =? CTRL) || (sc =? TAB) = false ->
  a_key sc a = a_type c a /\ harmless sc a = true.
Proof.
  intros [] Hc Hn Hs Hsp. repeat (apply orb_false_elim in Hsp as [Hsp ?]). split.
  - unfold a_key, a_press. destruct (Z.ltb_spec sc 128); [|lia].
    repeat match goal with H : (_ =? _) = false |- _ => rewrite H; clear H end. cbn [orb].
    unfold a_char, a_upper. rewrite rx_caps0, rx_shift0. cbn [Z.eqb negb andb].
    unfold a_in. rewrite Hc. destruct (Z.leb_spec KEYBOARD_SIZE sc) as [Hk|]; [unfold KEYBOARD_SIZE in Hk; lia|].
    by destruct (Z.eqb_spec c 0).
  - unfold harmless, plain, no_redraw. rewrite rx_alt0, rx_ctrl0. cbn. by rewrite !orb_true_r.
Qed.
Lemma typeable_key c a :
  relaxed a -> typeable c = true ->
  a_key (scan_of c) a = a_type c a /\ harmless (scan_of c) a = true /\ is_nl c = false.
Proof.
  intros Hr Ht. unfold typeable in Ht.
  repeat (apply andb_prop in Ht as [Ht ?]). apply Z.eqb_eq in Ht.
  repeat match goal with H : negb _ = true |- _ => apply negb_true_iff in H end.
  match goal with H : (c =? 0) || _ = false |- _ => apply orb_false_elim in H as [Hz%Z.eqb_neq Hnl] end.
  apply Z.leb_le in H0. apply Z.ltb_lt in H.
  destruct (plain_key (scan_of c) c a Hr Ht Hz) as [H4 H5]; [lia|done|auto].
Qed.
Lemma type_relaxed c a : relaxed a -> relaxed (a_type c a).
Proof. intros []. by constructor. Qed.

(** The editor's answer to a word and Enter. *)
Lemma typed_word w a :
  relaxed a -> forallb typeable w = true -> (length (a_line a) + length w < 128)%nat ->
  let l := map scan_of w ++ [ENTER] in
  all_harmless l a = true /\
  a_line (a_keys l a) = a_line a ++ w ++ [10].
Proof.
  revert a. induction w as [|c w IH]; intros a Hr Hw Hl; cbn [map app].
  - destruct (plain_key ENTER 10 a Hr) as [H1 H2]; [done|done|unfold ENTER; lia|done|].
    unfold a_keys. cbn [all_harmless fold_left]. rewrite H1, H2. split; [done|]. cbn. unfold l_push.
    rewrite decide_False by lia. done.
  - cbn [forallb] in Hw. apply andb_prop in Hw as [Hc Hw]. cbn [length] in Hl.
    destruct (typeable_key c a Hr Hc) as (H1 & H2 & _).
    unfold a_keys. cbn [all_harmless fold_left]. rewrite H1, H2.
    assert (Hp : a_line (a_type c a) = a_line a ++ [c]).
    { cbn. unfold l_push. by rewrite decide_False by lia. }
    destruct (IH (a_type c a)) as [H3 H4]; [by apply type_relaxed|done|rewrite Hp, length_app; simpl; lia|].
    split; [exact H3|]. unfold a_keys in H4. rewrite H4, Hp. by rewrite <-app_assoc.
Qed.
Lemma line_end_word w : forallb typeable w = true -> line_end (w ++ [10]) = Some (length w + 1)%nat.
Proof.
  induction w as [|c w IH]; [done|]. cbn [forallb app line_end length]. intros [Hc Hw]%andb_prop.
  assert (relaxed (ATerm 0 0 0 0 [] (Text (λ _, 0) 0 0))) as Hr by done.
  destruct (typeable_key c _ Hr Hc) as (_ & _ & ->). by rewrite (IH Hw).
Qed.

(** C34: From the keys to the process: when a word is typed while a process
    waits in [terminal_read] on an empty line, the call returns with exactly
    that word and its newline in the buffer, and the line is empty again. *)
Theorem typed_line_is_read tm v k a buf nbytes w :
  represents tm v k a -> relaxed a -> a_line a = [] ->
  forallb typeable w = true -> Z.of_nat (length w) < Z.min nbytes 128 ->
  bytes_next k (map scan_of w ++ [ENTER]) ->
  mapped (memory k) buf (Z.to_nat (Z.min nbytes 128)) ->
  (forall i, Z.of_nat i < Z.min nbytes 128 -> ~ on_screen v (u32 (buf + Z.of_nat i))) ->
  exists k' a', terminal_read stdin buf nbytes [(length w + 1)%nat] k = Ok (Z.of_nat (length w) + 1, k') /\
    bytes_at (memory k') buf (w ++ [10]) /\ represents tm v k' a' /\ a_line a' = [].
Proof.
  intros Hr Hx Hl Hw Hn Hb Hmap Hout.
  destruct (typed_word w a Hx Hw) as [Hh Hq]; [rewrite Hl; simpl; lia|]. rewrite Hl in Hq. cbn [app] in Hq.
  set (l := map scan_of w ++ [ENTER]) in *.
  pose proof (terminal_read_run tm v k a buf nbytes [l] Hr ltac:(lia)) as H.
  cbn [concat] in H. rewrite app_nil_r in H. specialize (H Hb Hh Hmap Hout).
  assert (Ha : await a [l] = Some (a_keys l a)).
  { cbn [await]. rewrite Hl. cbn [line_end]. by rewrite Hq, line_end_word. }
  rewrite Ha in H. destruct H as (j & k' & m & Hj & Hread & Hr' & _ & Hm).
  rewrite Hq, line_end_word in Hj by done. injection Hj as <-.
  replace (Z.min nbytes (Z.of_nat (length w + 1))) with (Z.of_nat (length w) + 1) in * by lia.
  cbn [map] in Hread. unfold l in Hread at 1. rewrite length_app, length_map in Hread.
  exists k', (with_line [] (a_keys l a)). split; [exact Hread|].
  assert (Hlen : length (w ++ [10]) = Z.to_nat (Z.of_nat (length w) + 1)) by (rewrite length_app; simpl; lia).
  rewrite Hq, take_ge in Hm by lia. rewrite Hq, drop_ge in Hr' by lia.
  split; [|by split]. rewrite Hm. apply bytes_at_poke. lia.
Qed.

(** Pressing the left Alt key takes the last character off the line, because
    its case falls through to that of Backspace. *)
Theorem alt_erases tm v k a :
  represents tm v k a -> a_line a <> [] ->
  exists k' a', key_press LALT tm k = Ok (tt, k') /\ represents tm v k' a' /\
    a_line a' = l_pop (a_line a) /\ a_text a' = t_back (a_text a).
Proof.
  intros Hr Hl. destruct (press_run tm v k a LALT Hr) as (k' & H1 & H2 & _); [done|done|done|].
  exists k', (a_press LALT a). do 2 (split; [done|]). unfold a_press. cbn. unfold a_erase. cbn.
  by destruct (a_line a).
Qed.

(** [terminal_write] shows each byte in turn where the cursor is and returns
    their number. *)
Section write.
Context (tm v : Z).

(** The thread on the processor writes to the terminal in the foreground. *)
Definition running_on (k : kst) : Prop :=
  exists p, cpu_thread (sched k) <> NULL /\ procs k !! cpu_thread (sched k) = Some p /\ terminal p = tm.

Lemma running_on_keeps k k' n : keeps n tm v k k' -> running_on k -> running_on k'.
Proof.
  intros [] (p & H1 & H2 & H3). exists p.
  assert (cpu_thread (sched k') = cpu_thread (sched k)) as He.
  { change (cpu_thread (with_if true (sched k')) = cpu_thread (with_if true (sched k))). by rewrite kp_sched. }
  by rewrite He, kp_procs.
Qed.

Lemma putc_here k a c :
  represents tm v k a -> running_on k -> 0 <= c < 256 ->
  edits tm v (putc (i8 c)) k (set_text (t_put c (a_text a)) a).
Proof.
  intros Hr (p & H1 & H2 & H3) Hc. destruct (putc_run tm v k a c Hr Hc) as (k' & H4 & H5).
  exists k'. split; [|done]. unfold putc. erewrite bind_ok; [|done].
  destruct (Z.eqb_spec (terminal_boot k) 0) as [H0|_]; [by destruct (fg_boot _ _ (rp_fg _ _ _ _ Hr))|].
  erewrite bind_ok; [|unfold GETPRO, on_sched, zoom, gets; reflexivity].
  erewrite bind_ok.
  2: { unfold get_proc, gets_opt. destruct (Z.eqb_spec (cpu_thread (sched k)) NULL); [done|].
       cbn. by rewrite H2. }
  rewrite H3, u8_i8 by done. replace (with_sched (sched k) k) with k by (by destruct k). done.
Qed.

Lemma out_run l k a buf i n :
  represents tm v k a -> running_on k -> bytes_at (memory k) (buf + i) l -> Forall (λ c, 0 <= c < 256) l ->
  (forall j, (j < length l)%nat -> ~ on_screen v (u32 (buf + i + Z.of_nat j))) -> n = length l ->
  edits tm v (for_loop i n (λ i, c ← on_mem (ldc (buf + i)); putc c)) k (set_text (t_puts l (a_text a)) a).
Proof.
  revert k a i n. induction l as [|c l IH]; intros k a i n Hr Hrun Hm Hl Hs ->; cbn [length for_loop].
  { exists k. replace (set_text _ a) with a by (by destruct a). auto. }
  apply bytes_at_cons in Hm as [Hm1 Hm2]. inversion_clear Hl as [|? ? Hc Hl'].
  destruct (putc_here k a c Hr Hrun Hc) as (k1 & H1 & Hr1 & Hk1).
  assert (Hm3 : bytes_at (memory k1) (buf + (i + 1)) l).
  { intros j x Hj. rewrite Z.add_assoc. rewrite (kp_mem _ _ _ _ _ Hk1); [by apply Hm2|].
    specialize (Hs (S j)). replace (buf + i + 1 + Z.of_nat j) with (buf + i + Z.of_nat (S j)) by lia.
    apply Hs. simpl. apply lookup_lt_Some in Hj. lia. }
  destruct (IH k1 _ (i + 1) (length l) Hr1) as (k2 & H2 & Hr2); try done.
  { by eapply running_on_keeps. }
  { intros j Hj. replace (buf + (i + 1) + Z.of_nat j) with (buf + i + Z.of_nat (S j)) by lia.
    apply Hs. simpl. lia. }
  exists k2. split; [|by eapply keeps_step].
  erewrite bind_ok; [exact H2|]. erewrite bind_ok; [exact H1|].
  unfold on_mem, zoom, ldc. erewrite bind_ok.
  2: { unfold ld8, gets_opt. by rewrite Hm1. }
  cbn. by replace (with_memory (memory k) k) with k by (by destruct k).
Qed.
End write.

(** [terminal_write] to standard output shows the bytes of the buffer on
    the screen of the process in order, each where the cursor is, with lines
    that wrap and a screen that scrolls, returns their number and leaves the
    typed line and everything off the screen as it was; a null buffer and
    every other descriptor give -1 and no output. *)
Theorem terminal_write_correct tm v k a buf l :
  represents tm v k a -> running_on tm k -> buf <> NULL ->
  bytes_at (memory k) buf l -> Forall (λ c, 0 <= c < 256) l ->
  (forall j, (j < length l)%nat -> ~ on_screen v (u32 (buf + Z.of_nat j))) ->
  (exists k', terminal_write stdout buf (Z.of_nat (length l)) k = Ok (Z.of_nat (length l), k') /\
     represents tm v k' (set_text (t_puts l (a_text a)) a) /\ keeps 0 tm v k k' /\
     text_ok (t_puts l (a_text a))) /\
  (forall d p n, p = NULL \/ d <> stdout -> terminal_write d p n k = Ok (-1, k)).
Proof.
  intros Hr Hrun Hn Hm Hl Hs. split.
  - set (k1 := with_sched (with_if false (sched k)) k).
    assert (Hr1 : represents tm v k1 a) by by eapply represents_frame.
    assert (Hm1 : bytes_at (memory k1) (buf + 0) l) by (by rewrite Z.add_0_r).
    destruct (out_run tm v l k1 a buf 0 (length l) Hr1 Hrun Hm1 Hl) as (k2 & H2 & Hr2 & Hk2);
      [by rewrite Z.add_0_r|done|].
    exists (with_sched (with_if (cpu_if (sched k)) (sched k2)) k2). split; [|split; [|split]].
    + unfold terminal_write. destruct (Z.eqb_spec buf NULL); [done|].
      change (negb (stdout =? stdout)) with false. cbv iota.
      erewrite bind_ok; [|done]. erewrite bind_ok; [|unfold out; rewrite Nat2Z.id; exact H2]. done.
    + by eapply represents_frame.
    + by destruct Hk2.
    + destruct (rp_term _ _ _ _ Hr2) as (t & _ & _ & Hi). apply (ti_text _ _ Hi).
  - intros d p n Hd. unfold terminal_write. destruct (Z.eqb_spec p NULL); [done|].
    destruct Hd as [?|Hd]; [done|]. by destruct (Z.eqb_spec d stdout).
Qed.

(** ** A terminal at work *)
Definition sample_cfs : cfs_rq :=
  Cfs (Weight 0 0) 0 0 0 (Rb_state ∅ 0) 0 0 ∅ ∅ (Some 8192) 8192 true.
Definition sample_terminal : terminal_t :=
  Terminal_t 0 0 0 0 0 0 0 (replicate 128 0) 0 0 0 video_mem 851968.
(** A blank screen and 8 bytes for a process that hold "ok". *)
Definition sample_mem : mem :=
  poke 4096 (lit "ok" ++ replicate 6 0) (poke video_mem (concat (replicate 2000 [32; 7])) ∅).
(** The keyboard sends the given bytes. *)
Definition sample_kst (keys : list Z) : kst :=
  Kst sample_mem (Dev [] (λ n _, default 0 (keys !! n)) 0 0 0 0) sample_cfs {[64 := sample_terminal]}
    {[8192 := Proc 64 0 0]} ∅ [Console 30 8192] 0 1 0 0 ∅ (Fs_t 0 0 0).
Definition sample_aterm : aterm := ATerm 0 0 0 0 [] (Text (λ _, 32) 0 0).

Lemma sample_cells : cells sample_mem video_mem (λ _, 32).
Proof.
  intros i Hi.
  apply (forall_seqZ (λ i, bool_decide (sample_mem !! (video_mem + 2 * i) = Some 32) &&
    bool_decide (sample_mem !! (video_mem + 2 * i + 1) = Some 7)) 2000) in Hi; [|by vm_compute].
  apply andb_prop in Hi as [H1%bool_decide_eq_true H2%bool_decide_eq_true].
  split; [exact H1|]. split; [exact (mk_is_Some _ _ H2)|]. clear. lia.
Qed.
Lemma sample_text : bytes_at sample_mem 4096 (lit "ok").
Proof.
  eapply proj1, bytes_at_app. unfold sample_mem. apply bytes_at_poke. rewrite length_app, length_replicate.
  vm_compute. discriminate.
Qed.
Lemma sample_represents keys : represents 64 video_mem (sample_kst keys) sample_aterm.
Proof.
  constructor.
  - constructor; [done|done|]. exists 8192, (Proc 64 0 0). done.
  - unfold screen_range, video_mem. lia.
  - exact sample_cells.
  - exists sample_terminal. split; [done|]. split; [done|]. constructor; try done.
    split; [done|by left].
Qed.
Lemma sample_buf keys : mapped (memory (sample_kst keys)) 4096 8.
Proof.
  intros i Hi. assert (0 <= Z.of_nat i < 8) as H by lia.
  apply (forall_seqZ (λ i, bool_decide (is_Some (sample_mem !! u32 (4096 + i)))) 8) in H; [|by vm_compute].
  by apply bool_decide_eq_true in H.
Qed.
Lemma sample_off_screen i : Z.of_nat i < 8 -> ~ on_screen video_mem (u32 (4096 + Z.of_nat i)).
Proof. intros Hi. rewrite u32_id by lia. unfold on_screen, video_mem. lia. Qed.
Lemma sample_keys keys : Forall (λ c, 0 <= c < 256) keys -> bytes_next (sample_kst keys) keys.
Proof.
  intros Hk i c Hi. unfold scan_byte. cbn. rewrite Nat.add_0_r, Hi. cbn.
  apply u8_id. by eapply Forall_lookup_1 in Hk.
Qed.



Lemma typed_line_is_read_witness :
  let w := lit "cat -x" in let l := map scan_of w ++ [ENTER] in
  exists k', terminal_read stdin 4096 8 [7%nat] (sample_kst l) = Ok (7, k') /\
    bytes_at (memory k') 4096 (w ++ [10]).
Proof.
  intros w l.
  destruct (typed_line_is_read 64 video_mem (sample_kst l) sample_aterm 4096 8 w (sample_represents l))
    as (k' & a' & H1 & H2 & _).
  - by constructor.
  - reflexivity.
  - by vm_compute.
  - vm_compute. reflexivity.
  - apply sample_keys. unfold l. repeat constructor; vm_compute; discriminate.
  - exact (sample_buf l).
  - exact sample_off_screen.
  - exists k'. split; [exact H1|exact H2].
Defined.

Lemma terminal_write_correct_witness :
  exists k', terminal_write stdout 4096 2 (sample_kst []) = Ok (2, k') /\
    represents 64 video_mem k' (set_text (t_puts (lit "ok") (Text (λ _, 32) 0 0)) sample_aterm) /\
    chars (t_puts (lit "ok") (Text (λ _, 32) 0 0)) 1 = 107.
Proof.
  destruct (terminal_write_correct 64 video_mem (sample_kst []) sample_aterm 4096 (lit "ok") (sample_represents []))
    as [(k' & H1 & H2 & _) _].
  - exists (Proc 64 0 0). done.
  - done.
  - exact sample_text.
  - repeat constructor; vm_compute; discriminate.
  - intros j Hj. apply sample_off_screen. simpl in Hj. lia.
  - exists k'. split; [exact H1|]. split; [exact H2|reflexivity].
Defined.
