(* ===== verification/Vfs.v ===== *)
(** * The virtual file system: [kernel/vfs.c], [kernel/file.c], the file
    operations of [drivers/rtc.c] and the file system calls of
    [kernel/syscall.c]

    A process has a table of eight open files; each names its table of
    operations, and a system call reaches the operation through the
    descriptor. *)
From S2P Require Import Prelude Bytes KString Cfs Fs Device Kernel Console Terminal.

(** The allocator and the addresses of three string literals of the code.
    File tables are records here and words in [Kmalloc], so the allocator's
    answer for a table is an argument of the definitions that ask for one. *)
Class Env := {
  kmalloc : Z -> KM Z;
  lit_rtc : Z;
  lit_stdin : Z;
  lit_stdout : Z
}.

Definition sizeof_files : Z := 712.

(** [&curr->fds->fd[fd]]. *)
Definition get_file (curr fd : Z) : KM file_t :=
  p ← get_proc curr;
  t ← get_files (fds p);
  at_index (Kernel.fd t) fd.
(** Storing a [file_t] there.  Outside the table the store is undefined. *)
Definition put_file (curr fd : Z) (f : file_t) : KM unit :=
  p ← get_proc curr;
  t ← get_files (fds p);
  l ← set_index (Kernel.fd t) fd f;
  upd_files (fds p) (λ t, Files (count t) (max_fd t) l).
Definition set_count (n : Z) (f : file_t) : file_t := File (f_dentry f) (fop f) n (f_pos f).
Definition set_pos (n : Z) (f : file_t) : file_t := File (f_dentry f) (fop f) (f_count f) n.

(** [file_init]: the first free descriptor from [fd] on, with the file object
    that the caller stores; -1 and no object when there is none. *)
Definition file_init_body (curr : Z) (dentry : dentry_t) (op : file_op) (i : Z)
    : KM (Z + Z * option file_t) :=
  if i <? OPEN_MAX then
    f ← get_file curr i;
    mret (if f_count f =? 0 then inr (i, Some (File dentry op 1 0)) else inl (i + 1))
  else mret (inr (-1, None)).
Definition file_init (fd : Z) (dentry : dentry_t) (op : file_op) (curr : Z) : KM (Z * option file_t) :=
  iter 9 (file_init_body curr dentry op) fd.

(** The local object [file] is not initialised when [file_init] fails. *)
Definition copy_file (curr : Z) (r : Z * option file_t) : KM unit :=
  match r.2 with Some f => put_file curr r.1 f | None => raise Undef end.

(** [__open] copies 32 bytes from [fname], wherever the string ends. *)
Definition __open (fd fname : Z) (type : Z) (op : file_op) (curr : Z) : KM Z :=
  name ← on_mem (ld_bytes fname 32);
  r ← file_init fd (Dentry name type 0 (replicate 24 0)) op curr;
  if r.1 <? 0 then mret (-1)
  else copy_file curr r ;; mret r.1.

(** ** Regular files *)

(** [file_open] does not look at the answer of [file_init]. *)
Definition file_open (fname : Z) : KM Z :=
  curr ← GETPRO;
  f ← gets fs;
  r ← on_mem (read_dentry_by_name f fname (Some (Dentry [] 0 0 [])));
  if r.1 =? 0 then
    d ← gets_opt (λ _, r.2);
    x ← file_init 2 d f_op curr;
    copy_file curr x ;;
    mret x.1
  else mret r.1.

Definition file_close (fd : Z) : KM Z :=
  curr ← GETPRO;
  f ← get_file curr fd;
  if f_count f =? 0 then mret (-1)
  else put_file curr fd (set_count (u32 (f_count f - 1)) f) ;; mret 0.

Definition file_read (fd buf nbytes : Z) : KM Z :=
  curr ← GETPRO;
  f ← get_file curr fd;
  if f_count f =? 0 then mret (-1)
  else
    img ← gets fs;
    nread ← on_mem (read_data img (inode (f_dentry f)) (f_pos f) buf (u32 nbytes));
    when (negb (nread =? -1)) (put_file curr fd (set_pos (u32 (f_pos f + nread)) f)) ;;
    mret nread.
Definition file_write (fd buf nbytes : Z) : KM Z := mret (-1).

(** ** Directories *)
Definition directory_open (fname : Z) : KM Z :=
  curr ← GETPRO; __open 2 fname DIRECTORY dir_op curr.
Definition directory_close (fd : Z) : KM Z := file_close fd.
Definition directory_read (fd buf nbytes : Z) : KM Z :=
  curr ← GETPRO;
  f ← get_file curr fd;
  if f_count f =? 0 then mret (-1)
  else
    img ← gets fs;
    n ← on_mem (n_dir img);
    if n <=? f_pos f then mret 0
    else
      let nread := if NAMESIZE <? nbytes then NAMESIZE else nbytes in
      put_file curr fd (set_pos (u32 (f_pos f + 1)) f) ;;
      on_mem (KString.memcpy buf (dir_addr img (f_pos f)) nread) ;;
      mret nread.
Definition directory_write (fd buf nbytes : Z) : KM Z := mret (-1).

(** ** The real-time clock as a file *)
Definition rtc_open (filename : Z) : KM Z :=
  curr ← GETPRO;
  on_dev (rtc_init ;; set_rtc_freq 2) ;;
  __open 2 filename RTC rtc_op curr.
Definition rtc_close (fd : Z) : KM Z := file_close fd.

(** [while (!global_interrupt_flag)]: [irqs] are the numbers of clock
    interrupts between the tests. *)
Fixpoint rtc_irqs (n : nat) : KM unit :=
  match n with O => mret () | S n => cli ;; on_dev do_rtc ;; sti ;; rtc_irqs n end.
Fixpoint rtc_wait (irqs : list nat) : KM unit :=
  g ← on_dev (gets global_interrupt_flag);
  if negb (g =? 0) then mret ()
  else match irqs with
       | [] => raise NoFuel
       | n :: irqs => rtc_irqs n ;; rtc_wait irqs
       end.
Definition rtc_read (fd buf nbytes : Z) (irqs : list nat) : KM Z :=
  rtc_wait irqs ;; on_dev (modify (with_rtc_flag 0)) ;; mret 0.
Definition rtc_write (fd buf nbytes : Z) : KM Z :=
  if (buf =? NULL) || negb (nbytes =? 4) then mret (-1)
  else
    w ← on_mem (KString.ld32 buf);
    on_dev (rtc_set (i32 w)).

(** ** The tables of operations *)
Definition op_close (op : file_op) (fd : Z) : KM Z :=
  match op with
  | f_op => file_close fd | dir_op => directory_close fd
  | terminal_op => terminal_close fd | rtc_op => rtc_close fd
  end.
Definition op_read (op : file_op) (fd buf nbytes : Z) (irqs : list nat) : KM Z :=
  match op with
  | f_op => file_read fd buf nbytes | dir_op => directory_read fd buf nbytes
  | terminal_op => terminal_read fd buf nbytes irqs | rtc_op => rtc_read fd buf nbytes irqs
  end.
Definition op_write (op : file_op) (fd buf nbytes : Z) : KM Z :=
  match op with
  | f_op => file_write fd buf nbytes | dir_op => directory_write fd buf nbytes
  | terminal_op => terminal_write fd buf nbytes | rtc_op => rtc_write fd buf nbytes
  end.

(** ** Dispatch *)
Definition validate_fd (fd curr : Z) : KM Z :=
  p ← get_proc curr;
  t ← get_files (fds p);
  if (fd <? 0) || (i32 (max_fd t) <=? fd) then mret (-1)
  else
    f ← get_file curr fd;
    mret (if f_count f =? 0 then -1 else 0).

Definition validate_fname (filename : Z) : KM Z :=
  if filename =? NULL then mret (-1)
  else
    n ← on_mem (KString.strlen filename);
    mret (if NAMESIZE <? n then -1 else 0).

Section env.
Context `{Env}.

Definition do_open (filename : Z) : KM Z :=
  errno ← validate_fname filename;
  if errno <? 0 then mret errno
  else if filename =? NULL then mret (-1)
  else
    c ← on_mem (ldc filename);
    if c =? 0 then mret (-1)
    else if c =? 46 then directory_open filename
    else
      r ← on_mem (KString.strcmp filename lit_rtc);
      if r =? 0 then rtc_open filename else file_open filename.

Definition do_close (fd : Z) : KM Z :=
  curr ← GETPRO;
  errno ← validate_fd fd curr;
  if errno <? 0 then mret errno
  else f ← get_file curr fd; op_close (fop f) fd.

(** [nbytes < 0] is false of an unsigned number. *)
Definition do_read (fd buf nbytes : Z) (irqs : list nat) : KM Z :=
  curr ← GETPRO;
  errno ← validate_fd fd curr;
  if errno <? 0 then mret errno
  else f ← get_file curr fd; op_read (fop f) fd buf (i32 nbytes) irqs.
Definition do_write (fd buf nbytes : Z) : KM Z :=
  curr ← GETPRO;
  errno ← validate_fd fd curr;
  if errno <? 0 then mret errno
  else f ← get_file curr fd; op_write (fop f) fd buf (i32 nbytes).

(** [fd_init]: the new table, whose bytes [g] are those of the memory
    allocated, with the two files of the terminal. *)
Definition fd_init (g : files) (curr : Z) : KM Z :=
  p ← kmalloc sizeof_files;
  upd_proc curr (set_fds p) ;;
  (if p =? NULL then raise Undef else
   modify (λ k, with_tables (<[p := Files 0 OPEN_MAX (map (set_count 0) (Kernel.fd g))]> (tables k)) k)) ;;
  a ← __open 0 lit_stdin TERMINAL terminal_op curr;
  b ← __open 1 lit_stdout TERMINAL terminal_op curr;
  mret (a + b).

(** [fdcopy]: a child takes a copy of its parent's table at the first call. *)
Definition fdcopy : KM unit :=
  curr ← GETPRO;
  x ← get_proc curr;
  if fds x =? NULL then
    p ← kmalloc sizeof_files;
    upd_proc curr (set_fds p) ;;
    y ← get_proc (parent x);
    t ← get_files (fds y);
    if p =? NULL then raise Undef
    else modify (λ k, with_tables (<[p := t]> (tables k)) k)
  else mret ().

(** ** System calls *)
Definition sys_open (filename : Z) : KM Z := fdcopy ;; do_open filename.
Definition sys_close (fd : Z) : KM Z := fdcopy ;; do_close fd.
Definition sys_read (fd buf nbytes : Z) (irqs : list nat) : KM Z := fdcopy ;; do_read fd buf nbytes irqs.
Definition sys_write (fd buf nbytes : Z) : KM Z := fdcopy ;; do_write fd buf nbytes.

(** [fputs] of [lib/io.c]. *)
Definition fputs (fd s : Z) : KM Z :=
  size ← on_mem (KString.strlen s); sys_write fd s size.
End env.
