(* ===== verification/VfsProps.v ===== *)
(** * The table of open files

    How the operations of [Vfs] act on the file table of the running thread. *)
From S2P Require Import Prelude Bytes KString StringProps Cfs Fs FsProps Device Kernel Console Terminal TerminalProps Vfs.

(** ** The table as a value *)

(** Eight entries, each closed (count 0) or open once. *)
Record table_ok (T : files) : Prop := {
  tb_length : length (Kernel.fd T) = 8%nat;
  tb_max : max_fd T = 8;
  tb_count : Forall (λ f, f_count f = 0 \/ f_count f = 1) (Kernel.fd T)
}.
Definition set_fd (i : nat) (f : file_t) (T : files) : files :=
  Files (count T) (max_fd T) (<[i := f]> (Kernel.fd T)).
(** The open file of a descriptor. *)
Definition open_file (T : files) (d : Z) : option file_t :=
  if d <? 0 then None
  else match Kernel.fd T !! Z.to_nat d with
       | Some f => if f_count f =? 0 then None else Some f
       | None => None
       end.
(** The first closed entry of [l], numbered from [i]. *)
Fixpoint free_from (l : list file_t) (i : nat) : option nat :=
  match l with
  | [] => None
  | f :: l => if f_count f =? 0 then Some i else free_from l (S i)
  end.
Definition first_free (T : files) (i : nat) : option nat := free_from (drop i (Kernel.fd T)) i.

Lemma set_fd_ok i f T : table_ok T -> f_count f = 0 \/ f_count f = 1 -> table_ok (set_fd i f T).
Proof.
  intros [H1 H2 H3] Hf. constructor; [by simpl; rewrite length_insert|done|]. by apply Forall_insert.
Qed.

Lemma free_from_spec l i j :
  free_from l i = Some j -> exists f, (i <= j)%nat /\ l !! (j - i)%nat = Some f /\ f_count f = 0 /\
    forall n g, (n < j - i)%nat -> l !! n = Some g -> f_count g <> 0.
Proof.
  revert i. induction l as [|f l IH]; intros i; simpl; [done|].
  destruct (Z.eqb_spec (f_count f) 0) as [H0|H0].
  - intros [= <-]. exists f. rewrite Nat.sub_diag. split; [lia|]. split; [done|]. split; [done|]. lia.
  - intros (g & H1 & H2 & H3 & H4)%IH. exists g. split; [lia|].
    replace (j - i)%nat with (S (j - S i)) by lia. split; [done|]. split; [done|].
    intros [|n] x Hn Hx; [by injection Hx as <-|]. apply (H4 n); [lia|done].
Qed.
Lemma free_from_none l i f n : free_from l i = None -> l !! n = Some f -> f_count f <> 0.
Proof.
  revert i n. induction l as [|g l IH]; intros i n; simpl; [done|].
  destruct (Z.eqb_spec (f_count g) 0) as [H0|H0]; [done|].
  intros H. destruct n as [|n]; simpl; [by intros [= <-]|]. by apply (IH (S i)).
Qed.

Section table.
Context (c p : Z).

(** The running thread is [c] and its table, at [p], is [T]. *)
Record table_at (k : kst) (T : files) : Prop := {
  ta_cpu : cpu_thread (sched k) = c;
  ta_thread : c <> NULL;
  ta_fds : p <> NULL;
  ta_proc : exists x, procs k !! c = Some x /\ fds x = p;
  ta_table : tables k !! p = Some T
}.
Definition with_table (T : files) (k : kst) : kst := with_tables (<[p := T]> (tables k)) k.

Lemma table_at_set k T T' : table_at k T -> table_at (with_table T' k) T'.
Proof. intros []. constructor; try done. cbn. apply lookup_insert_eq. Qed.
Lemma table_at_frame k k' T :
  table_at k T -> cpu_thread (sched k') = cpu_thread (sched k) -> procs k' = procs k ->
  tables k' = tables k -> table_at k' T.
Proof. intros [] H1 H2 H3. constructor; rewrite ?H1, ?H2, ?H3; done. Qed.
Lemma with_table_twice T T' k : with_table T (with_table T' k) = with_table T k.
Proof. unfold with_table, with_tables. cbn. by rewrite insert_insert_eq. Qed.

Lemma getpro_run k T : table_at k T -> GETPRO k = Ok (c, k).
Proof.
  intros []. unfold GETPRO, on_sched, zoom, gets. rewrite ta_cpu0. by destruct k.
Qed.
Lemma get_proc_run k T : table_at k T -> exists x, get_proc c k = Ok (x, k) /\ fds x = p.
Proof.
  intros [? ? ? (x & Hx & Hp) ?]. exists x. split; [|done]. unfold get_proc, gets_opt.
  destruct (Z.eqb_spec c NULL); [done|]. by rewrite Hx.
Qed.
Lemma get_files_run k T : table_at k T -> get_files p k = Ok (T, k).
Proof.
  intros []. unfold get_files, gets_opt. destruct (Z.eqb_spec p NULL); [done|]. by rewrite ta_table0.
Qed.

Lemma get_file_run k T i f :
  table_at k T -> Kernel.fd T !! i = Some f -> get_file c (Z.of_nat i) k = Ok (f, k).
Proof.
  intros Ht Hi. destruct (get_proc_run k T Ht) as (x & Hx & Hp). unfold get_file.
  erewrite bind_ok; [|exact Hx]. rewrite Hp. erewrite bind_ok; [|by apply get_files_run].
  apply at_index_run; [lia|]. by rewrite Nat2Z.id.
Qed.

Lemma put_file_run k T i f :
  table_at k T -> (i < length (Kernel.fd T))%nat ->
  put_file c (Z.of_nat i) f k = Ok (tt, with_table (set_fd i f T) k).
Proof.
  intros Ht Hi. destruct (get_proc_run k T Ht) as (x & Hx & Hp). unfold put_file.
  erewrite bind_ok; [|exact Hx]. rewrite Hp. erewrite bind_ok; [|by apply get_files_run].
  erewrite bind_ok.
  2: { unfold set_index, gets_opt. destruct (Z.ltb_spec (Z.of_nat i) 0); [lia|]. cbn [orb].
       destruct (Z.leb_spec (Z.of_nat (length (Kernel.fd T))) (Z.of_nat i)); [lia|]. done. }
  unfold upd_files. erewrite bind_ok; [|by apply get_files_run]. by rewrite Nat2Z.id.
Qed.

Lemma validate_fd_run k T d :
  table_at k T -> table_ok T ->
  validate_fd d c k = Ok (match open_file T d with Some _ => 0 | None => -1 end, k).
Proof.
  intros Ht [Hl Hm Hc]. destruct (get_proc_run k T Ht) as (x & Hx & Hp). unfold validate_fd, open_file.
  erewrite bind_ok; [|exact Hx]. rewrite Hp. erewrite bind_ok; [|by apply get_files_run]. rewrite Hm.
  change (i32 8) with 8. destruct (Z.ltb_spec d 0); cbn [orb]; [done|].
  destruct (Z.leb_spec 8 d) as [H8|H8].
  { by rewrite lookup_ge_None_2 by (rewrite Hl; lia). }
  destruct (lookup_lt_is_Some_2 (Kernel.fd T) (Z.to_nat d) ltac:(rewrite Hl; lia)) as [f Hf]. rewrite Hf.
  erewrite bind_ok.
  2: { rewrite <-(Z2Nat.id d) by done. by eapply get_file_run. }
  by destruct (f_count f =? 0).
Qed.

Lemma file_init_loop k T d op i n :
  table_at k T -> table_ok T -> (i <= 8)%nat -> (8 - i < n)%nat ->
  iter n (file_init_body c d op) (Z.of_nat i) k =
    Ok (match first_free T i with
        | Some j => (Z.of_nat j, Some (File d op 1 0))
        | None => (-1, None)
        end, k).
Proof.
  intros Ht [Hl Hm Hc]. revert i. induction n as [|n IH]; intros i Hi Hn; [lia|]. cbn [iter].
  unfold first_free in *. destruct (decide (i < 8)%nat) as [H8|H8].
  - destruct (lookup_lt_is_Some_2 (Kernel.fd T) i ltac:(lia)) as [f Hf]. rewrite (drop_S _ _ _ Hf).
    cbn [free_from]. erewrite bind_ok.
    2: { unfold file_init_body. change OPEN_MAX with 8. destruct (Z.ltb_spec (Z.of_nat i) 8); [|lia].
         erewrite bind_ok; [|by eapply get_file_run]. reflexivity. }
    destruct (f_count f =? 0); [done|]. rewrite <-(IH (S i)) by lia. f_equal. lia.
  - rewrite drop_ge by lia. erewrite bind_ok.
    2: { unfold file_init_body. change OPEN_MAX with 8. by destruct (Z.ltb_spec (Z.of_nat i) 8); [lia|]. }
    done.
Qed.
Lemma file_init_run k T d op i :
  table_at k T -> table_ok T -> (i <= 8)%nat ->
  file_init (Z.of_nat i) d op c k =
    Ok (match first_free T i with
        | Some j => (Z.of_nat j, Some (File d op 1 0))
        | None => (-1, None)
        end, k).
Proof. intros. unfold file_init. apply (file_init_loop k T); try done. lia. Qed.

Lemma first_free_lt T i j : first_free T i = Some j -> (i <= j < length (Kernel.fd T))%nat.
Proof.
  intros (f & H1 & H2 & _)%free_from_spec. split; [done|]. rewrite lookup_drop in H2.
  apply lookup_lt_Some in H2. lia.
Qed.

(** Storing the new file object. *)
Lemma install_run k T j f :
  table_at k T -> (j < length (Kernel.fd T))%nat ->
  copy_file c (Z.of_nat j, Some f) k = Ok (tt, with_table (set_fd j f T) k).
Proof. intros Ht Hj. unfold copy_file. cbn [fst snd]. by apply put_file_run. Qed.

Lemma with_memory_same k : with_memory (memory k) k = k.
Proof. by destruct k. Qed.
Lemma on_mem_pure {A} k (m : M mem A) r : m (memory k) = Ok (r, memory k) -> on_mem m k = Ok (r, k).
Proof. intros H. unfold on_mem, zoom. rewrite H. by rewrite with_memory_same. Qed.
End table.
