(* ===== verification/VfsContract.v ===== *)
(** * The contract of the virtual file system *)
From S2P Require Import Prelude Bytes KString RbTree StringProps MemProps StringContract Cfs Fs FsProps FsContract Device Kernel Console Terminal TerminalProps Vfs VfsProps.

Section contract.
Context `{Env} (c p : Z) (base : Z) (bs : list Z).

(** The kernel state: the running thread has the file table [T], and the file
    system image [bs] lies in memory. *)
Record ready (k : kst) (T : files) : Prop := {
  rd_table : table_at c p k T;
  rd_ok : table_ok T;
  rd_fs : fs k = fs_at base bs;
  rd_image : image bs;
  rd_dir : dir_ok bs;
  rd_mem : bytes_at (memory k) base bs
}.

(** ** Opening *)

(** The new entry of a successful open. *)
Definition opened (j : nat) (d : dentry_t) (op : file_op) (T : files) : files :=
  set_fd j (File d op 1 0) T.
(** What opening a file answers when the names are good. *)
Definition open_answer (d : dentry_t) (op : file_op) (T : files) (k : kst) (full : res (Z * kst)) : res (Z * kst) :=
  match first_free T 2 with
  | Some j => Ok (Z.of_nat j, with_table p (opened j d op T) k)
  | None => full
  end.

Lemma file_open_run k T fname s :
  ready k T -> cstr (memory k) fname s ->
  file_open fname k =
    match dir_find bs s with
    | Some i => open_answer (dir_entry bs i) f_op T k (Bad Undef)
    | None => Ok (-1, k)
    end.
Proof.
  intros [Ht Hok Hfs Himg Hdir Hm] Hs. unfold file_open. erewrite bind_ok; [|by eapply getpro_run].
  erewrite bind_ok; [|done]. rewrite Hfs.
  erewrite bind_ok; [|apply on_mem_pure; by apply by_name_spec].
  destruct (dir_find bs s) as [i|]; cbn [fst snd]; [|done].
  change (0 =? 0) with true. cbv iota. erewrite bind_ok; [|done].
  erewrite bind_ok; [|apply (file_init_run c p k T _ _ 2); [done|done|lia]].
  unfold open_answer. destruct (first_free T 2) as [j|] eqn:Hj; [|done].
  erewrite bind_ok; [|apply install_run; [done|apply (first_free_lt _ _ _ Hj)]]. done.
Qed.

Lemma __open_run k T fname l type op :
  ready k T -> bytes_at (memory k) fname l -> length l = 32%nat ->
  __open 2 fname type op c k =
    open_answer (Dentry l type 0 (replicate 24 0)) op T k (Ok (-1, k)).
Proof.
  intros [Ht Hok _ _ _ _] Hl Hlen. unfold __open.
  erewrite bind_ok; [|apply on_mem_pure; rewrite <-Hlen; by apply ld_bytes_spec].
  erewrite bind_ok; [|apply (file_init_run c p k T _ _ 2); [done|done|lia]].
  unfold open_answer. destruct (first_free T 2) as [j|] eqn:Hj; cbn [fst]; [|done].
  destruct (Z.ltb_spec (Z.of_nat j) 0); [lia|].
  erewrite bind_ok; [|apply install_run; [done|apply (first_free_lt _ _ _ Hj)]]. done.
Qed.

(** The name is an alias of the clock's: [strcmp] takes it for "rtc". *)
Definition names_rtc (s : list Z) : bool :=
  bool_decide (s `prefix_of` lit "rtc") || bool_decide (lit "rtc" `prefix_of` s).

Lemma validate_fname_run k fname s :
  fname <> NULL -> cstr (memory k) fname s ->
  validate_fname fname k = Ok (if NAMESIZE <? Z.of_nat (length s) then -1 else 0, k).
Proof.
  intros Hn Hs. unfold validate_fname. destruct (Z.eqb_spec fname NULL); [done|].
  erewrite bind_ok; [|apply on_mem_pure; by apply strlen_spec]. done.
Qed.
Lemma first_char_run k fname s :
  cstr (memory k) fname s -> on_mem (ldc fname) k = Ok (i8 (default 0 (head s)), k).
Proof.
  intros (Hm & Hc & _). apply on_mem_pure. unfold ldc.
  assert (memory k !! u32 fname = Some (default 0 (head s))) as He.
  { specialize (Hm O (default 0 (head s))). rewrite Z.add_0_r in Hm. apply Hm. by destruct s. }
  erewrite bind_ok; [done|]. unfold ld8, gets_opt. by rewrite He.
Qed.

(** [do_open] on a string, by its first character. *)
Lemma do_open_run k T fname s :
  ready k T -> fname <> NULL -> cstr (memory k) fname s -> cstr (memory k) lit_rtc (lit "rtc") ->
  do_open fname k =
    if 32 <? Z.of_nat (length s) then Ok (-1, k)
    else match s with
         | [] => Ok (-1, k)
         | b :: _ => if b =? 46 then directory_open fname k
                     else if names_rtc s then rtc_open fname k else file_open fname k
         end.
Proof.
  intros Hr Hn Hs Hlit. unfold do_open. erewrite bind_ok; [|by apply validate_fname_run].
  change NAMESIZE with 32. destruct (32 <? Z.of_nat (length s)); [done|].
  change (0 <? 0) with false. cbv iota. destruct (Z.eqb_spec fname NULL); [done|].
  erewrite bind_ok; [|by apply first_char_run]. pose proof Hs as (_ & Hc & _).
  destruct s as [|b s]; cbn [head default]; [done|]. inversion_clear Hc as [|? ? Hb _].
  change (id b) with b. rewrite i8_zero by lia. destruct (Z.eqb_spec b 0); [lia|].
  assert ((i8 b =? 46) = (b =? 46)) as ->.
  { destruct (Z.eqb_spec b 46) as [->|Hne]; [done|]. apply Z.eqb_neq. intros He. apply Hne.
    apply i8_inj; [lia|lia|done]. }
  destruct (b =? 46); [done|].
  destruct (strcmp_run (memory k) fname lit_rtc (b :: s) (lit "rtc") Hs Hlit) as (x & Hx & Hiff).
  erewrite bind_ok; [|by apply on_mem_pure].
  unfold names_rtc. destruct (Z.eqb_spec x 0) as [H0|H0].
  - apply Hiff in H0 as [H0|H0]; [by rewrite bool_decide_true|].
    by rewrite (bool_decide_true (lit "rtc" `prefix_of` _)), orb_true_r.
  - rewrite !bool_decide_false; [done|by intros ?; apply H0, Hiff; right|by intros ?; apply H0, Hiff; left].
Qed.

(** ** Descriptors *)
Lemma open_file_some T d f :
  open_file T d = Some f ->
  0 <= d /\ Kernel.fd T !! Z.to_nat d = Some f /\ f_count f <> 0.
Proof.
  unfold open_file. destruct (Z.ltb_spec d 0); [done|].
  destruct (Kernel.fd T !! Z.to_nat d) as [g|]; [|done].
  destruct (Z.eqb_spec (f_count g) 0); [done|]. by intros [= <-].
Qed.
Lemma get_open_run k T d f :
  table_at c p k T -> open_file T d = Some f -> get_file c d k = Ok (f, k).
Proof.
  intros Ht (Hd & Hf & _)%open_file_some. rewrite <-(Z2Nat.id d) by done. by eapply get_file_run.
Qed.
Lemma put_open_run k T d f g :
  table_at c p k T -> open_file T d = Some f ->
  put_file c d g k = Ok (tt, with_table p (set_fd (Z.to_nat d) g T) k).
Proof.
  intros Ht (Hd & Hf & _)%open_file_some. rewrite <-(Z2Nat.id d) at 1 by done.
  apply put_file_run; [done|]. by eapply lookup_lt_Some.
Qed.

(** The calls on a descriptor that is open reach its operation; on any other
    they return -1. *)
Lemma do_read_run k T d buf n irqs :
  table_at c p k T -> table_ok T ->
  do_read d buf n irqs k =
    match open_file T d with
    | Some f => op_read (fop f) d buf (i32 n) irqs k
    | None => Ok (-1, k)
    end.
Proof.
  intros Ht Hok. unfold do_read. erewrite bind_ok; [|by eapply getpro_run].
  erewrite bind_ok; [|by eapply validate_fd_run].
  destruct (open_file T d) as [f|] eqn:Hf; [|done]. change (0 <? 0) with false. cbv iota.
  erewrite bind_ok; [done|by eapply get_open_run].
Qed.
Lemma do_write_run k T d buf n :
  table_at c p k T -> table_ok T ->
  do_write d buf n k =
    match open_file T d with
    | Some f => op_write (fop f) d buf (i32 n) k
    | None => Ok (-1, k)
    end.
Proof.
  intros Ht Hok. unfold do_write. erewrite bind_ok; [|by eapply getpro_run].
  erewrite bind_ok; [|by eapply validate_fd_run].
  destruct (open_file T d) as [f|] eqn:Hf; [|done]. change (0 <? 0) with false. cbv iota.
  erewrite bind_ok; [done|by eapply get_open_run].
Qed.
Lemma do_close_run k T d :
  table_at c p k T -> table_ok T ->
  do_close d k =
    match open_file T d with
    | Some f => op_close (fop f) d k
    | None => Ok (-1, k)
    end.
Proof.
  intros Ht Hok. unfold do_close. erewrite bind_ok; [|by eapply getpro_run].
  erewrite bind_ok; [|by eapply validate_fd_run].
  destruct (open_file T d) as [f|] eqn:Hf; [|done]. change (0 <? 0) with false. cbv iota.
  erewrite bind_ok; [done|by eapply get_open_run].
Qed.

(** Closing everything but a terminal frees the entry. *)
Definition closed (d : Z) (f : file_t) (T : files) : files := set_fd (Z.to_nat d) (set_count 0 f) T.
Lemma file_close_run k T d f :
  table_at c p k T -> table_ok T -> open_file T d = Some f ->
  file_close d k = Ok (0, with_table p (closed d f T) k).
Proof.
  intros Ht [_ _ Hc] Hf. pose proof (open_file_some _ _ _ Hf) as (Hd & Hl & Hn).
  apply (Forall_lookup_1 _ _ _ _ Hc) in Hl as [H0|H1]; [done|].
  unfold file_close. erewrite bind_ok; [|by eapply getpro_run]. erewrite bind_ok; [|by eapply get_open_run].
  rewrite H1. change (1 =? 0) with false. cbv iota. change (u32 (1 - 1)) with 0.
  erewrite bind_ok; [|by eapply put_open_run]. done.
Qed.

Lemma open_file_set T i g d :
  (i < length (Kernel.fd T))%nat ->
  open_file (set_fd i g T) d =
    if decide (d = Z.of_nat i) then (if f_count g =? 0 then None else Some g) else open_file T d.
Proof.
  intros Hi. unfold open_file, set_fd. cbn [Kernel.fd]. destruct (decide (d = Z.of_nat i)) as [->|Hne].
  - destruct (Z.ltb_spec (Z.of_nat i) 0); [lia|]. by rewrite Nat2Z.id, list_lookup_insert_eq.
  - destruct (Z.ltb_spec d 0); [done|]. rewrite list_lookup_insert_ne by lia. done.
Qed.

(** Freeing the entry that the last open took makes it the first free one. *)
Lemma free_from_set l i j f g :
  free_from l i = Some j -> f_count g <> 0 -> f_count f = 0 ->
  free_from (<[(j - i)%nat := f]> (<[(j - i)%nat := g]> l)) i = Some j.
Proof.
  intros Hj Hg Hf. rewrite list_insert_insert_eq. revert i Hj.
  induction l as [|x l IH]; intros i Hj; [done|]. cbn [free_from] in Hj.
  destruct (Z.eqb_spec (f_count x) 0) as [H0|H0].
  - injection Hj as <-. rewrite Nat.sub_diag. cbn. by destruct (Z.eqb_spec (f_count f) 0).
  - pose proof (free_from_spec _ _ _ Hj) as (_ & Hle & _). replace (j - i)%nat with (S (j - S i)) by lia.
    cbn. destruct (Z.eqb_spec (f_count x) 0); [done|]. by apply IH.
Qed.
Lemma first_free_reopen T j d op :
  first_free T 2 = Some j ->
  first_free (closed (Z.of_nat j) (File d op 1 0) (opened j d op T)) 2 = Some j.
Proof.
  intros Hj. pose proof (first_free_lt _ _ _ Hj) as [Hle Hlt]. unfold first_free, closed, opened, set_fd in *.
  cbn [Kernel.fd]. rewrite Nat2Z.id. rewrite !drop_insert_ge by lia. by apply free_from_set.
Qed.

(** ** Reading a file *)
Definition moved (d : Z) (f : file_t) (r : Z) (T : files) : files :=
  set_fd (Z.to_nat d) (set_pos (f_pos f + r) f) T.

(** The descriptor is open on the regular file [i] of the image, at a
    position within it. *)
Record reading (T : files) (d : Z) (f : file_t) (i : Z) : Prop := {
  rg_open : open_file T d = Some f;
  rg_op : fop f = f_op;
  rg_inode : inode (f_dentry f) = i;
  rg_ok : file_ok bs i;
  rg_pos : 0 <= f_pos f <= img_size bs i
}.
(** The bytes that the next read of [n] gives. *)
Definition next_bytes (i pos n : Z) : list Z := take (Z.to_nat n) (drop (Z.to_nat pos) (content bs i)).

Lemma file_read_run k T d f i buf n :
  ready k T -> reading T d f i -> buf <> NULL -> 0 <= n < 2147483648 ->
  mapped (memory k) buf (Z.to_nat n) -> apart buf (Z.to_nat n) base (length bs) ->
  let r := Z.min n (img_size bs i - f_pos f) in
  do_read d buf n [] k =
    Ok (r, with_table p (moved d f r T) (with_memory (poke buf (next_bytes i (f_pos f) r) (memory k)) k)).
Proof.
  intros Hr [Hf Hop Hi Hfok Hpos] Hb Hn Hm Ha r. pose proof Hfok as [Hino Hsz _].
  destruct Hr as [Ht Hok Hfs Himg Hdir Hmem]. rewrite (do_read_run k T d buf n [] Ht Hok), Hf, Hop.
  cbn [op_read]. unfold file_read. erewrite bind_ok; [|by eapply getpro_run].
  erewrite bind_ok; [|by eapply get_open_run].
  pose proof (open_file_some _ _ _ Hf) as (Hd & _ & Hcnt). destruct (Z.eqb_spec (f_count f) 0); [done|].
  erewrite bind_ok; [|done]. rewrite Hfs, Hi, i32_id, u32_id by lia.
  assert (Hread : read_data (fs_at base bs) i (f_pos f) buf n (memory k) =
    Ok (r, poke buf (next_bytes i (f_pos f) r) (memory k))).
  { assert (Z.to_nat (Z.min n (img_size bs i - f_pos f)) <= Z.to_nat n)%nat as Hle by lia.
    rewrite (read_data_run (memory k) base bs i (f_pos f) buf n Himg Hmem); auto; try lia.
    - unfold read_answer. destruct (Z.leb_spec (img_ninode bs) i); [lia|].
      destruct (Z.eqb_spec buf NULL); [done|]. destruct (Z.leb_spec (img_size bs i) (f_pos f)); [|done].
      replace r with 0 by (unfold r; lia). done.
    - intros j Hj. apply Hm. lia.
    - eapply apart_le; [exact Ha|lia|lia]. }
  erewrite bind_ok; [|unfold on_mem, zoom; by rewrite Hread].
  assert (0 <= r) by (unfold r; lia). destruct (Z.eqb_spec r (-1)); [lia|]. cbn [negb when].
  erewrite bind_ok; [|eapply put_open_run; [eapply table_at_frame; [exact Ht|done..]|exact Hf]].
  unfold mret, M_ret. do 3 f_equal. unfold moved. do 2 f_equal. apply u32_id. unfold r. lia.
Qed.

(** The state after a read: the image and the table are still in place. *)
Lemma ready_after_read k T d f i buf n :
  ready k T -> reading T d f i -> 0 <= n < 2147483648 ->
  apart buf (Z.to_nat n) base (length bs) ->
  let r := Z.min n (img_size bs i - f_pos f) in
  ready (with_table p (moved d f r T) (with_memory (poke buf (next_bytes i (f_pos f) r) (memory k)) k)) (moved d f r T) /\
  reading (moved d f r T) d (set_pos (f_pos f + r) f) i.
Proof.
  intros [Ht Hok Hfs Himg Hdir Hmem] [Hf Hop Hi Hfok Hpos] Hn Ha r.
  pose proof (open_file_some _ _ _ Hf) as (Hd & Hl & Hcnt). pose proof (lookup_lt_Some _ _ _ Hl) as Hlt.
  pose proof Hok as [_ _ Hc].
  split.
  - constructor; try done.
    + eapply table_at_set, table_at_frame; [exact Ht|done..].
    + apply set_fd_ok; [done|]. by apply (Forall_lookup_1 _ _ _ _ Hc) in Hl.
    + cbn. apply bytes_at_poke_apart; [done|]. eapply apart_le; [exact Ha| |lia].
      unfold next_bytes. rewrite length_take. lia.
  - constructor; try done.
    + unfold moved. rewrite open_file_set by done. rewrite decide_True by lia. cbn.
      by destruct (Z.eqb_spec (f_count f) 0).
    + simpl. unfold r. lia.
Qed.

(** A program that reads a file to its end, [n] bytes at a time. *)
Fixpoint read_all (fuel : nat) (d buf n : Z) : KM (list Z) :=
  match fuel with
  | O => raise NoFuel
  | S fuel =>
      cnt ← do_read d buf n [];
      if cnt =? 0 then mret []
      else
        l ← on_mem (ld_bytes buf (Z.to_nat cnt));
        l' ← read_all fuel d buf n;
        mret (l ++ l')
  end.

Lemma reads_left n size pos (fuel : nat) :
  0 < n -> 0 <= pos <= size -> size - pos <= n * (Z.of_nat (S fuel) - 1) ->
  Z.min n (size - pos) <> 0 -> size - (pos + Z.min n (size - pos)) <= n * (Z.of_nat fuel - 1).
Proof.
  intros Hn Hp Hf Hr. assert (1 <= Z.of_nat fuel) by nia.
  destruct (Z.min_spec n (size - pos)) as [[_ ->]|[_ ->]]; nia.
Qed.

Lemma read_all_run fuel k T d f i buf n :
  ready k T -> reading T d f i -> buf <> NULL -> 0 < n < 2147483648 ->
  mapped (memory k) buf (Z.to_nat n) -> apart buf (Z.to_nat n) base (length bs) ->
  img_size bs i - f_pos f <= n * (Z.of_nat fuel - 1) ->
  exists k' T', read_all fuel d buf n k = Ok (drop (Z.to_nat (f_pos f)) (content bs i), k') /\
    ready k' T' /\ reading T' d (set_pos (img_size bs i) f) i.
Proof.
  revert k T f. induction fuel as [|fuel IH]; intros k T f Hr Hrd Hb Hn Hm Ha Hfuel.
  { destruct (rg_pos _ _ _ _ Hrd). lia. }
  pose proof (file_size _ _ (rg_ok _ _ _ _ Hrd)) as Hsz.
  assert (Hcl : Z.of_nat (length (content bs i)) = img_size bs i)
    by (apply content_length; [apply (rd_image _ _ Hr)|apply (rg_ok _ _ _ _ Hrd)]).
  pose proof (rg_pos _ _ _ _ Hrd) as Hpos.
  set (r := Z.min n (img_size bs i - f_pos f)).
  pose proof (file_read_run k T d f i buf n Hr Hrd Hb ltac:(lia) Hm Ha) as Hread. fold r in Hread.
  pose proof (ready_after_read k T d f i buf n Hr Hrd ltac:(lia) Ha) as [Hr1 Hrd1]. fold r in Hr1, Hrd1.
  cbn [read_all]. erewrite bind_ok; [|exact Hread]. destruct (Z.eqb_spec r 0) as [H0|H0].
  - assert (f_pos f = img_size bs i) as He by (unfold r in H0; lia).
    eexists _, _. split; [|split; [exact Hr1|]].
    + rewrite (drop_ge (content bs i)) by lia. done.
    + by replace (f_pos f + r) with (img_size bs i) in Hrd1 by lia.
  - set (k1 := with_table _ _ _) in *. set (l := next_bytes i (f_pos f) r) in *.
    assert (Hll : length l = Z.to_nat r).
    { unfold l, next_bytes. rewrite length_take, length_drop. unfold r in *. lia. }
    erewrite bind_ok.
    2: { apply on_mem_pure. rewrite <-Hll. apply ld_bytes_spec. unfold k1. cbn. apply bytes_at_poke. lia. }
    destruct (IH k1 _ _ Hr1 Hrd1 Hb Hn) as (k' & T' & H1 & H2 & H3).
    + unfold k1. cbn. by apply poke_mapped.
    + done.
    + cbn [f_pos set_pos]. apply (reads_left n _ _ fuel); [lia|done|exact Hfuel|exact H0].
    + exists k', T'. split; [|done]. erewrite bind_ok; [|exact H1]. unfold mret, M_ret. do 2 f_equal.
      cbn [f_pos set_pos]. unfold l, next_bytes.
      replace (Z.to_nat (f_pos f + r)) with (Z.to_nat (f_pos f) + Z.to_nat r)%nat by (unfold r; lia).
      rewrite <-drop_drop. apply take_drop.
Qed.
End contract.

Section lifecycle.
Context `{Env} (c p : Z) (base : Z) (bs : list Z).

(** A file name that is neither a directory's nor an alias of the clock's. *)
Record file_name (m : mem) (fname : Z) (s : list Z) : Prop := {
  fn_null : fname <> NULL;
  fn_str : cstr m fname s;
  fn_rtc : cstr m lit_rtc (lit "rtc");
  fn_plain : head s <> Some 46 /\ names_rtc s = false
}.

Lemma do_open_file k T fname s :
  ready c p base bs k T -> file_name (memory k) fname s ->
  do_open fname k =
    if bool_decide (s = []) || (32 <? Z.of_nat (length s)) then Ok (-1, k)
    else match dir_find bs s with
         | Some i => open_answer p (dir_entry bs i) f_op T k (Bad Undef)
         | None => Ok (-1, k)
         end.
Proof.
  intros Hr [Hn Hs Hl [Hh Hal]]. rewrite (do_open_run c p base bs k T fname s Hr Hn Hs Hl).
  destruct (32 <? Z.of_nat (length s)); [by rewrite orb_true_r|]. rewrite orb_false_r.
  destruct s as [|b s]; [done|]. rewrite bool_decide_false by done.
  destruct (Z.eqb_spec b 46) as [->|_]; [done|]. rewrite Hal. by apply (file_open_run c p base bs k T).
Qed.

Lemma ready_set_table k T T' :
  ready c p base bs k T -> table_ok T' -> ready c p base bs (with_table p T' k) T'.
Proof.
  intros [Ht Hok Hfs Himg Hdir Hmem] Hok'. constructor; try done. by apply (table_at_set c p k T).
Qed.

(** Using a descriptor that is not open. *)
Lemma bad_descriptor k T d buf n irqs :
  ready c p base bs k T -> open_file T d = None ->
  do_read d buf n irqs k = Ok (-1, k) /\ do_write d buf n k = Ok (-1, k) /\ do_close d k = Ok (-1, k).
Proof.
  intros [Ht Hok _ _ _ _] Hd.
  rewrite (do_read_run c p k T), (do_write_run c p k T), (do_close_run c p k T), Hd by done. done.
Qed.

Lemma opened_ok j d op T : table_ok T -> table_ok (opened j d op T).
Proof. intros Hok. apply set_fd_ok; [done|by right]. Qed.
Lemma opened_file j d op T :
  (j < length (Kernel.fd T))%nat -> open_file (opened j d op T) (Z.of_nat j) = Some (File d op 1 0).
Proof. intros Hj. unfold opened. rewrite open_file_set by done. by rewrite decide_True. Qed.
End lifecycle.



(** C30: A program that reads an open file [n] bytes at a time until a read
    gives 0 stops, after at most one read for each [n] bytes that are left and
    one more, and has then read exactly the rest of the file; the descriptor
    is at the end of the file. *)
Theorem read_to_end c p base bs k T d f i buf n fuel :
  ready c p base bs k T -> reading bs T d f i -> buf <> NULL -> 0 < n < 2147483648 ->
  mapped (memory k) buf (Z.to_nat n) -> apart buf (Z.to_nat n) base (length bs) ->
  img_size bs i - f_pos f <= n * (Z.of_nat fuel - 1) ->
  exists k' T', read_all fuel d buf n k = Ok (drop (Z.to_nat (f_pos f)) (content bs i), k') /\
    ready c p base bs k' T' /\ reading bs T' d (set_pos (img_size bs i) f) i.
Proof. apply read_all_run. Qed.

(** With all descriptors in use, opening a directory gives -1 and changes
    nothing, as the comments say of every open; opening a regular file that
    exists is undefined: [file_open] copies a file object that [file_init] has
    not filled in to entry -1 of the table. *)
Theorem open_when_full `{Env} c p base bs k T fname s i dirname name rest :
  ready c p base bs k T -> first_free T 2 = None ->
  file_name (memory k) fname s -> s <> [] -> Z.of_nat (length s) <= 32 -> dir_find bs s = Some i ->
  dirname <> NULL -> cstr (memory k) dirname (46 :: rest) -> (length rest < 32)%nat ->
  cstr (memory k) lit_rtc (lit "rtc") -> bytes_at (memory k) dirname name -> length name = 32%nat ->
  do_open dirname k = Ok (-1, k) /\ do_open fname k = Bad Undef.
Proof.
  intros Hr Hfull Hf Hs Hlen Hi Hdn Hd Hrest Hl Hname Hnl. split.
  - rewrite (do_open_run c p base bs k T dirname (46 :: rest) Hr Hdn Hd Hl).
    destruct (Z.ltb_spec 32 (Z.of_nat (length (46 :: rest)))); [simpl in *; lia|].
    change (46 =? 46) with true. cbv iota. unfold directory_open.
    erewrite bind_ok; [|eapply getpro_run, Hr].
    rewrite (__open_run c p base bs k T dirname name DIRECTORY dir_op Hr Hname Hnl).
    unfold open_answer. by rewrite Hfull.
  - rewrite (do_open_file c p base bs k T fname s Hr Hf). rewrite bool_decide_false by done.
    destruct (Z.ltb_spec 32 (Z.of_nat (length s))); [lia|]. rewrite Hi. unfold open_answer. by rewrite Hfull.
Qed.

(** ** A process with the sample image *)
Definition vfs_small : mem :=
  poke 400 (46 :: replicate 31 0) (poke 300 (lit "rtc" ++ [0])
    (poke 200 (lit "frame0.txt" ++ [0]) (poke 100 (replicate 10 170) ∅))).
Definition vfs_mem : mem := poke 65536 sample_image vfs_small.
#[local] Instance sample_env : Env :=
  {| kmalloc := λ _, mret 40960; lit_rtc := 300; lit_stdin := 100; lit_stdout := 100 |}.

Definition std_file : file_t := File no_dentry terminal_op 1 0.
Definition no_file : file_t := File no_dentry f_op 0 0.
Definition frame_file (pos : Z) : file_t := File (dir_entry sample_image 1) f_op 1 pos.
Definition vfs_files (l : list file_t) : files := Files 0 8 (std_file :: std_file :: l).
Definition vfs_kst (l : list file_t) : kst :=
  Kst vfs_mem (Dev [] (λ _ _, 0) 0 0 0 0)
    (Cfs (Weight 0 0) 0 0 0 (Rb_state ∅ 0) 0 0 ∅ ∅ None 8192 true) ∅ {[8192 := Proc 64 4096 0]}
    {[4096 := vfs_files l]} [] 0 1 0 0 ∅ (fs_at 65536 sample_image).

Lemma vfs_ready l :
  length l = 6%nat -> Forall (λ f, f_count f = 0 \/ f_count f = 1) l ->
  ready 8192 4096 65536 sample_image (vfs_kst l) (vfs_files l).
Proof.
  intros Hl Hc. constructor; [| |done|exact sample_image_ok|exact sample_dir_ok|].
  - constructor; try done. by exists (Proc 64 4096 0).
  - constructor; [simpl; by rewrite Hl|done|]. do 2 (constructor; [by right|]). done.
  - apply bytes_at_poke. rewrite sample_image_length. lia.
Qed.
Lemma vfs_cstr a s :
  0 <= a -> a + Z.of_nat (length s) + 1 <= 65536 -> cstr vfs_small a s -> cstr vfs_mem a s.
Proof.
  intros Ha Hs H. apply cstr_poke_apart; [done|].
  apply apart_ranges; rewrite ?sample_image_length; lia.
Qed.
Lemma vfs_file_name : file_name vfs_mem 200 (lit "frame0.txt").
Proof.
  constructor; [done| | |by vm_compute].
  - apply vfs_cstr; [lia|by vm_compute|]. apply cstrb_ok. by vm_compute.
  - apply vfs_cstr; [unfold lit_rtc; simpl; lia|by vm_compute|]. apply cstrb_ok. by vm_compute.
Qed.

Ltac counts := repeat (apply List.Forall_cons; [first [by left | by right]|]); apply List.Forall_nil.



(** The last ten bytes of the file, four at a time: three reads and a last one. *)
Lemma read_to_end_witness :
  let l := frame_file 4090 :: replicate 5 no_file in
  exists k' T', read_all 4 2 100 4 (vfs_kst l) = Ok ([32; 32; 32] ++ lit "twofish", k') /\
    reading sample_image T' 2 (frame_file 4100) 0.
Proof.
  intros l.
  destruct (read_to_end 8192 4096 65536 sample_image (vfs_kst l) (vfs_files l) 2 (frame_file 4090) 0 100 4 4)
    as (k' & T' & H1 & _ & H2).
  - apply vfs_ready; [done|]. counts.
  - constructor; [done|done|by vm_compute|exact sample_file_ok|].
    change (img_size sample_image 0) with 4100. simpl. lia.
  - done.
  - lia.
  - apply poke_mapped, mappedb_ok. by vm_compute.
  - apply apart_ranges; rewrite ?sample_image_length; lia.
  - change (img_size sample_image 0) with 4100. simpl. lia.
  - exists k', T'. split; [|exact H2].
    replace ([32; 32; 32] ++ lit "twofish") with (drop (Z.to_nat (f_pos (frame_file 4090))) (content sample_image 0))
      by (vm_compute; reflexivity).
    exact H1.
Defined.

Lemma open_when_full_witness :
  let l := replicate 6 (frame_file 0) in
  do_open 400 (vfs_kst l) = Ok (-1, vfs_kst l) /\ do_open 200 (vfs_kst l) = Bad Undef.
Proof.
  intros l.
  apply (open_when_full 8192 4096 65536 sample_image (vfs_kst l) (vfs_files l) 200 (lit "frame0.txt") 1
    400 (46 :: replicate 31 0) []).
  - apply vfs_ready; [done|]. counts.
  - done.
  - exact vfs_file_name.
  - done.
  - by vm_compute.
  - by vm_compute.
  - done.
  - apply vfs_cstr; [lia|by vm_compute|]. apply cstrb_ok. by vm_compute.
  - simpl. lia.
  - exact (fn_rtc _ _ _ vfs_file_name).
  - unfold vfs_kst, vfs_mem. cbn [memory]. apply bytes_at_poke_apart.
    + apply bytes_at_poke. simpl. lia.
    + apply apart_ranges; rewrite ?sample_image_length; simpl; lia.
  - done.
Defined.
