(* ===== verification/VfsTyping.v ===== *)
(** * The types of open files

    An entry of a file table in use reaches the operations of the kind of
    file it was opened as, whatever the system calls and the interrupts of
    the processes are and however they follow each other. *)
From S2P Require Import Prelude Bytes KString RbTree Cfs Fs FsProps Device Kernel Console Terminal Vfs.

(** The operations that a descriptor reaches are those of its kind. *)
Definition op_types (op : file_op) (t : Z) : Prop :=
  match op with f_op => True | dir_op => t = DIRECTORY | terminal_op => t = TERMINAL | rtc_op => t = RTC end.
Definition typed_file (f : file_t) : Prop :=
  f_count f = 0 \/ f_count f = 1 /\ op_types (fop f) (ftype (f_dentry f)).
Record typed_table (T : files) : Prop := {
  ty_length : length (Kernel.fd T) = 8%nat;
  ty_max : max_fd T = OPEN_MAX;
  ty_files : Forall typed_file (Kernel.fd T)
}.
Definition typed_tables (k : kst) : Prop := map_Forall (λ _, typed_table) (tables k).

(** ** What the program does to the tables *)
Inductive event :=
  | Exec (g : files) (curr : Z)
  | Open (filename : Z) | Close (fd : Z)
  | Read (fd buf nbytes : Z) (irqs : list nat) | Write (fd buf nbytes : Z)
  | Key | Timer.
Definition handle `{Env} (e : event) : KM Z :=
  match e with
  | Exec g curr => fd_init g curr
  | Open filename => sys_open filename
  | Close fd => sys_close fd
  | Read fd buf nbytes irqs => sys_read fd buf nbytes irqs
  | Write fd buf nbytes => sys_write fd buf nbytes
  | Key => do_keyboard ;; mret 0
  | Timer => do_timer ;; mret 0
  end.
Fixpoint history `{Env} (l : list event) : KM (list Z) :=
  match l with [] => mret [] | e :: l => x ← handle e; xs ← history l; mret (x :: xs) end.

(** ** Computations that keep the tables well typed

    Every result of [m] from a state with well-typed tables is one and its
    value satisfies [Q]. *)
Definition keeps {A} (m : KM A) (Q : A -> Prop) : Prop :=
  forall k a k', typed_tables k -> m k = Ok (a, k') -> typed_tables k' /\ Q a.
Definition any {A} (_ : A) : Prop := True.

Lemma keeps_weaken {A} (m : KM A) (P Q : A -> Prop) : keeps m P -> (forall a, P a -> Q a) -> keeps m Q.
Proof. intros H HQ k a k' HT Hm. destruct (H _ _ _ HT Hm). auto. Qed.
Lemma keeps_any {A} (m : KM A) (P : A -> Prop) : keeps m P -> keeps m any.
Proof. intros H. by eapply keeps_weaken. Qed.
Lemma keeps_ret {A} (a : A) (Q : A -> Prop) : Q a -> keeps (mret a) Q.
Proof. by intros HQ k x k' HT [= <- <-]. Qed.
Lemma keeps_bind {A B} (m : KM A) (f : A -> KM B) P Q :
  keeps m P -> (forall a, P a -> keeps (f a) Q) -> keeps (m ≫= f) Q.
Proof.
  intros H HB k b k' HT Hm. unfold mbind, M_bind in Hm. destruct (m k) as [[a k1]|] eqn:E; [|done].
  destruct (H _ _ _ HT E) as [HT1 Ha]. by eapply (HB a Ha k1).
Qed.
Lemma keeps_seq {A B} (m : KM A) (f : A -> KM B) Q : keeps m any -> (forall a, keeps (f a) Q) -> keeps (m ≫= f) Q.
Proof. intros H HB. by apply (keeps_bind _ _ any). Qed.
Lemma keeps_raise {A} f (Q : A -> Prop) : keeps (raise f) Q.
Proof. done. Qed.
Lemma keeps_zoom {S A} (get : kst -> S) (put : S -> kst -> kst) (m : M S A) :
  (forall s k, tables (put s k) = tables k) -> keeps (zoom get put m) any.
Proof.
  intros Hp k a k' HT Hm. unfold zoom in Hm. destruct (m (get k)) as [[b s]|]; [|done].
  injection Hm as <- <-. unfold typed_tables. by rewrite Hp.
Qed.
Lemma keeps_on_mem {A} (m : M mem A) : keeps (on_mem m) any.
Proof. by apply keeps_zoom. Qed.
Lemma keeps_on_dev {A} (m : M dev A) : keeps (on_dev m) any.
Proof. by apply keeps_zoom. Qed.
Lemma keeps_on_sched {A} (m : M cfs_rq A) : keeps (on_sched m) any.
Proof. by apply keeps_zoom. Qed.
Lemma keeps_gets {A} (g : kst -> A) : keeps (gets g) any.
Proof. by intros k a k' HT [= <- <-]. Qed.
Lemma keeps_gets_opt {A} (g : kst -> option A) (Q : A -> Prop) :
  (forall k a, typed_tables k -> g k = Some a -> Q a) -> keeps (gets_opt g) Q.
Proof.
  intros HQ k a k' HT Hm. unfold gets_opt in Hm. destruct (g k) as [b|] eqn:E; [|done].
  injection Hm as <- <-. split; [done|by eapply HQ].
Qed.
Lemma keeps_found {A} (g : kst -> option A) : keeps (gets_opt g) any.
Proof. by apply keeps_gets_opt. Qed.
Lemma keeps_modify (f : kst -> kst) : (forall k, typed_tables k -> typed_tables (f k)) -> keeps (modify f) any.
Proof. intros Hf k a k' HT [= <- <-]. split; [by apply Hf|done]. Qed.
Lemma keeps_when c (m : KM unit) : keeps m any -> keeps (when c m) any.
Proof. intros H. destruct c; [done|by apply keeps_ret]. Qed.
Lemma keeps_iter {X A} n (body : X -> KM (X + A)) (Q : A -> Prop) x :
  (forall x, keeps (body x) (λ r, match r with inl _ => True | inr a => Q a end)) -> keeps (iter n body x) Q.
Proof.
  intros Hb. revert x. induction n as [|n IH]; intros x; simpl; [done|].
  eapply keeps_bind; [apply Hb|]. intros [y|a] Hr; [apply IH|by apply keeps_ret].
Qed.
Lemma keeps_loop {X A} n (body : X -> KM (X + A)) x : (forall x, keeps (body x) any) -> keeps (iter n body x) any.
Proof. intros Hb. apply keeps_iter. intros y. eapply keeps_weaken; [apply Hb|]. by intros []. Qed.
Lemma keeps_for lo n (body : Z -> KM unit) : (forall i, keeps (body i) any) -> keeps (for_loop lo n body) any.
Proof.
  intros Hb. revert lo. induction n as [|n IH]; intros lo; simpl; [by apply keeps_ret|].
  by apply keeps_seq.
Qed.

Create HintDb keeps discriminated.
#[export] Hint Resolve keeps_raise keeps_on_mem keeps_on_dev keeps_on_sched keeps_gets keeps_found : keeps.
(** Computations that do not look into the tables, by their structure. *)
Ltac keep_step :=
  match goal with
  | |- keeps (mret _) _ => by apply keeps_ret
  | |- keeps _ _ => solve [eauto 2 with keeps nocore]
  | |- keeps (_ ≫= _) _ => apply keeps_seq; [|intros ?]
  | |- keeps (when _ _) _ => apply keeps_when
  | |- keeps (for_loop _ _ _) _ => apply keeps_for; intros ?
  | |- keeps (iter _ _ _) _ => apply keeps_loop; intros ?
  | |- keeps (modify _) _ => apply keeps_modify; by intros ?
  | |- keeps (if ?c then _ else _) _ => destruct c
  | |- keeps (match ?x with _ => _ end) _ => destruct x
  | |- keeps (let '_ := ?x in _) _ => destruct x
  end.
Ltac keep := repeat keep_step.

(** ** The terminals and the screen do not touch the tables *)
Lemma keeps_get_terminal t : keeps (get_terminal t) any.
Proof. unfold get_terminal. keep. Qed.
Lemma keeps_upd_terminal t f : keeps (upd_terminal t f) any.
Proof. unfold upd_terminal, get_terminal. keep. Qed.
Lemma keeps_get_proc p : keeps (get_proc p) any.
Proof. unfold get_proc. keep. Qed.
Lemma keeps_upd_proc p f : keeps (upd_proc p f) any.
Proof. unfold upd_proc, get_proc. keep. Qed.
Lemma keeps_getpro : keeps GETPRO any.
Proof. unfold GETPRO. keep. Qed.
Lemma keeps_cli : keeps cli any.
Proof. unfold cli. keep. Qed.
Lemma keeps_sti : keeps sti any.
Proof. unfold sti. keep. Qed.
Lemma keeps_cli_and_save : keeps cli_and_save any.
Proof. unfold cli_and_save, cli. keep. Qed.
Lemma keeps_restore_flags b : keeps (restore_flags b) any.
Proof. unfold restore_flags. keep. Qed.
Lemma keeps_current_task : keeps current_task any.
Proof. unfold current_task. keep. Qed.
Lemma keeps_at_index {A} (l : list A) i : keeps (at_index l i) any.
Proof. unfold at_index. keep. Qed.
Lemma keeps_set_index {A} (l : list A) i a : keeps (set_index l i a) any.
Proof. unfold set_index. keep. Qed.
#[export] Hint Resolve keeps_get_terminal keeps_upd_terminal keeps_get_proc keeps_upd_proc keeps_getpro keeps_cli keeps_sti
  keeps_cli_and_save keeps_restore_flags keeps_current_task keeps_at_index keeps_set_index : keeps.

Lemma keeps_current_terminal : keeps current_terminal any.
Proof. unfold current_terminal. keep. Qed.
#[export] Hint Resolve keeps_current_terminal : keeps.
Lemma keeps_put_char c t : keeps (_putc c t) any.
Proof. unfold _putc. keep. Qed.
#[export] Hint Resolve keeps_put_char : keeps.
Lemma keeps_putc c : keeps (putc c) any.
Proof. unfold putc. keep. Qed.
Lemma keeps_clear : keeps clear any.
Proof. unfold clear. keep. Qed.
Lemma keeps_back t : keeps (back t) any.
Proof. unfold back. keep. Qed.
#[export] Hint Resolve keeps_putc keeps_clear keeps_back : keeps.

Lemma keeps_in scancode caps t : keeps (in_ scancode caps t) any.
Proof. unfold in_. keep. Qed.
#[export] Hint Resolve keeps_in : keeps.
Lemma keeps_out_tab n t : keeps (out_tab n t) any.
Proof. unfold out_tab. keep. Qed.
Lemma keeps_backspace t : keeps (backspace t) any.
Proof. unfold backspace. keep. Qed.
Lemma keeps_bufcpy src n i : keeps (bufcpy src n i) any.
Proof. revert i. induction n; intros i; simpl; keep. Qed.
Lemma keeps_out_list l : keeps (out_list l) any.
Proof. induction l; simpl; keep. Qed.
Lemma keeps_out buf n : keeps (out buf n) any.
Proof. unfold out. keep. Qed.
Lemma keeps_console_task_of i : keeps (console_task_of i) any.
Proof. unfold console_task_of. keep. Qed.
#[export] Hint Resolve keeps_out_tab keeps_backspace keeps_bufcpy keeps_out_list keeps_out keeps_console_task_of : keeps.
Lemma keeps_console_terminal i : keeps (console_terminal i) any.
Proof. unfold console_terminal. keep. Qed.
Lemma keeps_set_current i : keeps (set_current i) any.
Proof. unfold set_current. keep. Qed.
Lemma keeps_set_vidmap i a : keeps (set_vidmap i a) any.
Proof. unfold set_vidmap. keep. Qed.
#[export] Hint Resolve keeps_console_terminal keeps_set_current keeps_set_vidmap : keeps.
Lemma keeps_switch_vidmap i j : keeps (switch_vidmap i j) any.
Proof. unfold switch_vidmap. keep. Qed.
#[export] Hint Resolve keeps_switch_vidmap : keeps.
Lemma keeps_terminal_switch scancode t i : keeps (terminal_switch scancode t i) any.
Proof. unfold terminal_switch. keep. Qed.
Lemma keeps_key_char scancode t : keeps (key_char scancode t) any.
Proof. unfold key_char. keep. Qed.
#[export] Hint Resolve keeps_terminal_switch keeps_key_char : keeps.
Lemma keeps_key_fn scancode t i : keeps (key_fn scancode t i) any.
Proof. unfold key_fn. keep. Qed.
Lemma keeps_key_l scancode t : keeps (key_l scancode t) any.
Proof. unfold key_l. keep. Qed.
#[export] Hint Resolve keeps_key_fn keeps_key_l : keeps.
Lemma keeps_key_press scancode t : keeps (key_press scancode t) any.
Proof. unfold key_press. keep. Qed.
Lemma keeps_key_release scancode t : keeps (key_release scancode t) any.
Proof. unfold key_release. keep. Qed.
#[export] Hint Resolve keeps_key_press keeps_key_release : keeps.
Lemma keeps_do_keyboard : keeps do_keyboard any.
Proof. unfold do_keyboard. keep. Qed.
Lemma keeps_do_timer : keeps do_timer any.
Proof. unfold do_timer. keep. Qed.
#[export] Hint Resolve keeps_do_keyboard keeps_do_timer : keeps.
Lemma keeps_keyboard_irqs n : keeps (keyboard_irqs n) any.
Proof. induction n; simpl; keep. Qed.
Lemma keeps_scan_line t : keeps (scan_line t) any.
Proof. unfold scan_line, scan_body. keep. Qed.
#[export] Hint Resolve keeps_keyboard_irqs keeps_scan_line : keeps.
Lemma keeps_wait_line t irqs : keeps (wait_line t irqs) any.
Proof. induction irqs; simpl; keep. Qed.
#[export] Hint Resolve keeps_wait_line : keeps.
Lemma keeps_terminal_read fd buf n irqs : keeps (terminal_read fd buf n irqs) any.
Proof. unfold terminal_read. keep. Qed.
Lemma keeps_terminal_write fd buf n : keeps (terminal_write fd buf n) any.
Proof. unfold terminal_write. keep. Qed.
Lemma keeps_rtc_irqs n : keeps (rtc_irqs n) any.
Proof. induction n; simpl; keep. Qed.
#[export] Hint Resolve keeps_terminal_read keeps_terminal_write keeps_rtc_irqs : keeps.
Lemma keeps_rtc_wait irqs : keeps (rtc_wait irqs) any.
Proof. induction irqs; simpl; keep. Qed.
#[export] Hint Resolve keeps_rtc_wait : keeps.

(** ** Files *)
Lemma typed_lookup k p T : typed_tables k -> tables k !! p = Some T -> typed_table T.
Proof. intros HT. by apply HT. Qed.
Lemma typed_set p T k : typed_tables k -> typed_table T -> typed_tables (with_tables (<[p := T]> (tables k)) k).
Proof. intros HT HN. by apply map_Forall_insert_2. Qed.
Lemma typed_insert T c i f : typed_table T -> typed_file f -> typed_table (Files c (max_fd T) (<[i := f]> (Kernel.fd T))).
Proof.
  intros [H1 H2 H3] Hf. split; [by cbn [Kernel.fd]; rewrite length_insert|done|]. by apply Forall_insert.
Qed.
Lemma typed_count f n : typed_file f -> n = 0 \/ n = f_count f -> typed_file (set_count n f).
Proof. intros Hf [->|Hn]; [by left|]. subst n. by destruct f. Qed.

Lemma keeps_get_files p : keeps (get_files p) typed_table.
Proof. apply keeps_gets_opt. intros k T HT. case_match; [done|]. by apply typed_lookup. Qed.
Lemma keeps_get_file curr fd : keeps (get_file curr fd) typed_file.
Proof.
  apply keeps_seq; [keep|]. intros x. eapply keeps_bind; [apply keeps_get_files|]. intros T HT.
  apply keeps_gets_opt. intros _ f _. destruct (fd <? 0); [done|]. exact (Forall_lookup_1 _ _ _ _ (ty_files _ HT)).
Qed.
Lemma keeps_set_file (T : files) fd f : typed_table T -> typed_file f ->
  keeps (set_index (Kernel.fd T) fd f) (λ l, typed_table (Files (count T) (max_fd T) l)).
Proof.
  intros HT Hf. apply keeps_gets_opt. intros _ l _. case_match; [done|]. intros [= <-]. by apply typed_insert.
Qed.
(** [put_file] stores the changed list in the table it was read from. *)
Lemma keeps_put_file curr fd f : typed_file f -> keeps (put_file curr fd f) any.
Proof.
  intros Hf. apply keeps_seq; [keep|]. intros x k a k' HT. unfold get_files, upd_files, get_files, mbind, M_bind, gets_opt.
  destruct (if fds x =? NULL then None else tables k !! fds x) as [T|] eqn:E; [|done].
  assert (typed_table T) as HTT by (destruct (fds x =? NULL); [done|by eapply typed_lookup]).
  destruct (set_index (Kernel.fd T) fd f k) as [[l k1]|] eqn:E1; [|done].
  destruct (keeps_set_file T fd f HTT Hf k l k1 HT E1) as [HT1 HN].
  assert (k1 = k) as ->.
  { unfold set_index, gets_opt in E1. destruct (if (fd <? 0) || _ then None else _) in E1; [congruence|done]. }
  rewrite E. intros [= <- <-]. split; [by apply typed_set|done].
Qed.

Definition new_file (r : Z * option file_t) : Prop := forall f, r.2 = Some f -> typed_file f.
Lemma keeps_file_init fd d op curr : op_types op (ftype d) -> keeps (file_init fd d op curr) new_file.
Proof.
  intros Ho. apply keeps_iter. intros i. unfold file_init_body. destruct (i <? OPEN_MAX); [|by apply keeps_ret].
  apply keeps_seq; [eapply keeps_any, keeps_get_file|]. intros f. apply keeps_ret. destruct (f_count f =? 0); [|done].
  intros g [= <-]. by right.
Qed.
Lemma keeps_copy_file curr r : new_file r -> keeps (copy_file curr r) any.
Proof.
  intros Hr. unfold copy_file. destruct r.2 as [f|] eqn:E; [|apply keeps_raise]. by apply keeps_put_file, Hr.
Qed.
Lemma keeps_open fd fname type op curr : op_types op type -> keeps (__open fd fname type op curr) any.
Proof.
  intros Ho. apply keeps_seq; [keep|]. intros name. eapply keeps_bind; [by apply keeps_file_init|].
  intros r Hr. destruct (r.1 <? 0); [by apply keeps_ret|]. apply keeps_seq; [by apply keeps_copy_file|]. intros []. keep.
Qed.
Lemma keeps_file_open fname : keeps (file_open fname) any.
Proof.
  unfold file_open. do 3 (apply keeps_seq; [keep|intros ?]). case_match; [|by apply keeps_ret].
  apply keeps_seq; [keep|]. intros d. eapply keeps_bind; [by apply keeps_file_init|].
  intros r Hr. apply keeps_seq; [by apply keeps_copy_file|]. intros []. keep.
Qed.
(** An operation on the open file of a descriptor. *)
Lemma keeps_opened {A} curr fd (m : KM A) (f : file_t -> KM A) :
  keeps m any -> (forall x, typed_file x -> f_count x <> 0 -> keeps (f x) any) ->
  keeps (x ← get_file curr fd; if f_count x =? 0 then m else f x) any.
Proof.
  intros Hm Hf. eapply keeps_bind; [apply keeps_get_file|]. intros x Hx.
  destruct (Z.eqb_spec (f_count x) 0); [done|by apply Hf].
Qed.
Lemma keeps_file_close fd : keeps (file_close fd) any.
Proof.
  apply keeps_seq; [keep|]. intros curr. apply keeps_opened; [by apply keeps_ret|]. intros x [Hx|[Hx Ho]] Hn; [done|].
  apply keeps_seq; [|intros []; keep]. apply keeps_put_file, typed_count; [by right|]. left. by rewrite Hx.
Qed.
Lemma keeps_file_read fd buf n : keeps (file_read fd buf n) any.
Proof.
  apply keeps_seq; [keep|]. intros curr. apply keeps_opened; [by apply keeps_ret|]. intros x Hx _.
  do 2 (apply keeps_seq; [keep|intros ?]). apply keeps_seq; [|intros []; keep].
  apply keeps_when, keeps_put_file. by destruct x.
Qed.
Lemma keeps_directory_read fd buf n : keeps (directory_read fd buf n) any.
Proof.
  apply keeps_seq; [keep|]. intros curr. apply keeps_opened; [by apply keeps_ret|]. intros x Hx _.
  do 2 (apply keeps_seq; [keep|intros ?]). case_match; [by apply keeps_ret|].
  apply keeps_seq; [|intros []; keep]. apply keeps_put_file. by destruct x.
Qed.
#[export] Hint Resolve keeps_file_open keeps_file_close keeps_file_read keeps_directory_read : keeps.

(** ** System calls *)
Section env.
Context `{Env} (kmalloc_keeps : forall n, keeps (kmalloc n) any).

Lemma keeps_validate_fd fd curr : keeps (validate_fd fd curr) any.
Proof.
  apply keeps_seq; [keep|]. intros x. apply keeps_seq; [eapply keeps_any, keeps_get_files|]. intros T.
  case_match; [by apply keeps_ret|]. apply keeps_seq; [eapply keeps_any, keeps_get_file|]. intros f. keep.
Qed.
#[local] Hint Resolve kmalloc_keeps keeps_validate_fd : keeps.
Lemma keeps_do_open filename : keeps (do_open filename) any.
Proof using kmalloc_keeps.
  unfold do_open, validate_fname, directory_open, rtc_open. keep; by apply keeps_open.
Qed.
(** A call that goes on to an operation of the descriptor's file. *)
Lemma keeps_dispatch fd (op : file_op -> KM Z) : (forall o, keeps (op o) any) ->
  keeps (curr ← GETPRO; errno ← validate_fd fd curr; if errno <? 0 then mret errno else f ← get_file curr fd; op (fop f)) any.
Proof.
  intros Ho. apply keeps_seq; [keep|]. intros curr. apply keeps_seq; [keep|]. intros e. case_match; [by apply keeps_ret|].
  apply keeps_seq; [eapply keeps_any, keeps_get_file|]. intros f. apply Ho.
Qed.
Lemma keeps_do_close fd : keeps (do_close fd) any.
Proof. apply (keeps_dispatch fd (λ o, op_close o fd)). intros []; simpl; unfold directory_close, rtc_close, terminal_close; keep. Qed.
Lemma keeps_do_read fd buf n irqs : keeps (do_read fd buf n irqs) any.
Proof.
  apply (keeps_dispatch fd (λ o, op_read o fd buf (i32 n) irqs)). intros []; simpl; unfold rtc_read; keep.
Qed.
Lemma keeps_do_write fd buf n : keeps (do_write fd buf n) any.
Proof.
  apply (keeps_dispatch fd (λ o, op_write o fd buf (i32 n))).
  intros []; simpl; unfold file_write, directory_write, rtc_write; keep.
Qed.

(** A new table, or a copy. *)
Lemma keeps_new_table p T : typed_table T ->
  keeps (if p =? NULL then raise Undef else modify (λ k, with_tables (<[p := T]> (tables k)) k)) any.
Proof. intros HT. case_match; [apply keeps_raise|]. apply keeps_modify. intros k Hk. by apply typed_set. Qed.
Lemma typed_fresh l : length l = 8%nat -> typed_table (Files 0 OPEN_MAX (map (set_count 0) l)).
Proof.
  intros Hl. split; [by cbn [Kernel.fd]; rewrite length_map|done|].
  apply Forall_forall. intros f (g & -> & _)%list_elem_of_fmap. by left.
Qed.
Lemma keeps_fd_init g curr : length (Kernel.fd g) = 8%nat -> keeps (fd_init g curr) any.
Proof using kmalloc_keeps.
  intros Hg. unfold fd_init. do 2 (apply keeps_seq; [keep|intros ?]).
  apply keeps_seq; [by apply keeps_new_table, typed_fresh|]. intros [].
  do 2 (apply keeps_seq; [by apply keeps_open|intros ?]). keep.
Qed.
Lemma keeps_fdcopy : keeps fdcopy any.
Proof using kmalloc_keeps.
  unfold fdcopy. do 2 (apply keeps_seq; [keep|intros ?]). case_match; [|by apply keeps_ret].
  do 3 (apply keeps_seq; [keep|intros ?]). eapply keeps_bind; [apply keeps_get_files|].
  intros T HT. by apply keeps_new_table.
Qed.
#[local] Hint Resolve keeps_do_open keeps_do_close keeps_do_read keeps_do_write keeps_fdcopy : keeps.
Definition whole_table (e : event) : Prop := match e with Exec g _ => length (Kernel.fd g) = 8%nat | _ => True end.
Lemma keeps_handle e : whole_table e -> keeps (handle e) any.
Proof using kmalloc_keeps.
  intros He. destruct e; simpl; unfold sys_open, sys_close, sys_read, sys_write; keep. by apply keeps_fd_init.
Qed.
Lemma keeps_history l : Forall whole_table l -> keeps (history l) any.
Proof using kmalloc_keeps.
  induction 1 as [|e l He _ IH]; cbn [history]; [keep|]. apply keeps_seq; [by apply keeps_handle|]. intros x.
  apply keeps_seq; [done|]. intros xs. keep.
Qed.
End env.


(** A program that opens its directory and the clock, waits for a tick, and
    closes and opens again. *)
#[local] Instance typing_env : Env := {| kmalloc := λ _, mret 40960; lit_rtc := 300; lit_stdin := 400; lit_stdout := 400 |}.
Definition typing_kst : kst :=
  Kst (poke 400 (46 :: replicate 31 0) (poke 300 (lit "rtc" ++ replicate 29 0) ∅)) (Dev [] (λ _ _, 0) 0 0 0 0)
    (Cfs (Weight 0 0) 0 0 0 (Rb_state ∅ 0) 0 0 ∅ ∅ None 8192 true) ∅ {[8192 := Proc 64 0 0]} ∅ [] 0 1 0 0 ∅ (fs_at 65536 []).
Definition closed_file : file_t := File (Dentry [] 0 0 []) f_op 0 0.
Definition typing_events : list event :=
  [Exec (Files 0 8 (replicate 8 closed_file)) 8192; Open 400; Open 300; Close 2; Open 400; Read 3 100 4 [1%nat]; Write 2 100 4; Close 1].
Definition answers (r : res (list Z * kst)) : option (list Z) := match r with Ok (rs, _) => Some rs | Bad _ => None end.
Lemma answers_ok r rs : answers r = Some rs -> exists k', r = Ok (rs, k').
Proof. destruct r as [[xs k']|]; [|done]. intros [= ->]. by exists k'. Qed.
