(* ===== verification/Vm.v ===== *)
(** * Virtual memory: [kernel/vm.c] and [kernel/access.c]

    The page directory and the page tables are words of the kernel's memory,
    as the allocators of [Kmalloc] see it: the static tables lie in the
    kernel's image and the others in pages of [get_page].  The processor's
    registers ([enable_paging], [flush_tlb]) are not part of that memory. *)
From S2P Require Import Prelude Kmalloc.

(** Where the linker puts the tables. *)
Class Tables_at := {
  PAGE_DIR : Z;
  PAGE_TABLE : Z;
  VIDMAP_TABLE : Z;
  PDESC : Z
}.

Definition ENTRY_NUM : Z := 1024.
Definition PTE_PRESENT : Z := 1.
Definition PTE_RW : Z := 2.
Definition PTE_US : Z := 4.
Definition PDE_MB : Z := 128.
Definition PTE_GLO : Z := 256.
Definition VIDEO : Z := 753664.
Definition VIDEO_BUF_1 : Z := 851968.
Definition VIDEO_BUF_2 : Z := 856064.
Definition VIDEO_BUF_3 : Z := 860160.
Definition VIR_VID_MEM : Z := 138412032.
Definition PROGRAM_IMG_BEGIN : Z := 134512640.
Definition VM_EXEC : Z := 1.
Definition VM_WRITE : Z := 2.
Definition VM_READ : Z := 4.
Definition VM_HEAP : Z := 8.
Definition VM_STACK : Z := 16.
Definition ADDR_TO_PTE (a : Z) : Z := Z.land (u32 a) 4294963200.
Definition PDE_MB_ADDR (x : Z) : Z := Z.shiftr x 22.
Definition GETBIT_10 (x : Z) : Z := Z.land x 1023.
Definition GETBIT_12 (x : Z) : Z := Z.land x 4095.
(** An address space has 2^20 pages. *)
Definition area_fuel : nat := Z.to_nat 1048577.
Definition or_bits (l : list Z) : Z := fold_left Z.lor l 0.

Section vm.
Context `{!Layout, !Tables_at}.

Definition pde_at (i : Z) : Z := PAGE_DIR + 4 * i.
(** The fields [flags] and [count] of [pdesc[i]]. *)
Definition pdesc_flags (i : Z) : Z := PDESC + 8 * i.
Definition pdesc_count (i : Z) : Z := PDESC + 8 * i + 4.
Definition zero_page (p : Z) : M kstate unit := for_loop 0 1024 (λ i, st (p + 4 * i) 0).

(** ** Page tables *)
Definition _walk (va flags alloc : Z) : M kstate Z :=
  let pde := pde_at (PDE_MB_ADDR va) in
  e ← ld pde;
  let pte := e ← ld pde; mret (ADDR_TO_PTE e + 4 * GETBIT_10 (Z.shiftr va 12)) in
  if Z.land e PTE_PRESENT =? 0 then
    if alloc =? 0 then mret 0
    else
      ptaddr ← get_page kmalloc 0;
      if ptaddr =? 0 then mret 0
      else
        zero_page ptaddr ;;
        st pde (or_bits [PTE_PRESENT; u32 flags; ADDR_TO_PTE ptaddr]) ;;
        pte
  else pte.

(** One page of [mmap]; the loop's state is [(i, addr)], its result the value
    returned, or [None] at the end. *)
Definition mmap_body (pa flags length : Z) (x : Z * Z) : M kstate ((Z * Z) + Z) :=
  let '(i, addr) := x in
  if i <? length then
    pte ← _walk (u32 addr) flags 1;
    if pte =? 0 then raise Panic
    else
      e ← ld pte;
      if negb (Z.land e PTE_PRESENT =? 0) then mret (inr (-1))
      else
        st pte (or_bits [PTE_PRESENT; u32 flags; u32 (ADDR_TO_PTE pa + i * PAGE_SIZE)]) ;;
        n ← ld (pdesc_count (PDE_MB_ADDR addr));
        st (pdesc_count (PDE_MB_ADDR addr)) (u32 (n + 1)) ;;
        mret (inl (i + 1, i32 (addr + PAGE_SIZE)))
  else mret (inr 0).
Definition mmap (va pa size flags : Z) : M kstate Z :=
  let length := Z.quot size PAGE_SIZE in
  iter (S (Z.to_nat length)) (mmap_body pa flags length) (0, i32 (ADDR_TO_PTE va)).

(** [pdesc[i].count-- == 0]. *)
Definition freemap_body (va_end addr : Z) : M kstate (Z + Z) :=
  if addr <? va_end then
    pte ← _walk addr 0 0;
    if pte =? 0 then mret (inr (-1))
    else
      e ← ld pte;
      if Z.land e PTE_PRESENT =? 0 then mret (inr (-1))
      else
        st pte 0 ;;
        n ← ld (pdesc_count (PDE_MB_ADDR addr));
        st (pdesc_count (PDE_MB_ADDR addr)) (u32 (n - 1)) ;;
        when (n =? 0)
          (d ← ld (pde_at (PDE_MB_ADDR addr)); free_page kfree (ADDR_TO_PTE d) 0) ;;
        mret (inl (u32 (addr + PAGE_SIZE)))
  else mret (inr 0).
Definition freemap (va size : Z) : M kstate Z :=
  iter area_fuel (freemap_body (u32 (va + u32 size))) va.

(** [page_init] up to [enable_paging]; the loop over the descriptors assigns
    to the first one each time. *)
Definition page_init : M kstate unit :=
  d ← ld (pde_at 0);
  st (pde_at 0) (or_bits [d; PTE_PRESENT; PTE_RW; ADDR_TO_PTE PAGE_TABLE]) ;;
  d ← ld (pde_at 1);
  st (pde_at 1) (or_bits [d; PTE_PRESENT; PTE_RW; PDE_MB; PTE_GLO; Z.shiftl 1 22]) ;;
  for_loop 0 1024 (λ _, st (pdesc_flags 0) 0 ;; st (pdesc_count 0) 0) ;;
  for_loop 2 14 (λ i, st (pde_at i) (or_bits [PTE_PRESENT; PTE_RW; PDE_MB; PTE_GLO; Z.shiftl i 22])) ;;
  for_loop 16 1008 (λ i, st (pde_at i) 0) ;;
  for_loop 0 1024 (λ i,
    if i =? Z.shiftr VIDEO 12 then
      e ← ld (PAGE_TABLE + 4 * i);
      st (PAGE_TABLE + 4 * i) (or_bits [e; PTE_PRESENT; PTE_RW; ADDR_TO_PTE VIDEO])
    else st (PAGE_TABLE + 4 * i) PTE_RW) ;;
  st (pde_at (VIR_VID_MEM / PAGE_SIZE_4MB)) (or_bits [PTE_PRESENT; PTE_RW; PTE_US; ADDR_TO_PTE VIDMAP_TABLE]) ;;
  for_loop 0 1024 (λ i,
    st (VIDMAP_TABLE + 4 * i)
      (if i =? Z.shiftr VIDEO 12 then or_bits [PTE_PRESENT; PTE_RW; PTE_US; ADDR_TO_PTE VIDEO] else 0)) ;;
  st (PAGE_TABLE + 4 * Z.shiftr VIDEO_BUF_1 12) (or_bits [PTE_PRESENT; PTE_RW; ADDR_TO_PTE VIDEO_BUF_1]) ;;
  st (PAGE_TABLE + 4 * Z.shiftr VIDEO_BUF_2 12) (or_bits [PTE_PRESENT; PTE_RW; ADDR_TO_PTE VIDEO_BUF_2]) ;;
  st (PAGE_TABLE + 4 * Z.shiftr VIDEO_BUF_3 12) (or_bits [PTE_PRESENT; PTE_RW; ADDR_TO_PTE VIDEO_BUF_3]).

(** ** Areas: [vm_area_t] and [vmem_t], by their layout *)
Definition ar_mmap (a : Z) : Z := a.
Definition ar_vmstart (a : Z) : Z := a + 4.
Definition ar_vmend (a : Z) : Z := a + 8.
Definition ar_vmflag (a : Z) : Z := a + 12.
Definition ar_next (a : Z) : Z := a + 16.
Definition sizeof_vm_area : Z := 20.
Definition vm_map_list (v : Z) : Z := v.
Definition vm_size (v : Z) : Z := v + 4.
Definition vm_file_length (v : Z) : Z := v + 8.
Definition vm_start_brk (v : Z) : Z := v + 12.
Definition vm_brk (v : Z) : Z := v + 16.
Definition vm_count (v : Z) : Z := v + 20.

Definition process_vm_init (vm : Z) : M kstate unit :=
  file ← kmalloc sizeof_vm_area;
  heap ← kmalloc sizeof_vm_area;
  stack ← kmalloc sizeof_vm_area;
  st (vm_size vm) 0 ;;
  st (vm_file_length vm) 0 ;;
  st (vm_brk vm) 142606336 ;;
  st (vm_start_brk vm) 142606336 ;;
  st (vm_count vm) 0 ;;
  st (ar_next file) heap ;;
  n ← ld (vm_file_length vm);
  st (ar_vmend file) (u32 (PROGRAM_IMG_BEGIN + PAGE_SIZE * n)) ;;
  st (ar_vmstart file) PROGRAM_IMG_BEGIN ;;
  st (ar_vmflag file) (or_bits [VM_READ; VM_WRITE; VM_EXEC]) ;;
  b ← ld (vm_brk vm);
  st (ar_vmend heap) b ;;
  st (ar_vmstart heap) b ;;
  st (ar_vmflag heap) (or_bits [VM_READ; VM_WRITE; VM_HEAP]) ;;
  st (ar_next heap) stack ;;
  st (ar_vmend stack) 201326592 ;;
  st (ar_vmstart stack) 201326592 ;;
  st (ar_next stack) 0 ;;
  st (ar_vmflag stack) (or_bits [VM_READ; VM_WRITE; VM_STACK]) ;;
  st (vm_map_list vm) file.

(** [memcpy] of words. *)
Definition copy_words (dest src n : Z) : M kstate unit :=
  for_loop 0 (Z.to_nat n) (λ i, x ← ld (src + 4 * i); st (dest + 4 * i) x).

(** The loop of [vmalloc]: [(va, i)]. *)
Definition vmalloc_body (vm flags : Z) (x : Z * Z) : M kstate ((Z * Z) + Z) :=
  let '(va, i) := x in
  e ← ld (ar_vmend vm);
  if va <? e then
    pa ← get_user_page 0;
    if pa =? 0 then mret (inr (-1))
    else
      r ← mmap va pa PAGE_SIZE flags;
      if r =? -1 then raise Panic
      else
        m ← ld (ar_mmap vm);
        st (m + 4 * i) (or_bits [PTE_PRESENT; u32 flags; ADDR_TO_PTE pa]) ;;
        mret (inl (u32 (va + PAGE_SIZE), i + 1))
  else mret (inr 0).
Definition vmalloc (vm incrsize flags : Z) : M kstate Z :=
  if incrsize <? 0 then mret (-1)
  else if incrsize =? 0 then mret 0
  else
    let incrlength := Z.quot (i32 (incrsize + PAGE_SIZE - 1)) PAGE_SIZE in
    e ← ld (ar_vmend vm);
    s ← ld (ar_vmstart vm);
    let length := i32 (u32 (e - s) / PAGE_SIZE) in
    temp ← kmalloc (i32 (u32 ((length + incrlength) * 4)));
    if temp =? 0 then mret (-1)
    else
      when (negb (length =? 0))
        (m ← ld (ar_mmap vm); copy_words temp m length ;; m ← ld (ar_mmap vm); kfree m) ;;
      st (ar_mmap vm) temp ;;
      startva ← ld (ar_vmend vm);
      st (ar_vmend vm) (u32 (startva + ADDR_TO_PTE (incrsize + PAGE_SIZE - 1))) ;;
      iter (S (S (Z.to_nat incrlength))) (vmalloc_body vm flags) (startva, 0).

(** The loop of [vmdealloc]: [(va, i)].  It takes a page for each byte that
    [newend] lies below [vmend], as [decsize] is divided by the page size. *)
Definition vmdealloc_body (vm newend mapping : Z) (x : Z * Z) : M kstate ((Z * Z) + Z) :=
  let '(va, i) := x in
  if newend <? va then
    when (negb (mapping =? 0)) (freemap va PAGE_SIZE ;; mret ()) ;;
    m ← ld (ar_mmap vm);
    e ← ld (m + 4 * (i - 1));
    free_user_page (ADDR_TO_PTE e) 0 ;;
    mret (inl (u32 (va - PAGE_SIZE), i - 1))
  else mret (inr i).
Definition vmdealloc (vm decsize mapping : Z) : M kstate unit :=
  e ← ld (ar_vmend vm);
  s ← ld (ar_vmstart vm);
  let i := i32 (u32 (e - s) / PAGE_SIZE) in
  let newend := u32 (e - Z.quot decsize PAGE_SIZE) in
  i ← iter (S (Z.to_nat ENTRY_NUM * 1024)) (vmdealloc_body vm newend mapping) (e, i);
  when (negb (newend =? e))
    (temp ← kmalloc (i32 (u32 (i * 4)));
     m ← ld (ar_mmap vm);
     copy_words temp m i ;;
     m ← ld (ar_mmap vm);
     kfree m ;;
     st (ar_mmap vm) temp ;;
     st (ar_vmend vm) newend).

(** ** [access.c]: the address space of a process, its [vmem_t] at [vm] *)
Definition umap_body (vm : Z) (x : Z * Z * Z) : M kstate ((Z * Z * Z) + Z) :=
  let '(va, i, rtn) := x in
  e ← ld (ar_vmend vm);
  if u32 va <? e then
    m ← ld (ar_mmap vm);
    x ← ld (m + 4 * i);
    r ← mmap (u32 va) (ADDR_TO_PTE x) PAGE_SIZE (GETBIT_12 x);
    mret (inl (i32 (va + PAGE_SIZE), i + 1, rtn + r))
  else mret (inr rtn).
Definition _user_mem_mmap (vm : Z) : M kstate Z :=
  s ← ld (ar_vmstart vm);
  iter area_fuel (umap_body vm) (i32 s, 0, 0).

(** [for (area = map_list; area != 0; area = area->next) f(area)]. *)
Definition each_area_body (f : Z -> M kstate unit) (area : Z) : M kstate (Z + unit) :=
  if area =? 0 then mret (inr ())
  else f area ;; n ← ld (ar_next area); mret (inl n).
Definition each_area (vm : Z) (f : Z -> M kstate unit) : M kstate unit :=
  area ← ld (vm_map_list vm);
  iter area_fuel (each_area_body f) area.

Definition create_vm (vm : Z) : M kstate unit :=
  n ← ld (vm_size vm);
  if n =? 0 then
    st (vm_size vm) 1 ;;
    each_area vm (λ area,
      e ← ld (ar_vmend area);
      s ← ld (ar_vmstart area);
      st (ar_vmend area) s ;;
      f ← ld (ar_vmflag area);
      vmalloc area (i32 (e - s))
        (Z.lor (if Z.land f VM_WRITE =? 0 then 0 else PTE_RW) PTE_US) ;;
      mret ())
  else raise Panic.

Definition user_mem_map (vm : Z) : M kstate unit :=
  n ← ld (vm_size vm);
  if n =? 0 then create_vm vm
  else each_area vm (λ area, _user_mem_mmap area ;; mret ()).
Definition user_mem_unmap (vm : Z) : M kstate unit :=
  each_area vm (λ area,
    e ← ld (ar_vmend area);
    s ← ld (ar_vmstart area);
    freemap s (i32 (e - s)) ;; mret ()).

(** [free_vm] frees the successor of each area, and goes on from it. *)
Definition free_vm_body (area : Z) : M kstate (Z + unit) :=
  if area =? 0 then mret (inr ())
  else
    e ← ld (ar_vmend area);
    s ← ld (ar_vmstart area);
    vmdealloc area (i32 (e - s)) 0 ;;
    n ← ld (ar_next area);
    kfree n ;;
    mret (inl n).
Definition free_vm (vm : Z) : M kstate unit :=
  area ← ld (vm_map_list vm);
  iter area_fuel free_vm_body area.

(** [__umap]: [init] has no address space of its own. *)
Definition __umap (init from to : Z) (vm_of : Z -> Z) : M kstate unit :=
  when (negb (from =? init)) (user_mem_unmap (vm_of from)) ;;
  when (negb (to =? init)) (user_mem_map (vm_of to)).

Definition alloc_kstack : M kstate Z := get_page kmalloc 1.
Definition free_kstack (pt : Z) : M kstate unit := free_page kfree pt 1.
End vm.
