(* ===== verification/VmProps.v ===== *)
(** * Page tables

    [_walk], [mmap] and [freemap] against an abstract address space: the
    translation of each page.  The proofs use the page allocator through the
    interface [PageSource] only. *)
From S2P Require Import Prelude Kmalloc KmallocRing KmallocBuddy KmallocPages KmallocAlloc KmallocInit KmallocSource Vm.

(** ** Page table entries *)
Definition present (e : Z) : bool := Z.odd e.

Lemma present_land e : (Z.land e PTE_PRESENT =? 0) = negb (present e).
Proof.
  unfold present, PTE_PRESENT. change 1 with (Z.ones 1). rewrite Z.land_ones by lia.
  change (2 ^ 1) with 2. rewrite Zmod_odd. by destruct (Z.odd e).
Qed.
Lemma mask_bit k : 0 <= k -> Z.testbit 4294963200 k = (12 <=? k) && (k <? 32).
Proof.
  intros Hk. change 4294963200 with (Z.shiftl (Z.ones 20) 12). rewrite Z.shiftl_spec by done.
  destruct (Z.leb_spec 12 k); [|by rewrite Z.testbit_neg_r by lia].
  rewrite Z.testbit_ones_nonneg by lia. destruct (Z.ltb_spec (k - 12) 20), (Z.ltb_spec k 32); lia || done.
Qed.
Lemma small_bits f n k : 0 <= f < 2 ^ n -> 0 <= n <= k -> Z.testbit f k = false.
Proof.
  intros Hf Hn. destruct (decide (f = 0)) as [->|]; [apply Z.testbit_0_l|].
  apply Z.bits_above_log2; [lia|]. pose proof (proj1 (Z.log2_lt_pow2 f n ltac:(lia)) ltac:(lia)). lia.
Qed.
Lemma mask_floor x : 0 <= x < 4294967296 -> Z.land x 4294963200 = 4096 * (x / 4096).
Proof.
  intros Hx. replace (4096 * (x / 4096)) with (Z.shiftl (Z.shiftr x 12) 12)
    by (rewrite Z.shiftl_mul_pow2, Z.shiftr_div_pow2 by lia; change (2 ^ 12) with 4096; lia).
  apply Z.bits_inj'. intros k Hk. rewrite Z.land_spec, mask_bit, Z.shiftl_spec by done.
  destruct (Z.leb_spec 12 k) as [H12|H12]; simpl.
  - rewrite Z.shiftr_spec by lia. replace (k - 12 + 12) with k by lia.
    destruct (Z.ltb_spec k 32) as [|H32]; [by rewrite andb_true_r|].
    rewrite andb_false_r. symmetry. apply (small_bits x 32); [|lia]. change (2 ^ 32) with 4294967296. lia.
  - rewrite andb_false_r, Z.testbit_neg_r by lia. done.
Qed.
Lemma mask_page p : 0 <= p < 4294967296 -> p mod 4096 = 0 -> Z.land p 4294963200 = p.
Proof. intros Hp Hm. rewrite mask_floor by done. lia_mod. Qed.

(** The entry that maps to the page [p] with the flags [f]. *)
Definition entry (f p : Z) : Z := or_bits [PTE_PRESENT; u32 f; p].
Lemma entry_ok f p :
  0 <= f < 4096 -> 0 <= p < 4294967296 -> p mod 4096 = 0 ->
  present (entry f p) = true /\ ADDR_TO_PTE (entry f p) = p /\ 0 <= entry f p < 4294967296.
Proof.
  intros Hf Hp Hm. unfold entry, or_bits, PTE_PRESENT. cbn [fold_left]. rewrite u32_id by lia.
  rewrite Z.lor_0_l. split; [|].
  { unfold present. rewrite <-Z.bit0_odd, !Z.lor_spec. done. }
  assert (0 <= Z.lor (Z.lor 1 f) p < 4294967296) as Hr.
  { split; [rewrite !Z.lor_nonneg; lia|]. apply (Z.log2_lt_cancel _ 4294967296). rewrite !Z.log2_lor by (rewrite ?Z.lor_nonneg; lia).
    pose proof (Z.log2_le_mono f 4294967295 ltac:(lia)). pose proof (Z.log2_le_mono p 4294967295 ltac:(lia)).
    change (Z.log2 4294967296) with 32. change (Z.log2 4294967295) with 31 in *. change (Z.log2 1) with 0. lia. }
  split; [|done]. unfold ADDR_TO_PTE. rewrite u32_id by done.
  rewrite !Z.land_lor_distr_l, (mask_page p) by done. change (Z.land 1 4294963200) with 0.
  assert (Z.land f 4294963200 = 0) as ->; [|done].
  apply Z.bits_inj'. intros k Hk. rewrite Z.land_spec, mask_bit, Z.testbit_0_l by done.
  destruct (Z.leb_spec 12 k); [|by rewrite andb_false_r].
  by rewrite (small_bits f 12) by (change (2 ^ 12) with 4096; lia).
Qed.

(** ** Counting *)
Definition count (P : Z -> bool) (l : list Z) : Z := foldr (λ x n, Z.b2z (P x) + n) 0 l.

Lemma count_ext P P' l : (forall x, x ∈ l -> P x = P' x) -> count P l = count P' l.
Proof. induction l as [|y l IH]; intros H; simpl; [done|]. rewrite (H y), IH by set_solver. done. Qed.
Lemma count_range P l : 0 <= count P l <= Z.of_nat (length l).
Proof. induction l as [|y l IH]; simpl; [lia|]. destruct (P y); simpl; lia. Qed.
Lemma count_change P P' l x : NoDup l -> x ∈ l -> (forall y, y ∈ l -> y <> x -> P' y = P y) ->
  count P' l = count P l - Z.b2z (P x) + Z.b2z (P' x).
Proof.
  intros Hd Hx H. induction Hd as [|y l Hy Hd IH]; [set_solver|]. cbn [count foldr]. fold (count P l). fold (count P' l).
  destruct (decide (y = x)) as [->|].
  - rewrite (count_ext P' P l); [lia|]. intros z Hz. apply H; [set_solver|by intros ->].
  - rewrite IH, (H y); [lia|set_solver|done|set_solver|]. intros z Hz. apply H. set_solver.
Qed.
Lemma count_pos P l x : x ∈ l -> P x = true -> 0 < count P l.
Proof.
  induction l as [|y l IH]; [set_solver|]. cbn [count foldr]. fold (count P l). pose proof (count_range P l).
  intros [->|Hx]%elem_of_cons HP; [rewrite HP; simpl; lia|]. specialize (IH Hx HP). destruct (P y); simpl; lia.
Qed.

(** ** Address spaces *)
(** The directory entries of user addresses: from 64 MB to 2 GB, but for the
    one that shows the video memory. *)
Definition udir (d : Z) : Prop := 16 <= d < 512 /\ d <> 33.
Definition upage (q : Z) : Prop := udir (q / 1024).

(** The linker puts the tables in the kernel's image, apart from the
    allocators' statics and from each other, at addresses that are aligned. *)
Definition tables `{!Tables_at} : list (Z * Z) :=
  [(PAGE_DIR, 4096); (PAGE_TABLE, 4096); (VIDMAP_TABLE, 4096); (PDESC, 8192)].
Class TablesOk {lay : Layout} {tab : Tables_at} : Prop := {
  tables_in : Forall (λ x, 4194304 <= x.1 /\ x.1 + x.2 <= HEAP /\ x.1 mod 4 = 0) tables;
  tables_apart : pairwise ranges_apart (tables ++ statics);
  tables_paged : PAGE_DIR mod 4096 = 0 /\ PAGE_TABLE mod 4096 = 0 /\ VIDMAP_TABLE mod 4096 = 0
}.

Section layout.
Context {lay : Layout} {tab : Tables_at} {Htab : @TablesOk lay tab}.
Definition clear_of_statics (x : Z * Z) : Prop :=
  (4194304 <= x.1 /\ x.1 + x.2 <= HEAP /\ x.1 mod 4 = 0) /\
  (x.1 + x.2 <= FREE_AREA \/ FREE_AREA + 240 <= x.1) /\ (x.1 + x.2 <= FREE_LIST \/ FREE_LIST + 144 <= x.1) /\
  (x.1 + x.2 <= BIT_MAP \/ BIT_MAP + 1840 <= x.1) /\
  (x.1 + x.2 <= PH \/ PH + 12 <= x.1) /\ (x.1 + x.2 <= L1 \/ L1 + 16 <= x.1).
Lemma tables_clear x : x ∈ tables -> clear_of_statics x.
Proof using Htab.
  intros Hx. destruct Htab as [H1 H2 _]. rewrite Forall_forall in H1. split; [by apply H1|].
  apply pairwise_app in H2 as (_ & _ & H2). unfold ranges_apart in H2.
  pose proof (H2 x (FREE_AREA, 240) Hx ltac:(set_solver)). pose proof (H2 x (FREE_LIST, 144) Hx ltac:(set_solver)).
  pose proof (H2 x (BIT_MAP, 1840) Hx ltac:(set_solver)).
  pose proof (H2 x (PH, 12) Hx ltac:(set_solver)). pose proof (H2 x (L1, 16) Hx ltac:(set_solver)). done.
Qed.
Lemma clear_word x y : clear_of_statics x -> x.1 <= y -> y + 4 <= x.1 + x.2 -> y mod 4 = 0 -> waddr y /\ plain y.
Proof using Type. unfold clear_of_statics, waddr, plain, foreign, other_static, HEAP. intros. lia. Qed.
Lemma tables_pairs :
  (PAGE_DIR + 4096 <= PAGE_TABLE \/ PAGE_TABLE + 4096 <= PAGE_DIR) /\
  (PAGE_DIR + 4096 <= VIDMAP_TABLE \/ VIDMAP_TABLE + 4096 <= PAGE_DIR) /\
  (PAGE_DIR + 4096 <= PDESC \/ PDESC + 8192 <= PAGE_DIR) /\
  (PAGE_TABLE + 4096 <= VIDMAP_TABLE \/ VIDMAP_TABLE + 4096 <= PAGE_TABLE) /\
  (PAGE_TABLE + 4096 <= PDESC \/ PDESC + 8192 <= PAGE_TABLE) /\
  (VIDMAP_TABLE + 4096 <= PDESC \/ PDESC + 8192 <= VIDMAP_TABLE).
Proof using Htab.
  destruct Htab as [_ H _]. apply pairwise_app in H as (H & _). unfold tables, ranges_apart in H. simpl in H.
  rewrite !Forall_cons in H. simpl in H. tauto.
Qed.

Lemma dir_word d : 0 <= d < 1024 -> waddr (pde_at d) /\ plain (pde_at d).
Proof using Htab.
  intros Hd. pose proof (tables_clear (PAGE_DIR, 4096) ltac:(set_solver)) as H.
  apply (clear_word _ _ H); destruct H as [H _]; cbn [fst snd] in *; unfold pde_at; lia_mod.
Qed.
Lemma tab_word i : 0 <= i < 1024 -> waddr (PAGE_TABLE + 4 * i) /\ plain (PAGE_TABLE + 4 * i).
Proof using Htab.
  intros Hd. pose proof (tables_clear (PAGE_TABLE, 4096) ltac:(set_solver)) as H.
  apply (clear_word _ _ H); destruct H as [H _]; cbn [fst snd] in *; lia_mod.
Qed.
Lemma vid_word i : 0 <= i < 1024 -> waddr (VIDMAP_TABLE + 4 * i) /\ plain (VIDMAP_TABLE + 4 * i).
Proof using Htab.
  intros Hd. pose proof (tables_clear (VIDMAP_TABLE, 4096) ltac:(set_solver)) as H.
  apply (clear_word _ _ H); destruct H as [H _]; cbn [fst snd] in *; lia_mod.
Qed.
Lemma desc_word d : 0 <= d < 1024 -> waddr (pdesc_count d) /\ plain (pdesc_count d).
Proof using Htab.
  intros Hd. pose proof (tables_clear (PDESC, 8192) ltac:(set_solver)) as H.
  apply (clear_word _ _ H); destruct H as [H _]; cbn [fst snd] in *; unfold pdesc_count; lia_mod.
Qed.
Lemma flags_word : waddr (pdesc_flags 0) /\ plain (pdesc_flags 0).
Proof using Htab.
  pose proof (tables_clear (PDESC, 8192) ltac:(set_solver)) as H.
  apply (clear_word _ _ H); destruct H as [H _]; cbn [fst snd] in *; unfold pdesc_flags; lia_mod.
Qed.
Lemma dir_desc d d' : 0 <= d < 1024 -> 0 <= d' < 1024 -> pde_at d <> pdesc_count d'.
Proof using Htab. pose proof tables_pairs. unfold pde_at, pdesc_count. lia. Qed.
End layout.

Section spaces.
Context {lay : Layout} {tab : Tables_at}.
Implicit Types (w : Z -> Z) (d q : Z).

Definition has_table w d : bool := present (w (pde_at d)).
Definition table w d : Z := ADDR_TO_PTE (w (pde_at d)).
Definition pte_addr w q : Z := table w (q / 1024) + 4 * (q mod 1024).
(** What the processor finds for page [q]: the entry that maps it. *)
Definition space w q : option Z :=
  if has_table w (q / 1024) && present (w (pte_addr w q)) then Some (w (pte_addr w q)) else None.
(** How many entries of a table map a page. *)
Definition mapped_in w d : Z := count (λ i, present (w (table w d + 4 * i))) (seqZ 0 1024).

(** [mmap] and [freemap] on address spaces: [n] pages from page [q] on. *)
Fixpoint amap (n : nat) q (p f : Z) (σ : Z -> option Z) : Z * (Z -> option Z) :=
  match n with
  | O => (0, σ)
  | S n =>
      match σ q with
      | Some _ => (-1, σ)
      | None => amap n (q + 1) (p + 4096) f (λ x, if x =? q then Some (entry f p) else σ x)
      end
  end.
Fixpoint aunmap (n : nat) q (σ : Z -> option Z) : Z * (Z -> option Z) :=
  match n with
  | O => (0, σ)
  | S n =>
      match σ q with
      | Some _ => aunmap n (q + 1) (λ x, if x =? q then None else σ x)
      | None => (-1, σ)
      end
  end.
(** Equal on the user's pages. *)
Definition same_space (σ σ' : Z -> option Z) : Prop := forall q, upage q -> σ q = σ' q.
Definition range (n : nat) q : Prop := forall i, 0 <= i < Z.of_nat n -> upage (q + i).

#[export] Instance same_space_equiv : Equivalence same_space.
Proof. unfold same_space. split; [done|intros ?? H q Hq; by rewrite H|intros ??? H H' q Hq; by rewrite H, H']. Qed.

Lemma range_tail n q : range (S n) q -> upage q /\ range n (q + 1).
Proof.
  intros H. split; [specialize (H 0 ltac:(lia)); by rewrite Z.add_0_r in H|]. intros i Hi.
  replace (q + 1 + i) with (q + (i + 1)) by lia. apply H. lia.
Qed.
Lemma amap_same n q p f σ σ' : range n q -> same_space σ σ' ->
  (amap n q p f σ).1 = (amap n q p f σ').1 /\ same_space (amap n q p f σ).2 (amap n q p f σ').2.
Proof.
  revert q p σ σ'. induction n as [|n IH]; intros q p σ σ' Hr Hs; cbn [amap]; [done|].
  apply range_tail in Hr as [Hq Hr]. rewrite <-(Hs q Hq). destruct (σ q); [done|].
  apply IH; [done|]. intros x Hx. destruct (x =? q); [done|by apply Hs].
Qed.
Lemma aunmap_same n q σ σ' : range n q -> same_space σ σ' ->
  (aunmap n q σ).1 = (aunmap n q σ').1 /\ same_space (aunmap n q σ).2 (aunmap n q σ').2.
Proof.
  revert q σ σ'. induction n as [|n IH]; intros q σ σ' Hr Hs; cbn [aunmap]; [done|].
  apply range_tail in Hr as [Hq Hr]. rewrite <-(Hs q Hq). destruct (σ q); [|done].
  apply IH; [done|]. intros x Hx. destruct (x =? q); [done|by apply Hs].
Qed.
End spaces.

(** ** The invariant of the user's page tables *)
Section paging.
Context {lay : Layout} {tab : Tables_at} {Htab : @TablesOk lay tab}.
Context (Inv : kstate -> list (Z * Z) -> Prop) {PS : PageSource plain Inv}.
Implicit Types (w : Z -> Z) (d q : Z).

(** Every table of the user's directory entries is a page that is out, no two
    entries share one, and [count] is the number of pages a table maps. *)
Record paging (s : kstate) (AL : list (Z * Z)) : Prop := {
  pg_inv : Inv s AL;
  pg_table d : udir d -> has_table (word s) d = true -> (table (word s) d, 0) ∈ AL;
  pg_inj d d' : udir d -> udir d' -> has_table (word s) d = true -> has_table (word s) d' = true ->
    table (word s) d = table (word s) d' -> d = d';
  pg_count d : udir d ->
    word s (pdesc_count d) = if has_table (word s) d then mapped_in (word s) d else 0
}.

Lemma page_out s AL p : Inv s AL -> (p, 0) ∈ AL -> HEAP <= p /\ p + 4096 <= HEAP_END /\ p mod 4096 = 0.
Proof using PS.
  intros HI Hp. destruct (ps_tiles _ _ HI) as [HV _]. rewrite Forall_forall in HV. specialize (HV _ Hp).
  pose proof (valid_range _ HV) as Hr. destruct HV as (_ & k & _ & Hk). cbn [fst snd] in *.
  change (bsz 0) with 4096 in *. unfold HEAP, HEAP_END in *. split; [lia|]. split; [lia|]. lia_mod.
Qed.
Lemma pages_apart s AL p p' : Inv s AL -> (p, 0) ∈ AL -> (p', 0) ∈ AL -> p = p' \/ p + 4096 <= p' \/ p' + 4096 <= p.
Proof using PS.
  intros HI Hp Hp'. destruct (ps_tiles _ _ HI) as [_ HD].
  assert (forall a b, disj a b -> disj b a) as Hsym by (unfold disj; lia).
  destruct (pairwise_in disj Hsym AL _ _ HD Hp Hp') as [E|Hd]; [left; congruence|right].
  unfold disj in Hd. cbn [fst snd] in Hd. by change (bsz 0) with 4096 in Hd.
Qed.
Lemma in_page x p : p <= x < p + 4096 -> inside x (p, 0).
Proof using Type. unfold inside. cbn [fst snd]. by change (bsz 0) with 4096. Qed.

(** The words of a table. *)
Lemma entry_word s AL d i : paging s AL -> udir d -> has_table (word s) d = true -> 0 <= i < 1024 ->
  waddr (table (word s) d + 4 * i) /\ inside (table (word s) d + 4 * i) (table (word s) d, 0) /\
  HEAP <= table (word s) d + 4 * i.
Proof using PS.
  intros HP Hd Ht Hi. destruct (page_out _ _ _ (pg_inv _ _ HP) (pg_table _ _ HP d Hd Ht)) as (H1 & H2 & H3).
  unfold waddr, HEAP, HEAP_END in *. split; [split; [lia|lia_mod]|]. split; [apply in_page; lia|lia].
Qed.
Lemma entries_apart s AL d d' i i' : paging s AL -> udir d -> udir d' ->
  has_table (word s) d = true -> has_table (word s) d' = true -> 0 <= i < 1024 -> 0 <= i' < 1024 ->
  table (word s) d + 4 * i = table (word s) d' + 4 * i' -> d = d' /\ i = i'.
Proof using PS.
  intros HP Hd Hd' Ht Ht' Hi Hi' He.
  destruct (pages_apart s AL _ _ (pg_inv _ _ HP) (pg_table _ _ HP d Hd Ht) (pg_table _ _ HP d' Hd' Ht')) as [E|[|]]; [|lia|lia].
  assert (d = d') as -> by (by eapply pg_inj). lia.
Qed.
Lemma static_low x : plain x -> x < HEAP.
Proof using Type. by intros [[? _] _]. Qed.
Lemma udir_range d : udir d -> 0 <= d < 1024.
Proof using Type. unfold udir. lia. Qed.

(** *** One entry of a table changes, and the count with it *)
Section set_entry.
Context (s : kstate) (AL : list (Z * Z)) (d i v : Z).
Context (HP : paging s AL) (Hd : udir d) (Hi : 0 <= i < 1024) (Ht : has_table (word s) d = true).
Abbreviation w := (word s).
Abbreviation x := (table w d + 4 * i).
Definition set_entry : Z -> Z :=
  upd (pdesc_count d) (w (pdesc_count d) - Z.b2z (present (w x)) + Z.b2z (present v)) (upd x v w).

Lemma set_entry_dir d' : 0 <= d' < 1024 -> set_entry (pde_at d') = w (pde_at d').
Proof using Type*.
  intros Hd'. pose proof (static_low _ (proj2 (dir_word d' Hd'))) as Hl.
  pose proof (proj2 (proj2 (entry_word s AL d i HP Hd Ht Hi))). pose proof (dir_desc d' d Hd' (udir_range d Hd)).
  unfold set_entry. by rewrite !upd_ne by lia.
Qed.
Lemma set_entry_table d' : 0 <= d' < 1024 ->
  has_table set_entry d' = has_table w d' /\ table set_entry d' = table w d'.
Proof using Type*. intros Hd'. unfold has_table, table. by rewrite set_entry_dir. Qed.
Lemma set_entry_word d' i' : udir d' -> has_table w d' = true -> 0 <= i' < 1024 ->
  set_entry (table w d' + 4 * i') = if (d' =? d) && (i' =? i) then v else w (table w d' + 4 * i').
Proof using Type*.
  intros Hd' Ht' Hi'. pose proof (proj2 (proj2 (entry_word s AL d' i' HP Hd' Ht' Hi'))) as Hh.
  pose proof (static_low _ (proj2 (desc_word d (udir_range d Hd)))). unfold set_entry. rewrite upd_ne by lia.
  destruct (Z.eqb_spec d' d) as [->|Hne]; [destruct (Z.eqb_spec i' i) as [->|Hne]|]; cbn [andb].
  - apply upd_eq.
  - apply upd_ne. intros E. by apply (entries_apart s AL d d i' i) in E as [_ ?].
  - apply upd_ne. intros E. by apply (entries_apart s AL d' d i' i) in E as [? _].
Qed.

Lemma set_entry_count d' : udir d' ->
  set_entry (pdesc_count d') = if has_table set_entry d' then mapped_in set_entry d' else 0.
Proof using Type*.
  intros Hd'. pose proof (udir_range d Hd). pose proof (udir_range d' Hd').
  destruct (set_entry_table d') as [-> He]; [done|]. unfold mapped_in. rewrite He.
  pose proof (static_low _ (proj2 (desc_word d' ltac:(lia)))).
  pose proof (proj2 (proj2 (entry_word s AL d i HP Hd Ht Hi))).
  destruct (decide (d' = d)) as [->|Hne].
  - unfold set_entry at 1. rewrite upd_eq, (pg_count _ _ HP d Hd), Ht. unfold mapped_in.
    rewrite (count_change (λ j, present (w (table w d + 4 * j))) (λ j, present (set_entry (table w d + 4 * j))) _ i);
      [|apply NoDup_seqZ|apply elem_of_seqZ; lia|].
    + by rewrite set_entry_word, !Z.eqb_refl by done.
    + intros j Hj%elem_of_seqZ Hne. rewrite set_entry_word by (done || lia).
      by rewrite Z.eqb_refl, (proj2 (Z.eqb_neq j i) Hne).
  - unfold set_entry at 1. rewrite upd_ne by (unfold pdesc_count; lia). rewrite upd_ne by lia.
    rewrite (pg_count _ _ HP d' Hd'). destruct (has_table w d') eqn:Ht'; [|done].
    apply count_ext. intros j Hj%elem_of_seqZ. rewrite set_entry_word by (done || lia).
    by rewrite (proj2 (Z.eqb_neq d' d) Hne).
Qed.

Lemma set_entry_paging : paging (set_word set_entry s) AL.
Proof using Type*.
  pose proof (udir_range d Hd). split; cbn [word set_word].
  - apply (ps_write Inv (set_word (upd x v w) s)); [apply (ps_write Inv); [apply HP|]|].
    + right. exists (table w d, 0). split; [by apply HP|]. by apply (entry_word s AL d i HP Hd Ht Hi).
    + left. by apply desc_word.
  - intros d' Hd'. destruct (set_entry_table d' (udir_range d' Hd')) as [-> ->]. by apply HP.
  - intros d1 d2 H1 H2. destruct (set_entry_table d1 (udir_range d1 H1)) as [-> ->].
    destruct (set_entry_table d2 (udir_range d2 H2)) as [-> ->]. by apply HP.
  - apply set_entry_count.
Qed.
Lemma set_entry_space q : upage q ->
  space set_entry q = if q =? 1024 * d + i then if present v then Some v else None else space w q.
Proof using Type*.
  intros Hq. unfold upage in Hq. unfold space, pte_addr.
  destruct (set_entry_table (q / 1024) (udir_range _ Hq)) as [-> ->].
  destruct (has_table w (q / 1024)) eqn:Htq; cbn [andb].
  - rewrite set_entry_word by (done || lia_mod).
    destruct (Z.eqb_spec q (1024 * d + i)) as [->|Hne].
    + assert ((1024 * d + i) / 1024 = d) as -> by lia_mod. assert ((1024 * d + i) mod 1024 = i) as -> by lia_mod.
      by rewrite !Z.eqb_refl.
    + assert ((q / 1024 =? d) && (q mod 1024 =? i) = false) as ->; [|done].
      destruct (Z.eqb_spec (q / 1024) d), (Z.eqb_spec (q mod 1024) i); try done. lia_mod.
  - destruct (Z.eqb_spec q (1024 * d + i)) as [->|]; [|done].
    assert ((1024 * d + i) / 1024 = d) as E by lia_mod. rewrite E in Htq. congruence.
Qed.
End set_entry.
End paging.
