(* ===== verification/VmWalk.v ===== *)
(** * Walking the page tables: [_walk], and the table it adds *)
From S2P Require Import Prelude Kmalloc KmallocRing KmallocBuddy KmallocPages KmallocAlloc KmallocInit KmallocSource Vm VmProps.

(** ** Addresses *)
Lemma walk_dir va : PDE_MB_ADDR va = va / 4096 / 1024.
Proof. unfold PDE_MB_ADDR. rewrite Z.shiftr_div_pow2 by lia. change (2 ^ 22) with 4194304. lia_mod. Qed.
Lemma walk_index va : GETBIT_10 (Z.shiftr va 12) = va / 4096 mod 1024.
Proof.
  unfold GETBIT_10. rewrite Z.shiftr_div_pow2 by lia. change 1023 with (Z.ones 10). by rewrite Z.land_ones by lia.
Qed.

Section walk.
Context {lay : Layout} {tab : Tables_at} {Htab : @TablesOk lay tab}.
Context (Inv : kstate -> list (Z * Z) -> Prop) {PS : PageSource plain Inv}.
Abbreviation paging := (paging Inv).

(** ** What the calls may change *)
(** From [s] to [s'] the tables [T] were added: the tables there were are
    still there, and nothing but the user's tables, their directory entries
    and descriptors, and the page allocator's own words has changed. *)
Record grow (s : kstate) (AL : list (Z * Z)) (s' : kstate) (T : list (Z * Z)) : Prop := {
  gr_paging : paging s' (T ++ AL);
  gr_old d : udir d -> has_table (word s) d = true ->
    has_table (word s') d = true /\ table (word s') d = table (word s) d;
  gr_new d : udir d -> has_table (word s') d = true -> has_table (word s) d = true \/ (table (word s') d, 0) ∈ T;
  gr_keep b x : b ∈ AL -> inside x b -> (forall d, udir d -> has_table (word s) d = true -> b <> (table (word s) d, 0)) ->
    word s' x = word s x;
  gr_static x : plain x -> (forall d, udir d -> x <> pde_at d /\ x <> pdesc_count d) -> word s' x = word s x
}.

Lemma grow_refl s AL : paging s AL -> grow s AL s [].
Proof using Type. intros HP. split; [exact HP|done|by left|done|done]. Qed.
Lemma grow_trans s AL s1 T1 s2 T2 : grow s AL s1 T1 -> grow s1 (T1 ++ AL) s2 T2 -> grow s AL s2 (T2 ++ T1).
Proof using Htab PS.
  intros [P1 O1 N1 K1 S1] [P2 O2 N2 K2 S2]. split.
  - by rewrite <-app_assoc.
  - intros d Hd H0. destruct (O1 d Hd H0) as [H1 E1]. destruct (O2 d Hd H1) as [H2 E2]. split; [done|congruence].
  - intros d Hd H2. destruct (N2 d Hd H2) as [H1|]; [|set_solver]. destruct (N1 d Hd H1) as [|Hin]; [by left|].
    right. destruct (O2 d Hd H1) as [_ ->]. set_solver.
  - intros b x Hb Hx Hnt. rewrite <-(K1 b x) by done. apply (K2 b x); [set_solver|done|].
    intros d Hd H1 ->. destruct (N1 d Hd H1) as [H0|Hin].
    + apply (Hnt d Hd H0). by destruct (O1 d Hd H0) as [_ ->].
    + destruct (ps_tiles _ _ (pg_inv _ _ _ P1)) as [_ (_ & _ & HD)%pairwise_app].
      specialize (HD _ _ Hin Hb). unfold disj in HD. cbn [fst snd] in HD. change (bsz 0) with 4096 in HD. lia.
  - intros x Hx Hn. rewrite <-(S1 x) by done. by apply S2.
Qed.
Lemma grow_set s AL d i v : paging s AL -> udir d -> 0 <= i < 1024 -> has_table (word s) d = true ->
  grow s AL (set_word (set_entry s d i v) s) [].
Proof using Htab PS.
  intros HP Hd Hi Ht. pose proof (udir_range d Hd). pose proof (entry_word Inv s AL d i HP Hd Ht Hi) as (_ & Hin & Hh).
  pose proof (static_low _ (proj2 (desc_word d ltac:(lia)))) as Hlo.
  split; [by apply set_entry_paging|..]; cbn [word set_word].
  - intros d' Hd' Ht'. by destruct (set_entry_table Inv s AL d i v HP Hd Hi Ht d' (udir_range _ Hd')) as [-> ->].
  - intros d' Hd' Ht'. left. by destruct (set_entry_table Inv s AL d i v HP Hd Hi Ht d' (udir_range _ Hd')) as [<- _].
  - intros b x Hb Hx Hn. unfold set_entry. destruct (ps_tiles _ _ (pg_inv _ _ _ HP)) as [HV HD].
    assert (HEAP <= x) as Hxh.
    { rewrite Forall_forall in HV. pose proof (valid_range _ (HV _ Hb)). unfold inside in Hx. lia. }
    rewrite upd_ne by lia. apply upd_ne. intros ->. apply (Hn d Hd Ht).
    assert (forall a b, disj a b -> disj b a) as Hsym by (unfold disj; lia).
    destruct (pairwise_in disj Hsym AL _ _ HD Hb (pg_table _ _ _ HP d Hd Ht)) as [|Hdj]; [done|].
    unfold disj, inside in *. lia.
  - intros x Hx Hn. unfold set_entry. rewrite upd_ne by (by apply Hn). apply upd_ne.
    pose proof (static_low _ Hx). lia.
Qed.

(** ** Walking *)
Lemma walk_present s AL va f al : paging s AL -> upage (va / 4096) -> has_table (word s) (va / 4096 / 1024) = true ->
  _walk va f al s = Ok (pte_addr (word s) (va / 4096), s).
Proof using Htab.
  intros HP Hq Ht. unfold upage in Hq. destruct (dir_word _ (udir_range _ Hq)) as [Hw _].
  unfold _walk. rewrite walk_dir, walk_index. rewrite ld_bind by done.
  rewrite present_land. unfold has_table in Ht. rewrite Ht. cbn [negb]. by rewrite ld_bind.
Qed.
Lemma walk_none s va f : upage (va / 4096) -> has_table (word s) (va / 4096 / 1024) = false ->
  _walk va f 0 s = Ok (0, s).
Proof using Htab.
  intros Hq Ht. unfold upage in Hq. destruct (dir_word _ (udir_range _ Hq)) as [Hw _].
  unfold _walk. rewrite walk_dir, walk_index. rewrite ld_bind by done.
  rewrite present_land. unfold has_table in Ht. by rewrite Ht.
Qed.

Lemma zero_page_run s AL p : Inv s AL -> (p, 0) ∈ AL ->
  exists w', zero_page p s = Ok (tt, set_word w' s) /\ Inv (set_word w' s) AL /\
    (forall i, 0 <= i < 1024 -> w' (p + 4 * i) = 0) /\ (forall x, ~ inside x (p, 0) -> w' x = word s x).
Proof using PS.
  intros HI Hp. pose proof (page_out Inv s AL p HI Hp) as (H1 & H2 & H3). unfold HEAP, HEAP_END in *.
  set (I := λ (n : Z) (s1 : kstate), exists w', s1 = set_word w' s /\ Inv s1 AL /\
    (forall i, 0 <= i < n -> w' (p + 4 * i) = 0) /\ (forall x, ~ inside x (p, 0) -> w' x = word s x)).
  assert (wp s (zero_page p) (λ _ s1, I 1024 s1)) as H.
  { apply (wp_for I); [|exists (word s); split_and!; [by destruct s|done|lia|done]|done].
    intros i s1 Hi (w' & -> & HI1 & Hz & Ho). apply wp_st; [unfold waddr; lia_mod|lia|]. cbn [word set_word].
    assert (inside (p + 4 * i) (p, 0)) as Hin by (apply in_page; lia).
    exists (upd (p + 4 * i) 0 w'). split_and!; [done| | |].
    - apply (ps_write Inv (set_word w' s)); [done|]. right. by exists (p, 0).
    - intros j Hj. destruct (decide (j = i)) as [->|]; [by rewrite upd_eq|]. rewrite upd_ne by lia. apply Hz. lia.
    - intros x Hx. rewrite upd_ne by (by intros ->). by apply Ho. }
  apply wp_iff in H as ([] & s1 & Hr & w' & -> & Hinv & Hz & Ho). by exists w'.
Qed.

(** A page that is new as the table of entry [d]. *)
Section new_table.
Context (s s1 : kstate) (AL : list (Z * Z)) (d f p : Z) (w2 : Z -> Z).
Context (HP : paging s AL) (Hd : udir d) (Ht : has_table (word s) d = false) (Hf : 0 <= f < 4096).
Context (HI : Inv (set_word w2 s1) ((p, 0) :: AL)) (HK : Keep AL (word s) (word s1)).
Context (Hz : forall i, 0 <= i < 1024 -> w2 (p + 4 * i) = 0) (Ho : forall x, ~ inside x (p, 0) -> w2 x = word s1 x).
Abbreviation w := (word s).
Definition w3 : Z -> Z := upd (pde_at d) (entry f p) w2.

Lemma new_page : HEAP <= p /\ p + 4096 <= HEAP_END /\ p mod 4096 = 0.
Proof using All. apply (page_out Inv _ _ p HI). set_solver. Qed.
Lemma new_static x : plain x -> x <> pde_at d -> w3 x = w x.
Proof using All.
  intros Hx Hne. pose proof (static_low _ Hx). pose proof new_page. unfold w3. rewrite upd_ne, Ho by
    (done || (unfold inside; cbn [fst snd]; lia)).
  apply HK. left. destruct Hx as [Hx _]. unfold foreign in Hx. lia.
Qed.
Lemma new_dir : has_table w3 d = true /\ table w3 d = p.
Proof using All.
  pose proof new_page as (H1 & H2 & H3). unfold HEAP, HEAP_END in *.
  destruct (entry_ok f p Hf ltac:(lia) H3) as (E1 & E2 & _). unfold has_table, table, w3. by rewrite upd_eq.
Qed.
Lemma new_other d' : udir d' -> d' <> d -> has_table w3 d' = has_table w d' /\ table w3 d' = table w d'.
Proof using All.
  intros Hd' Hne. unfold has_table, table. rewrite new_static; [done| |unfold pde_at; lia].
  by apply dir_word, udir_range.
Qed.
Lemma new_kept b x : b ∈ AL -> inside x b -> w3 x = w x.
Proof using All.
  intros Hb Hx. destruct (ps_tiles _ _ HI) as [[_ HV]%Forall_cons [HD _]]. rewrite Forall_forall in HV, HD.
  pose proof (valid_range _ (HV _ Hb)). specialize (HD _ Hb).
  pose proof (static_low _ (proj2 (dir_word d (udir_range d Hd)))).
  unfold w3. rewrite upd_ne by (unfold inside in Hx; lia). rewrite Ho.
  - apply HK. right. by exists b.
  - unfold disj, inside in *. lia.
Qed.
Lemma new_fresh : (p, 0) ∉ AL.
Proof using All.
  intros Hin. destruct (ps_tiles _ _ HI) as [_ [HD _]]. rewrite Forall_forall in HD. specialize (HD _ Hin).
  unfold disj in HD. cbn [fst snd] in HD. change (bsz 0) with 4096 in HD. lia.
Qed.
Lemma new_entry d' i : udir d' -> has_table w d' = true -> 0 <= i < 1024 ->
  w3 (table w d' + 4 * i) = w (table w d' + 4 * i).
Proof using All.
  intros Hd' Ht' Hi. apply (new_kept (table w d', 0)); [by apply HP|]. by apply (entry_word Inv s AL).
Qed.

Lemma new_paging : paging (set_word w3 s1) ((p, 0) :: AL).
Proof using All.
  pose proof new_dir as [Hn1 Hn2]. split; cbn [word set_word].
  - apply (ps_write Inv (set_word w2 s1)); [done|]. left. by apply dir_word, udir_range.
  - intros d' Hd' Ht'. destruct (decide (d' = d)) as [->|Hne]; [rewrite Hn2; set_solver|].
    destruct (new_other d' Hd' Hne) as [E ->]. rewrite E in Ht'. apply elem_of_cons. right. by apply HP.
  - assert (forall d', udir d' -> d' <> d -> has_table w3 d' = true -> table w3 d' <> p) as Hne.
    { intros d' Hd' Hne Ht' E. destruct (new_other d' Hd' Hne) as [E1 E2]. rewrite E1 in Ht'. apply new_fresh.
      rewrite <-E, E2. by apply HP. }
    intros d1 d2 H1 H2 T1 T2 E. destruct (decide (d1 = d)) as [->|N1], (decide (d2 = d)) as [->|N2]; [done| | |].
    + destruct (Hne d2 H2 N2 T2). by rewrite <-E.
    + destruct (Hne d1 H1 N1 T1). by rewrite E.
    + destruct (new_other d1 H1 N1) as [E1 E1'], (new_other d2 H2 N2) as [E2 E2'].
      apply HP; [done|done|congruence|congruence|congruence].
  - intros d' Hd'. pose proof (udir_range d' Hd'). pose proof (udir_range d Hd).
    assert (w3 (pdesc_count d') = w (pdesc_count d')) as ->.
    { apply new_static; [by apply desc_word|]. intros E. by apply (dir_desc d d'). }
    rewrite (pg_count _ _ _ HP d' Hd'). destruct (decide (d' = d)) as [->|Hne].
    + rewrite Ht, Hn1. unfold mapped_in. rewrite Hn2. symmetry.
      rewrite (count_ext _ (λ _, false) (seqZ 0 1024)); [by vm_compute|].
      intros i Hi%elem_of_seqZ. unfold w3. rewrite upd_ne, Hz; [done|lia|].
      pose proof (static_low _ (proj2 (dir_word d ltac:(lia)))). pose proof new_page. lia.
    + destruct (new_other d' Hd' Hne) as [-> E]. destruct (has_table w d') eqn:Ht'; [|done].
      unfold mapped_in. rewrite E. apply count_ext. intros i Hi%elem_of_seqZ. by rewrite new_entry by (done || lia).
Qed.
Lemma new_space q : upage q -> space w3 q = space w q.
Proof using All.
  intros Hq. unfold upage in Hq. unfold space, pte_addr. destruct (decide (q / 1024 = d)) as [E|Hne].
  - rewrite E, Ht. pose proof new_dir as [-> ->]. cbn [andb]. unfold w3. rewrite upd_ne, Hz; [done|lia_mod|].
    pose proof (static_low _ (proj2 (dir_word d (udir_range d Hd)))). pose proof new_page. lia_mod.
  - destruct (new_other _ Hq Hne) as [-> ->]. destruct (has_table w (q / 1024)) eqn:Htq; [|done]. cbn [andb].
    rewrite new_entry; [done|done|done|lia_mod].
Qed.
Lemma new_grow : grow s AL (set_word w3 s1) [(p, 0)].
Proof using All.
  pose proof new_dir as [Hn1 Hn2]. split; cbn [word set_word].
  - apply new_paging.
  - intros d' Hd' Ht'. destruct (decide (d' = d)) as [->|Hne]; [congruence|]. by destruct (new_other d' Hd' Hne) as [-> ->].
  - intros d' Hd' Ht'. destruct (decide (d' = d)) as [->|Hne]; [right; rewrite Hn2; set_solver|].
    left. by destruct (new_other d' Hd' Hne) as [<- _].
  - intros b x Hb Hx _. by apply (new_kept b).
  - intros x Hx Hn. by apply new_static; [|apply Hn].
Qed.
End new_table.

(** [_walk] with [alloc] set: the entry's address, in a table that is there or
    was added; 0 exactly when a table is missing and no page is left. *)
Lemma walk_alloc s AL va f : paging s AL -> upage (va / 4096) -> 0 <= f < 4096 ->
  (exists s' T, _walk va f 1 s = Ok (pte_addr (word s') (va / 4096), s') /\ grow s AL s' T /\
    has_table (word s') (va / 4096 / 1024) = true /\ same_space (space (word s')) (space (word s))) \/
  (_walk va f 1 s = Ok (0, s) /\ get_page kmalloc 0 s = Ok (NULL, s)).
Proof using Htab PS.
  intros HP Hq Hf. destruct (has_table (word s) (va / 4096 / 1024)) eqn:Ht.
  { left. exists s, []. split; [by eapply walk_present|]. split; [by apply grow_refl|done]. }
  pose proof Hq as Hd. unfold upage in Hd. destruct (dir_word _ (udir_range _ Hd)) as [Hw _].
  destruct (ps_page Inv s AL (pg_inv _ _ _ HP)) as (p & s1 & Hg & [[-> ->]|(Hp & HI1 & HK)]).
  - right. split; [|done]. unfold _walk. rewrite walk_dir, walk_index. rewrite ld_bind by done.
    rewrite present_land. unfold has_table in Ht. rewrite Ht. cbn [negb].
    change (1 =? 0) with false. cbn iota. erewrite bind_ok by exact Hg. done.
  - left. destruct (zero_page_run s1 ((p, 0) :: AL) p HI1 ltac:(set_solver)) as (w2 & Hzr & HI2 & Hz & Ho).
    exists (set_word (w3 (va / 4096 / 1024) f p w2) s1), [(p, 0)].
    pose proof (page_out Inv _ _ p HI2 ltac:(apply list_elem_of_here)) as (H1 & H2 & H3). unfold HEAP, HEAP_END in *.
    destruct (new_dir s s1 AL (va / 4096 / 1024) f p w2 HP Hd Ht Hf HI2 HK Hz Ho) as [Hn1 Hn2].
    split; [|split; [by apply new_grow|split; [exact Hn1|intros q Hq'; by eapply new_space]]].
    unfold _walk. rewrite walk_dir, walk_index. rewrite ld_bind by done.
    rewrite present_land. unfold has_table in Ht. rewrite Ht. cbn [negb].
    change (1 =? 0) with false. cbn iota. erewrite bind_ok by exact Hg.
    rewrite (proj2 (Z.eqb_neq p 0) Hp). erewrite bind_ok by exact Hzr.
    assert (ADDR_TO_PTE p = p) as Hpp by (unfold ADDR_TO_PTE; rewrite u32_id by lia; apply mask_page; lia).
    rewrite Hpp. fold (entry f p).
    rewrite st_bind by (done || apply entry_ok; lia || done). by rewrite ld_bind.
Qed.
End walk.
