(* ===== verification/VmInit.v ===== *)
(** * The first address space: [page_init] *)
From S2P Require Import Prelude Kmalloc KmallocRing KmallocBuddy KmallocBits KmallocPages KmallocAlloc KmallocInit KmallocSource Vm VmProps.

Section init.
Context {lay : Layout} {tab : Tables_at} {Htab : @TablesOk lay tab}.
Context (Inv : kstate -> list (Z * Z) -> Prop) {PS : PageSource plain Inv}.
Context (AL : list (Z * Z)).
Implicit Types (w K : Z -> Z) (s : kstate).

(** What every store of [page_init] keeps. *)
Definition undisturbed s : Prop := Inv s AL /\ forall d, udir d -> word s (pdesc_count d) = 0.
(** The first [n] directory entries are those of [K]. *)
Definition dirs (n : Z) K w : Prop := forall i, 0 <= i < n -> w (pde_at i) = K i.
(** Of the first [n] entries of [page_table], those in [V] map a page. *)
Definition shown (n : Z) (V : Z -> bool) w : Prop :=
  forall i, 0 <= i < n -> present (w (PAGE_TABLE + 4 * i)) = V i.
Definition in_dir (x : Z) : Prop := PAGE_DIR <= x < PAGE_DIR + 4096.
Definition in_table (x : Z) : Prop := PAGE_TABLE <= x < PAGE_TABLE + 4096.
Definition in_desc (x : Z) : Prop := PDESC <= x < PDESC + 8192.

Lemma write_undisturbed s x v : undisturbed s -> plain x -> ~ in_desc x \/ v = 0 ->
  undisturbed (set_word (upd x v (word s)) s).
Proof using PS.
  intros [HI HC] Hx Hv. split; [apply (ps_write Inv); [done|by left]|]. intros d Hd. cbn [word set_word]. unfold upd.
  destruct (Z.eqb_spec (pdesc_count d) x) as [<-|]; [|by apply HC]. destruct Hv as [Hv|]; [|done].
  destruct Hv. pose proof (udir_range d Hd). unfold in_desc, pdesc_count. lia.
Qed.
Lemma write_dirs n K w x v : n <= 1024 -> dirs n K w -> ~ in_dir x -> dirs n K (upd x v w).
Proof using Type.
  intros Hn Hd Hx i Hi. rewrite upd_ne; [by apply Hd|]. intros <-. apply Hx. unfold in_dir, pde_at. lia.
Qed.
Lemma write_shown n V w x v : n <= 1024 -> shown n V w -> ~ in_table x -> shown n V (upd x v w).
Proof using Type.
  intros Hn Hd Hx i Hi. rewrite upd_ne; [by apply Hd|]. intros <-. apply Hx. unfold in_table. lia.
Qed.
Lemma dirs_next n K w v : 0 <= n -> dirs n K w -> v = K n -> dirs (n + 1) K (upd (pde_at n) v w).
Proof using Type.
  intros Hn Hd -> i Hi. destruct (decide (i = n)) as [->|]; [apply upd_eq|]. rewrite upd_ne by (unfold pde_at; lia).
  apply Hd. lia.
Qed.
Lemma shown_next n V w v : 0 <= n -> shown n V w -> present v = V n -> shown (n + 1) V (upd (PAGE_TABLE + 4 * n) v w).
Proof using Type.
  intros Hn Hd Hv i Hi. destruct (decide (i = n)) as [->|]; [by rewrite upd_eq|]. rewrite upd_ne by lia. apply Hd. lia.
Qed.
(** One more entry shown. *)
Lemma shown_more V V' w n v : 0 <= n < 1024 -> shown 1024 V w -> present v = true ->
  (forall i, V' i = (i =? n) || V i) -> shown 1024 V' (upd (PAGE_TABLE + 4 * n) v w).
Proof using Type.
  intros Hn Hd Hv HV i Hi. rewrite HV. destruct (Z.eqb_spec i n) as [->|]; [by rewrite upd_eq|].
  rewrite upd_ne by lia. by apply Hd.
Qed.

(** The directory of the kernel: a table for the first 4 MB, the others up to
    64 MB mapped to themselves, and the table that shows the video memory. *)
Definition kdir (i : Z) : Z :=
  if i =? 0 then entry 2 PAGE_TABLE
  else if i <? 16 then or_bits [PTE_PRESENT; PTE_RW; PDE_MB; PTE_GLO; Z.shiftl i 22]
  else if i =? 33 then entry 6 VIDMAP_TABLE else 0.
Definition kdir0 (i : Z) : Z := if i =? 33 then 0 else kdir i.
Definition video_pages (i : Z) : bool := (i =? 210) || ((i =? 209) || ((i =? 208) || (i =? 184))).

Lemma wp_u32 s p v (Q : unit -> kstate -> Prop) :
  waddr p -> Q tt (set_word (upd p (u32 v) (word s)) s) -> wp s (st p v) Q.
Proof using Type. intros Hp HQ. eapply wp_run_ok; [by apply st_u32|done]. Qed.
Lemma wp_ld s p (Q : Z -> kstate -> Prop) : waddr p -> Q (word s p) s -> wp s (ld p) Q.
Proof using Type. intros Hp HQ. eapply wp_run_ok; [by apply ld_ok|done]. Qed.

Definition big (i : Z) : Z := or_bits [PTE_PRESENT; PTE_RW; PDE_MB; PTE_GLO; Z.shiftl i 22].
Lemma big_page i : 0 <= i < 16 ->
  u32 (or_bits [PTE_PRESENT; PTE_RW; PDE_MB; PTE_GLO; Z.shiftl i 22]) = or_bits [PTE_PRESENT; PTE_RW; PDE_MB; PTE_GLO; Z.shiftl i 22].
Proof using Type.
  intros Hi. apply u32_id. revert i Hi.
  assert (forall i, 0 <= i < 16 -> (0 <=? big i) && (big i <? 4294967296) = true) as H
    by (apply (forall_seqZ (λ i, (0 <=? big i) && (big i <? 4294967296))); by vm_compute).
  intros i Hi. specialize (H i Hi). fold (big i). lia.
Qed.
Lemma table_page p f : 4194304 <= p -> p + 4096 <= HEAP -> p mod 4096 = 0 -> 0 <= f < 4096 ->
  ADDR_TO_PTE p = p /\ u32 (entry f p) = entry f p /\ present (entry f p) = true.
Proof using Type.
  unfold HEAP. intros H1 H2 H3 Hf. destruct (entry_ok f p Hf ltac:(lia) H3) as (E1 & _ & E3).
  split; [unfold ADDR_TO_PTE; rewrite u32_id by lia; apply mask_page; lia|]. split; [by apply u32_id|done].
Qed.

(** *** The loops *)
Lemma desc_loop s : undisturbed s ->
  wp s (for_loop 0 1024 (λ _, st (pdesc_flags 0) 0 ;; st (pdesc_count 0) 0))
    (λ _ s', undisturbed s' /\ forall K n, n <= 1024 -> dirs n K (word s) -> dirs n K (word s')).
Proof using Htab PS.
  intros HU. destruct flags_word as [Hf1 Hf2], (desc_word 0 ltac:(lia)) as [Hc1 Hc2]. pose proof tables_pairs as HT.
  apply (wp_for (λ _ s', undisturbed s' /\ forall K n, n <= 1024 -> dirs n K (word s) -> dirs n K (word s')));
    [|done|done]. intros _ s1 _ [HU1 HD1].
  apply wp_bind, wp_u32; [done|]. apply wp_u32; [done|]. change (u32 0) with 0. split.
  - apply write_undisturbed; [|done|by right]. apply write_undisturbed; [done|done|by right].
  - intros K n Hn HD. cbn [word set_word]. unfold pdesc_flags, pdesc_count.
    apply write_dirs; [done| |unfold in_dir; lia]. apply write_dirs; [done| |unfold in_dir; lia]. by apply HD1.
Qed.
(** A loop that writes the entries [lo] to [lo + n] of the directory. *)
Lemma dir_loop s lo n v : 0 <= lo -> lo + Z.of_nat n <= 1024 -> undisturbed s -> dirs lo kdir0 (word s) ->
  (forall i, lo <= i < lo + Z.of_nat n -> u32 (v i) = kdir0 i) ->
  wp s (for_loop lo n (λ i, st (pde_at i) (v i))) (λ _ s', undisturbed s' /\ dirs (lo + Z.of_nat n) kdir0 (word s')).
Proof using Htab PS.
  intros Hlo Hn HU HD Hv. pose proof tables_pairs as HT.
  apply (wp_for (λ i s', undisturbed s' /\ dirs i kdir0 (word s'))); [|done|done].
  intros i s1 Hi [HU1 HD1]. destruct (dir_word i ltac:(lia)) as [Hw Hf]. apply wp_u32; [done|]. split.
  - apply write_undisturbed; [done|done|]. left. unfold in_desc, pde_at. lia.
  - apply dirs_next; [lia|done|by apply Hv].
Qed.
Lemma table_loop s : undisturbed s -> dirs 1024 kdir0 (word s) ->
  wp s (for_loop 0 1024 (λ i,
    if i =? Z.shiftr VIDEO 12 then
      e ← ld (PAGE_TABLE + 4 * i);
      st (PAGE_TABLE + 4 * i) (or_bits [e; PTE_PRESENT; PTE_RW; ADDR_TO_PTE VIDEO])
    else st (PAGE_TABLE + 4 * i) PTE_RW))
    (λ _ s', undisturbed s' /\ dirs 1024 kdir0 (word s') /\ shown 1024 (λ i, i =? 184) (word s')).
Proof using Htab PS.
  intros HU HD. pose proof tables_pairs as HT. change (Z.shiftr VIDEO 12) with 184.
  apply (wp_for (λ n s', undisturbed s' /\ dirs 1024 kdir0 (word s') /\ shown n (λ i, i =? 184) (word s')));
    [|split; [done|split; [done|intros i; lia]]|done].
  intros i s1 Hi (HU1 & HD1 & HS1). destruct (tab_word i ltac:(lia)) as [Hw Hf].
  assert (forall v, present v = (i =? 184) ->
    undisturbed (set_word (upd (PAGE_TABLE + 4 * i) v (word s1)) s1) /\
    dirs 1024 kdir0 (upd (PAGE_TABLE + 4 * i) v (word s1)) /\
    shown (i + 1) (λ i, i =? 184) (upd (PAGE_TABLE + 4 * i) v (word s1))) as Hst.
  { intros v Hv. split; [|split].
    - apply write_undisturbed; [done|done|]. left. unfold in_desc. lia.
    - apply write_dirs; [done|done|]. unfold in_dir. lia.
    - by apply shown_next; [lia|..]. }
  destruct (Z.eqb_spec i 184) as [->|Hne].
  - apply wp_bind, wp_ld; [done|]. apply wp_u32; [done|]. apply Hst.
    unfold present, u32. rewrite <-Z.bit0_odd. change 4294967296 with (2 ^ 32). rewrite Z.mod_pow2_bits_low by lia.
    unfold or_bits. cbn [fold_left]. rewrite !Z.lor_spec. change (Z.testbit PTE_PRESENT 0) with true.
    by rewrite orb_true_r.
  - apply wp_u32; [done|]. by apply Hst.
Qed.
Lemma vid_loop s v : undisturbed s -> dirs 1024 kdir (word s) -> shown 1024 (λ i, i =? 184) (word s) ->
  wp s (for_loop 0 1024 (λ i, st (VIDMAP_TABLE + 4 * i) (v i)))
    (λ _ s', undisturbed s' /\ dirs 1024 kdir (word s') /\ shown 1024 (λ i, i =? 184) (word s')).
Proof using Htab PS.
  intros HU HD HS. pose proof tables_pairs as HT.
  apply (wp_for (λ n s', undisturbed s' /\ dirs 1024 kdir (word s') /\ shown 1024 (λ i, i =? 184) (word s')));
    [|done|done].
  intros i s1 Hi (HU1 & HD1 & HS1). destruct (vid_word i ltac:(lia)) as [Hw Hf]. apply wp_u32; [done|]. split; [|split].
  - apply write_undisturbed; [done|done|]. left. unfold in_desc. lia.
  - apply write_dirs; [done|done|]. unfold in_dir. lia.
  - apply write_shown; [done|done|]. unfold in_table. lia.
Qed.

Lemma show_page s V V' n v : 0 <= n < 1024 -> present (u32 v) = true -> (forall i, V' i = (i =? n) || V i) ->
  undisturbed s -> dirs 1024 kdir (word s) -> shown 1024 V (word s) ->
  wp s (st (PAGE_TABLE + 4 * n) v)
    (λ _ s', undisturbed s' /\ dirs 1024 kdir (word s') /\ shown 1024 V' (word s')).
Proof using Htab PS.
  intros Hn Hv HV HU HD HS. pose proof tables_pairs as HT. destruct (tab_word n ltac:(lia)) as [Hw Hf].
  apply wp_u32; [done|]. split; [|split].
  - apply write_undisturbed; [done|done|]. left. unfold in_desc. lia.
  - apply write_dirs; [done|done|]. unfold in_dir. lia.
  - by eapply shown_more.
Qed.

Lemma page_init_run s : undisturbed s -> word s (pde_at 0) = 0 -> word s (pde_at 1) = 0 ->
  wp s page_init (λ _ s', undisturbed s' /\ dirs 1024 kdir (word s') /\ shown 1024 video_pages (word s')).
Proof using Htab PS.
  intros HU H0 H1. pose proof tables_pairs as HT. destruct Htab as [Hin _ (Hp1 & Hp2 & Hp3)].
  rewrite Forall_forall in Hin. pose proof (Hin (PAGE_TABLE, 4096) ltac:(set_solver)) as HPT.
  pose proof (Hin (VIDMAP_TABLE, 4096) ltac:(set_solver)) as HVT. cbn [fst snd] in HPT, HVT.
  destruct (table_page PAGE_TABLE 2) as (Ea & Eb & _); [lia|lia|done|lia|].
  destruct (table_page VIDMAP_TABLE 6) as (Ec & Ed & _); [lia|lia|done|lia|].
  destruct (dir_word 0 ltac:(lia)) as [Hw0 Hf0], (dir_word 1 ltac:(lia)) as [Hw1 Hf1], (dir_word 33 ltac:(lia)) as [Hw3 Hf3].
  unfold page_init.
  apply wp_bind, wp_ld; [done|]. rewrite H0, Ea. apply wp_bind, wp_u32; [done|].
  change (or_bits [0; PTE_PRESENT; PTE_RW; PAGE_TABLE]) with (entry 2 PAGE_TABLE). rewrite Eb.
  apply wp_bind, wp_ld; [done|]. cbn [word set_word]. rewrite upd_ne, H1 by (unfold pde_at; lia).
  apply wp_bind, wp_u32; [done|].
  eapply wp_seq; [apply desc_loop; apply write_undisturbed;
    [apply write_undisturbed|done|]; try done; left; unfold in_desc, pde_at; lia|].
  intros _ s1 [HU1 HD1]. specialize (HD1 kdir0 2 ltac:(lia)).
  eapply wp_seq; [apply dir_loop; [lia|lia|exact HU1|apply HD1|]|].
  { apply (dirs_next 1); [lia| |by vm_compute]. apply (dirs_next 0); [lia| |done]. intros i. lia. }
  { intros i Hi. unfold kdir0, kdir.
    destruct (Z.eqb_spec i 33), (Z.eqb_spec i 0), (Z.ltb_spec i 16); try lia. apply big_page. lia. }
  intros _ s2 [HU2 HD2]. eapply wp_seq; [apply dir_loop; [lia|lia|exact HU2|exact HD2|]|].
  { intros i Hi. unfold kdir0, kdir.
    destruct (Z.eqb_spec i 33), (Z.eqb_spec i 0), (Z.ltb_spec i 16); try lia; done. }
  intros _ s3 [HU3 HD3]. eapply wp_seq; [apply table_loop; [exact HU3|exact HD3]|].
  intros _ s4 (HU4 & HD4 & HS4). change (VIR_VID_MEM / PAGE_SIZE_4MB) with 33.
  apply wp_bind, wp_u32; [done|]. rewrite Ec.
  change (or_bits [PTE_PRESENT; PTE_RW; PTE_US; VIDMAP_TABLE]) with (entry 6 VIDMAP_TABLE). rewrite Ed.
  eapply wp_seq; [apply vid_loop|].
  { apply write_undisturbed; [done|done|]. left. unfold in_desc, pde_at. lia. }
  { intros i Hi. cbn [word set_word]. destruct (decide (i = 33)) as [->|Hne]; [by rewrite upd_eq|].
    rewrite upd_ne, HD4 by (unfold pde_at; lia). unfold kdir0. by rewrite (proj2 (Z.eqb_neq i 33) Hne). }
  { apply write_shown; [done|done|]. unfold in_table, pde_at. lia. }
  intros _ s5 (HU5 & HD5 & HS5).
  change (Z.shiftr VIDEO_BUF_1 12) with 208. change (Z.shiftr VIDEO_BUF_2 12) with 209. change (Z.shiftr VIDEO_BUF_3 12) with 210.
  eapply wp_seq; [eapply show_page; [lia|by vm_compute| |exact HU5|exact HD5|exact HS5]; reflexivity|].
  intros _ s6 (HU6 & HD6 & HS6).
  eapply wp_seq; [eapply show_page; [lia|by vm_compute| |exact HU6|exact HD6|exact HS6]; reflexivity|].
  intros _ s7 (HU7 & HD7 & HS7).
  eapply wp_mono; [eapply show_page; [lia|by vm_compute| |exact HU7|exact HD7|exact HS7]; reflexivity|].
  done.
Qed.

(** The kernel's entries do not have the user bit, and there are no others. *)
Lemma kdir_user i : 0 <= i < 16 -> Z.testbit (kdir i) 2 = false.
Proof using Htab.
  intros Hi. unfold kdir. destruct (Z.eqb_spec i 0) as [->|Hne].
  - destruct Htab as [_ _ (_ & Hp & _)]. unfold entry, or_bits, PTE_PRESENT. cbn [fold_left]. rewrite !Z.lor_spec.
    rewrite <-(Z.mod_pow2_bits_low PAGE_TABLE 12 2) by lia. change (2 ^ 12) with 4096. by rewrite Hp.
  - destruct (Z.ltb_spec i 16) as [_|]; [|lia]. fold (big i).
    assert (negb (Z.testbit (big i) 2) = true) as H; [|by destruct (Z.testbit (big i) 2)].
    clear Hne. revert i Hi. apply (forall_seqZ (λ i, negb (Z.testbit (big i) 2))). by vm_compute.
Qed.
Lemma undisturbed_paging s : undisturbed s -> dirs 1024 kdir (word s) ->
  paging Inv s AL /\ forall q, upage q -> space (word s) q = None.
Proof using Type.
  intros [HI HC] HD.
  assert (forall d, udir d -> has_table (word s) d = false) as Hno.
  { intros d Hd. unfold has_table. rewrite HD by (by apply udir_range). unfold kdir. destruct Hd as [Hd1 Hd2].
    destruct (Z.eqb_spec d 0), (Z.ltb_spec d 16), (Z.eqb_spec d 33); lia || done. }
  split; [split|].
  - done.
  - intros d Hd Ht. by rewrite (Hno d Hd) in Ht.
  - intros d d' Hd _ Ht. by rewrite (Hno d Hd) in Ht.
  - intros d Hd. by rewrite (Hno d Hd), HC.
  - intros q Hq. unfold space. by rewrite (Hno _ Hq).
Qed.
End init.
