(* ===== verification/VmContract.v ===== *)
(** * The contract of [mmap] and [freemap] *)
From S2P Require Import Prelude Kmalloc KmallocRing KmallocBuddy KmallocPages KmallocAlloc KmallocInit KmallocSource KmallocContract Vm VmProps VmWalk VmInit.

(** ** The abstract operations *)
Section abstract.
Implicit Types (q p f : Z) (σ : Z -> option Z).
Definition between (n : nat) q (x : Z) : bool := (q <=? x) && (x <? q + Z.of_nat n).

Lemma between_S n q x : between (S n) q x = (x =? q) || between n (q + 1) x.
Proof. unfold between. destruct (Z.leb_spec q x), (Z.leb_spec (q + 1) x), (Z.ltb_spec x (q + Z.of_nat (S n))),
  (Z.ltb_spec x (q + 1 + Z.of_nat n)), (Z.eqb_spec x q); simpl; lia. Qed.

(** All the pages, when none is mapped; else none at all beyond the first that is. *)
Lemma amap_free n q p f σ : (amap n q p f σ).1 = 0 <-> forall x, between n q x = true -> σ x = None.
Proof.
  revert q p σ. induction n as [|n IH]; intros q p σ; cbn [amap].
  { split; [|done]. intros _ x. unfold between. destruct (Z.leb_spec q x), (Z.ltb_spec x (q + Z.of_nat 0)); simpl; lia. }
  destruct (σ q) eqn:Hq.
  - split; [done|]. intros H. specialize (H q). rewrite between_S, Z.eqb_refl in H. specialize (H eq_refl). congruence.
  - rewrite IH. split; intros H x; specialize (H x).
    + rewrite between_S. destruct (Z.eqb_spec x q) as [E|]; [by rewrite E|exact H].
    + destruct (Z.eqb_spec x q) as [E|]; intros Hx.
      * subst x. unfold between in Hx. destruct (Z.leb_spec (q + 1) q); [lia|done].
      * apply H. by rewrite between_S, Hx, orb_true_r.
Qed.
Lemma amap_all n q p f σ : (amap n q p f σ).1 = 0 ->
  forall x, (amap n q p f σ).2 x = if between n q x then Some (entry f (p + 4096 * (x - q))) else σ x.
Proof.
  revert q p σ. induction n as [|n IH]; intros q p σ; cbn [amap].
  { intros _ x. unfold between. by destruct (Z.leb_spec q x), (Z.ltb_spec x (q + Z.of_nat 0)); simpl; try lia. }
  destruct (σ q) eqn:Hq; [done|]. intros H x. rewrite IH by done. rewrite between_S.
  destruct (Z.eqb_spec x q) as [->|]; cbn [orb].
  - assert (between n (q + 1) q = false) as -> by (unfold between; destruct (Z.leb_spec (q + 1) q); [lia|done]).
    do 2 f_equal. lia.
  - destruct (between n (q + 1) x); [do 2 f_equal; lia|done].
Qed.
Lemma aunmap_all n q σ : (forall x, between n q x = true -> σ x <> None) ->
  (aunmap n q σ).1 = 0 /\ forall x, (aunmap n q σ).2 x = if between n q x then None else σ x.
Proof.
  revert q σ. induction n as [|n IH]; intros q σ H; cbn [aunmap].
  { split; [done|]. intros x. unfold between. by destruct (Z.leb_spec q x), (Z.ltb_spec x (q + Z.of_nat 0)); simpl; try lia. }
  destruct (σ q) eqn:Hq.
  2:{ destruct (H q); [|done]. by rewrite between_S, Z.eqb_refl. }
  destruct (IH (q + 1) (λ x, if x =? q then None else σ x)) as [H1 H2].
  { intros x Hx. destruct (Z.eqb_spec x q) as [->|].
    - unfold between in Hx. destruct (Z.leb_spec (q + 1) q); [lia|done].
    - apply H. by rewrite between_S, Hx, orb_true_r. }
  split; [done|]. intros x. rewrite H2, between_S. destruct (Z.eqb_spec x q) as [->|]; cbn [orb]; [|done].
  by destruct (between _ _ _).
Qed.
End abstract.

(** ** The loops *)
Section loops.
Context {lay : Layout} {tab : Tables_at} {Htab : @TablesOk lay tab}.
Context (Inv : kstate -> list (Z * Z) -> Prop) {PS : PageSource plain Inv}.
Abbreviation paging := (paging Inv).
Abbreviation grow := (grow Inv).

(** The two stores of a body: the entry, and [count] moved by [δ]. *)
Lemma entry_store_run {A} s AL q v δ (k : Z -> M kstate A) :
  paging s AL -> upage q -> has_table (word s) (q / 1024) = true -> 0 <= v < 4294967296 ->
  δ = Z.b2z (present v) - Z.b2z (present (word s (pte_addr (word s) q))) ->
  0 <= word s (pdesc_count (q / 1024)) + δ < 4294967296 ->
  (st (pte_addr (word s) q) v ;;
   n ← ld (pdesc_count (q / 1024));
   st (pdesc_count (q / 1024)) (u32 (n + δ)) ;; k n) s =
  k (word s (pdesc_count (q / 1024))) (set_word (set_entry s (q / 1024) (q mod 1024) v) s).
Proof using Htab PS.
  intros HP Hq Ht Hv Hδ Hn2. unfold upage in Hq.
  destruct (entry_word Inv s AL (q / 1024) (q mod 1024) HP Hq Ht ltac:(lia_mod)) as (Hw & _ & Hh).
  destruct (desc_word _ (udir_range _ Hq)) as [Hdw Hdf]. pose proof (static_low _ Hdf).
  fold (pte_addr (word s) q) in Hw, Hh. rewrite st_bind by done. rewrite ld_bind by done. cbn [word set_word].
  rewrite upd_ne by lia. rewrite u32_id by done.
  rewrite st_bind by done. unfold set_entry. fold (pte_addr (word s) q).
  replace (_ - Z.b2z _ + Z.b2z _) with (word s (pdesc_count (q / 1024)) + δ) by lia. done.
Qed.

Lemma mapped_range s AL d : paging s AL -> udir d -> 0 <= word s (pdesc_count d) <= 1024.
Proof using Type.
  intros HP Hd. rewrite (pg_count _ _ _ HP d Hd). destruct (has_table (word s) d); [|lia].
  pose proof (count_range (λ i, present (word s (table (word s) d + 4 * i))) (seqZ 0 1024)) as H.
  rewrite length_seqZ in H. unfold mapped_in. lia.
Qed.
Lemma mapped_pos s AL q : paging s AL -> upage q -> has_table (word s) (q / 1024) = true ->
  present (word s (pte_addr (word s) q)) = true -> 0 < word s (pdesc_count (q / 1024)).
Proof using Type.
  intros HP Hq Ht Hp. rewrite (pg_count _ _ _ HP _ Hq), Ht. apply (count_pos _ _ (q mod 1024)); [|done].
  apply elem_of_seqZ. lia_mod.
Qed.
Lemma page_dir addr q : addr = 4096 * q -> upage q ->
  PDE_MB_ADDR addr = q / 1024 /\ i32 addr = addr /\ u32 addr = addr /\ addr / 4096 = q.
Proof using Type.
  intros -> [Hq _]. rewrite walk_dir, i32_id, u32_id by lia_mod. split_and!; [lia_mod|done|done|lia_mod].
Qed.
Lemma set_space s AL q v : paging s AL -> upage q -> has_table (word s) (q / 1024) = true ->
  same_space (space (set_entry s (q / 1024) (q mod 1024) v))
    (λ x, if x =? q then if present v then Some v else None else space (word s) x).
Proof using Htab PS.
  intros HP Hq Ht x Hx. rewrite (set_entry_space Inv s AL) by (done || lia_mod).
  by replace (1024 * (q / 1024) + q mod 1024) with q by lia_mod.
Qed.

(** *** [mmap] *)
(** One of the pages has no table, and no page is left for it. *)
Definition exhausted s AL (n : nat) q : Prop :=
  exists s1 T i, 0 <= i < Z.of_nat n /\ grow s AL s1 T /\ has_table (word s1) ((q + i) / 1024) = false /\
    get_page kmalloc 0 s1 = Ok (NULL, s1).

Definition mmap_result s AL (n : nat) q (a : Z * (Z -> option Z)) (o : res (Z * kstate)) : Prop :=
  match o with
  | Ok (r, s') => r = a.1 /\ same_space (space (word s')) a.2 /\ exists T, grow s AL s' T
  | Bad x => x = Panic /\ exhausted s AL n q
  end.

Lemma mmap_result_trans s AL s1 T n q a a' o : grow s AL s1 T -> a.1 = a'.1 -> same_space a.2 a'.2 ->
  mmap_result s1 (T ++ AL) n (q + 1) a o -> mmap_result s AL (S n) q a' o.
Proof using Htab PS.
  intros HG E1 E2. unfold mmap_result. destruct o as [[r s']|x].
  - intros (-> & Hs & T2 & HG2). split; [done|]. split; [by rewrite Hs|]. exists (T2 ++ T). by eapply grow_trans.
  - intros (-> & s2 & T2 & i & Hi & HG2 & Hno & Hn). split; [done|]. exists s2, (T2 ++ T), (1 + i).
    split; [lia|]. split; [by eapply grow_trans|]. by replace (q + (1 + i)) with (q + 1 + i) by lia.
Qed.

(** One page: already mapped, mapped now, or no page for its table. *)
Lemma mmap_step s AL pa f len i q : paging s AL -> 0 <= f < 4096 -> 0 <= i < len -> upage q ->
  0 <= ADDR_TO_PTE pa -> ADDR_TO_PTE pa mod 4096 = 0 -> ADDR_TO_PTE pa + 4096 * i < 4294967296 ->
  let o := mmap_body pa f len (i, i32 (4096 * q)) s in
  (exists s1 T, o = Ok (inr (-1), s1) /\ grow s AL s1 T /\ (exists e, space (word s) q = Some e) /\
     same_space (space (word s1)) (space (word s))) \/
  (exists s2 T, o = Ok (inl (i + 1, i32 (4096 * (q + 1))), s2) /\ grow s AL s2 T /\ space (word s) q = None /\
     same_space (space (word s2))
       (λ x, if x =? q then Some (entry f (ADDR_TO_PTE pa + 4096 * i)) else space (word s) x)) \/
  (o = Bad Panic /\ has_table (word s) (q / 1024) = false /\ get_page kmalloc 0 s = Ok (NULL, s)).
Proof using Htab PS.
  intros HP Hf Hi Hq Hpa Hpm Hfit. destruct (page_dir _ _ eq_refl Hq) as (Hd & Hi32 & Hu32 & Hdiv).
  unfold mmap_body. destruct (Z.ltb_spec i len); [|lia]. rewrite Hi32, Hu32. cbv zeta.
  destruct (walk_alloc Inv s AL (4096 * q) f HP ltac:(by rewrite Hdiv) Hf) as [(s1 & T & Hw & HG & Ht & Hs)|[Hw Hn]].
  2:{ right. right. split; [by erewrite bind_ok by exact Hw|]. split; [|done].
      destruct (has_table (word s) (q / 1024)) eqn:Ht; [|done]. exfalso. rewrite (walk_present Inv s AL) in Hw by (done || by rewrite Hdiv).
      rewrite Hdiv in Hw. destruct (entry_word Inv s AL (q / 1024) (q mod 1024) HP Hq Ht ltac:(lia_mod)) as (_ & _ & Hh).
      fold (pte_addr (word s) q) in Hh. injection Hw as Hw. unfold HEAP in Hh. lia. }
  rewrite Hdiv in Hw, Ht. pose proof (gr_paging _ _ _ _ _ HG) as HP1. pose proof Hq as Hqd. unfold upage in Hqd.
  destruct (entry_word Inv s1 (T ++ AL) _ (q mod 1024) HP1 Hqd Ht ltac:(lia_mod)) as (Hwa & _ & Hh).
  fold (pte_addr (word s1) q) in Hwa, Hh.
  assert (space (word s) q = if present (word s1 (pte_addr (word s1) q))
    then Some (word s1 (pte_addr (word s1) q)) else None) as Hsp.
  { rewrite <-Hs by done. unfold space. by rewrite Ht. }
  assert ((pte_addr (word s1) q =? 0) = false) as Hz by (unfold HEAP in Hh; lia).
  erewrite bind_ok by exact Hw. rewrite Hz, ld_bind, present_land by done.
  destruct (present (word s1 (pte_addr (word s1) q))) eqn:Hpr; cbn [negb].
  { left. exists s1, T. split; [done|]. split; [done|]. split; [by eexists|done]. }
  right. left. set (v := entry f (ADDR_TO_PTE pa + 4096 * i)).
  assert (present v = true /\ 0 <= v < 4294967296) as [Hpv Hv].
  { destruct (entry_ok f (ADDR_TO_PTE pa + 4096 * i)) as (? & _ & ?); [lia|lia|lia_mod|done]. }
  pose proof (mapped_range s1 _ _ HP1 Hqd).
  exists (set_word (set_entry s1 (q / 1024) (q mod 1024) v) s1), T.
  split; [|split; [|split; [exact Hsp|]]].
  - rewrite Hd. replace (u32 (ADDR_TO_PTE pa + i * PAGE_SIZE)) with (ADDR_TO_PTE pa + 4096 * i)
      by (unfold PAGE_SIZE; rewrite u32_id; lia).
    fold (entry f (ADDR_TO_PTE pa + 4096 * i)). fold v.
    etransitivity; [apply (entry_store_run s1 (T ++ AL) q v 1); try done; [by rewrite Hpr, Hpv|lia]|].
    by replace (4096 * q + PAGE_SIZE) with (4096 * (q + 1)) by (unfold PAGE_SIZE; lia).
  - pose proof (grow_set Inv s1 (T ++ AL) (q / 1024) (q mod 1024) v HP1 Hqd ltac:(lia_mod) Ht) as HG2.
    exact (grow_trans Inv _ _ _ _ _ _ HG HG2).
  - intros x Hx. cbn [word set_word]. rewrite (set_space s1 (T ++ AL) q v HP1 Hq Ht x Hx), Hpv. destruct (x =? q); [done|by apply Hs].
Qed.

Lemma mmap_loop m k pa f q0 : forall i s AL, (m < k)%nat -> paging s AL -> 0 <= f < 4096 -> 0 <= i ->
  range m (q0 + i) -> 0 <= ADDR_TO_PTE pa -> ADDR_TO_PTE pa mod 4096 = 0 ->
  ADDR_TO_PTE pa + 4096 * (i + Z.of_nat m) <= 4294967296 ->
  mmap_result s AL m (q0 + i) (amap m (q0 + i) (ADDR_TO_PTE pa + 4096 * i) f (space (word s)))
    (iter k (mmap_body pa f (i + Z.of_nat m)) (i, i32 (4096 * (q0 + i))) s).
Proof using Htab PS.
  revert k. induction m as [|m IH]; intros k i s AL Hk HP Hf Hi Hr Hpa Hpm Hfit; destruct k as [|k]; try lia.
  { cbn [iter mmap_body amap]. destruct (Z.ltb_spec i (i + Z.of_nat 0)); [lia|].
    split; [done|]. split; [done|]. exists []. by apply grow_refl. }
  apply range_tail in Hr as [Hq Hr]. cbn [iter].
  destruct (mmap_step s AL pa f (i + Z.of_nat (S m)) i (q0 + i) HP Hf ltac:(lia) Hq Hpa Hpm ltac:(lia))
    as [(s1 & T & Ho & HG & (e & He) & Hs)|[(s2 & T & Ho & HG & He & Hs)|(Ho & Hno & Hx)]]; cbn [amap]; rewrite ?He.
  - erewrite bind_ok by exact Ho. split; [done|]. split; [done|]. by exists T.
  - erewrite bind_ok by exact Ho. pose proof (amap_same m (q0 + i + 1) (ADDR_TO_PTE pa + 4096 * i + 4096) f _ _ Hr Hs) as [E1 E2].
    eapply mmap_result_trans; [exact HG|exact E1|exact E2|].
    replace (i + Z.of_nat (S m)) with (i + 1 + Z.of_nat m) by lia.
    replace (q0 + i + 1) with (q0 + (i + 1)) in * by lia.
    replace (ADDR_TO_PTE pa + 4096 * i + 4096) with (ADDR_TO_PTE pa + 4096 * (i + 1)) by lia. apply IH; [lia|apply HG|done|lia|done..|lia].
  - erewrite bind_bad by exact Ho. split; [done|]. exists s, [], 0. split; [lia|]. split; [by apply grow_refl|].
    by rewrite Z.add_0_r.
Qed.

Lemma page_floor x : 0 <= x < 4294967296 -> ADDR_TO_PTE x = 4096 * (x / 4096).
Proof using Type. intros Hx. unfold ADDR_TO_PTE. by rewrite u32_id, mask_floor. Qed.

Lemma mmap_run s AL va pa size f : paging s AL -> 0 <= f < 4096 ->
  0 <= va < 4294967296 -> 0 <= pa < 4294967296 -> 0 <= size ->
  let n := Z.to_nat (size / 4096) in
  range n (va / 4096) -> 4096 * (pa / 4096) + 4096 * Z.of_nat n <= 4294967296 ->
  mmap_result s AL n (va / 4096) (amap n (va / 4096) (4096 * (pa / 4096)) f (space (word s))) (mmap va pa size f s).
Proof using Htab PS.
  intros HP Hf Hva Hpa Hsz n Hr Hfit.
  pose proof (mmap_loop n (S n) pa f (va / 4096) 0 s AL ltac:(lia) HP Hf ltac:(lia)) as H.
  rewrite Z.add_0_r, Z.mul_0_r, Z.add_0_r, Z.add_0_l, (page_floor pa Hpa) in H.
  unfold mmap. rewrite (page_floor va Hva), Z.quot_div_nonneg by (unfold PAGE_SIZE; lia).
  change (size / PAGE_SIZE) with (size / 4096). fold n. replace (size / 4096) with (Z.of_nat n) by (unfold n; lia_mod).
  apply H; [done|lia_mod|lia_mod|done].
Qed.

(** *** [freemap] *)
Definition freemap_result s AL (a : Z * (Z -> option Z)) (o : res (Z * kstate)) : Prop :=
  exists s', o = Ok (a.1, s') /\ same_space (space (word s')) a.2 /\ grow s AL s' [].

Lemma freemap_step s AL va_end q : paging s AL -> upage q -> 4096 * q < va_end ->
  let o := freemap_body va_end (4096 * q) s in
  (o = Ok (inr (-1), s) /\ space (word s) q = None) \/
  (exists s2 e, o = Ok (inl (4096 * (q + 1)), s2) /\ grow s AL s2 [] /\ space (word s) q = Some e /\
     same_space (space (word s2)) (λ x, if x =? q then None else space (word s) x)).
Proof using Htab PS.
  intros HP Hq Hlt. destruct (page_dir _ _ eq_refl Hq) as (Hd & Hi32 & Hu32 & Hdiv). pose proof Hq as Hqd. unfold upage in Hqd.
  unfold freemap_body. destruct (Z.ltb_spec (4096 * q) va_end); [|lia]. cbv zeta. unfold space at 1 2.
  destruct (has_table (word s) (q / 1024)) eqn:Ht.
  2:{ left. split; [|done]. erewrite bind_ok; [|by apply walk_none; rewrite Hdiv]. done. }
  erewrite bind_ok by (apply (walk_present Inv s AL); [done|by rewrite Hdiv..]). rewrite Hdiv.
  destruct (entry_word Inv s AL _ (q mod 1024) HP Hqd Ht ltac:(lia_mod)) as (Hwa & _ & Hh).
  fold (pte_addr (word s) q) in Hwa, Hh.
  assert ((pte_addr (word s) q =? 0) = false) as -> by (unfold HEAP in Hh; lia).
  rewrite ld_bind, present_land by done. cbn [andb].
  destruct (present (word s (pte_addr (word s) q))) eqn:Hpr; cbn [negb]; [|by left].
  right. pose proof (mapped_range s _ _ HP Hqd). pose proof (mapped_pos s AL q HP Hq Ht Hpr).
  exists (set_word (set_entry s (q / 1024) (q mod 1024) 0) s). eexists.
  split; [|split; [apply grow_set; (done || lia_mod)|split; [reflexivity|]]].
  - rewrite Hd. etransitivity; [apply (entry_store_run s AL q 0 (-1)); [done..|lia|by rewrite Hpr|lia]|].
    cbn beta. destruct (Z.eqb_spec (word s (pdesc_count (q / 1024))) 0); [lia|]. unfold PAGE_SIZE.
    destruct Hqd as [Hqr _]. rewrite u32_id by (clear - Hqr; lia_mod). by replace (4096 * q + 4096) with (4096 * (q + 1)) by lia.
  - by apply (set_space s AL).
Qed.

Lemma freemap_loop m k va_end q : forall s AL, (m < k)%nat -> paging s AL -> range m q ->
  4096 * (q + Z.of_nat m - 1) < va_end <= 4096 * (q + Z.of_nat m) ->
  freemap_result s AL (aunmap m q (space (word s))) (iter k (freemap_body va_end) (4096 * q) s).
Proof using Htab PS.
  revert k q. induction m as [|m IH]; intros k q s AL Hk HP Hr Hva; destruct k as [|k]; try lia; cbn [iter].
  { unfold freemap_body. destruct (Z.ltb_spec (4096 * q) va_end); [lia|]. exists s.
    split; [done|]. split; [done|]. by apply grow_refl. }
  apply range_tail in Hr as [Hq Hr]. cbn [aunmap].
  destruct (freemap_step s AL va_end q HP Hq ltac:(lia)) as [(Ho & He)|(s2 & e & Ho & HG & He & Hs)]; rewrite He.
  - erewrite bind_ok by exact Ho. exists s. split; [done|]. split; [done|]. by apply grow_refl.
  - erewrite bind_ok by exact Ho. pose proof (aunmap_same m (q + 1) _ _ Hr Hs) as [E1 E2].
    destruct (IH k (q + 1) s2 AL ltac:(lia) (gr_paging _ _ _ _ _ HG) Hr ltac:(lia)) as (s' & Hi & Hs' & HG').
    exists s'. split; [by rewrite Hi, E1|]. split; [by rewrite Hs'|]. exact (grow_trans Inv _ _ _ _ _ _ HG HG').
Qed.

Lemma range_last n q : range n q -> (0 < n)%nat -> 0 <= q /\ q + Z.of_nat n <= 524288.
Proof using Type.
  intros Hr Hn. pose proof (Hr 0 ltac:(lia)) as [H1 _]. pose proof (Hr (Z.of_nat n - 1) ltac:(lia)) as [H2 _].
  split; lia_mod.
Qed.
Lemma freemap_run s AL q size : paging s AL -> 0 <= size ->
  let n := Z.to_nat ((size + 4095) / 4096) in range n q -> 0 <= 4096 * q ->
  4096 * q < 4294967296 ->
  freemap_result s AL (aunmap n q (space (word s))) (freemap (4096 * q) size s).
Proof using Htab PS.
  intros HP Hsz n Hr Hq Hq2. unfold freemap.
  assert (Z.of_nat n = (size + 4095) / 4096) as Hn by (unfold n; lia_mod).
  assert (Z.of_nat n <= 524288 /\ 4096 * q + size < 4294967296) as [Hnb Hvb].
  { destruct (decide (0 < n)%nat) as [Hp|]; [|lia_mod]. pose proof (range_last n q Hr Hp). lia_mod. }
  rewrite (u32_id size), (u32_id (4096 * q + size)) by lia.
  apply freemap_loop; [unfold area_fuel; lia|done|done|lia_mod].
Qed.

(** Unmapping what was mapped. *)
Lemma aunmap_amap n q p f σ σ' : range n q -> (amap n q p f σ).1 = 0 -> same_space σ' (amap n q p f σ).2 ->
  (aunmap n q σ').1 = 0 /\ same_space (aunmap n q σ').2 σ.
Proof using Type.
  intros Hr H0 Hs. pose proof (proj1 (amap_free n q p f σ) H0) as Hf. pose proof (amap_all n q p f σ H0) as Ha.
  assert (forall x, between n q x = true -> upage x) as Hu.
  { intros x Hx. unfold between in Hx. replace x with (q + (x - q)) by lia. apply Hr.
    destruct (Z.leb_spec q x), (Z.ltb_spec x (q + Z.of_nat n)); simpl in Hx; lia || done. }
  destruct (aunmap_all n q σ') as [E1 E2].
  { intros x Hx. rewrite (Hs x (Hu x Hx)), Ha, Hx. done. }
  split; [done|]. intros x Hx. rewrite E2. destruct (between n q x) eqn:Hb; [by rewrite Hf|].
  by rewrite (Hs x Hx), Ha, Hb.
Qed.
End loops.

(** ** Theorems *)
Section theorems.
Context {lay : Layout} {tab : Tables_at} {Htab : @TablesOk lay tab}.
Context (Inv : kstate -> list (Z * Z) -> Prop) {PS : PageSource plain Inv}.


(** C13: [mmap] maps the pages of the range from the first on, each to its
    page of the physical range with the flags asked for; it stops with -1 at
    the first page that is mapped already and leaves that one as it is.  No
    other page's mapping changes, nor any page of memory that is not a page
    table; it panics only when a table is missing and no page is left. *)
Theorem mmap_correct s AL va pa size f :
  paging Inv s AL -> 0 <= f < 4096 -> 0 <= va < 4294967296 -> 0 <= pa < 4294967296 -> 0 <= size ->
  let n := Z.to_nat (size / 4096) in
  range n (va / 4096) -> 4096 * (pa / 4096) + 4096 * Z.of_nat n <= 4294967296 ->
  mmap_result Inv s AL n (va / 4096) (amap n (va / 4096) (4096 * (pa / 4096)) f (space (word s)))
    (mmap va pa size f s).
Proof. apply mmap_run; exact _. Qed.

(** C29: [freemap] unmaps the pages of the range from the first on, and stops
    with -1 at the first that is not mapped; no table is ever given back,
    although [count] goes down to 0.  So unmapping what [mmap] mapped restores
    the address space, but the tables it added stay allocated. *)
Theorem freemap_correct s AL q : paging Inv s AL -> 0 <= 4096 * q < 4294967296 ->
  (forall size, 0 <= size -> let n := Z.to_nat ((size + 4095) / 4096) in range n q ->
     exists s', freemap (4096 * q) size s = Ok ((aunmap n q (space (word s))).1, s') /\
       same_space (space (word s')) (aunmap n q (space (word s))).2 /\ grow Inv s AL s' []) /\
  (forall pa n f s1, 0 <= f < 4096 -> 0 <= pa < 4294967296 -> range n q ->
     4096 * (pa / 4096) + 4096 * Z.of_nat n <= 4294967296 ->
     mmap (4096 * q) pa (4096 * Z.of_nat n) f s = Ok (0, s1) ->
     exists T, grow Inv s AL s1 T /\
       (forall i, 0 <= i < Z.of_nat n ->
          space (word s1) (q + i) = Some (entry f (4096 * (pa / 4096) + 4096 * i))) /\
       exists s2, freemap (4096 * q) (4096 * Z.of_nat n) s1 = Ok (0, s2) /\ grow Inv s AL s2 T /\
         same_space (space (word s2)) (space (word s))).
Proof.
  intros HP Hq. split; [intros size Hsz n Hr; apply (freemap_run Inv s AL q size); done || lia|]. intros pa n f s1 Hf Hpa Hr Hfit Hm.
  assert (4096 * q / 4096 = q /\ 4096 * Z.of_nat n / 4096 = Z.of_nat n /\
    (4096 * Z.of_nat n + 4095) / 4096 = Z.of_nat n) as (E1 & E2 & E3) by lia_mod.
  pose proof (mmap_run Inv s AL (4096 * q) pa (4096 * Z.of_nat n) f HP Hf Hq Hpa ltac:(lia)) as H.
  rewrite Hm, E1, E2, Nat2Z.id in H. destruct (H Hr Hfit) as (H0 & Hs & T & HG). exists T. split; [done|].
  pose proof (aunmap_amap n q _ _ _ _ Hr (eq_sym H0) Hs) as [Hu1 Hu2].
  pose proof (freemap_run Inv s1 (T ++ AL) q (4096 * Z.of_nat n) (gr_paging _ _ _ _ _ HG) ltac:(lia)) as HF.
  rewrite E3, Nat2Z.id in HF. destruct (HF Hr (proj1 Hq) (proj2 Hq)) as (s2 & Hr2 & Hs2 & HG2). split.
  - intros i Hi. rewrite (Hs (q + i)), amap_all by auto. unfold between.
    destruct (Z.leb_spec q (q + i)), (Z.ltb_spec (q + i) (q + Z.of_nat n)); try lia. cbn [andb]. do 2 f_equal. lia.
  - exists s2. rewrite Hu1 in Hr2. split; [done|]. split; [exact (grow_trans Inv _ _ _ _ _ _ HG HG2)|].
    by rewrite Hs2.
Qed.
End theorems.

(** *** The theorems on a booted kernel *)
Definition sample_tables : Tables_at :=
  {| PAGE_DIR := 6291456; PAGE_TABLE := 6295552; VIDMAP_TABLE := 6299648; PDESC := 6303744 |}.
Lemma sample_tables_ok : @TablesOk sample_layout sample_tables.
Proof.
  split; [repeat constructor; by vm_compute| |by repeat split; vm_compute].
  unfold tables, statics, PAGE_DIR, PAGE_TABLE, VIDMAP_TABLE, PDESC, FREE_AREA, FREE_LIST, BIT_MAP, PH, L1,
    UFREE_AREA, UFREE_LIST, sample_tables, sample_layout. cbn [app pairwise].
  rewrite !Forall_cons, !Forall_nil. unfold ranges_apart. cbn [fst snd]. lia.
Qed.

Section witnesses.
#[local] Existing Instance sample_layout.
#[local] Existing Instance sample_layout_ok.
#[local] Existing Instance sample_tables.
#[local] Existing Instance sample_tables_ok.
Abbreviation inv := (λ s AL, exists FL, Buddy (word s) FL AL).

(** The allocator is up and the tables are still zero. *)
Definition zeroed (s : kstate) : kstate :=
  set_word (λ x, if (6291456 <=? x) && (x <? 6311936) then 0 else word s x) s.
Lemma zeroed_word s x : 6291456 <= x < 6311936 -> word (zeroed s) x = 0.
Proof.
  intros Hx. unfold zeroed. cbn [word set_word].
  destruct (Z.leb_spec 6291456 x); [|lia]. destruct (Z.ltb_spec x 6311936); [done|lia].
Qed.
Lemma zeroed_booted : exists s FL, kmalloc_init kmalloc blank = Ok (tt, s) /\ Ready FL s /\
  Buddy (word (zeroed s)) FL [(HEAP, 10)].
Proof.
  destruct booted as (s & FL & Hs & HR). exists s, FL. split; [done|]. split; [done|].
  eapply buddy_foreign; [|apply HR]. intros x. unfold zeroed. cbn [word set_word].
  destruct (Z.leb_spec 6291456 x); [|by left]. destruct (Z.ltb_spec x 6311936); [|by left].
  right. left. unfold foreign, HEAP. change FREE_AREA with 5242880. change FREE_LIST with 5243136.
  change BIT_MAP with 5243392. lia.
Qed.
Lemma zeroed_dir s d : 0 <= d < 1024 -> word (zeroed s) (pde_at d) = 0 /\ word (zeroed s) (pdesc_count d) = 0.
Proof.
  intros Hd. unfold pde_at, pdesc_count. change PAGE_DIR with 6291456. change PDESC with 6303744.
  split; apply zeroed_word; lia.
Qed.
Lemma zeroed_paging s FL : Buddy (word (zeroed s)) FL [(HEAP, 10)] -> paging inv (zeroed s) [(HEAP, 10)].
Proof.
  intros HB. assert (forall d, udir d -> has_table (word (zeroed s)) d = false) as Hno.
  { intros d Hd. unfold has_table. by rewrite (proj1 (zeroed_dir s d (udir_range d Hd))). }
  split; [by exists FL|..].
  - intros d Hd Ht. by rewrite (Hno d Hd) in Ht.
  - intros d d' Hd _ Ht. by rewrite (Hno d Hd) in Ht.
  - intros d Hd. rewrite (Hno d Hd). by apply zeroed_dir, udir_range.
Qed.
(** ... and then with a table for the program image, at 128 MB. *)
Lemma with_table : exists s AL, paging inv s AL /\ has_table (word s) 32 = true /\
  forall i, 0 <= i < 1024 -> space (word s) (32768 + i) = None.
Proof.
  destruct zeroed_booted as (s & FL & _ & HR & HB). pose proof (zeroed_paging s FL HB) as HP.
  assert (upage (134512640 / 4096)) as Hq by (unfold upage, udir; change (134512640 / 4096 / 1024) with 32; lia).
  destruct (walk_alloc inv (zeroed s) _ 134512640 6 HP Hq ltac:(lia)) as [(s1 & T & _ & HG & Ht & Hs)|[_ Hn]].
  - exists s1, (T ++ [(HEAP, 10)]). split; [apply HG|]. split; [exact Ht|]. intros i Hi.
    assert ((32768 + i) / 1024 = 32) as Hd by lia_mod.
    assert (upage (32768 + i)) as Hu by (unfold upage, udir; lia).
    rewrite (Hs _ Hu). unfold space, has_table. rewrite Hd.
    by rewrite (proj1 (zeroed_dir s 32 ltac:(lia))).
  - exfalso. destruct (booted_page FL (ready_free _ _ HR)) as (FL' & Ha).
    pose proof (get_page_run kmalloc (zeroed s) FL _ 0 HB ltac:(lia)) as Hg. rewrite Ha in Hg.
    destruct Hg as (w' & Hg & Hp & _). congruence.
Qed.
Lemma image_range : range 2 32840.
Proof. intros i Hi. unfold upage, udir. lia_mod. Qed.


(** In a table that is there [mmap] does not fail. *)
Lemma mmap_in_table s AL q pa n f : paging inv s AL -> 0 <= f < 4096 -> 0 <= 4096 * q < 4294967296 -> 0 <= pa < 4294967296 ->
  range n q -> 4096 * (pa / 4096) + 4096 * Z.of_nat n <= 4294967296 ->
  (forall i, 0 <= i < Z.of_nat n -> has_table (word s) ((q + i) / 1024) = true /\ space (word s) (q + i) = None) ->
  exists s1, mmap (4096 * q) pa (4096 * Z.of_nat n) f s = Ok (0, s1).
Proof.
  intros HP Hf Hq Hpa Hr Hfit Hno.
  assert (4096 * q / 4096 = q /\ 4096 * Z.of_nat n / 4096 = Z.of_nat n) as (E1 & E2) by lia_mod.
  pose proof (mmap_run inv s AL (4096 * q) pa (4096 * Z.of_nat n) f HP Hf Hq Hpa ltac:(lia)) as H.
  rewrite E1, E2, Nat2Z.id in H. specialize (H Hr Hfit).
  destruct (mmap (4096 * q) pa (4096 * Z.of_nat n) f s) as [[r s1]|x].
  - destruct H as (-> & _). exists s1. do 2 f_equal. apply amap_free. intros x Hx. unfold between in Hx.
    replace x with (q + (x - q)) by lia. apply Hno. lia.
  - destruct H as (_ & s1 & T & i & Hi & HG & Hf1 & _). exfalso.
    destruct (gr_old _ _ _ _ _ HG ((q + i) / 1024)) as [Ht _]; [by apply Hr|by apply Hno|]. congruence.
Qed.

(** Two pages of the program image mapped there. *)
Lemma image_mapped : exists s AL s1, paging inv s AL /\ space (word s) 32840 = None /\
  mmap 134512640 16777216 8192 6 s = Ok (0, s1).
Proof.
  destruct with_table as (s & AL & HP & Ht & Hsp). exists s, AL.
  assert (forall i, 0 <= i < 2 -> has_table (word s) ((32840 + i) / 1024) = true /\ space (word s) (32840 + i) = None) as Hno.
  { intros i Hi. replace ((32840 + i) / 1024) with 32 by lia_mod. split; [done|].
    replace (32840 + i) with (32768 + (72 + i)) by lia. apply Hsp. lia. }
  destruct (mmap_in_table s AL 32840 16777216 2 6 HP ltac:(lia) ltac:(lia) ltac:(lia) image_range
    ltac:(vm_compute; congruence) Hno) as (s1 & Hr).
  exists s1. split; [exact HP|]. split; [exact (proj2 (Hno 0 ltac:(lia)))|exact Hr].
Qed.

Lemma mmap_correct_witness : exists s AL s', paging inv s AL /\ mmap 134512640 16777216 8192 6 s = Ok (0, s') /\
  space (word s') 32841 = Some 16781319.
Proof.
  destruct image_mapped as (s & AL & s' & HP & _ & Hr). exists s, AL, s'. split; [exact HP|]. split; [exact Hr|].
  pose proof (mmap_correct inv s AL 134512640 16777216 8192 6 HP ltac:(lia) ltac:(lia) ltac:(lia) ltac:(lia)
    image_range ltac:(vm_compute; congruence)) as H.
  rewrite Hr in H. destruct H as (H0 & Hs & _). rewrite Hs by (unfold upage, udir; lia_mod).
  rewrite amap_all by exact (eq_sym H0). by vm_compute.
Defined.

Lemma freemap_correct_witness : exists s AL s1 s2 s3, paging inv s AL /\
  mmap 134512640 16777216 8192 6 s = Ok (0, s1) /\ freemap 134512640 8192 s1 = Ok (0, s2) /\
  freemap 134512640 8192 s = Ok (-1, s3).
Proof.
  destruct image_mapped as (s & AL & s1 & HP & Hno & Hr). exists s, AL, s1.
  destruct (freemap_correct inv s AL 32840 HP ltac:(lia)) as [Hm Hrt].
  destruct (Hrt 16777216 2%nat 6 s1 ltac:(lia) ltac:(lia) image_range ltac:(vm_compute; congruence) Hr) as (T & _ & _ & s2 & Hf & _).
  destruct (Hm 8192 ltac:(lia) image_range) as (s3 & Hu & _).
  exists s2, s3. split; [exact HP|]. split; [exact Hr|]. split; [exact Hf|].
  change (Z.to_nat ((8192 + 4095) / 4096)) with 2%nat in Hu. cbn [aunmap] in Hu. rewrite Hno in Hu. exact Hu.
Defined.
End witnesses.
