(* ===== verification/Tasks.v ===== *)
(** * Process numbers and task lists: [kernel/pid.c] and [include/list.h]

    The lists are rings of [list_head]s in the kernel's memory, as the words of
    [Kmalloc] model it; a failed check of [__list_valid] is a [Panic]. *)
From S2P Require Import Prelude Kmalloc KmallocRing KmallocBuddy.

(** ** Process numbers: the state is [size] *)
Definition BITMAP_SIZE : Z := 4096.
Definition EAGAIN : Z := 11.
Definition alloc_pid : M Z Z :=
  size ← gets id;
  if size <? BITMAP_SIZE then modify (λ _, u32 (size + 1)) ;; mret (u32 (i32 size))
  else mret (u32 (- EAGAIN)).
Definition pidmap_init : M Z unit := modify (λ _, 2).
Definition kill_pid : M Z Z :=
  size ← gets id;
  if 2 <? size then modify (λ _, u32 (size - 1)) ;; mret (u32 (size - 1))
  else mret (u32 (-1)).

(** ** Lists *)
Definition l_next (l : Z) : Z := l.
Definition l_prev (l : Z) : Z := l + 4.
Definition BUG_ON (c : bool) : M kstate unit := when c (raise Panic).
Definition __list_valid (list : Z) : M kstate unit :=
  BUG_ON (list =? NULL) ;;
  n ← ld (l_next list); BUG_ON (n =? NULL) ;;
  p ← ld (l_prev list); BUG_ON (p =? NULL) ;;
  n ← ld (l_next list); np ← ld (l_prev n); BUG_ON (negb (np =? list)) ;;
  p ← ld (l_prev list); pn ← ld (l_next p); BUG_ON (negb (pn =? list)) ;;
  n ← ld (l_next list);
  c ← (if n =? list then p ← ld (l_prev list); mret (negb (p =? list)) else mret false);
  BUG_ON c ;;
  p ← ld (l_prev list);
  c ← (if p =? list then n ← ld (l_next list); mret (negb (n =? list)) else mret false);
  BUG_ON c.

Definition __list_add (new prev next : Z) : M kstate unit :=
  st (l_prev next) new ;;
  st (l_next new) next ;;
  st (l_prev new) prev ;;
  st (l_next prev) new.
Definition __list_del (prev next : Z) : M kstate unit :=
  st (l_prev next) prev ;;
  st (l_next prev) next.
Definition list_add (new head : Z) : M kstate unit :=
  __list_valid head ;;
  n ← ld (l_next head);
  __list_add new head n ;;
  __list_valid new.
Definition list_add_tail (new head : Z) : M kstate unit :=
  __list_valid head ;;
  p ← ld (l_prev head);
  __list_add new p head ;;
  __list_valid new.
Definition list_del (entry : Z) : M kstate unit :=
  __list_valid entry ;;
  p ← ld (l_prev entry);
  n ← ld (l_next entry);
  __list_del p n ;;
  st (l_prev entry) NULL ;;
  st (l_next entry) NULL.
Definition list_empty (head : Z) : M kstate bool :=
  __list_valid head ;;
  n ← ld (l_next head);
  mret (n =? head).
(** [list_for_each (pos, head) f(pos)]. *)
Definition list_for_each_body (head : Z) (f : Z -> M kstate unit) (pos : Z) : M kstate (Z + unit) :=
  if pos =? head then mret (inr ())
  else f pos ;; n ← ld (l_next pos); mret (inl n).
Definition list_for_each (head : Z) (f : Z -> M kstate unit) : M kstate unit :=
  n ← ld (l_next head);
  iter list_fuel (list_for_each_body head f) n.

(** ** Rings *)
Section rings.
Implicit Types (w : Z -> Z) (s : kstate) (L : list Z).
Abbreviation lring := (ring 0 4).
Abbreviation lseg := (seg 0 4).
Abbreviation lseps := (pairwise (sep 8)).
Definition lnode (x : Z) : Prop := waddrs 8 x.

Lemma lnode_words x : lnode x -> waddr (l_next x) /\ waddr (l_prev x) /\ 0 < x < 4294967296.
Proof.
  unfold lnode, l_next, l_prev. intros H. split_and!; try (unfold waddrs in H; lia).
  - unfold waddrs, waddr in *. lia.
  - by apply (waddrs_field 8).
Qed.

Lemma seg_hd w p L q : lseg w p L q -> w p = hd q L /\ w (hd q L + 4) = p.
Proof. destruct L; simpl; rewrite Z.add_0_r; tauto. Qed.
Lemma seg_last w p L q : lseg w p L q -> w (last_node p L) = q /\ w (q + 4) = last_node p L.
Proof.
  revert p. induction L as [|x L IH]; intros p; simpl; [rewrite Z.add_0_r; tauto|]. intros (_ & _ & H). by apply IH.
Qed.
(** Every node is between its neighbours. *)
Lemma ring_links w h L x : lring w h L -> x ∈ h :: L ->
  exists n p, w x = n /\ w (x + 4) = p /\ w (n + 4) = x /\ w p = x /\ n ∈ h :: L /\ p ∈ h :: L.
Proof.
  intros Hr Hx. pose proof (λ L, hd_in h L) as Hh. pose proof (λ L, last_node_in h L) as Hl.
  apply elem_of_cons in Hx as [->|(L1 & L2 & ->)%list_elem_of_split].
  - destruct (seg_hd _ _ _ _ Hr), (seg_last _ _ _ _ Hr). exists (hd h L), (last_node h L).
    specialize (Hh L). specialize (Hl L). split_and!; set_solver.
  - apply seg_app in Hr as [H1 H2]. destruct (seg_hd _ _ _ _ H2), (seg_last _ _ _ _ H1).
    exists (hd h L2), (last_node h L1). specialize (Hh L2). specialize (Hl L1). split_and!; set_solver.
Qed.

Lemma list_valid_run s h L x : lring (word s) h L -> Forall lnode (h :: L) -> x ∈ h :: L ->
  __list_valid x s = Ok (tt, s).
Proof.
  intros Hr Hn Hx. rewrite Forall_forall in Hn. destruct (ring_links _ _ _ _ Hr Hx) as (n & p & H1 & H2 & H3 & H4 & Hin & Hip).
  destruct (lnode_words _ (Hn _ Hx)) as (Wn & Wp & Rx), (lnode_words _ (Hn _ Hin)) as (_ & Wnp & Rn),
    (lnode_words _ (Hn _ Hip)) as (Wpn & _ & Rp). unfold l_next, l_prev in *.
  assert (forall c (k : unit -> M kstate unit), c = false -> (BUG_ON c ≫= k) s = k () s) as HB by (by intros c k ->).
  unfold __list_valid, l_next, l_prev, NULL.
  rewrite HB by lia. rewrite ld_bind, HB by (done || lia). rewrite ld_bind, HB by (done || lia).
  rewrite ld_bind, H1, ld_bind, H3, HB by (done || lia). rewrite ld_bind, H2, ld_bind, H4, HB by (done || lia).
  rewrite ld_bind, H1 by done. destruct (Z.eqb_spec n x) as [->|Hnx].
  - assert (p = x) as -> by congruence. rewrite bind_ok with (a := false) (s1 := s)
      by (rewrite ld_bind, H2 by done; by rewrite Z.eqb_refl).
    rewrite HB by done. rewrite ld_bind, H2, Z.eqb_refl by done.
    rewrite bind_ok with (a := false) (s1 := s) by (rewrite ld_bind, H1 by done; by rewrite Z.eqb_refl). done.
  - assert (p <> x) as Hpx by congruence. rewrite bind_ok with (a := false) (s1 := s) by done.
    rewrite HB by done. rewrite ld_bind, H2, (proj2 (Z.eqb_neq p x) Hpx) by done. done.
Qed.

(** Linking [b] in between [L1] and [L2]. *)
Lemma seg_insert w w' p L1 b L2 q :
  lseg w p (L1 ++ L2) q -> NoDup (p :: L1 ++ L2) -> NoDup (L1 ++ L2 ++ [q]) ->
  w' (last_node p L1) = b -> w' (b + 4) = last_node p L1 -> w' b = hd q L2 -> w' (hd q L2 + 4) = b ->
  (forall y, y ∈ p :: L1 ++ L2 -> y <> last_node p L1 -> w' y = w y) ->
  (forall y, y ∈ L1 ++ L2 ++ [q] -> y <> hd q L2 -> w' (y + 4) = w (y + 4)) ->
  lseg w' p (L1 ++ b :: L2) q.
Proof.
  revert p. induction L1 as [|z L1 IH]; intros p Hs Hd1 Hd2 E1 E2 E3 E4 Hnx Hls; cbn [app] in *; simpl; rewrite Z.add_0_r.
  - simpl in E1, E2. split_and!; [done..|]. destruct L2 as [|n L2]; simpl in *; rewrite ?Z.add_0_r; [done|].
    destruct Hs as (_ & _ & Hs). split_and!; [done..|]. eapply seg_frame; [exact Hs| |]; intros y Hy; rewrite ?Z.add_0_r.
    + apply Hnx; [set_solver|]. intros ->. apply NoDup_cons in Hd1 as [Hd1 _]. set_solver.
    + apply Hls; [set_solver|]. intros ->. apply NoDup_cons in Hd2 as [Hd2 _]. set_solver.
  - simpl in Hs. rewrite Z.add_0_r in Hs. destruct Hs as (Hp & Hz & Hs).
    apply NoDup_cons in Hd1 as [Hp1 Hd1]. apply NoDup_cons in Hd2 as [Hz2 Hd2].
    pose proof (last_node_in z L1) as Hin. pose proof (hd_in q L2). split_and!.
    + rewrite Hnx; [done|set_solver|]. intros E. simpl in E. rewrite <-E in Hin. set_solver.
    + rewrite Hls; [done|set_solver|]. intros ->. set_solver.
    + apply IH; try done; intros y Hy Hyn; [apply Hnx|apply Hls]; set_solver.
Qed.

Lemma list_add_between s h L1 b L2 :
  lring (word s) h (L1 ++ L2) -> Forall lnode (b :: h :: L1 ++ L2) -> lseps (b :: h :: L1 ++ L2) ->
  exists w', __list_add b (last_node h L1) (hd h L2) s = Ok (tt, set_word w' s) /\ lring w' h (L1 ++ b :: L2) /\
    forall y, (forall x, x ∈ b :: h :: L1 ++ L2 -> y <> x /\ y <> x + 4) -> w' y = word s y.
Proof.
  intros Hr Hn Hs. pose proof Hn as Hall. rewrite Forall_forall in Hn.
  assert (last_node h L1 ∈ h :: L1 ++ L2) as Hl by (pose proof (last_node_in h L1); set_solver).
  assert (hd h L2 ∈ h :: L1 ++ L2) as Hh by (pose proof (hd_in h L2); set_solver).
  set (p := last_node h L1) in *. set (n := hd h L2) in *.
  destruct (lnode_words b (Hn b ltac:(set_solver))) as (Wb & Wb4 & Rb).
  destruct (lnode_words p (Hn p ltac:(set_solver))) as (Wp & _ & Rp).
  destruct (lnode_words n (Hn n ltac:(set_solver))) as (_ & Wn4 & Rn).
  exists (upd p b (upd (b + 4) p (upd b n (upd (n + 4) b (word s))))). split; [|split].
  - unfold __list_add, l_next, l_prev in *. rewrite !st_bind by (done || lia). by rewrite st_ok by (done || lia).
  - destruct Hs as [Hb Hs]. rewrite Forall_forall in Hb.
    assert (NoDup (h :: L1 ++ L2)) as Hd by (apply (pairwise_NoDup (sep 8)); [unfold sep; lia|done]).
    assert (forall x y, x ∈ h :: L1 ++ L2 -> y ∈ h :: L1 ++ L2 -> x = y \/ sep 8 x y) as Hsep
      by (intros x y; by apply seps_neq).
    pose proof (Hb p Hl) as Hbp. pose proof (Hb n Hh) as Hbn. pose proof (Hsep p n Hl Hh) as Hpn. unfold sep in Hbp, Hbn, Hpn.
    eapply seg_insert; fold p n.
    1: exact Hr. 1: done. 1: rewrite app_assoc; by apply NoDup_app_comm'.
    1: apply upd_eq. 1: rewrite upd_ne by lia; apply upd_eq.
    1: rewrite !upd_ne by lia; apply upd_eq.
    1: rewrite !upd_ne by lia; apply upd_eq.
    + intros y Hy Hyp. specialize (Hb y Hy). pose proof (Hsep y n Hy Hh). unfold sep in *. by rewrite !upd_ne by lia.
    + intros y Hy Hyn. assert (y ∈ h :: L1 ++ L2) as Hy' by set_solver.
      specialize (Hb y Hy'). pose proof (Hsep y p Hy' Hl). pose proof (Hsep y n Hy' Hh). unfold sep in *. by rewrite !upd_ne by lia.
  - intros y Hy. pose proof (Hy b ltac:(set_solver)). pose proof (Hy p ltac:(set_solver)). pose proof (Hy n ltac:(set_solver)).
    by rewrite !upd_ne by tauto.
Qed.

(** The words [w] hold the list of the nodes [L] with head [h]. *)
Record List_at w h L : Prop := {
  at_ring : lring w h L;
  at_nodes : Forall lnode (h :: L);
  at_apart : lseps (h :: L)
}.
(** Words outside the nodes [D] are as before. *)
Definition only (D : list Z) w w' : Prop := forall y, (forall x, x ∈ D -> y <> x /\ y <> x + 4) -> w' y = w y.

Lemma List_insert s h L1 b L2 : List_at (word s) h (L1 ++ L2) -> lnode b -> Forall (sep 8 b) (h :: L1 ++ L2) ->
  exists w', __list_add b (last_node h L1) (hd h L2) s = Ok (tt, set_word w' s) /\
    List_at w' h (L1 ++ b :: L2) /\ only (b :: h :: L1 ++ L2) (word s) w'.
Proof.
  intros [H1 H2 H3] Hb Hs. destruct (list_add_between s h L1 b L2 H1) as (w' & Hr & H' & Ho); [by constructor|done|].
  exists w'. split; [done|]. split; [|exact Ho].
  assert (h :: L1 ++ b :: L2 ≡ₚ b :: h :: L1 ++ L2) as Hp by (by rewrite <-(Permutation_middle (h :: L1)) || solve_Permutation).
  split; [done|rewrite Hp; by constructor|]. eapply (pairwise_perm (sep 8)); [apply sep_sym|symmetry; exact Hp|done].
Qed.

(** [list_add_tail] appends, [list_add] puts in front, and no check fails. *)
Theorem list_add_tail_correct s h L b : List_at (word s) h L -> lnode b -> Forall (sep 8 b) (h :: L) ->
  exists w', list_add_tail b h s = Ok (tt, set_word w' s) /\ List_at w' h (L ++ [b]) /\ only (b :: h :: L) (word s) w'.
Proof.
  intros HL Hb Hs. destruct (List_insert s h L b []) as (w' & Hr & HL' & Ho); rewrite ?app_nil_r in *; [done..|].
  exists w'. split; [|done]. unfold list_add_tail.
  rewrite (bind_ok _ _ _ _ _ (list_valid_run s h L h (at_ring _ _ _ HL) (at_nodes _ _ _ HL) ltac:(set_solver))).
  destruct (lnode_words h) as (_ & Wp & _); [by destruct (proj1 (Forall_cons _ _ _) (at_nodes _ _ _ HL))|].
  rewrite ld_bind by done. unfold l_prev. rewrite (proj2 (seg_last _ _ _ _ (at_ring _ _ _ HL))).
  rewrite (bind_ok _ _ _ _ _ Hr). apply (list_valid_run _ h (L ++ [b])); [apply HL'|apply HL'|set_solver].
Qed.
Theorem list_add_correct s h L b : List_at (word s) h L -> lnode b -> Forall (sep 8 b) (h :: L) ->
  exists w', list_add b h s = Ok (tt, set_word w' s) /\ List_at w' h (b :: L) /\ only (b :: h :: L) (word s) w'.
Proof.
  intros HL Hb Hs. destruct (List_insert s h [] b L) as (w' & Hr & HL' & Ho); [done..|].
  exists w'. split; [|done]. unfold list_add.
  rewrite (bind_ok _ _ _ _ _ (list_valid_run s h L h (at_ring _ _ _ HL) (at_nodes _ _ _ HL) ltac:(set_solver))).
  destruct (lnode_words h) as (Wn & _ & _); [by destruct (proj1 (Forall_cons _ _ _) (at_nodes _ _ _ HL))|].
  rewrite ld_bind by done. unfold l_next. rewrite (proj1 (seg_hd _ _ _ _ (at_ring _ _ _ HL))).
  rewrite (bind_ok _ _ _ _ _ Hr). apply (list_valid_run _ h (b :: L)); [apply HL'|apply HL'|set_solver].
Qed.

(** [list_del] takes the entry out, and leaves null pointers in it: deleting
    it again, or using it as a head, panics. *)
Theorem list_del_correct s h L1 b L2 : List_at (word s) h (L1 ++ b :: L2) ->
  exists w', list_del b s = Ok (tt, set_word w' s) /\ List_at w' h (L1 ++ L2) /\ w' b = 0 /\ w' (b + 4) = 0 /\
    __list_valid b (set_word w' s) = Bad Panic.
Proof.
  intros [Hr Hn Hs]. pose proof Hn as Hall. rewrite Forall_forall in Hn.
  destruct (ring_at 0 4 _ _ _ _ _ Hr) as [Ep En]. rewrite Z.add_0_r in En.
  assert (h :: L1 ++ b :: L2 ≡ₚ b :: h :: L1 ++ L2) as Hp by (by rewrite <-(Permutation_middle (h :: L1)) || solve_Permutation).
  pose proof (pairwise_perm _ (sep_sym 8) _ _ Hp Hs) as [Hb Hs']. rewrite Forall_forall in Hb.
  assert (last_node h L1 ∈ h :: L1 ++ L2) as Hl by (pose proof (last_node_in h L1); set_solver).
  assert (hd h L2 ∈ h :: L1 ++ L2) as Hh by (pose proof (hd_in h L2); set_solver).
  assert (forall x, x ∈ h :: L1 ++ L2 -> lnode x) as Hn' by (intros x Hx; apply Hn; set_solver).
  set (p := last_node h L1) in *. set (n := hd h L2) in *.
  destruct (lnode_words b (Hn b ltac:(set_solver))) as (Wb & Wb4 & Rb).
  destruct (lnode_words p (Hn' p Hl)) as (Wp & _ & Rp). destruct (lnode_words n (Hn' n Hh)) as (_ & Wn4 & Rn).
  pose proof (Hb p Hl) as Hbp. pose proof (Hb n Hh) as Hbn. unfold sep in Hbp, Hbn.
  exists (upd b 0 (upd (b + 4) 0 (upd p n (upd (n + 4) p (word s))))). split; [|split; [split|split_and!]].
  - unfold list_del, __list_del, l_next, l_prev, NULL in *.
    rewrite (bind_ok _ _ _ _ _ (list_valid_run s h _ b Hr Hall ltac:(set_solver))).
    rewrite ld_bind, Ep, ld_bind, En by done.
    erewrite bind_ok by (rewrite st_bind by (done || lia); rewrite st_ok by (done || lia); done).
    rewrite st_bind by (done || lia). by rewrite st_ok by (done || lia).
  - eapply (ring_frame 0 4); [eapply (ring_remove 0 4 8 ltac:(lia) (word s) (upd p n (upd (n + 4) p (word s)))); [exact Hr|exact Hs|]|].
    + fold p n. unfold unlinked. rewrite Z.add_0_r. split_and!.
      * apply upd_eq.
      * destruct (seps_neq 8 _ _ _ Hs' Hl Hh) as [E|E]; [rewrite upd_ne by lia|unfold sep in E; rewrite upd_ne by lia]; apply upd_eq.
      * intros y H1 H2. by rewrite !upd_ne.
    + intros x Hx. specialize (Hb x Hx). unfold sep in Hb. rewrite Z.add_0_r. split; rewrite !(upd_ne b), !(upd_ne (b + 4)) by lia; done.
  - rewrite Forall_forall. exact Hn'.
  - exact Hs'.
  - apply upd_eq.
  - rewrite upd_ne by lia. apply upd_eq.
  - unfold __list_valid, l_next, l_prev, NULL in *. rewrite (proj2 (Z.eqb_neq b 0)) by lia. cbn [BUG_ON].
    erewrite bind_ok by done. rewrite ld_bind by done. cbn [word set_word]. by rewrite upd_eq.
Qed.

Theorem list_empty_correct s h L : List_at (word s) h L -> list_empty h s = Ok (bool_decide (L = []), s).
Proof.
  intros HL. pose proof HL as [Hr Hn Hs]. unfold list_empty.
  rewrite (bind_ok _ _ _ _ _ (list_valid_run s h L h Hr Hn ltac:(set_solver))).
  destruct (lnode_words h) as (Wn & _ & _); [by destruct (proj1 (Forall_cons _ _ _) Hn)|].
  rewrite ld_bind by done. unfold l_next. rewrite (proj1 (seg_hd _ _ _ _ Hr)).
  destruct L as [|x L]; simpl; [by rewrite Z.eqb_refl|]. rewrite (proj2 (Z.eqb_neq x h)); [done|].
  intros ->. simpl in Hs. destruct Hs as [Hs _]. apply Forall_cons in Hs as [Hs _]. unfold sep in Hs. lia.
Qed.
End rings.

(** ** Process numbers *)
(** The numbers handed out are new until one is given back; [kill_pid] gives
    back the last number whoever exits, so the next process then shares its
    number with one that lives.  At 4096 processes [alloc_pid] returns -EAGAIN,
    which as a [pid_t] is not negative. *)
Theorem alloc_pid_counts n : 2 <= n < 4096 -> alloc_pid n = Ok (n, n + 1).
Proof.
  intros Hn. unfold alloc_pid, gets, modify, BITMAP_SIZE, mbind, M_bind, id.
  destruct (Z.ltb_spec n 4096); [|lia]. unfold mret, M_ret. by rewrite i32_id, !u32_id by lia.
Qed.
Theorem pid_shared : exists a b c s, (pidmap_init ;; a ← alloc_pid; b ← alloc_pid; kill_pid ;; c ← alloc_pid; mret (a, b, c)) 0 =
  Ok ((a, b, c), s) /\ a <> b /\ c = b.
Proof. exists 2, 3, 3, 4. by vm_compute. Qed.
Theorem pid_exhausted : alloc_pid 4096 = Ok (4294967285, 4096).
Proof. by vm_compute. Qed.
