(* ===== verification/Args.v ===== *)
(** * The arguments of a command: [parse_arg] of [kernel/process.c]

    On the byte memory of [Bytes]; the array [argv] of 32-bit pointers and the
    buffer on the stack are part of it. *)
From S2P Require Import Prelude Bytes KString UString StringProps MemProps.

Definition MAXARGS : Z := 10.
Definition ARGSIZE : Z := 33.

(** [while ( *cmd && ( *cmd == ' ')) ++cmd;] *)
Definition skip_body (p : Z) : M mem (Z + Z) :=
  c ← ldc p;
  if c =? 0 then mret (inr p) else
  c ← ldc p;
  mret (if c =? 32 then inl (u32 (p + 1)) else inr p).
Definition skip_spaces (cmd : Z) : M mem Z :=
  fuel ← gets mem_fuel; iter fuel skip_body cmd.

(** One argument; the state is [(cmd, argc)]. *)
Definition parse_body (argv : Z) (x : Z * Z) : M mem ((Z * Z) + Z) :=
  let '(cmd, argc) := x in
  delim ← KString.strchr cmd 32;
  if delim =? NULL then
    (* the blank line and the end of the list *)
    if argc =? 0 then mret (inr (-1)) else
    KString.st32 (argv + 4 * argc) NULL ;;
    mret (inr argc)
  else
  if argc =? MAXARGS then mret (inr (-1)) else
  st8 delim 0 ;;
  a ← KString.ld32 (argv + 4 * argc);
  KString.strcpy a cmd ;;
  cmd ← skip_spaces (u32 (delim + 1));
  mret (inl (cmd, argc + 1)).

(** The byte before the terminating zero. *)
Definition last_char (s : Z) : M mem Z := n ← KString.strlen s; ldc (s + u32 (n - 1)).

(** [buf] is the array [buf\[strlen(cmd) + 2\]]. *)
Definition parse_arg (cmd argv buf : Z) : M mem Z :=
  KString.strlen cmd ;;
  if cmd =? NULL then mret (-1) else
  KString.strcpy buf cmd ;;
  let cmd := buf in
  c ← last_char cmd;
  nl ← (if c =? 10 then mret true else c ← last_char cmd; mret (c =? 13));
  (if (nl : bool) then n ← KString.strlen cmd; st8 (cmd + u32 (n - 1)) 32
   else n ← KString.strlen cmd; st8 (cmd + n) 32) ;;
  cmd ← skip_spaces cmd;
  fuel ← gets mem_fuel;
  iter fuel (parse_body argv) (cmd, 0).

(** ** The words of a line *)
Definition flush (cur : list Z) : list (list Z) := match cur with [] => [] | _ => [cur] end.
Fixpoint words_from (cur l : list Z) : list (list Z) :=
  match l with
  | [] => flush cur
  | b :: l => if b =? 32 then flush cur ++ words_from [] l else words_from (cur ++ [b]) l
  end.
Definition words (l : list Z) : list (list Z) := words_from [] l.

Lemma words_word cur w l : 32 ∉ w -> words_from cur (w ++ 32 :: l) = flush (cur ++ w) ++ words_from [] l.
Proof.
  revert cur. induction w as [|b w IH]; intros cur Hw; cbn [app words_from].
  - by rewrite Z.eqb_refl, app_nil_r.
  - apply not_elem_of_cons in Hw as [Hb Hw]. rewrite (proj2 (Z.eqb_neq b 32)) by congruence.
    rewrite IH by done. by rewrite <-app_assoc.
Qed.
Lemma words_space cur l : words_from cur (l ++ [32]) = words_from cur l.
Proof.
  revert cur. induction l as [|b l IH]; intros cur; cbn [app words_from].
  - rewrite Z.eqb_refl. cbn. by rewrite app_nil_r.
  - destruct (b =? 32); [by rewrite IH|apply IH].
Qed.
(** A text that begins with a word. *)
Lemma split_word l : 32 ∈ l -> exists w tl, l = w ++ 32 :: tl /\ 32 ∉ w.
Proof.
  induction l as [|b l IH]; [by intros ?%elem_of_nil|]. intros H. destruct (decide (b = 32)) as [->|Hb].
  - exists [], l. split; [done|by intros ?%elem_of_nil].
  - apply elem_of_cons in H as [|H]; [congruence|]. destruct (IH H) as (w & tl & -> & Hw). exists (b :: w), tl.
    split; [done|]. apply not_elem_of_cons. split; [congruence|done].
Qed.
Fixpoint skipped (l : list Z) : list Z := match l with b :: l' => if b =? 32 then skipped l' else l | [] => [] end.
Lemma skipped_spec l : exists k, l = replicate k 32 ++ skipped l /\ hd 0 (skipped l) <> 32 /\
  words (skipped l) = words l.
Proof.
  induction l as [|b l (k & IH & IH2 & IH3)]; [by exists O|]. cbn [skipped]. destruct (Z.eqb_spec b 32) as [->|Hb].
  - exists (S k). cbn [replicate app]. split; [by f_equal|]. split; [done|]. rewrite IH3. unfold words.
    change (32 :: l) with ([] ++ 32 :: l). by rewrite words_word by (by intros ?%elem_of_nil).
  - exists O. by split.
Qed.

(** A text is empty or ends in a space. *)
Definition ends (r : list Z) : Prop := r = [] \/ last r = Some 32.
Lemma ends_skipped l : ends l -> ends (skipped l).
Proof.
  intros [->|H]; [by left|]. destruct (skipped_spec l) as (k & E & _). destruct (skipped l) as [|b l'] eqn:Hs; [by left|right].
  rewrite E, last_app in H. destruct (last (b :: l')) eqn:El; [done|by apply last_None in El].
Qed.
(** The text [r] has a word [w] in front. *)
Lemma next_word ws r n : words r = drop n ws -> r <> [] -> hd 0 r <> 32 -> ends r -> exists w tl,
  r = w ++ 32 :: tl /\ (32 ∉ w) /\ w <> [] /\ ws !! n = Some w /\ drop (S n) ws = words tl /\ ends tl.
Proof.
  intros Hwd Hr Hh He.
  assert (32 ∈ r) as Hin.
  { destruct He as [|He]; [done|]. rewrite last_lookup in He. by eapply list_elem_of_lookup_2. }
  destruct (split_word r Hin) as (w & tl & -> & Hw). assert (w <> []) as Hwn by (by intros ->).
  unfold words in Hwd. rewrite words_word in Hwd by done. cbn [app] in Hwd.
  replace (flush w) with [w] in Hwd by (by destruct w). cbn [app] in Hwd.
  exists w, tl. split_and!; try done.
  - replace n with (n + 0)%nat by lia. rewrite <-lookup_drop, <-Hwd. done.
  - change (S n) with (1 + n)%nat. rewrite Nat.add_comm, <-drop_drop, <-Hwd. done.
  - destruct tl as [|b tl]; [by left|right]. destruct He as [He|He]; [by destruct w|].
    rewrite last_app in He. change (last (32 :: b :: tl)) with (last (b :: tl)) in He.
    destruct (last (b :: tl)) eqn:El; [done|by apply last_None in El].
Qed.

(** ** The loops *)
Lemma cstr_skip m p k l : cstr m p (replicate k 32 ++ l) -> cstr m (p + Z.of_nat k) l.
Proof.
  revert p. induction k as [|k IH]; intros p H; [by rewrite Z.add_0_r|]. cbn [replicate app] in H.
  apply cstr_tail in H. apply IH in H. by replace (p + Z.of_nat (S k)) with (p + 1 + Z.of_nat k) by lia.
Qed.
Lemma cstr_u32 m p l : cstr m (u32 p) l <-> cstr m p l.
Proof.
  unfold cstr, bytes_at. setoid_rewrite u32_u32_add. done.
Qed.
Lemma cstr_head m p l : cstr m p l -> exists b, hd 0 (l ++ [0]) = b /\ m !! u32 p = Some b /\ 0 <= b < 256 /\ (b = 0 <-> l = []).
Proof.
  intros Hc. destruct (cstr_at m p l 0 Hc ltac:(lia)) as (b & Hb & Hm & Hr & Hz). rewrite Z.add_0_r in Hm. exists b.
  split; [destruct l; by injection Hb|]. split; [done|]. split; [done|]. rewrite Hz. destruct l; [done|]. done.
Qed.

(** What the bodies do at a character. *)
Lemma skip_at m p b : m !! u32 p = Some b -> 0 <= b < 256 ->
  skip_body p m = Ok (if b =? 32 then inl (u32 (p + 1)) else inr p, m).
Proof.
  intros Hm Hr. assert (ldc p m = Ok (i8 b, m)) as Hld by (apply wp_ok; by eapply wp_ldc).
  unfold skip_body. rewrite (bind_ok _ _ _ _ _ Hld), i8_zero by done.
  destruct (Z.eqb_spec b 0) as [->|Hb]; [done|]. rewrite (bind_ok _ _ _ _ _ Hld).
  destruct (Z.eqb_spec b 32) as [->|Hne]; [done|]. rewrite (proj2 (Z.eqb_neq (i8 b) 32)); [done|].
  change 32 with (i8 32). intros E. apply i8_inj in E; lia.
Qed.
Lemma chr_at m p b : m !! u32 p = Some b -> 0 <= b < 256 ->
  KString.strchr_body 32 p m = Ok (if b =? 0 then inr NULL else if b =? 32 then inr p else inl (u32 (p + 1)), m).
Proof.
  intros Hm Hr. assert (ldc p m = Ok (i8 b, m)) as Hld by (apply wp_ok; by eapply wp_ldc).
  unfold KString.strchr_body. rewrite (bind_ok _ _ _ _ _ Hld), i8_zero by done.
  destruct (Z.eqb_spec b 0) as [->|Hb]; [done|]. destruct (Z.eqb_spec b 32) as [->|Hne]; [done|].
  rewrite (proj2 (Z.eqb_neq (i8 b) 32)); [done|]. change 32 with (i8 32). intros E. apply i8_inj in E; lia.
Qed.

Lemma skip_spaces_run m p l : cstr m p l -> 0 <= p -> p + Z.of_nat (length l) < 4294967296 -> exists k,
  skip_spaces p m = Ok (p + Z.of_nat k, m) /\ l = replicate k 32 ++ skipped l /\ cstr m (p + Z.of_nat k) (skipped l).
Proof.
  intros Hc H0 Hp. pose proof (cstr_fuel _ _ _ Hc) as Hf.
  assert (forall n, (length l < n)%nat -> exists k, iter n skip_body p m = Ok (p + Z.of_nat k, m) /\
    l = replicate k 32 ++ skipped l /\ cstr m (p + Z.of_nat k) (skipped l)) as H.
  2:{ unfold skip_spaces. erewrite bind_ok by reflexivity. apply H. unfold mem_fuel. lia. }
  clear Hf. revert p Hc H0 Hp. induction l as [|b l IH]; intros p Hc H0 Hp [|n] Hn; cbn [length] in *; try lia;
    destruct (cstr_head _ _ _ Hc) as (c & Hhd & Hm & Hr & Hz); cbn [app hd] in Hhd; subst c.
  - exists O. rewrite Z.add_0_r. split; [|done]. apply (iter_stop _ _ n). by rewrite (skip_at _ _ _ Hm Hr).
  - pose proof (skip_at _ _ _ Hm Hr) as Hs. cbn [skipped]. destruct (Z.eqb_spec b 32) as [->|Hb].
    + rewrite u32_id in Hs by lia.
      destruct (IH (p + 1) ltac:(by eapply cstr_tail) ltac:(lia) ltac:(lia) n ltac:(lia)) as (k & Hk & Hl & Hck).
      exists (S k). replace (p + Z.of_nat (S k)) with (p + 1 + Z.of_nat k) by lia.
      split; [by rewrite (iter_next _ _ n _ _ _ Hs)|]. split; [by cbn; f_equal|done].
    + exists O. rewrite Z.add_0_r. split; [by apply (iter_stop _ _ n)|done].
Qed.

Lemma strchr_run m p w l : cstr m p (w ++ 32 :: l) -> 32 ∉ w -> 0 <= p -> p + Z.of_nat (length (w ++ 32 :: l)) < 4294967296 ->
  KString.strchr p 32 m = Ok (p + Z.of_nat (length w), m).
Proof.
  intros Hc Hw H0 Hp. pose proof (cstr_fuel _ _ _ Hc) as Hf.
  assert (forall n, (length w < n)%nat -> iter n (KString.strchr_body 32) p m = Ok (p + Z.of_nat (length w), m)) as H.
  2:{ unfold KString.strchr. erewrite bind_ok by reflexivity. apply H. rewrite length_app in Hf. unfold mem_fuel. lia. }
  clear Hf. revert p Hc H0 Hp. induction w as [|b w IH]; intros p Hc H0 Hp [|n] Hn; cbn [length] in *; try lia;
    destruct (cstr_head _ _ _ Hc) as (c & Hhd & Hm & Hr & Hz); cbn [app hd] in Hhd; subst c;
    pose proof (chr_at _ _ _ Hm Hr) as Hs.
  - rewrite Z.add_0_r. by apply (iter_stop _ _ n).
  - apply not_elem_of_cons in Hw as [Hb Hw].
    rewrite (proj2 (Z.eqb_neq b 0)), (proj2 (Z.eqb_neq b 32)) in Hs by (congruence || (intros ->; by destruct Hz as [Hz _]; specialize (Hz eq_refl))).
    rewrite length_app in *. cbn [length app] in *. rewrite u32_id in Hs by lia. rewrite (iter_next _ _ n _ _ _ Hs).
    rewrite IH; [f_equal; f_equal; lia|done|by eapply cstr_tail|lia|rewrite ?length_app; cbn [length]; lia|lia].
Qed.
Lemma strchr_none m p : m !! u32 p = Some 0 -> KString.strchr p 32 m = Ok (NULL, m).
Proof.
  intros Hm. unfold KString.strchr. erewrite bind_ok by reflexivity. apply (iter_stop _ _ (size m)).
  by rewrite (chr_at _ _ _ Hm ltac:(lia)).
Qed.

(** ** Pieces of the memory *)
Definition clear (p n q k : Z) : Prop := p + n <= q \/ q + k <= p.
Lemma clear_apart p n q k : clear p (Z.of_nat n) q (Z.of_nat k) -> 0 <= p -> 0 <= q ->
  p + Z.of_nat n <= 4294967296 -> q + Z.of_nat k <= 4294967296 -> apart p n q k.
Proof. intros H Hp Hq H1 H2. by apply apart_ranges. Qed.

Lemma dom_mapped (m m' : mem) p n : dom m' = dom m -> mapped m p n -> mapped m' p n.
Proof. intros Hd H i Hi. apply elem_of_dom. rewrite Hd. apply elem_of_dom. by apply H. Qed.
Lemma poke_dom p l m : mapped m p (length l) -> dom (poke p l m) = dom m.
Proof.
  revert p m. induction l as [|b l IH]; intros p m H; cbn [poke length] in *; [done|].
  assert (dom (<[u32 p := b]> m) = dom m) as Hd.
  { apply dom_insert_lookup_L. specialize (H O ltac:(lia)). by rewrite Z.add_0_r in H. }
  rewrite IH; [done|]. apply (dom_mapped m); [done|]. intros i Hi.
  replace (p + 1 + Z.of_nat i) with (p + Z.of_nat (S i)) by lia. apply H. lia.
Qed.
Lemma st8_poke m p v : mapped m p 1 -> st8 p v m = Ok (tt, poke p [u8 v] m).
Proof. intros H. specialize (H O ltac:(lia)). rewrite Z.add_0_r in H. apply wp_ok. apply wp_st8; done. Qed.
Lemma ld32_word m p v : bytes_at m p (word_bytes v) -> 0 <= v < 4294967296 -> KString.ld32 p m = Ok (v, m).
Proof.
  intros H Hv. unfold word_bytes in H. rewrite (ld32_spec _ _ _ _ _ _ H). do 2 f_equal. unfold u8.
  rewrite (shiftr_div v 8 256), (shiftr_div v 16 65536), (shiftr_div v 24 16777216) by done. lia_mod.
Qed.
Lemma cut_string m p w b l : cstr m p (w ++ b :: l) -> 0 <= p -> p + Z.of_nat (length (w ++ b :: l)) < 4294967296 ->
  cstr (poke (p + Z.of_nat (length w)) [0] m) p w /\ cstr (poke (p + Z.of_nat (length w)) [0] m) (p + Z.of_nat (length w) + 1) l.
Proof.
  intros (Hm & Hl & Hn) H0 Hp. rewrite length_app in *. cbn [length] in *. apply Forall_app in Hl as [Hw [_ Hl]%Forall_cons].
  rewrite <-app_assoc in Hm. cbn [app] in Hm. apply bytes_at_app in Hm as [H1 H2]. apply bytes_at_cons in H2 as [_ H2].
  split; (split; [|split; [done|lia]]).
  - apply bytes_at_app. split; [apply bytes_at_poke_apart; [done|]|apply bytes_at_poke; cbn; lia].
    apply clear_apart; cbn [length]; unfold clear; lia.
  - apply bytes_at_poke_apart; [done|]. rewrite length_app. apply clear_apart; cbn [length]; unfold clear; lia.
Qed.

(** ** The argument list *)
Section args.
Context (buf len argv : Z) (ptr : nat -> Z) (ws : list (list Z)).
(** Where the buffer, the array of 10 pointers and the 33 bytes behind each
    of them are. *)
Record args_ok (m : mem) : Prop := {
  ao_buf : 0 <= buf /\ buf + len <= 4294967296 /\ mapped m buf (Z.to_nat len);
  ao_argv : 0 <= argv /\ argv + 40 <= 4294967296 /\ mapped m argv 40;
  ao_entry i : (i < 10)%nat -> bytes_at m (argv + 4 * Z.of_nat i) (word_bytes (ptr i));
  ao_ptr i : (i < 10)%nat -> 0 < ptr i /\ ptr i + 33 <= 4294967296 /\ mapped m (ptr i) 33;
  ao_buf_argv : clear buf len argv 40;
  ao_buf_ptr i : (i < 10)%nat -> clear buf len (ptr i) 33;
  ao_argv_ptr i : (i < 10)%nat -> clear argv 40 (ptr i) 33;
  ao_ptrs i j : (i < 10)%nat -> (j < 10)%nat -> i <> j -> clear (ptr i) 33 (ptr j) 33
}.
Hypothesis Hws : (1 <= length ws <= 9)%nat /\ Forall (λ w, (length w <= 32)%nat) ws.

Definition parsed (n : nat) (m : mem) : Prop := forall i w, (i < n)%nat -> ws !! i = Some w -> cstr m (ptr i) w.

(** Writing in the buffer or in an argument. *)
Lemma args_poke m p l n : args_ok m -> parsed n m -> (n <= 9)%nat ->
  (buf <= p /\ p + Z.of_nat (length l) <= buf + len) \/ (p = ptr n /\ (length l <= 33)%nat) ->
  args_ok (poke p l m) /\ parsed n (poke p l m) /\ mapped m p (length l).
Proof using Hws.
  intros HA HP Hn Hp. destruct HA as [(B1 & B2 & B3) (A1 & A2 & A3) HE HT HBA HBT HAT HTT].
  assert (mapped m p (length l)) as Hm.
  { destruct Hp as [[H1 H2]|[-> H1]].
    - replace p with (buf + Z.of_nat (Z.to_nat (p - buf))) by lia. apply (mapped_off m buf (Z.to_nat len)); [done|lia].
    - intros i Hi. apply HT; lia. }
  assert (0 <= p /\ p + Z.of_nat (length l) <= 4294967296) as [Hp0 Hp1].
  { destruct Hp as [[H1 H2]|[-> H1]]; [lia|]. destruct (HT n ltac:(lia)) as (? & ? & _). lia. }
  assert (forall q k, 0 <= q -> q + Z.of_nat k <= 4294967296 -> clear p (Z.of_nat (length l)) q (Z.of_nat k) ->
    apart p (length l) q k) as Hap by (intros q k H1 H2 H3; by apply clear_apart).
  pose proof (poke_dom p l m Hm) as Hd.
  split; [split; try done|split; [|done]].
  - split_and!; try done. by apply (dom_mapped m).
  - split_and!; try done. by apply (dom_mapped m).
  - intros i Hi. apply bytes_at_poke_apart; [by apply HE|]. cbn [length word_bytes]. apply Hap; [lia|lia|].
    unfold clear in *. destruct Hp as [[H1 H2]|[-> H1]]; [lia|]. specialize (HAT n ltac:(lia)). lia.
  - intros i Hi. destruct (HT i Hi) as (H1 & H2 & H3). split_and!; try done. by apply (dom_mapped m).
  - intros i w Hi Hw. apply cstr_poke_apart; [by apply HP|]. destruct Hws as [_ Hlen].
    pose proof (Forall_lookup_1 _ _ _ _ Hlen Hw) as Hwl. cbn beta in Hwl. destruct (HT i ltac:(lia)) as (H1 & H2 & _).
    apply Hap; [lia|lia|]. unfold clear in *. destruct Hp as [[H3 H4]|[-> H3]].
    + specialize (HBT i ltac:(lia)). lia.
    + specialize (HTT n i ltac:(lia) ltac:(lia) ltac:(lia)). lia.
Qed.

(** The text that is left, at [p]. *)
Record rest (m : mem) (p : Z) (r : list Z) (n : nat) : Prop := {
  re_args : args_ok m;
  re_parsed : parsed n m;
  re_text : cstr m p r;
  re_in : buf <= p /\ p + Z.of_nat (length r) < buf + len;
  re_hd : hd 0 r <> 32;
  re_ends : ends r;
  re_words : words r = drop n ws;
  re_count : (n <= length ws)%nat
}.
Lemma arg_step m p r n : rest m p r n -> r <> [] -> exists p' r' m',
  parse_body argv (p, Z.of_nat n) m = Ok (inl (p', Z.of_nat (S n)), m') /\ rest m' p' r' (S n) /\ (length r' < length r)%nat.
Proof using Hws.
  intros [HA HP HC [Hb Hl] Hh He Hwd _] Hr. pose proof HA as [(B1 & B2 & _) _ _ _ _ _ _ _].
  destruct (next_word ws r n Hwd Hr Hh He) as (w & tl & -> & Hw & Hwn & Hwi & Hdrop & Het).
  pose proof (lookup_lt_Some _ _ _ Hwi) as Hnl. destruct Hws as [Hws1 Hws2].
  pose proof (Forall_lookup_1 _ _ _ _ Hws2 Hwi) as Hwl. cbn beta in Hwl.
  pose proof (strchr_run m p w tl HC Hw ltac:(lia) ltac:(lia)) as Hchr.
  set (d := p + Z.of_nat (length w)) in *.
  destruct (cut_string m p w 32 tl HC ltac:(lia) ltac:(lia)) as [HC1 HC2]. fold d in HC1, HC2.
  assert (p + Z.of_nat (length w) + 1 + Z.of_nat (length tl) < buf + len) as Hend.
  { rewrite length_app in Hl. cbn [length] in Hl. lia. }
  destruct (args_poke m d [0] n HA HP ltac:(lia) ltac:(left; cbn [length]; lia)) as (HA1 & HP1 & Hm1).
  destruct (args_poke _ (ptr n) (w ++ [0]) n HA1 HP1 ltac:(lia) ltac:(right; rewrite length_app; cbn [length]; lia)) as (HA2 & HP2 & Hm2).
  pose proof (ao_ptr _ HA n ltac:(lia)) as (Q1 & Q2 & _). pose proof (ao_buf_ptr _ HA n ltac:(lia)) as Hbp.
  pose proof (ao_entry _ HA1 n ltac:(lia)) as Hent.
  set (m1 := poke d [0] m) in *. set (m2 := poke (ptr n) (w ++ [0]) m1) in *.
  assert (forall q k, buf <= q -> q + Z.of_nat k <= buf + len -> apart (ptr n) (length (w ++ [0])) q k) as Hap.
  { intros q k H1 H2. rewrite length_app. cbn [length]. apply clear_apart; unfold clear in *; lia. }
  assert (cstr m2 (d + 1) tl) as HC3 by (apply cstr_poke_apart; [done|apply Hap; lia]).
  destruct (skip_spaces_run m2 (d + 1) tl HC3 ltac:(lia) ltac:(lia)) as (k & Hskip & Htl & HC4).
  assert (length tl = (k + length (skipped tl))%nat) as Hlt.
  { rewrite Htl at 1. by rewrite length_app, length_replicate. }
  exists (d + 1 + Z.of_nat k), (skipped tl), m2. split; [|split; [split|]].
  - unfold parse_body. rewrite (bind_ok _ _ _ _ _ Hchr), (proj2 (Z.eqb_neq d NULL)) by (unfold NULL; destruct w; [done|cbn [length] in *; lia]).
    rewrite (proj2 (Z.eqb_neq (Z.of_nat n) MAXARGS)) by (unfold MAXARGS; lia).
    rewrite (bind_ok _ _ _ _ _ (st8_poke m d 0 Hm1)). change (u8 0) with 0. fold m1.
    rewrite (bind_ok _ _ _ _ _ (ld32_word _ _ _ Hent ltac:(lia))).
    rewrite (bind_ok _ _ _ (ptr n) m2).
    2:{ assert (S (length w) = length (w ++ [0])) as Hsl by (rewrite length_app; cbn [length]; lia).
        apply strcpy_spec; [done|by rewrite Hsl|rewrite Hsl].
        apply Hap; rewrite ?length_app; cbn [length]; lia. }
    rewrite u32_id by lia. rewrite (bind_ok _ _ _ _ _ Hskip). by replace (Z.of_nat n + 1) with (Z.of_nat (S n)) by lia.
  - done.
  - intros i v Hi Hv. destruct (decide (i = n)) as [->|Hne]; [|apply HP2; [lia|done]].
    rewrite Hwi in Hv. injection Hv as <-. destruct HC1 as (_ & HC1b & HC1c). split; [|done].
    apply bytes_at_poke. rewrite length_app. cbn [length]. lia.
  - done.
  - lia.
  - by destruct (skipped_spec tl) as (? & _ & ? & _).
  - by apply ends_skipped.
  - rewrite Hdrop. by destruct (skipped_spec tl) as (? & _ & _ & ?).
  - lia.
  - rewrite length_app. cbn [length]. lia.
Qed.

Lemma arg_end m p n : rest m p [] n -> exists m', parse_body argv (p, Z.of_nat n) m = Ok (inr (Z.of_nat n), m') /\
  n = length ws /\ parsed n m' /\ bytes_at m' (argv + 4 * Z.of_nat n) [0; 0; 0; 0].
Proof using Hws.
  intros [HA HP HC _ _ _ Hwd Hn]. destruct Hws as [Hws1 Hws2]. assert (n = length ws) as ->.
  { assert (length (drop n ws) = O) as Hl by (rewrite <-Hwd; done). rewrite length_drop in Hl. lia. }
  destruct (ao_argv _ HA) as (A1 & A2 & A3).
  assert (mapped m (argv + 4 * Z.of_nat (length ws)) 4) as Hm.
  { replace (4 * Z.of_nat (length ws)) with (Z.of_nat (4 * length ws)) by lia. apply (mapped_off m argv 40); [done|lia]. }
  eexists. split; [|split; [done|split]].
  - unfold parse_body. rewrite (bind_ok _ _ _ _ _ (strchr_none m p ltac:(by destruct HC as [HC _]; apply bytes_at_cons in HC as [? _]))).
    change (NULL =? NULL) with true. cbn iota. rewrite (proj2 (Z.eqb_neq (Z.of_nat (length ws)) 0)) by lia.
    rewrite (bind_ok _ _ _ _ _ (st32_spec _ _ NULL Hm)). reflexivity.
  - intros i w Hi Hw. apply cstr_poke_apart; [by apply HP|].
    pose proof (Forall_lookup_1 _ _ _ _ Hws2 Hw) as Hwl. cbn beta in Hwl.
    destruct (ao_ptr _ HA i ltac:(lia)) as (Q1 & Q2 & _). pose proof (ao_argv_ptr _ HA i ltac:(lia)).
    apply clear_apart; unfold clear in *; change (length (word_bytes NULL)) with 4%nat; lia.
  - apply bytes_at_poke. cbn. lia.
Qed.

Lemma parse_loop m p r n fuel : rest m p r n -> (length r < fuel)%nat -> exists m',
  iter fuel (parse_body argv) (p, Z.of_nat n) m = Ok (Z.of_nat (length ws), m') /\
  parsed (length ws) m' /\ bytes_at m' (argv + 4 * Z.of_nat (length ws)) [0; 0; 0; 0].
Proof using Hws.
  revert m p r n. induction fuel as [|fuel IH]; intros m p r n Hr Hf; [lia|].
  destruct (decide (r = [])) as [->|Hne].
  - destruct (arg_end _ _ _ Hr) as (m' & Hb & -> & HP & HB). exists m'. split; [by apply iter_stop|done].
  - destruct (arg_step _ _ _ _ Hr Hne) as (p' & r' & m1 & Hb & Hr' & Hl).
    destruct (IH m1 p' r' (S n) Hr' ltac:(lia)) as (m' & Hi & HP & HB). exists m'.
    split; [|done]. rewrite (iter_next _ _ _ _ _ _ Hb). exact Hi.
Qed.
End args.

Lemma last_run m p l b : cstr m p (l ++ [b]) -> 0 <= p -> p + Z.of_nat (length l) < 4294967296 ->
  last_char p m = Ok (i8 b, m).
Proof.
  intros HC H0 Hp. pose proof HC as (Hm & _ & Hlen). rewrite length_app in Hlen. cbn [length] in Hlen. unfold last_char.
  rewrite (bind_ok _ _ _ _ _ (strlen_spec _ _ _ HC)), length_app. cbn [length].
  replace (Z.of_nat (length l + 1) - 1) with (Z.of_nat (length l)) by lia. rewrite u32_id by lia.
  apply wp_ok. eapply wp_ldc; [|done]. apply Hm. rewrite <-app_assoc. cbn [app]. by rewrite list_lookup_middle.
Qed.
(** The last character is replaced. *)
Lemma set_last m p l b c : cstr m p (l ++ [b]) -> 0 < c < 256 -> 0 <= p -> p + Z.of_nat (length l) + 1 < 4294967296 ->
  cstr (poke (p + Z.of_nat (length l)) [c] m) p (l ++ [c]).
Proof.
  intros (Hm & Hl & Hn) Hc H0 Hp. rewrite length_app in Hn. cbn [length] in Hn. apply Forall_app in Hl as [Hl _].
  rewrite <-app_assoc in Hm. apply bytes_at_app in Hm as [H1 H2]. apply bytes_at_cons in H2 as [_ H2].
  split; [|split; [apply Forall_app; split; [done|by apply Forall_cons; split; [lia|]]|rewrite length_app; cbn [length]; lia]].
  rewrite <-app_assoc. apply bytes_at_app. split.
  - apply bytes_at_poke_apart; [done|]. apply clear_apart; cbn [length]; unfold clear; lia.
  - cbn [app]. apply bytes_at_cons. split.
    + pose proof (bytes_at_poke (p + Z.of_nat (length l)) [c] m ltac:(cbn; lia)) as Hb. by apply bytes_at_cons in Hb as [Hb _].
    + apply bytes_at_poke_apart; [done|]. apply clear_apart; cbn [length]; unfold clear; lia.
Qed.


(** *** A command line in a concrete memory *)
Definition sample_ptr (i : nat) : Z := 4000 + 40 * Z.of_nat i.
Definition sample_mem (line : string) : mem :=
  poke 1000 (lit line ++ [0]) (poke 2000 (replicate 100 0)
  (foldr (λ i m, poke (3000 + 4 * Z.of_nat i) (word_bytes (sample_ptr i)) (poke (sample_ptr i) (replicate 33 0) m)) ∅ (seq 0 10))).
(** [ls -l] and a newline. *)
Definition ls_text : list Z := [32; 108; 115; 32; 32; 45; 108].
Definition ls_mem : mem := poke 1000 (ls_text ++ [10; 0]) (sample_mem "").

Lemma ls_args : args_ok 2000 10 3000 sample_ptr ls_mem.
Proof.
  split; try (split; [lia|split; [lia|apply mappedb_ok; vm_compute; reflexivity]]); unfold clear, sample_ptr; try lia.
  - intros i Hi. apply bytes_atb_ok. do 10 (destruct i as [|i]; [vm_compute; reflexivity|]). lia.
  - intros i Hi. split; [lia|]. split; [lia|]. apply mappedb_ok.
    do 10 (destruct i as [|i]; [vm_compute; reflexivity|]). lia.
Qed.

(** Ten words fill the array, and the null pointer goes behind it; where that
    is nobody's memory, it faults. *)
Example parse_arg_ten : parse_arg 1000 3000 2000 (poke 1000 (lit "a b c d e f g h i j" ++ [10; 0]) (sample_mem "a b c d e f g h i j  ")) = Bad Undef.
Proof. vm_compute. reflexivity. Qed.
(** Without a newline the zero at the end is overwritten, and what the buffer
    held before is read on: here as a second argument. *)
Example parse_arg_no_newline :
  match parse_arg 1000 3000 2000 (poke 2003 [33; 32; 0] (sample_mem "ls")) with
  | Ok (n, m') => (n =? 2) && cstrb m' (sample_ptr 0) [108; 115] && cstrb m' (sample_ptr 1) [33]
  | Bad _ => false
  end = true.
Proof. vm_compute. reflexivity. Qed.
