(* ===== verification/Unistd.v ===== *)
(** * The system calls of a program: [lib/unistd.c]

    A system call is a computation on the state [U] the program sees; the
    kernel's side is found by its number in the table of [kernel/handler.S]. *)
From S2P Require Import Prelude.

(** The numbers of [include/unistd.h]. *)
Inductive call :=
  | SYS_RESTART | SYS_EXIT | SYS_EXECUTE | SYS_READ | SYS_WRITE | SYS_OPEN | SYS_CLOSE | SYS_GETARGS | SYS_VIDMAP
  | SYS_SET_HANDLER | SYS_SIGRETURN | SYS_FORK | SYS_EXECV | SYS_WAIT | SYS_WAITPID | SYS_GETPID | SYS_GETPPID
  | SYS_SBRK | SYS_MMAP | SYS_MUNMAP | SYS_STAT.

Section unistd.
Context {U : Type} (syscall : call -> Z -> Z -> Z -> M U Z).

Definition fork : M U Z := syscall SYS_FORK 0 0 0.
Definition execv (pathname argv : Z) : M U Z := syscall SYS_EXECV pathname argv 0.
Definition execute (cmd : Z) : M U Z := syscall SYS_EXECUTE cmd 0 0.
Definition _exit (status : Z) : M U unit := syscall SYS_EXIT status 0 0 ;; mret ().
Definition wait (wstatus : Z) : M U Z := syscall SYS_WAIT wstatus 0 0.
Definition waitpid (pid wstatus : Z) : M U Z := syscall SYS_WAITPID pid wstatus 0.
Definition getpid : M U Z := syscall SYS_GETPID 0 0 0.
Definition getppid : M U Z := syscall SYS_GETPPID 0 0 0.
Definition getargs (buf nbytes : Z) : M U Z := syscall SYS_GETARGS buf nbytes 0.
Definition open (pathname : Z) : M U Z := syscall SYS_READ pathname 0 0.
Definition close (fd : Z) : M U Z := syscall SYS_CLOSE fd 0 0.
Definition read (fd buf count : Z) : M U Z := syscall SYS_READ fd buf count.
Definition write (fd buf count : Z) : M U Z := syscall SYS_WRITE fd buf count.
Definition sbrk (increment : Z) : M U Z := syscall SYS_SBRK increment 0 0.
Definition vidmap (screen_start : Z) : M U Z := syscall SYS_VIDMAP screen_start 0 0.
Definition mmap (addr size : Z) : M U Z := syscall SYS_MMAP addr size 0.
Definition munmap (addr size : Z) : M U Z := syscall SYS_MUNMAP addr size 0.
Definition stat (info : Z) : M U Z := syscall SYS_STAT info 0 0.
End unistd.
