(* ===== verification/Words.v ===== *)
(** * Words in byte memory

    32-bit words of the memory of [Bytes]: [rd] reads one, [put] is the memory
    with one written, and words that do not overlap do not disturb each other. *)
From S2P Require Import Prelude Bytes KString UString StringProps MemProps.

Definition rd (m : mem) (a : Z) : option Z :=
  b0 ← m !! u32 a; b1 ← m !! u32 (a + 1); b2 ← m !! u32 (a + 2); b3 ← m !! u32 (a + 3);
  Some (b0 + 256 * b1 + 65536 * b2 + 16777216 * b3).
Definition put (a v : Z) (m : mem) : mem := poke a (word_bytes v) m.
(** A word at a user address. *)
Definition word_at (a : Z) : Prop := 0 <= a /\ a + 4 <= 4294967296.
Definition clear_of (a b : Z) : Prop := a + 4 <= b \/ b + 4 <= a.

Lemma ld32_rd m a v : rd m a = Some v -> KString.ld32 a m = Ok (v, m).
Proof.
  unfold rd. intros H. destruct (m !! u32 a) as [b0|] eqn:E0; [|done].
  destruct (m !! u32 (a + 1)) as [b1|] eqn:E1; [|done]. destruct (m !! u32 (a + 2)) as [b2|] eqn:E2; [|done].
  destruct (m !! u32 (a + 3)) as [b3|] eqn:E3; [|done]. cbn in H. injection H as <-. apply ld32_spec.
  rewrite !bytes_at_cons. replace (a + 1 + 1 + 1) with (a + 3) by lia. by replace (a + 1 + 1) with (a + 2) by lia.
Qed.
Lemma rd_mapped m a v : rd m a = Some v -> mapped m a 4.
Proof.
  unfold rd. intros H. destruct (m !! u32 a) as [b0|] eqn:E0; [|done].
  destruct (m !! u32 (a + 1)) as [b1|] eqn:E1; [|done]. destruct (m !! u32 (a + 2)) as [b2|] eqn:E2; [|done].
  destruct (m !! u32 (a + 3)) as [b3|] eqn:E3; [|done].
  intros i Hi. destruct i as [|[|[|[|]]]]; [rewrite Z.add_0_r; by eexists|by eexists..|lia].
Qed.
Lemma mapped_rd m a : mapped m a 4 -> is_Some (rd m a).
Proof.
  intros H. unfold rd. destruct (H 0%nat ltac:(lia)) as [b0 E0]. destruct (H 1%nat ltac:(lia)) as [b1 E1].
  destruct (H 2%nat ltac:(lia)) as [b2 E2]. destruct (H 3%nat ltac:(lia)) as [b3 E3].
  rewrite Z.add_0_r in E0. change (Z.of_nat 1) with 1 in E1. change (Z.of_nat 2) with 2 in E2.
  change (Z.of_nat 3) with 3 in E3. rewrite E0, E1, E2, E3. by eexists.
Qed.
Lemma bytes_rd m a b0 b1 b2 b3 : bytes_at m a [b0; b1; b2; b3] ->
  rd m a = Some (b0 + 256 * b1 + 65536 * b2 + 16777216 * b3).
Proof.
  intros H. rewrite !bytes_at_cons in H. destruct H as (H0 & H1 & H2 & H3 & _).
  replace (a + 1 + 1 + 1) with (a + 3) in H3 by lia. replace (a + 1 + 1) with (a + 2) in H2 by lia.
  unfold rd. by rewrite H0, H1, H2, H3.
Qed.
Lemma st32_put m a v : mapped m a 4 -> KString.st32 a v m = Ok (tt, put a v m).
Proof. apply st32_spec. Qed.
Lemma word_value v : u8 v + 256 * u8 (Z.shiftr v 8) + 65536 * u8 (Z.shiftr v 16) + 16777216 * u8 (Z.shiftr v 24) = u32 v.
Proof.
  unfold u8, u32. rewrite (shiftr_div v 8 256), (shiftr_div v 16 65536), (shiftr_div v 24 16777216) by done. lia_mod.
Qed.
Lemma rd_put m a v : rd (put a v m) a = Some (u32 v).
Proof. unfold put. rewrite <-word_value. apply bytes_rd, bytes_at_poke. cbn. lia. Qed.
Lemma put_out m a v x : word_at a -> x < a \/ a + 4 <= x -> put a v m !! x = m !! x.
Proof.
  intros [H0 H1] Hx. unfold put. apply poke_out. cbn. intros i Hi. rewrite u32_id by lia. lia.
Qed.
Lemma rd_put_ne m a b v : word_at a -> word_at b -> clear_of a b -> rd (put a v m) b = rd m b.
Proof.
  intros Ha Hb Hc. unfold rd, word_at, clear_of in *. rewrite !put_out by (done || rewrite u32_id by lia; lia). done.
Qed.
Lemma put_mapped m a v b n : mapped m b n -> mapped (put a v m) b n.
Proof. apply poke_mapped. Qed.
Lemma rd_same m m' a : word_at a -> (forall x, a <= x < a + 4 -> m' !! x = m !! x) -> rd m' a = rd m a.
Proof. intros [H0 H1] H. unfold rd. by rewrite !H by (rewrite u32_id by lia; lia). Qed.

Lemma ld32_bind {A} m a v (k : Z -> M mem A) : rd m a = Some v -> (KString.ld32 a ≫= k) m = k v m.
Proof. intros H. by rewrite (bind_ok _ _ _ _ _ (ld32_rd _ _ _ H)). Qed.
Lemma st32_bind {A} m a v (k : unit -> M mem A) : mapped m a 4 -> (KString.st32 a v ≫= k) m = k tt (put a v m).
Proof. intros H. by rewrite (bind_ok _ _ _ _ _ (st32_put _ _ _ H)). Qed.
(** Addresses count modulo [2^32]. *)
Lemma rd_u32 m a : rd m (u32 a) = rd m a.
Proof. unfold rd. by rewrite !u32_u32_add, (u32_id (u32 a)) by apply u32_range. Qed.

(** A range of bytes is kept. *)
Lemma mapped_same m m' a n : 0 <= a -> a + Z.of_nat n <= 4294967296 ->
  (forall x, a <= x < a + Z.of_nat n -> m' !! x = m !! x) -> mapped m a n -> mapped m' a n.
Proof. intros H0 H1 H HM i Hi. rewrite H by (rewrite u32_id by lia; lia). by apply HM. Qed.
Lemma mapped_sub m a n b k : mapped m a n -> a <= b -> b + Z.of_nat k <= a + Z.of_nat n -> mapped m b k.
Proof.
  intros H H1 H2 i Hi. replace (b + Z.of_nat i) with (a + Z.of_nat (Z.to_nat (b - a) + i)) by lia. apply H. lia.
Qed.
