(* ===== verification/UserHeap.v ===== *)
(** * The user library's heap: [lib/stdlib.c]

    On the byte memory of [Bytes]: the process's memory, with the static
    pointer [free_list], the [List] it points to and the blocks in it. *)
From S2P Require Import Prelude Bytes KString UString Unistd.

Definition START : Z := 5.
Definition END : Z := 12.
Definition LEN : Z := 8.
Definition LAST_BIT : Z := 31.
Definition CHUNK_SIZE : Z := 4096.

(** [List], by its layout. *)
Definition l_heap (l : Z) : Z := l.
Definition l_index (l : Z) : Z := l + 4.
Definition l_size_usable (l : Z) : Z := l + 8.
Definition sizeof_List : Z := 12.

(** [__builtin_clz], undefined at 0, and [1 << b]. *)
Definition clz (x : Z) : M mem Z := if x =? 0 then raise Undef else mret (31 - Z.log2 x).
Definition shl1 (b : Z) : M mem Z := if b <? 32 then mret (Z.shiftl 1 b) else raise Undef.

Definition block_index (x : Z) : M mem Z :=
  if x <=? 8 then mret 5 else n ← clz (u32 (x + 7)); mret (32 - n).

Definition add (l idx ptr : Z) : M mem unit :=
  index ← KString.ld32 (l_index l);
  head ← KString.ld32 (index + 4 * idx);
  KString.st32 ptr head ;;
  index ← KString.ld32 (l_index l);
  KString.st32 (index + 4 * idx) ptr.
Definition drop (l idx : Z) : M mem Z :=
  index ← KString.ld32 (l_index l);
  ptr ← KString.ld32 (index + 4 * idx);
  next ← KString.ld32 ptr;
  index ← KString.ld32 (l_index l);
  KString.st32 (index + 4 * idx) next ;;
  mret ptr.

Definition set_flag (ptr : Z) : M mem unit :=
  x ← KString.ld32 ptr; KString.st32 ptr (Z.lor x (Z.shiftl 1 LAST_BIT)).
Definition clear_flag (ptr : Z) : M mem unit :=
  x ← KString.ld32 ptr; KString.st32 ptr (Z.ldiff x (Z.shiftl 1 LAST_BIT)).
Definition check_flag (ptr : Z) : M mem Z :=
  x ← KString.ld32 ptr; mret (Z.land (Z.shiftr x LAST_BIT) 1).

Definition transferring_data (src dst size : Z) : M mem unit :=
  for_loop 0 (Z.to_nat size) (λ i, c ← ldc (src + i); st8 (dst + i) c).

(** The address of the pointer [free_list], and the system calls. *)
Class Process_calls := {
  FREE_LIST_VAR : Z;
  syscall : call -> Z -> Z -> Z -> M mem Z
}.

Section heap.
Context {calls : Process_calls}.

Definition bulk_alloc (size : Z) : M mem Z :=
  mapping ← mmap syscall NULL size;
  if mapping =? 4294967295 then mret NULL else mret mapping.
(** The message of a failed [munmap] goes to [fprintf], which does nothing. *)
Definition bulk_free (ptr size : Z) : M mem unit := munmap syscall ptr size ;; mret ().

Definition set_up_free_list : M mem unit :=
  heap ← sbrk syscall CHUNK_SIZE;
  KString.st32 FREE_LIST_VAR heap ;;
  let l := heap in
  let heap := u32 (heap + sizeof_List) in
  KString.st32 (l_index l) heap ;;
  let heap := u32 (heap + LEN * 4) in
  KString.st32 (l_heap l) (heap + 40) ;;
  index ← KString.ld32 (l_index l);
  UString.memset index 0 (LEN * 4) ;;
  KString.st32 (l_size_usable l) (CHUNK_SIZE - 128).

(** The chunk has no room: its rest is put in a list and a new chunk taken. *)
Definition new_chunk (l chunk_size : Z) : M mem unit :=
  index ← block_index (u32 (chunk_size - 8));
  chunk_size ← shl1 index;
  when (32 <=? chunk_size)
    (p ← KString.ld32 (l_heap l);
     KString.st32 p chunk_size ;;
     add l index (p + 4)) ;;
  h ← sbrk syscall CHUNK_SIZE;
  KString.st32 (l_heap l) h ;;
  KString.st32 (l_size_usable l) CHUNK_SIZE.

(** The block: from the system, or from its list or the end of the chunk. *)
Definition big_block (size : Z) : M mem Z :=
  ptr ← bulk_alloc (u32 (size + 4));
  KString.st32 ptr (size + 4) ;;
  set_flag ptr ;;
  mret (u32 (ptr + 4)).
Definition take_block (l block size : Z) : M mem Z :=
  let idx := block - START in
  index ← KString.ld32 (l_index l);
  head ← KString.ld32 (index + 4 * idx);
  ptr ← (if negb (head =? NULL) then drop l idx
         else
           h ← KString.ld32 (l_heap l);
           KString.st32 (l_heap l) (h + size) ;;
           n ← KString.ld32 (l_size_usable l);
           KString.st32 (l_size_usable l) (n - size) ;;
           mret (u32 (h + 4)));
  KString.st32 (ptr - 4) size ;;
  set_flag (ptr - 4) ;;
  mret ptr.

Definition allocate (size : Z) : M mem Z :=
  if size <=? 0 then mret NULL else
  l ← KString.ld32 FREE_LIST_VAR;
  when (l =? NULL) set_up_free_list ;;
  block ← block_index size;
  l ← KString.ld32 FREE_LIST_VAR;
  chunk_size ← KString.ld32 (l_size_usable l);
  size ← shl1 block;
  when (chunk_size <? size) (new_chunk l chunk_size) ;;
  if END <? block then big_block size else take_block l block size.

Definition malloc (size : Z) : M mem Z := allocate size.
Definition calloc (nmemb size : Z) : M mem Z :=
  ptr ← allocate (u32 (nmemb * size));
  UString.memset ptr 0 (u32 (nmemb * size)) ;;
  mret ptr.

Definition free (ptr : Z) : M mem unit :=
  if ptr =? NULL then mret () else
  f ← check_flag (ptr - 4);
  when (negb (f =? 0)) (clear_flag (ptr - 4)) ;;
  size ← KString.ld32 (ptr - 4);
  idx ← block_index (u32 (size - 4));
  if END <? idx then bulk_free (u32 (ptr - 4)) size
  else l ← KString.ld32 FREE_LIST_VAR; add l (idx - START) ptr.

Definition realloc (ptr size : Z) : M mem Z :=
  if ptr =? NULL then malloc size else
  if size =? 0 then
    new_ptr ← malloc 1;
    transferring_data ptr new_ptr 24 ;;
    free ptr ;;
    mret new_ptr
  else
    let size_ptr := u32 (ptr - 4) in
    clear_flag size_ptr ;;
    n ← KString.ld32 size_ptr;
    if size <=? u32 (n - 4) then set_flag size_ptr ;; mret ptr else
    let next_block := u32 (ptr + n - 4) in
    let size_needed := u32 (size - u32 (n - 4)) in
    l ← KString.ld32 FREE_LIST_VAR;
    h ← KString.ld32 (l_heap l);
    grow ← (if next_block =? h then
              u ← KString.ld32 (l_size_usable l);
              b ← block_index size_needed;
              x ← shl1 b;
              mret (x <=? u)
            else mret false);
    if (grow : bool) then
      new_ptr ← malloc size_needed;
      x ← KString.ld32 (new_ptr - 4);
      n ← KString.ld32 size_ptr;
      KString.st32 size_ptr (n + x) ;;
      set_flag size_ptr ;;
      mret ptr
    else
      new_ptr ← malloc size;
      n ← KString.ld32 size_ptr;
      transferring_data ptr new_ptr (u32 (n - 4)) ;;
      free ptr ;;
      mret new_ptr.

(** [strdup] of [lib/string.c]. *)
Definition strdup (s : Z) : M mem Z :=
  size ← UString.strlen s;
  d ← malloc (u32 (size + 1));
  UString.strcpy d s.
End heap.
