(* ===== verification/UserHeapProps.v ===== *)
(** * The user's heap: what one call does

    [Heap m l h u f]: the [List] is at [l], the unused part of the chunk is the
    [u] bytes at [h], and [f i] is the first block of list [i].  Blocks are
    word-aligned pieces of [2^b] bytes, their size in the first word. *)
From S2P Require Import Prelude Bytes KString UString StringProps MemProps Words UserHeap.

(** ** Size classes *)
Definition size_class (n : Z) : Z := if n <=? 8 then 5 else 1 + Z.log2 (n + 7).

Lemma block_index_run n m : 0 <= n -> n + 7 < 4294967296 -> block_index n m = Ok (size_class n, m).
Proof.
  intros H0 H1. unfold block_index, size_class. destruct (Z.leb_spec n 8); [done|].
  unfold clz. rewrite u32_id by lia. rewrite (proj2 (Z.eqb_neq _ _)) by lia.
  rewrite (bind_ok _ _ _ (31 - Z.log2 (n + 7)) m) by done. by replace (32 - (31 - Z.log2 (n + 7))) with (1 + Z.log2 (n + 7)) by lia.
Qed.
Lemma shl1_run b m : 0 <= b < 32 -> shl1 b m = Ok (2 ^ b, m).
Proof. intros H. unfold shl1. rewrite (proj2 (Z.ltb_lt b 32)) by lia. by rewrite Z.shiftl_1_l. Qed.
Lemma size_class_fits n : 0 < n -> 5 <= size_class n /\ n + 4 <= 2 ^ size_class n.
Proof.
  intros Hn. unfold size_class. destruct (Z.leb_spec n 8); [change (2 ^ 5) with 32; lia|].
  destruct (Z.log2_spec (n + 7)) as [_ H1]; [lia|]. replace (1 + Z.log2 (n + 7)) with (Z.succ (Z.log2 (n + 7))) by lia.
  pose proof (Z.log2_le_mono 16 (n + 7) ltac:(lia)) as H2. change (Z.log2 16) with 4 in H2. lia.
Qed.
Lemma size_class_le n k : n + 7 < 2 ^ k -> 5 <= k -> size_class n <= k.
Proof.
  intros Hn Hk. unfold size_class. destruct (Z.leb_spec n 8); [done|].
  pose proof (proj1 (Z.log2_lt_pow2 (n + 7) k ltac:(lia)) Hn). lia.
Qed.
Lemma pow_class b : 5 <= b <= 12 -> 32 <= 2 ^ b <= 4096 /\ Z.lor (2 ^ b) 2147483648 = 2 ^ b + 2147483648 /\
  Z.ldiff (2 ^ b + 2147483648) 2147483648 = 2 ^ b /\ Z.land (Z.shiftr (2 ^ b + 2147483648) 31) 1 = 1 /\
  size_class (2 ^ b - 4) = b + 1.
Proof.
  intros Hb. set (P := λ b, (5 <=? b) && ((32 <=? 2 ^ b) && (2 ^ b <=? 4096) && (Z.lor (2 ^ b) 2147483648 =? 2 ^ b + 2147483648) &&
    (Z.ldiff (2 ^ b + 2147483648) 2147483648 =? 2 ^ b) && (Z.land (Z.shiftr (2 ^ b + 2147483648) 31) 1 =? 1) &&
    (size_class (2 ^ b - 4) =? b + 1)) || (b <? 5)).
  assert (P b = true) as H by (apply (forall_seqZ P 13); [by vm_compute|lia]). subst P. cbn beta in H.
  apply orb_true_iff in H as [H|H]; [|lia]. repeat (apply andb_true_iff in H as [H ?]).
  repeat match goal with H : (_ =? _) = true |- _ => apply Z.eqb_eq in H end. split_and!; (done || lia).
Qed.

(** Function update. *)
Definition upd_list (i v : Z) (f : Z -> Z) : Z -> Z := λ j, if j =? i then v else f j.

Section props.
Context {calls : Process_calls}.
Implicit Types (m : mem) (l h u p : Z) (f : Z -> Z).

Record Heap m l h u f : Prop := {
  hp_var : rd m FREE_LIST_VAR = Some l;
  hp_heap : rd m l = Some h;
  hp_index : rd m (l + 4) = Some (l + 12);
  hp_usable : rd m (l + 8) = Some u;
  hp_list i : 0 <= i < 8 -> rd m (l + 12 + 4 * i) = Some (f i);
  hp_var_at : word_at FREE_LIST_VAR /\ (FREE_LIST_VAR + 4 <= l \/ l + 44 <= FREE_LIST_VAR);
  hp_at : 0 < l /\ l + 44 < 2147483648 /\ 0 < h /\ 0 <= u <= 4096 /\ h + u < 2147483648;
  hp_apart : (h + u <= l \/ l + 44 <= h) /\ (h + u <= FREE_LIST_VAR \/ FREE_LIST_VAR + 4 <= h);
  hp_free : mapped m h (Z.to_nat u)
}.
(** A word of the program, outside the allocator's own. *)
Definition own l a : Prop := 0 < a /\ a + 4 < 2147483648 /\ (a + 4 <= l \/ l + 44 <= a) /\ clear_of FREE_LIST_VAR a.
(** The bytes that are not in the allocator's words nor in [a, a + n). *)
Definition kept l a n m m' : Prop :=
  forall x, (x < l \/ l + 44 <= x) -> (x < FREE_LIST_VAR \/ FREE_LIST_VAR + 4 <= x) ->
    (x < a \/ a + n <= x) -> m' !! x = m !! x.

Lemma own_word l a : own l a -> word_at a.
Proof. unfold own, word_at. lia. Qed.
Ltac words := unfold own, word_at, clear_of, kept in *; lia.

(** Writing a word of the program, and the heap's words. *)
Lemma Heap_put m l h u f a v : Heap m l h u f -> own l a -> Heap (put a v m) l h u f.
Proof.
  intros [H1 H2 H3 H4 H5 H6 H7 H8 H9] Ha.
  split; [by rewrite rd_put_ne by words..| | | | |by apply put_mapped]; try done.
  intros i Hi. rewrite rd_put_ne by words. by apply H5.
Qed.
Lemma Heap_advance m l h u f n : Heap m l h u f -> 0 <= n <= u ->
  Heap (put (l + 8) (u - n) (put l (h + n) m)) l (h + n) (u - n) f.
Proof.
  intros [H1 H2 H3 H4 H5 H6 H7 H8 H9] Hn. split; [| | | | |done|words|words|].
  - by rewrite !rd_put_ne by words.
  - rewrite rd_put_ne by words. rewrite rd_put. f_equal. apply u32_id. words.
  - by rewrite !rd_put_ne by words.
  - rewrite rd_put. f_equal. apply u32_id. words.
  - intros i Hi. rewrite !rd_put_ne by words. by apply H5.
  - do 2 apply put_mapped. eapply mapped_sub; [exact H9|lia|lia].
Qed.
Lemma Heap_list m l h u f i v : Heap m l h u f -> 0 <= i < 8 -> 0 <= v < 4294967296 ->
  Heap (put (l + 12 + 4 * i) v m) l h u (upd_list i v f).
Proof.
  intros [H1 H2 H3 H4 H5 H6 H7 H8 H9] Hi Hv. split; [by rewrite rd_put_ne by words..| |done|done|done|by apply put_mapped].
  intros j Hj. unfold upd_list. destruct (Z.eqb_spec j i) as [->|]; [rewrite rd_put; f_equal; by apply u32_id|].
  rewrite rd_put_ne by words. by apply H5.
Qed.
Lemma Heap_word m l h u f : Heap m l h u f -> mapped m l 4 /\ mapped m (l + 8) 4 /\
  (forall i, 0 <= i < 8 -> mapped m (l + 12 + 4 * i) 4).
Proof.
  intros [H1 H2 H3 H4 H5 H6 H7 H8 H9]. split_and!; [by eapply rd_mapped..|]. intros i Hi. eapply rd_mapped, H5. lia.
Qed.

(** ** Flags *)
Lemma set_flag_run m a b : rd m a = Some (2 ^ b) -> 5 <= b <= 12 -> set_flag a m = Ok (tt, put a (2 ^ b + 2147483648) m).
Proof using Type.
  intros Hr Hb. unfold set_flag. rewrite (ld32_bind _ _ _ _ Hr). change (Z.shiftl 1 LAST_BIT) with 2147483648.
  destruct (pow_class b Hb) as (_ & -> & _). apply st32_put. by eapply rd_mapped.
Qed.
(** A block's first word holds its size, and the flag while it is out. *)
Definition is_block m p b : Prop := rd m (p - 4) = Some (2 ^ b + 2147483648).

(** ** [malloc]: the block at the end of the chunk, or one of the list *)
Lemma allocate_enter m l h u f n : Heap m l h u f -> 0 < n <= 4088 -> 2 ^ size_class n <= u ->
  allocate n m = take_block l (size_class n) (2 ^ size_class n) m.
Proof using Type.
  intros [H1 H2 H3 H4 H5 _ H7 _ _] Hn Hu. unfold allocate. rewrite (proj2 (Z.leb_gt n 0)) by lia.
  destruct (size_class_fits n ltac:(lia)) as [Hb _]. pose proof (size_class_le n 12 ltac:(lia) ltac:(lia)) as Hb2.
  rewrite (ld32_bind _ _ _ _ H1). rewrite (proj2 (Z.eqb_neq l NULL)) by (unfold NULL; lia). cbn [when].
  rewrite (bind_ok _ _ _ tt m) by done. rewrite (bind_ok _ _ _ _ _ (block_index_run n m ltac:(lia) ltac:(lia))).
  rewrite (ld32_bind _ _ _ _ H1). unfold l_size_usable, l_index, l_heap, END. rewrite (ld32_bind _ _ _ _ H4).
  rewrite (bind_ok _ _ _ _ _ (shl1_run (size_class n) m ltac:(lia))). rewrite (proj2 (Z.ltb_ge u _)) by lia. cbn [when].
  rewrite (bind_ok _ _ _ tt m) by done. by rewrite (proj2 (Z.ltb_ge 12 _)) by lia.
Qed.
(** Marking a block as taken. *)
Lemma mark_run m l h u f p b : Heap m l h u f -> own l (p - 4) -> mapped m (p - 4) 4 -> 5 <= b <= 12 ->
  exists m', (KString.st32 (p - 4) (2 ^ b) ;; set_flag (p - 4) ;; mret p) m = Ok (p, m') /\
    Heap m' l h u f /\ is_block m' p b /\ kept l (p - 4) 4 m m'.
Proof using Type.
  intros HH Ho Hm Hb. destruct (pow_class b Hb) as (Hp & _). eexists. split; [|split; [|split]].
  - rewrite (st32_bind _ _ _ _ Hm). rewrite (bind_ok _ _ _ _ _ (set_flag_run (put (p - 4) (2 ^ b) m) (p - 4) b
      ltac:(rewrite rd_put; f_equal; by apply u32_id; lia) Hb)). done.
  - by do 2 (apply Heap_put; [|done]).
  - unfold is_block. rewrite rd_put. f_equal. apply u32_id. lia.
  - intros x _ _ Hx. rewrite !put_out by (done || by eapply own_word). done.
Qed.
Lemma allocate_fresh m l h u f n : Heap m l h u f -> 0 < n <= 4088 -> 2 ^ size_class n <= u -> f (size_class n - 5) = NULL ->
  exists m', allocate n m = Ok (h + 4, m') /\ Heap m' l (h + 2 ^ size_class n) (u - 2 ^ size_class n) f /\
    is_block m' (h + 4) (size_class n) /\ kept l h 4 m m'.
Proof using Type.
  intros HH Hn Hu Hf. rewrite (allocate_enter _ _ _ _ _ _ HH) by done.
  destruct (size_class_fits n ltac:(lia)) as [Hb _]. pose proof (size_class_le n 12 ltac:(lia) ltac:(lia)) as Hb2.
  set (b := size_class n) in *. destruct (pow_class b ltac:(lia)) as (Hp & _).
  pose proof (Heap_advance _ _ _ _ _ (2 ^ b) HH ltac:(lia)) as HA. destruct (Heap_word _ _ _ _ _ HH) as (W1 & W2 & W3).
  pose proof HH as [H1 H2 H3 H4 H5 H6 H7 H8 H9].
  destruct (mark_run _ _ _ _ _ (h + 4) b HA) as (m' & Hr & HH' & Hbl & HK); [words| |lia|].
  { do 2 apply put_mapped. eapply mapped_sub; [exact H9|lia|lia]. }
  exists m'. split; [|split; [done|split; [done|]]].
  - unfold take_block, l_index, l_heap, l_size_usable, START. rewrite (ld32_bind _ _ _ _ H3), (ld32_bind _ _ _ _ (H5 (b - 5) ltac:(lia))), Hf.
    cbn [negb Z.eqb NULL]. rewrite (bind_ok _ _ _ (h + 4) (put (l + 8) (u - 2 ^ b) (put l (h + 2 ^ b) m))); [exact Hr|].
    rewrite (ld32_bind _ _ _ _ H2), (st32_bind _ _ _ _ W1), (ld32_bind _ _ u) by (by rewrite rd_put_ne by words).
    rewrite st32_bind by (by apply put_mapped). by rewrite u32_id by words.
  - intros x Hx1 Hx2 Hx3. rewrite HK by words. rewrite !put_out by words. done.
Qed.
Lemma allocate_reuse m l h u f n p nx : Heap m l h u f -> 0 < n <= 4088 -> 2 ^ size_class n <= u ->
  f (size_class n - 5) = p -> own l (p - 4) -> mapped m (p - 4) 4 -> rd m p = Some nx -> 0 <= nx < 4294967296 -> p <> NULL ->
  exists m', allocate n m = Ok (p, m') /\ Heap m' l h u (upd_list (size_class n - 5) nx f) /\
    is_block m' p (size_class n) /\ kept l (p - 4) 4 m m'.
Proof using Type.
  intros HH Hn Hu Hf Ho Hm Hnx Hrg Hp0. rewrite (allocate_enter _ _ _ _ _ _ HH) by done.
  destruct (size_class_fits n ltac:(lia)) as [Hb _]. pose proof (size_class_le n 12 ltac:(lia) ltac:(lia)) as Hb2.
  set (b := size_class n) in *. pose proof (Heap_list _ _ _ _ _ (b - 5) nx HH ltac:(lia) Hrg) as HA.
  destruct (Heap_word _ _ _ _ _ HH) as (W1 & W2 & W3). pose proof HH as [H1 H2 H3 H4 H5 H6 H7 H8 H9].
  destruct (mark_run _ _ _ _ _ p b HA) as (m' & Hr & HH' & Hbl & HK); [done|by apply put_mapped|lia|].
  exists m'. split; [|split; [done|split; [done|]]].
  - unfold take_block, l_index, l_heap, l_size_usable, START. rewrite (ld32_bind _ _ _ _ H3), (ld32_bind _ _ _ _ (H5 (b - 5) ltac:(lia))), Hf.
    rewrite (proj2 (Z.eqb_neq p NULL) Hp0). cbn [negb]. rewrite (bind_ok _ _ _ p (put (l + 12 + 4 * (b - 5)) nx m)); [exact Hr|].
    unfold drop, l_index. rewrite (ld32_bind _ _ _ _ H3), (ld32_bind _ _ _ _ (H5 (b - 5) ltac:(lia))), Hf.
    rewrite (ld32_bind _ _ _ _ Hnx), (ld32_bind _ _ _ _ H3), st32_bind by (apply W3; lia). done.
  - intros x Hx1 Hx2 Hx3. rewrite HK by words. rewrite !put_out by words. done.
Qed.

(** ** [free]: the block goes to the list of the next larger class *)
Lemma free_run m l h u f p b : Heap m l h u f -> 5 <= b <= 11 -> is_block m p b -> own l (p - 4) -> own l p ->
  mapped m p 4 -> 0 <= f (b - 4) < 4294967296 ->
  exists m', free p m = Ok (tt, m') /\ Heap m' l h u (upd_list (b - 4) p f) /\
    rd m' (p - 4) = Some (2 ^ b) /\ rd m' p = Some (f (b - 4)) /\ kept l (p - 4) 8 m m'.
Proof using Type.
  intros HH Hb Hbl Ho1 Ho2 Hm Hf. pose proof HH as [H1 H2 H3 H4 H5 H6 H7 H8 H9].
  destruct (pow_class b ltac:(lia)) as (Hp & _ & Hc & Hs & Hk). unfold is_block in Hbl.
  set (m1 := put (p - 4) (2 ^ b) m). assert (Heap m1 l h u f) as HH1 by (by apply Heap_put).
  set (m2 := put p (f (b - 4)) m1). assert (Heap m2 l h u f) as HH2 by (by apply Heap_put).
  pose proof HH1 as [K1 _ K3 _ K5 _ _ _ _]. pose proof HH2 as [_ _ L3 _ _ _ _ _ _].
  destruct (Heap_word _ _ _ _ _ HH2) as (_ & _ & W3).
  exists (put (l + 12 + 4 * (b - 4)) p m2). split; [|split; [apply Heap_list; (done || words)|split; [|split]]].
  - unfold free. rewrite (proj2 (Z.eqb_neq p NULL)) by (unfold NULL; words).
    rewrite (bind_ok _ _ _ 1 m) by (unfold check_flag, LAST_BIT; rewrite (ld32_bind _ _ _ _ Hbl); by rewrite Hs). cbn [negb Z.eqb when].
    rewrite (bind_ok _ _ _ tt m1) by (unfold clear_flag; rewrite (ld32_bind _ _ _ _ Hbl); change (Z.shiftl 1 LAST_BIT) with 2147483648;
      rewrite Hc; apply st32_put; by eapply rd_mapped).
    rewrite (ld32_bind _ _ (2 ^ b)) by (unfold m1; rewrite rd_put; f_equal; apply u32_id; lia).
    rewrite (u32_id (2 ^ b - 4)) by lia. rewrite (bind_ok _ _ _ (b + 1) m1) by (rewrite block_index_run by lia; by rewrite Hk).
    unfold END, START. rewrite (proj2 (Z.ltb_ge 12 (b + 1))) by lia. rewrite (ld32_bind _ _ _ _ K1). unfold add, l_index.
    replace (b + 1 - 5) with (b - 4) by lia.
    rewrite (ld32_bind _ _ _ _ K3), (ld32_bind _ _ _ _ (K5 (b - 4) ltac:(lia))), st32_bind by (by apply put_mapped).
    fold m2. rewrite (ld32_bind _ _ _ _ L3). apply st32_put. apply W3. lia.
  - unfold m2, m1. rewrite !rd_put_ne by words. rewrite rd_put. f_equal. apply u32_id. lia.
  - rewrite rd_put_ne by words. unfold m2. rewrite rd_put. f_equal. by apply u32_id.
  - intros x Hx1 Hx2 Hx3. unfold m2, m1. rewrite !put_out by words. done.
Qed.
End props.
