(* ===== verification/UserHeapContract.v ===== *)
(** * The user's heap: runs of [malloc] and [free] *)
From S2P Require Import Prelude Bytes KString UString Unistd StringProps MemProps Words UserHeap UserHeapProps.

Section contract.
Context {calls : Process_calls}.
Implicit Types (m : mem) (l h u p c : Z) (f : Z -> Z).

(** [sbrk] gives the chunk at [c]: new bytes, and no other byte changes. *)
Record Chunk m c m' : Prop := {
  ch_mapped : mapped m' c 4096;
  ch_kept x : x < c \/ c + 4096 <= x -> m' !! x = m !! x
}.
Definition grants m c : Prop :=
  0 < c /\ c + 4096 < 2147483648 /\ (FREE_LIST_VAR + 4 <= c \/ c + 4096 <= FREE_LIST_VAR) /\
  forall m0, dom m0 = dom m -> exists m', sbrk syscall CHUNK_SIZE m0 = Ok (c, m') /\ Chunk m0 c m'.

Definition total (ns : list Z) : Z := foldr (λ n k, 2 ^ size_class n + k) 0 ns.
Fixpoint mallocs (ns : list Z) : M mem (list Z) :=
  match ns with
  | [] => mret []
  | n :: ns => p ← malloc n; ps ← mallocs ns; mret (p :: ps)
  end.
(** The blocks one after the other, from [h] on. *)
Fixpoint row h (ns : list Z) : list Z :=
  match ns with [] => [] | n :: ns => (h + 4) :: row (h + 2 ^ size_class n) ns end.
Definition small_size (n : Z) : Prop := 0 < n <= 4088.
(** A block of [n] bytes as the program holds it, with the block's header. *)
Definition block_apart (a b : Z * Z) : Prop := a.1 + a.2 <= b.1 - 4 \/ b.1 + b.2 <= a.1 - 4.

Lemma total_pos ns : Forall small_size ns -> 0 <= total ns.
Proof using Type.
  induction 1 as [|n ns [H _] _ IH]; [done|]. cbn [total foldr]. fold (total ns). destruct (size_class_fits n H) as [_ ?]. lia.
Qed.

Lemma mallocs_run ns : forall m l h u, Heap m l h u (λ _, 0) -> Forall small_size ns -> total ns <= u ->
  exists m', mallocs ns m = Ok (row h ns, m') /\ Heap m' l (h + total ns) (u - total ns) (λ _, 0) /\
    kept l h (total ns) m m' /\ Forall2 (λ n p, is_block m' p (size_class n)) ns (row h ns).
Proof using Type.
  induction ns as [|n ns IH]; intros m l h u HH Hns Hu.
  { exists m. cbn [total foldr row]. rewrite Z.add_0_r, Z.sub_0_r. split; [done|]. split; [done|]. split; [by intros x|constructor]. }
  apply Forall_cons in Hns as [Hn Hns]. pose proof (total_pos _ Hns) as Ht. cbn [total foldr] in *. fold (total ns) in *.
  pose proof Hn as [Hn0 _]. destruct (size_class_fits n Hn0) as [Hb Hf].
  destruct (allocate_fresh m l h u _ n HH Hn ltac:(lia) eq_refl) as (m1 & Hr & HH1 & Hbl & HK1).
  destruct (IH m1 l _ _ HH1 Hns ltac:(lia)) as (m2 & Hr2 & HH2 & HK2 & HB2).
  pose proof HH as [_ _ _ _ _ Hv Ha Hap _].
  exists m2. split; [|split; [|split; [|constructor; [|exact HB2]]]].
  - cbn [mallocs row]. unfold malloc. by rewrite (bind_ok _ _ _ _ _ Hr), (bind_ok _ _ _ _ _ Hr2).
  - by rewrite Z.add_assoc, Z.sub_add_distr.
  - intros x Hx1 Hx2 Hx3. rewrite HK2, HK1 by lia. done.
  - unfold is_block in *. rewrite <-Hbl. apply rd_same; [unfold word_at; lia|]. intros x Hx. apply HK2; lia.
Qed.

Lemma row_apart ns : forall h, Forall small_size ns ->
  pairwise block_apart (zip (row h ns) ns) /\ Forall (λ b, h <= b.1 - 4 /\ b.1 + b.2 <= h + total ns) (zip (row h ns) ns).
Proof using Type.
  induction ns as [|n ns IH]; intros h Hns; [by split; constructor|].
  apply Forall_cons in Hns as [[Hn _] Hns]. pose proof (total_pos _ Hns) as Ht.
  destruct (size_class_fits n Hn) as [_ Hf]. destruct (IH (h + 2 ^ size_class n) Hns) as [IH1 IH2].
  cbn [row zip zip_with total foldr pairwise]. fold (total ns). split; [split; [|exact IH1]|constructor].
  - eapply Forall_impl; [exact IH2|]. intros [q k]. unfold block_apart. cbn [fst snd]. lia.
  - cbn [fst snd]. lia.
  - eapply Forall_impl; [exact IH2|]. intros [q k]. cbn [fst snd]. lia.
Qed.

(** ** The first call *)
Lemma dom_put m a v : mapped m a 4 -> dom (put a v m) = dom m.
Proof using Type.
  intros Hm. unfold put. assert (length (word_bytes v) = 4%nat) as Hl by done. revert Hl. generalize (word_bytes v). intros bs Hl.
  apply set_eq. intros x. rewrite !elem_of_dom. destruct (in_range a 4 x) as [(j & Hj & <-)|Hx].
  - split; [intros _; by apply Hm|]. intros _. by apply (poke_mapped a bs m a 4 Hm).
  - rewrite poke_out; [done|]. intros i Hi. apply Hx. lia.
Qed.

Lemma set_up_run m c : rd m FREE_LIST_VAR = Some 0 -> word_at FREE_LIST_VAR -> grants m c ->
  exists m', set_up_free_list m = Ok (tt, m') /\ Heap m' c (c + 84) 3968 (λ _, 0) /\ 
    forall x, (x < c \/ c + 4096 <= x) -> (x < FREE_LIST_VAR \/ FREE_LIST_VAR + 4 <= x) -> m' !! x = m !! x.
Proof using Type.
  intros Hv Hva (Hc0 & Hc1 & Hvc & Hg). destruct (Hg m eq_refl) as (m0 & Hs & [Hm Hk]).
  set (m1 := put FREE_LIST_VAR c m0). set (m2 := put (c + 4) (c + 12) m1). set (m3 := put c (c + 84) m2).
  set (m4 := poke (c + 12) (replicate 32 0) m3). exists (put (c + 8) 3968 m4).
  assert (mapped m1 c 4096) as M1 by (by apply put_mapped). assert (mapped m2 c 4096) as M2 by (by apply put_mapped).
  assert (mapped m3 c 4096) as M3 by (by apply put_mapped). assert (mapped m4 c 4096) as M4 by (by apply poke_mapped).
  assert (mapped m0 FREE_LIST_VAR 4) as Mv.
  { eapply (mapped_same m); [apply Hva|unfold word_at in Hva; lia| |by eapply rd_mapped]. intros x Hx. apply Hk. lia. }
  assert (forall x, x < c + 12 \/ c + 44 <= x -> 0 <= x -> m4 !! x = m3 !! x) as H4.
  { intros x Hx H0. unfold m4. apply poke_out. intros i Hi. rewrite length_replicate in Hi. rewrite u32_id by lia. lia. }
  assert (forall a, word_at a -> a + 4 <= c + 12 \/ c + 44 <= a -> rd m4 a = rd m3 a) as R4.
  { intros a Ha Hx. apply rd_same; [done|]. intros x Hx'. apply H4; unfold word_at in Ha; lia. }
  split; [|split; [split|]].
  - unfold set_up_free_list. rewrite (bind_ok _ _ _ _ _ Hs). rewrite st32_bind by done. fold m1.
    unfold l_index, l_heap, l_size_usable, sizeof_List, LEN, CHUNK_SIZE. cbn zeta. rewrite (u32_id (c + 12)), (u32_id (c + 12 + 8 * 4)) by lia.
    rewrite st32_bind by (eapply mapped_sub; [exact M1|lia|lia]). fold m2.
    replace (c + 12 + 8 * 4 + 40) with (c + 84) by lia. rewrite st32_bind by (eapply mapped_sub; [exact M2|lia|lia]). fold m3.
    rewrite (ld32_bind _ _ (c + 12)) by (unfold m3, m2; rewrite rd_put_ne by (unfold word_at, clear_of; lia); rewrite rd_put; f_equal; apply u32_id; lia).
    unfold UString.memset. rewrite (bind_ok _ _ _ (c + 12) m4).
    2:{ rewrite memset_spec; [done|eapply mapped_sub; [exact M3|lia|lia]|lia]. }
    apply st32_put. eapply mapped_sub; [exact M4|lia|lia].
  - rewrite rd_put_ne, R4 by (unfold word_at, clear_of in *; lia). unfold m3, m2. rewrite !rd_put_ne by (unfold word_at, clear_of in *; lia).
    unfold m1. rewrite rd_put. f_equal. apply u32_id. lia.
  - rewrite rd_put_ne, R4 by (unfold word_at, clear_of in *; lia). unfold m3. rewrite rd_put. f_equal. apply u32_id. lia.
  - rewrite rd_put_ne, R4 by (unfold word_at, clear_of in *; lia). unfold m3. rewrite rd_put_ne by (unfold word_at, clear_of in *; lia).
    unfold m2. rewrite rd_put. f_equal. apply u32_id. lia.
  - by rewrite rd_put.
  - intros i Hi. rewrite rd_put_ne by (unfold word_at, clear_of in *; lia).
    rewrite (bytes_rd m4 _ 0 0 0 0); [done|]. assert (bytes_at m4 (c + 12) (replicate 32 0)) as HB by (apply bytes_at_poke; cbn; lia).
    intros j x Hj. assert (x = 0) as -> by (do 4 (destruct j as [|j]; [by injection Hj|]); done).
    replace (c + 12 + 4 * i + Z.of_nat j) with (c + 12 + Z.of_nat (Z.to_nat (4 * i) + j)) by lia.
    apply HB. apply lookup_replicate_2. apply lookup_lt_Some in Hj. cbn in Hj. lia.
  - split; [done|lia].
  - lia.
  - lia.
  - apply put_mapped. eapply mapped_sub; [exact M4|lia|lia].
  - intros x Hx1 Hx2. rewrite put_out by (unfold word_at; lia). destruct (decide (0 <= x)) as [H0|H0].
    + rewrite H4 by lia. unfold m3, m2, m1. rewrite !put_out by (done || unfold word_at in *; lia). apply Hk. lia.
    + unfold m4. rewrite poke_out. { unfold m3, m2, m1. rewrite !put_out by (done || unfold word_at in *; lia). apply Hk. lia. }
      intros i _ Hi. pose proof (u32_range (c + 12 + Z.of_nat i)). lia.
Qed.

Lemma allocate_first m m1 l h u f n : rd m FREE_LIST_VAR = Some 0 -> set_up_free_list m = Ok (tt, m1) -> Heap m1 l h u f -> 0 < n ->
  allocate n m = allocate n m1.
Proof using Type.
  intros Hv Hs [H1 _ _ _ _ _ H7 _ _] Hn. unfold allocate. rewrite (proj2 (Z.leb_gt n 0)) by lia.
  rewrite (ld32_bind _ _ _ _ Hv), (ld32_bind _ _ _ _ H1). rewrite (proj2 (Z.eqb_neq l NULL)) by (unfold NULL; lia).
  cbn [when Z.eqb NULL]. rewrite (bind_ok _ _ _ _ _ Hs). by rewrite (bind_ok _ _ _ tt m1) by done.
Qed.
Lemma mallocs_first m c ns : rd m FREE_LIST_VAR = Some 0 -> word_at FREE_LIST_VAR -> grants m c ->
  ns <> [] -> Forall small_size ns -> total ns <= 3968 ->
  exists m', mallocs ns m = Ok (row (c + 84) ns, m') /\ Heap m' c (c + 84 + total ns) (3968 - total ns) (λ _, 0) /\
    Forall2 (λ n p, is_block m' p (size_class n)) ns (row (c + 84) ns) /\
    forall x, (x < c \/ c + 4096 <= x) -> (x < FREE_LIST_VAR \/ FREE_LIST_VAR + 4 <= x) -> m' !! x = m !! x.
Proof using Type.
  intros Hv Hva Hg Hne Hns Ht. destruct (set_up_run m c Hv Hva Hg) as (m1 & Hs & HH & Hk).
  destruct (mallocs_run ns m1 _ _ _ HH Hns Ht) as (m' & Hr & HH' & HK & HB).
  pose proof (total_pos _ Hns). exists m'. split; [|split; [done|split; [done|]]].
  - destruct ns as [|n ns]; [done|]. apply Forall_cons in Hns as [[Hn _] _]. rewrite <-Hr. cbn [mallocs]. unfold malloc, mbind, M_bind.
    by rewrite (allocate_first _ _ _ _ _ _ n Hv Hs HH Hn).
  - intros x Hx1 Hx2. rewrite HK by lia. by apply Hk.
Qed.


(** When the blocks have used up the chunk to the last byte, the next
    [malloc] shifts 1 by 32 and does not return. *)
Theorem exhausted_chunk m c ns n :
  rd m FREE_LIST_VAR = Some 0 -> word_at FREE_LIST_VAR -> grants m c ->
  Forall (λ n, 0 < n <= 4088) ns -> total ns = 3968 -> 0 < n <= 4088 ->
  (mallocs ns ;; malloc n) m = Bad Undef.
Proof using Type.
  intros Hv Hva Hg Hns Ht Hn. destruct (mallocs_first m c ns Hv Hva Hg) as (m' & Hr & HH & _ & _); [by intros ->|done|lia|].
  rewrite (bind_ok _ _ _ _ _ Hr). rewrite Ht in HH. destruct HH as [H1 _ _ H4 _ _ H7 _ _]. unfold malloc, allocate.
  rewrite (proj2 (Z.leb_gt n 0)) by lia. destruct (size_class_fits n ltac:(lia)) as [Hb Hf].
  pose proof (size_class_le n 12 ltac:(lia) ltac:(lia)) as Hb2.
  rewrite (ld32_bind _ _ _ _ H1). rewrite (proj2 (Z.eqb_neq c NULL)) by (unfold NULL; lia). cbn [when].
  rewrite (bind_ok _ _ _ tt m') by done. rewrite (bind_ok _ _ _ _ _ (block_index_run n m' ltac:(lia) ltac:(lia))).
  rewrite (ld32_bind _ _ _ _ H1). unfold l_size_usable. rewrite (ld32_bind _ _ _ _ H4).
  rewrite (bind_ok _ _ _ _ _ (shl1_run (size_class n) m' ltac:(lia))). rewrite (proj2 (Z.ltb_lt (3968 - 3968) _)) by lia. cbn [when].
  apply bind_bad. unfold new_chunk. by rewrite (bind_ok _ _ _ 32 m') by (by vm_compute).
Qed.

(** A freed block is filed with the blocks of twice its size.  Whatever
    two blocks a program takes, when it frees the first and asks for up to
    twice its size, it gets the first block back although the second, still
    in use, lies inside the bytes it asked for. *)
Theorem free_then_malloc_overlaps m l h u n1 n2 n :
  Heap m l h u (λ _, 0) -> 0 < n1 -> size_class n1 <= 11 -> 0 < n2 <= 4088 ->
  0 < n <= 4088 -> size_class n = size_class n1 + 1 -> 2 ^ size_class n1 < n + 4 ->
  2 ^ size_class n1 + 2 ^ size_class n2 + 2 ^ size_class n <= u ->
  exists p q m', (p ← malloc n1; q ← malloc n2; free p ;; r ← malloc n; mret (p, q, r)) m = Ok ((p, q, p), m') /\
    is_block m' p (size_class n) /\ p <= q - 4 < p + n.
Proof using Type.
  intros HH Hn1 Hc1 Hn2 Hn Hcn Hov Hu.
  destruct (size_class_fits n1 Hn1) as [Hb1 Hf1], (size_class_fits n2 ltac:(lia)) as [Hb2 Hf2], (size_class_fits n ltac:(lia)) as [Hb Hf].
  pose proof (pow_class (size_class n1) ltac:(lia)) as (Hp1 & _).
  assert (n1 <= 4088) as Hn1b by (pose proof (Z.pow_le_mono_r 2 _ _ ltac:(lia) Hc1) as Hx; change (2 ^ 11) with 2048 in Hx; lia).
  destruct (allocate_fresh m l h u _ n1 HH ltac:(lia) ltac:(lia) eq_refl) as (m1 & Hr1 & HH1 & Hbl1 & HK1).
  destruct (allocate_fresh m1 l _ _ _ n2 HH1 ltac:(lia) ltac:(lia) eq_refl) as (m2 & Hr2 & HH2 & Hbl2 & HK2).
  pose proof HH as [_ _ _ _ _ Hv Ha Hap Hfree]. set (b := size_class n1) in *. set (h2 := h + 2 ^ b) in *.
  assert (is_block m2 (h + 4) b) as Hbl.
  { unfold is_block in *. rewrite <-Hbl1. apply rd_same; [unfold word_at; lia|]. intros x Hx. apply HK2; lia. }
  assert (own l (h + 4 - 4) /\ own l (h + 4)) as [Ho1 Ho2] by (unfold own, clear_of; lia).
  assert (mapped m2 (h + 4) 4) as Hm.
  { eapply (mapped_same m); [lia|lia| |eapply mapped_sub; [exact Hfree|lia|lia]]. intros x Hx. rewrite HK2, HK1 by lia. done. }
  destruct (free_run m2 l _ _ _ (h + 4) b HH2 ltac:(lia) Hbl Ho1 Ho2 Hm ltac:(lia)) as (m3 & Hr3 & HH3 & Hw & Hnx & HK3).
  destruct (allocate_reuse m3 l _ _ _ n (h + 4) 0 HH3 ltac:(lia) ltac:(lia)) as (m4 & Hr4 & HH4 & Hbl4 & HK4).
  { unfold upd_list. rewrite Hcn. replace (b + 1 - 5) with (b - 4) by lia. by rewrite Z.eqb_refl. }
  { done. } { by eapply rd_mapped. } { done. } { lia. } { unfold NULL. lia. }
  exists (h + 4), (h2 + 4), m4. split; [|split; [done|lia]].
  unfold malloc. by rewrite (bind_ok _ _ _ _ _ Hr1), (bind_ok _ _ _ _ _ Hr2), (bind_ok _ _ _ _ _ Hr3), (bind_ok _ _ _ _ _ Hr4).
Qed.
End contract.

(** ** A process *)
Definition zeros (a : Z) (n : nat) : mem := poke a (replicate n 0) ∅.
Definition sample_calls : Process_calls := {|
  FREE_LIST_VAR := 4096;
  syscall n _ _ _ := match n with
    | SYS_SBRK => modify (λ m, zeros 8192 4096 ∪ m) ;; mret 8192
    | _ => mret 4294967295
    end
|}.
Definition sample : mem := zeros 4096 4.

Lemma sample_grants : grants (calls := sample_calls) sample 8192.
Proof.
  split_and!; [lia|lia|cbn; lia|]. intros m _. exists (zeros 8192 4096 ∪ m). split; [done|]. split.
  - intros i Hi. rewrite lookup_union_is_Some. left. apply (bytes_at_mapped _ _ (replicate 4096 0)); [|by rewrite length_replicate].
    apply bytes_at_poke. rewrite length_replicate. lia.
  - intros x Hx. apply lookup_union_r. unfold zeros. rewrite poke_out; [done|].
    rewrite length_replicate. intros i Hi. rewrite u32_id by lia. lia.
Qed.
Lemma sample_var : rd sample 4096 = Some 0 /\ word_at 4096.
Proof. split; [by vm_compute|unfold word_at; lia]. Qed.

Lemma exhausted_chunk_witness :
  (mallocs (calls := sample_calls) (replicate 124 20) ;; malloc (calls := sample_calls) 20) sample = Bad Undef.
Proof.
  apply (exhausted_chunk (calls := sample_calls) sample 8192).
  - apply sample_var.
  - apply sample_var.
  - apply sample_grants.
  - apply Forall_replicate. lia.
  - by vm_compute.
  - lia.
Defined.
Lemma free_then_malloc_overlaps_witness : exists m p q m',
  (p ← malloc (calls := sample_calls) 20; q ← malloc (calls := sample_calls) 20; free (calls := sample_calls) p ;;
   r ← malloc (calls := sample_calls) 50; mret (p, q, r)) m = Ok ((p, q, p), m') /\ p <= q - 4 < p + 50.
Proof.
  destruct (set_up_run (calls := sample_calls) sample 8192 (proj1 sample_var) (proj2 sample_var) sample_grants) as (m & _ & HH & _).
  exists m. destruct (free_then_malloc_overlaps (calls := sample_calls) m _ _ _ 20 20 50 HH) as (p & q & m' & Hr & _ & Hpq);
    [by vm_compute..|]. exists p, q, m'. split; [exact Hr|exact Hpq].
Defined.
