(* ===== verification/Stdio.v ===== *)
(** * The user library's output: [lib/stdio.c], and the wrappers of [lib/stdlib.c]

    The state is the program's memory and what it has written to descriptor 1. *)
From S2P Require Import Prelude Bytes KString UString Unistd.

Record io := Io { imem : mem; written : list Z }.
Definition with_imem (m : mem) (s : io) : io := Io m (written s).
Definition on_imem {A} (m : M mem A) : M io A := zoom imem with_imem m.

(** [s_buf] and [conv_buf] are the addresses of the local arrays of [putc] and
    [printf]; [esp] are the variadic arguments. *)
Section stdio.
Context (syscall : call -> Z -> Z -> Z -> M io Z) (s_buf conv_buf : Z).

Definition putc (c : Z) : M io unit :=
  on_imem (st8 s_buf c) ;;
  write syscall 1 s_buf 1 ;;
  mret ().

Definition puts_body (s index : Z) : M io (Z + Z) :=
  c ← on_imem (ldc (s + index));
  if c =? 0 then mret (inr index) else putc c ;; mret (inl (i32 (index + 1))).
Definition puts (s : Z) : M io Z :=
  fuel ← gets (λ k, mem_fuel (imem k)); iter fuel (puts_body s) 0.

Definition next_arg (esp : list Z) : M io (Z * list Z) :=
  match esp with a :: esp => mret (a, esp) | [] => raise Undef end.

(** [%x]; with the flag [#], digits from the 9th byte of [conv_buf] on and
    zeros before them. *)
Definition pad_body (i : Z) : M mem (Z + unit) :=
  if i <? 8 then st8 (conv_buf + i) 48 ;; mret (inl (i + 1)) else mret (inr ()).
Definition put_hex (alternate v : Z) : M io unit :=
  if alternate =? 0 then
    on_imem (UString.itoa (u32 v) conv_buf 16) ;; puts conv_buf ;; mret ()
  else
    on_imem (UString.itoa (u32 v) (conv_buf + 8) 16) ;;
    starting_index ← on_imem (UString.strlen (conv_buf + 8));
    on_imem (iter 9 pad_body (i32 starting_index)) ;;
    puts (conv_buf + i32 starting_index) ;; mret ().
Definition put_signed (v : Z) : M io unit :=
  let value := i32 v in
  (if value <? 0 then
     on_imem (st8 conv_buf 45 ;; UString.itoa (u32 (i32 (- value))) (conv_buf + 1) 10)
   else on_imem (UString.itoa (u32 value) conv_buf 10)) ;;
  puts conv_buf ;; mret ().

(** [format_char_switch]; the loop is the [goto] of the flag [#], the result
    is where the conversion ends and the arguments that are left. *)
Definition conversion (x : Z * Z * list Z) : M io ((Z * Z * list Z) + (Z * list Z)) :=
  let '(buf, alternate, esp) := x in
  c ← on_imem (ldc buf);
  if c =? 37 then putc 37 ;; mret (inr (buf, esp))
  else if c =? 35 then mret (inl (u32 (buf + 1), 1, esp))
  else if c =? 120 then
    a ← next_arg esp; put_hex alternate a.1 ;; mret (inr (buf, a.2))
  else if c =? 117 then
    a ← next_arg esp;
    on_imem (UString.itoa (u32 a.1) conv_buf 10) ;; puts conv_buf ;; mret (inr (buf, a.2))
  else if c =? 100 then
    a ← next_arg esp; put_signed a.1 ;; mret (inr (buf, a.2))
  else if c =? 99 then
    a ← next_arg esp; putc (u8 a.1) ;; mret (inr (buf, a.2))
  else if c =? 115 then
    a ← next_arg esp; puts a.1 ;; mret (inr (buf, a.2))
  else mret (inr (buf, esp)).
Definition printf_body (x : Z * list Z) : M io ((Z * list Z) + Z) :=
  let '(buf, esp) := x in
  c ← on_imem (ldc buf);
  if c =? 0 then mret (inr buf)
  else if c =? 37 then
    fuel ← gets (λ k, mem_fuel (imem k));
    r ← iter fuel conversion (u32 (buf + 1), 0, esp);
    mret (inl (u32 (r.1 + 1), r.2))
  else putc c ;; mret (inl (u32 (buf + 1), esp)).
Definition printf (format : Z) (args : list Z) : M io Z :=
  fuel ← gets (λ k, mem_fuel (imem k));
  buf ← iter fuel printf_body (format, args);
  mret (i32 (buf - format)).

Definition sprintf (str format : Z) (args : list Z) : M io Z := mret 0.
Definition fprintf (fd format : Z) (args : list Z) : M io Z := mret 0.
Definition scanf (format : Z) (args : list Z) : M io Z := mret 0.
Definition fputs (fd s : Z) : M io Z := n ← on_imem (UString.strlen s); write syscall fd s n.
Definition fgets (s size stream : Z) : M io Z :=
  n ← read syscall stream s size; mret (if i32 n <? 0 then NULL else s).

(** [exit] and the wrappers of [stdlib.c]; [fmt] and the other addresses are
    those of their string literals.  [pid_t] is unsigned here. *)
Definition exit (status : Z) : M io unit := _exit syscall status.
Definition unix_error (fmt msg : Z) : M io unit := printf fmt [msg] ;; exit 0.
Definition Fork (fmt failed : Z) : M io Z :=
  pid ← fork syscall; when (u32 pid <? 0) (unix_error fmt failed) ;; mret (u32 pid).
Definition Execv (fmt failed pathname argv : Z) : M io unit :=
  n ← execv syscall pathname argv; when (i32 n <? 0) (unix_error fmt failed).
Definition Waitpid (fmt failed pid wstatus : Z) : M io unit :=
  n ← waitpid syscall pid wstatus; when (u32 n <? 0) (unix_error fmt failed).
End stdio.
