(* ===== verification/StdioProps.v ===== *)
(** * What the user's [printf] writes *)
From S2P Require Import Prelude Bytes KString UString Unistd StringProps MemProps StringContract Stdio Args.

(** A conversion with its argument; [Str p l] is the string [l] at [p]. *)
Inductive piece :=
  | Plain (c : Z) | Percent | Chr (v : Z) | Str (p : Z) (l : list Z)
  | Unsigned (v : Z) | Signed (v : Z) | Hex (v : Z) | PadHex (v : Z).
Definition text (r v : Z) : list Z := map digit (digits_of r v).
(** Its characters in the format, its arguments and what it prints. *)
Definition spelled (x : piece) : list Z :=
  match x with
  | Plain c => [c] | Percent => [37; 37] | Chr _ => [37; 99] | Str _ _ => [37; 115]
  | Unsigned _ => [37; 117] | Signed _ => [37; 100] | Hex _ => [37; 120] | PadHex _ => [37; 35; 120]
  end.
Definition arg (x : piece) : list Z :=
  match x with
  | Plain _ | Percent => []
  | Chr v | Unsigned v | Signed v | Hex v | PadHex v => [v]
  | Str p _ => [p]
  end.
Definition printed (x : piece) : list Z :=
  match x with
  | Plain c => [c] | Percent => [37] | Chr v => [u8 v] | Str _ l => l
  | Unsigned v => text 10 (u32 v)
  | Signed v => if i32 v <? 0 then 45 :: text 10 (- i32 v) else text 10 (i32 v)
  | Hex v => text 16 (u32 v)
  | PadHex v => replicate (8 - length (text 16 (u32 v))) 48 ++ text 16 (u32 v)
  end.

Lemma poke_some p l (m : mem) a : is_Some (m !! a) -> is_Some (poke p l m !! a).
Proof.
  revert p m. induction l as [|b l IH]; intros p m H; [done|]. cbn [poke]. apply IH.
  destruct (decide (u32 p = a)) as [->|Hn]; [by rewrite lookup_insert_eq|by rewrite lookup_insert_ne].
Qed.
Lemma lows_short k : forall r v n, 2 <= r -> 0 <= v < r ^ Z.of_nat n -> (length (lows k r v) <= n)%nat.
Proof.
  induction k as [|k IH]; intros r v n Hr Hv; [cbn; lia|]. cbn [lows]. destruct (Z.ltb_spec 0 v); [|cbn; lia].
  destruct n as [|n]; [change (r ^ Z.of_nat 0) with 1 in Hv; lia|]. cbn [length]. apply le_n_S, IH; [done|].
  split; [apply Z.div_pos; lia|]. apply Z.div_lt_upper_bound; [lia|]. rewrite <-Z.pow_succ_r by lia.
  rewrite <-Nat2Z.inj_succ. apply Hv.
Qed.
Lemma text_ok r v : 2 <= r <= 36 -> 0 <= v < 4294967296 -> Forall (λ b, 0 < b < 256) (text r v) /\ (1 <= length (text r v) <= 32)%nat.
Proof.
  intros Hr Hv. destruct (digits_of_ok r v) as [_ Hd]; [lia|done|]. unfold text. rewrite length_map. split; [|split].
  - apply Forall_map. eapply Forall_impl; [exact Hd|]. intros d H. cbn beta in *. destruct (digit_ok d); lia.
  - unfold digits_of. destruct (Z.eqb_spec v 0); [cbn; lia|]. rewrite length_reverse.
    destruct (lows_ok 32 r v) as (_ & _ & _ & H); [lia|done|]. specialize (H ltac:(lia)). destruct (lows 32 r v); [done|cbn; lia].
  - unfold digits_of. destruct (Z.eqb_spec v 0); [cbn; lia|]. rewrite length_reverse. apply lows_short; [lia|].
    split; [lia|]. apply Z.lt_le_trans with (2 ^ Z.of_nat 32); [cbn; lia|]. apply Z.pow_le_mono_l. lia.
Qed.
Lemma text_hex v : 0 <= v < 4294967296 -> (length (text 16 v) <= 8)%nat.
Proof.
  intros Hv. unfold text, digits_of. rewrite length_map. destruct (Z.eqb_spec v 0); [cbn; lia|]. rewrite length_reverse.
  apply lows_short; [lia|]. exact Hv.
Qed.

Section props.
Context (syscall : call -> Z -> Z -> Z -> M io Z) (s_buf conv_buf : Z).
Implicit Types (m : mem) (s : io) (l : list Z).

(** [write] on descriptor 1 writes the bytes at its argument. *)
Definition writes_byte : Prop :=
  forall s p c, imem s !! u32 p = Some c -> write syscall 1 p 1 s = Ok (1, Io (imem s) (written s ++ [c])).
(** The local arrays. *)
Definition frame_ok : Prop :=
  0 <= s_buf < 4294967296 /\ 0 <= conv_buf /\ conv_buf + 64 <= 4294967296 /\ (s_buf < conv_buf \/ conv_buf + 64 <= s_buf).
Definition local (a : Z) : Prop := a = s_buf \/ conv_buf <= a < conv_buf + 64.

Hypothesis Hwrite : writes_byte.
Hypothesis Hframe : frame_ok.

(** Only the byte of [putc] changes; only the local arrays change. *)
Definition quiet m m' : Prop := dom m' = dom m /\ forall a, a <> s_buf -> m' !! a = m !! a.
Definition tidy m m' : Prop := dom m' = dom m /\ forall a, ~ local a -> m' !! a = m !! a.
Lemma quiet_tidy m m' : quiet m m' -> tidy m m'.
Proof using Type. intros [H1 H2]. split; [done|]. intros a Ha. apply H2. unfold local in Ha. tauto. Qed.
Lemma tidy_trans m1 m2 m3 : tidy m1 m2 -> tidy m2 m3 -> tidy m1 m3.
Proof using Type. intros [H1 H2] [H3 H4]. split; [by rewrite H3|]. intros a Ha. by rewrite H4, H2. Qed.
Lemma quiet_trans m1 m2 m3 : quiet m1 m2 -> quiet m2 m3 -> quiet m1 m3.
Proof using Type. intros [H1 H2] [H3 H4]. split; [by rewrite H3|]. intros a Ha. by rewrite H4, H2. Qed.
Lemma quiet_refl m : quiet m m.
Proof using Type. done. Qed.

Lemma mapped_dom m m' a n : dom m' = dom m -> mapped m a n -> mapped m' a n.
Proof using Type. intros Hd H i Hi. rewrite <-elem_of_dom, Hd, elem_of_dom. by apply H. Qed.
Lemma size_dom_eq m m' : dom m' = dom m -> size m' = size m.
Proof using Type. intros H. by rewrite <-!size_dom, H. Qed.

Lemma user_putc_run s c : is_Some (imem s !! s_buf) ->
  exists m', putc syscall s_buf c s = Ok (tt, Io m' (written s ++ [u8 c])) /\ quiet (imem s) m'.
Proof using Hwrite Hframe.
  intros [b Hb]. destruct Hframe as (H0 & _). assert (u32 s_buf = s_buf) as Hs by (apply u32_id; lia).
  exists (<[s_buf := u8 c]> (imem s)). split; [|split].
  - unfold putc. rewrite (bind_ok _ _ _ tt (with_imem (<[s_buf := u8 c]> (imem s)) s)).
    2:{ unfold on_imem, zoom, st8, ld8, gets_opt, mbind, M_bind, modify. by rewrite Hs, Hb. }
    pose proof (Hwrite (with_imem (<[s_buf := u8 c]> (imem s)) s) s_buf (u8 c)) as Hw. cbn [imem written with_imem] in Hw.
    rewrite (bind_ok _ _ _ _ _ (Hw ltac:(rewrite Hs; apply lookup_insert_eq))). done.
  - apply dom_insert_lookup_L. by exists b.
  - intros a Ha. by rewrite lookup_insert_ne.
Qed.

(** A string that the call of [putc] does not touch. *)
Lemma cstr_quiet m m' p l : quiet m m' -> (forall i, (i <= length l)%nat -> u32 (p + Z.of_nat i) <> s_buf) ->
  cstr m p l -> cstr m' p l.
Proof using Type.
  intros [_ Hq] Hp (Hb & Hl). split; [|done]. intros i x Hi. rewrite Hq; [by apply Hb|]. apply Hp.
  apply lookup_lt_Some in Hi. rewrite length_app in Hi. cbn in Hi. lia.
Qed.

Lemma puts_loop p l k : forall s n, is_Some (imem s !! s_buf) -> cstr (imem s) p (k ++ l) ->
  (forall i, (i <= length (k ++ l))%nat -> u32 (p + Z.of_nat i) <> s_buf) -> (length l < n)%nat ->
  exists m', iter n (puts_body syscall s_buf p) (Z.of_nat (length k)) s =
    Ok (Z.of_nat (length (k ++ l)), Io m' (written s ++ l)) /\ quiet (imem s) m'.
Proof using Hwrite Hframe.
  revert k. induction l as [|b l IH]; intros k s n Hs Hc Hp Hn; (destruct n as [|n]; [cbn in Hn; lia|]).
  - exists (imem s). split; [|done]. rewrite !app_nil_r in *. rewrite (iter_stop s s n _ _ (Z.of_nat (length k))); [by destruct s|].
    pose proof (cstr_end _ _ _ Hc) as He. unfold puts_body, on_imem, zoom, ldc, ld8, gets_opt, mbind, M_bind. rewrite He.
    by destruct s.
  - destruct (cstr_byte _ _ _ (length k) b Hc) as [Hb Hr]; [by rewrite lookup_app_r, Nat.sub_diag by lia|].
    destruct (user_putc_run s (i8 b) Hs) as (m1 & Hr1 & Hq1). rewrite u8_i8 in Hr1 by lia.
    destruct (IH (k ++ [b]) (Io m1 (written s ++ [b])) n) as (m2 & Hr2 & Hq2).
    + cbn [imem]. rewrite <-elem_of_dom, (proj1 Hq1). by apply elem_of_dom.
    + cbn [imem]. rewrite <-app_assoc. cbn [app]. by eapply cstr_quiet.
    + rewrite <-app_assoc. done.
    + cbn in Hn. lia.
    + exists m2. split; [|by eapply quiet_trans]. cbn [imem written] in *.
      rewrite <-!app_assoc in Hr2. cbn [app] in Hr2. rewrite <-Hr2.
      rewrite (iter_next s (Io m1 (written s ++ [b])) n _ _ (Z.of_nat (length (k ++ [b])))); [done|].
      unfold puts_body. rewrite (bind_ok _ _ _ (i8 b) s).
      2:{ unfold on_imem, zoom, ldc, ld8, gets_opt, mbind, M_bind. rewrite Hb. by destruct s. }
      rewrite i8_zero, (proj2 (Z.eqb_neq b 0)) by lia. rewrite (bind_ok _ _ _ _ _ Hr1).
      destruct Hc as (_ & _ & Hl). rewrite length_app in *. cbn [length] in *. rewrite i32_id by lia.
      by replace (Z.of_nat (length k) + 1) with (Z.of_nat (length k + 1)) by lia.
Qed.
Lemma puts_run s p l : is_Some (imem s !! s_buf) -> cstr (imem s) p l ->
  (forall i, (i <= length l)%nat -> u32 (p + Z.of_nat i) <> s_buf) ->
  exists m', puts syscall s_buf p s = Ok (Z.of_nat (length l), Io m' (written s ++ l)) /\ quiet (imem s) m'.
Proof using Hwrite Hframe.
  intros Hs Hc Hp. unfold puts. pose proof (cstr_fuel _ _ _ Hc). rewrite (bind_ok _ _ _ (mem_fuel (imem s)) s) by done.
  apply (puts_loop p l []); [done|done|done|unfold mem_fuel; lia].
Qed.

(** ** Conversions *)
Lemma on_imem_run {A} (k : M mem A) s a m' : k (imem s) = Ok (a, m') -> on_imem k s = Ok (a, Io m' (written s)).
Proof using Type. intros H. unfold on_imem, zoom. by rewrite H. Qed.
Lemma peek_run s p b : imem s !! u32 p = Some b -> on_imem (ldc p) s = Ok (i8 b, s).
Proof using Type.
  intros H. rewrite (on_imem_run _ s (i8 b) (imem s)); [by destruct s|]. apply wp_ok. by eapply wp_ldc.
Qed.
Lemma poke_tidy p l m : conv_buf <= p -> p + Z.of_nat (length l) <= conv_buf + 64 -> mapped m conv_buf 64 -> tidy m (poke p l m).
Proof using Hframe.
  intros Hp Hl Hm. destruct Hframe as (_ & H0 & H1 & _). split.
  - apply set_eq. intros x. rewrite !elem_of_dom. destruct (in_range p (length l) x) as [(j & Hj & <-)|Hx].
    + assert (is_Some (m !! u32 (p + Z.of_nat j))) as Hs.
      { replace (p + Z.of_nat j) with (conv_buf + Z.of_nat (Z.to_nat (p - conv_buf) + j)) by lia. apply Hm. lia. }
      split; [done|]. intros _. by apply poke_some.
    + by rewrite poke_out.
  - intros a Ha. apply poke_out. intros i Hi. unfold local in Ha. rewrite u32_id by lia. lia.
Qed.

(** The state of a call: the local arrays are there. *)
Definition ready s : Prop := is_Some (imem s !! s_buf) /\ mapped (imem s) conv_buf 64.
Lemma ready_dom s m' out : ready s -> dom m' = dom (imem s) -> ready (Io m' out).
Proof using Type.
  intros [H1 H2] Hd. split; cbn [imem].
  - rewrite <-elem_of_dom, Hd. by apply elem_of_dom.
  - by eapply mapped_dom.
Qed.
(** [f] prints [l], and changes only the local arrays. *)
Definition prints {A} (f : M io A) (s : io) (a : A) l : Prop :=
  exists m', f s = Ok (a, Io m' (written s ++ l)) /\ tidy (imem s) m'.

Lemma putc_prints s c : ready s -> prints (putc syscall s_buf c) s tt [u8 c].
Proof using Hwrite Hframe.
  intros [Hs _]. destruct (user_putc_run s c Hs) as (m' & Hr & Hq). exists m'. split; [done|by apply quiet_tidy].
Qed.
Lemma cstr_poke_here m p l : Forall (λ b, 0 < b < 256) l -> (Z.of_nat (length l) < 2147483647) -> cstr (poke p (l ++ [0]) m) p l.
Proof using Type. intros Hl Hn. split; [|done]. apply bytes_at_poke. rewrite length_app. cbn. lia. Qed.

(** A numeral written at offset [j] of [conv_buf], with [pre] before it. *)
Lemma puts_conv s m' p l : ready s -> tidy (imem s) m' -> cstr m' p l -> conv_buf <= p -> p + Z.of_nat (length l) < conv_buf + 64 ->
  prints (puts syscall s_buf p) (Io m' (written s)) (Z.of_nat (length l)) l.
Proof using Hwrite Hframe.
  intros Hs Ht Hc H1 H2. destruct Hframe as (F1 & F2 & F3 & F4).
  destruct (puts_run (Io m' (written s)) p l) as (m2 & Hr & Hq).
  - apply (ready_dom s m' (written s) Hs (proj1 Ht)).
  - exact Hc.
  - intros i Hi. rewrite u32_id by lia. lia.
  - exists m2. split; [done|]. by apply quiet_tidy.
Qed.
Lemma itoa_conv m r v j : mapped m conv_buf 64 -> 2 <= r <= 36 -> 0 <= v < 4294967296 -> 0 <= j <= 31 ->
  let m' := poke (conv_buf + j) (text r v ++ [0]) m in
  UString.itoa v (conv_buf + j) r m = Ok (conv_buf + j, m') /\ tidy m m' /\ cstr m' (conv_buf + j) (text r v).
Proof using Hframe.
  intros Hm Hr Hv Hj. destruct (text_ok r v Hr Hv) as [Ht Hl]. cbn zeta. split; [|split].
  - apply itoa_user_spec; [done|done|]. unfold text in Hl. rewrite length_map in Hl.
    replace (conv_buf + j) with (conv_buf + Z.of_nat (Z.to_nat j)) by lia. eapply mapped_off; [exact Hm|lia].
  - apply poke_tidy; [lia| |done]. rewrite length_app. cbn [length]. lia.
  - apply cstr_poke_here; [done|lia].
Qed.
(** Sequencing what is printed. *)
Lemma prints_then {A B} s (f : M io A) (k : A -> M io B) a l b l' : ready s -> prints f s a l ->
  (forall s', ready s' -> tidy (imem s) (imem s') -> prints (k a) s' b l') -> prints (f ≫= k) s b (l ++ l').
Proof using Type.
  intros Hs (m1 & H1 & T1) Hk. destruct (Hk (Io m1 (written s ++ l))) as (m2 & H2 & T2).
  - by apply (ready_dom s m1 _ Hs (proj1 T1)).
  - done.
  - exists m2. rewrite (bind_ok _ _ _ _ _ H1), H2. cbn [written]. rewrite <-app_assoc. split; [done|by eapply tidy_trans].
Qed.
Lemma prints_ret {A} s (a : A) : prints (mret a) s a [].
Proof using Type. exists (imem s). rewrite app_nil_r. by destruct s. Qed.
(** A step that only computes. *)
Lemma prints_after {A B} s (f : M io A) (k : A -> M io B) a m' b l : f s = Ok (a, Io m' (written s)) -> tidy (imem s) m' ->
  prints (k a) (Io m' (written s)) b l -> prints (f ≫= k) s b l.
Proof using Type. intros H T (m2 & H2 & T2). exists m2. rewrite (bind_ok _ _ _ _ _ H). split; [done|by eapply tidy_trans]. Qed.
Lemma prints_unit {A} s (f : M io A) a l : ready s -> prints f s a l -> prints (f ;; mret ()) s () l.
Proof using Type. intros Hs H. rewrite <-(app_nil_r l). eapply prints_then; [done|exact H|]. intros s' _ _. apply prints_ret. Qed.

Lemma number_prints {A} s r v (k : M io A) a l : ready s -> 2 <= r <= 36 -> 0 <= v < 4294967296 ->
  (forall s', ready s' -> tidy (imem s) (imem s') -> prints k s' a l) ->
  prints (on_imem (UString.itoa v conv_buf r) ;; puts syscall s_buf conv_buf ;; k) s a (text r v ++ l).
Proof using Hwrite Hframe.
  intros Hs Hr Hv Hk. destruct (itoa_conv (imem s) r v 0 (proj2 Hs) Hr Hv ltac:(lia)) as (Hi & Ht & Hc). rewrite Z.add_0_r in *.
  destruct (text_ok r v Hr Hv) as [_ Hl]. eapply prints_after; [by apply on_imem_run|exact Ht|].
  eapply prints_then; [by apply (ready_dom s _ _ Hs (proj1 Ht))|by apply puts_conv; [..|lia]|].
  intros s' Hs' Ht'. apply Hk; [done|by eapply tidy_trans].
Qed.

Lemma signed_prints s v : ready s -> prints (put_signed syscall s_buf conv_buf v) s () (printed (Signed v)).
Proof using Hwrite Hframe.
  intros Hs. pose proof Hframe as (F1 & F2 & F3 & F4). pose proof (i32_range v) as Hr. unfold put_signed. cbn zeta. cbn [printed].
  destruct (Z.ltb_spec (i32 v) 0) as [Hn|Hn].
  - set (w := - i32 v) in *. assert (u32 (i32 w) = w) as -> by (unfold u32, i32; subst w; lia_mod).
    set (m1 := poke conv_buf [45] (imem s)). assert (ready (Io m1 (written s))) as Hs1.
    { apply (ready_dom s m1 _ Hs). apply poke_tidy; [lia|cbn; lia|apply Hs]. }
    destruct (itoa_conv m1 10 w 1 (proj2 Hs1) ltac:(lia) ltac:(lia) ltac:(lia)) as (Hi & Ht & Hc).
    set (m2 := poke (conv_buf + 1) _ m1) in *. destruct (text_ok 10 w ltac:(lia) ltac:(lia)) as [Htx Hl].
    assert (tidy (imem s) m1) as T1 by (apply poke_tidy; [lia|cbn; lia|apply Hs]).
    assert (bytes_at m2 conv_buf [45]) as H45.
    { apply bytes_at_poke_apart; [by apply bytes_at_poke|]. apply apart_ranges; cbn [length]; rewrite ?length_app; cbn [length]; lia. }
    assert (cstr m2 conv_buf (45 :: text 10 w)) as Hc2.
    { split; [|split; [constructor; [lia|done]|cbn [length]; lia]]. cbn [app]. apply bytes_at_cons. split; [|apply Hc].
      apply bytes_at_cons in H45 as [H45 _]. exact H45. }
    eapply prints_after; [|eapply tidy_trans; [exact T1|exact Ht]|].
    + apply on_imem_run. rewrite (bind_ok _ _ _ _ _ (st8_poke (imem s) conv_buf 45 ltac:(intros i Hi'; apply Hs; lia))). exact Hi.
    + assert (prints (puts syscall s_buf conv_buf) (Io m2 (written s)) (Z.of_nat (length (45 :: text 10 w))) (45 :: text 10 w)) as HP.
      { apply puts_conv; [done|by eapply tidy_trans|done|lia|cbn [length]; lia]. }
      eapply prints_unit; [|exact HP]. apply (ready_dom _ _ _ Hs1). apply Ht.
  - rewrite u32_id by lia. rewrite <-(app_nil_r (text 10 _)). apply number_prints; [done|lia|lia|]. intros. apply prints_ret.
Qed.

(** The padded hexadecimal numeral. *)
Lemma pad_run n : forall k m, mapped m conv_buf 64 -> (k < n)%nat -> (k <= 8)%nat ->
  iter n (pad_body conv_buf) (8 - Z.of_nat k) m = Ok (tt, poke (conv_buf + (8 - Z.of_nat k)) (replicate k 48) m).
Proof using Type.
  induction n as [|n IH]; intros k m Hm Hk Hk8; [lia|]. destruct k as [|k].
  - rewrite (iter_stop m m n _ _ ()); [done|]. unfold pad_body. by rewrite (proj2 (Z.ltb_ge _ 8)) by lia.
  - rewrite (iter_next m (poke (conv_buf + (8 - Z.of_nat (Datatypes.S k))) [48] m) n _ _ (8 - Z.of_nat k)).
    + rewrite IH by (done || lia || by apply poke_mapped). cbn [replicate poke].
      by replace (conv_buf + (8 - Z.of_nat (Datatypes.S k)) + 1) with (conv_buf + (8 - Z.of_nat k)) by lia.
    + unfold pad_body. rewrite (proj2 (Z.ltb_lt _ 8)) by lia.
      rewrite (bind_ok _ _ _ _ _ (st8_poke m (conv_buf + (8 - Z.of_nat (Datatypes.S k))) 48
        ltac:(replace (conv_buf + (8 - Z.of_nat (Datatypes.S k))) with (conv_buf + Z.of_nat (8 - Datatypes.S k)) by lia;
              eapply mapped_off; [exact Hm|lia]))).
      by replace (8 - Z.of_nat (Datatypes.S k) + 1) with (8 - Z.of_nat k) by lia.
Qed.
Lemma padhex_prints s v : ready s -> prints (put_hex syscall s_buf conv_buf 1 v) s () (printed (PadHex v)).
Proof using Hwrite Hframe.
  intros Hs. pose proof Hframe as (F1 & F2 & F3 & F4). unfold put_hex. cbn [Z.eqb printed].
  pose proof (u32_range v) as Hv. set (w := u32 v) in *. set (t := text 16 w).
  destruct (itoa_conv (imem s) 16 w 8 (proj2 Hs) ltac:(lia) Hv ltac:(lia)) as (Hi & Ht & Hc).
  set (m1 := poke (conv_buf + 8) _ (imem s)) in *. fold t in Hc, m1.
  destruct (text_ok 16 w ltac:(lia) Hv) as [Htx Hl]. pose proof (text_hex w Hv) as Hl8. fold t in Hl, Hl8, Htx.
  assert (mapped m1 conv_buf 64) as M1 by (eapply mapped_dom; [apply Ht|apply Hs]).
  set (k := (8 - length t)%nat). set (m2 := poke (conv_buf + (8 - Z.of_nat k)) (replicate k 48) m1).
  assert (8 - Z.of_nat k = Z.of_nat (length t)) as Hkl by lia.
  assert (tidy m1 m2) as T2 by (apply poke_tidy; rewrite ?length_replicate; done || lia).
  assert (cstr m2 (conv_buf + Z.of_nat (length t)) (replicate k 48 ++ t)) as Hc2.
  { split; [|split].
    - rewrite <-app_assoc. apply bytes_at_app. rewrite length_replicate. split.
      + subst m2. rewrite Hkl. apply bytes_at_poke. rewrite length_replicate. lia.
      + replace (conv_buf + Z.of_nat (length t) + Z.of_nat k) with (conv_buf + 8) by lia.
        apply bytes_at_poke_apart; [apply Hc|]. apply apart_ranges; rewrite ?length_replicate, ?length_app; cbn [length]; lia.
    - apply Forall_app. split; [apply Forall_replicate; lia|done].
    - rewrite length_app, length_replicate. lia. }
  eapply prints_after; [by apply on_imem_run|exact Ht|].
  eapply prints_after; [apply on_imem_run; by apply strlen_spec|done|]. cbn [imem].
  eapply prints_after; [apply on_imem_run; rewrite i32_id by lia; rewrite <-Hkl; apply pad_run; [done|lia|lia]|exact T2|].
  eapply prints_unit; [by apply (ready_dom s _ _ Hs); destruct (tidy_trans _ _ _ Ht T2)|].
  rewrite i32_id by lia. apply (puts_conv s); [done|by eapply tidy_trans|done|lia|rewrite length_app, length_replicate; lia].
Qed.

(** ** One conversion *)
Definition away (p : Z) (n : nat) : Prop := forall i, (i < n)%nat -> ~ local (u32 (p + Z.of_nat i)).
Lemma cstr_tidy m m' p l : tidy m m' -> away p (Datatypes.S (length l)) -> cstr m p l -> cstr m' p l.
Proof using Type.
  intros [_ Hq] Hp (Hb & Hl). split; [|done]. intros i x Hi. rewrite Hq; [by apply Hb|]. apply Hp.
  apply lookup_lt_Some in Hi. rewrite length_app in Hi. cbn in Hi. lia.
Qed.
Definition fine m (x : piece) : Prop :=
  match x with
  | Plain c => 0 < c < 256 /\ c <> 37
  | Str p l => cstr m p l /\ away p (Datatypes.S (length l))
  | _ => True
  end.
Lemma fine_tidy m m' x : tidy m m' -> fine m x -> fine m' x.
Proof using Type. destruct x; try done. intros T [H1 H2]. split; [by eapply cstr_tidy|done]. Qed.

Lemma after_peek {B} s p b (k : Z -> M io B) a l : imem s !! u32 p = Some b -> prints (k (i8 b)) s a l ->
  prints (on_imem (ldc p) ≫= k) s a l.
Proof using Type. intros Hb (m' & H & T). exists m'. by rewrite (bind_ok _ _ _ _ _ (peek_run _ _ _ Hb)). Qed.
Lemma prints_puts s p l : ready s -> cstr (imem s) p l -> away p (Datatypes.S (length l)) ->
  prints (puts syscall s_buf p) s (Z.of_nat (length l)) l.
Proof using Hwrite Hframe.
  intros [Hs _] Hc Ha. destruct (puts_run s p l Hs Hc) as (m' & Hr & Hq).
  - intros i Hi E. apply (Ha i); [lia|]. by left.
  - exists m'. split; [done|by apply quiet_tidy].
Qed.

Lemma prints_stop {X A} n s (body : X -> M io (X + A)) x a l : prints (body x) s (inr a) l ->
  prints (iter (Datatypes.S n) body x) s a l.
Proof using Type. intros (m' & H & T). exists m'. by rewrite (iter_stop _ _ n _ _ _ H). Qed.
Lemma prints_next {X A} n s (body : X -> M io (X + A)) x y a l l' : ready s -> prints (body x) s (inl y) l ->
  (forall s', ready s' -> tidy (imem s) (imem s') -> prints (iter n body y) s' a l') ->
  prints (iter (Datatypes.S n) body x) s a (l ++ l').
Proof using Type.
  intros Hs H Hk. cbn [iter]. eapply prints_then; [done|exact H|]. exact Hk.
Qed.

Lemma prints_bind {A B} s (a : A) (k : A -> M io B) b l : prints (k a) s b l -> prints (mret a ≫= k) s b l.
Proof using Type. done. Qed.
Lemma prints_end {A B} s (f : M io A) (b : B) a l : ready s -> prints f s a l -> prints (f ;; mret b) s b l.
Proof using Type. intros Hs H. rewrite <-(app_nil_r l). eapply prints_then; [done|exact H|]. intros s' _ _. apply prints_ret. Qed.

Lemma conversion_prints n s x tl q rest : ready s -> fine (imem s) x -> spelled x = 37 :: tl ->
  0 <= q -> q + Z.of_nat (length tl) <= 4294967296 -> bytes_at (imem s) q tl -> away q (length tl) -> (1 < n)%nat ->
  prints (iter n (conversion syscall s_buf conv_buf) (q, 0, arg x ++ rest)) s (q + Z.of_nat (length tl) - 1, rest) (printed x).
Proof using Hwrite Hframe.
  intros Hs Hf Hx H0 Hq Hb Haw Hn. destruct n as [|[|n]]; [lia|lia|].
  assert (forall b tl', tl = b :: tl' -> imem s !! u32 q = Some b) as Hc.
  { intros b tl' ->. by apply bytes_at_cons in Hb as [Hb _]. }
  destruct x; cbn [spelled] in Hx; injection Hx as Hx; try subst tl; try (destruct Hf; congruence);
    cbn [arg app length]; replace (q + Z.of_nat 1 - 1) with q by lia.
  1-6: apply prints_stop; unfold conversion; eapply after_peek; [by eapply Hc|];
    match goal with |- context [i8 ?c] => change (i8 c) with c end; cbn [Z.eqb Pos.eqb next_arg]; try apply prints_bind; cbn [fst snd].
  - eapply prints_end; [done|by apply putc_prints].
  - eapply prints_end; [done|]. cbn [printed]. rewrite <-(u8_id (u8 v)) at 2 by apply u8_range. by apply putc_prints.
  - destruct Hf as [Hc1 Hc2]. eapply prints_end; [done|by apply prints_puts].
  - cbn [printed]. rewrite <-(app_nil_r (text 10 _)). apply number_prints; [done|lia|apply u32_range|]. intros. apply prints_ret.
  - eapply prints_end; [done|by apply signed_prints].
  - eapply prints_end; [done|]. unfold put_hex. cbn [Z.eqb printed]. rewrite <-(app_nil_r (text 16 _)).
    apply number_prints; [done|lia|apply u32_range|]. intros. apply prints_ret.
  - apply bytes_at_cons in Hb as [Hb1 Hb2]. apply bytes_at_cons in Hb2 as [Hb2 _]. cbn [length] in Hq.
    rewrite <-(app_nil_l (printed _)). eapply (prints_next _ s _ _ (q + 1, 1, v :: rest)); [done| |].
    + unfold conversion. eapply after_peek; [exact Hb1|]. change (i8 35) with 35. cbn [Z.eqb Pos.eqb]. rewrite u32_id by lia. apply prints_ret.
    + intros s' Hs' T. replace (q + Z.of_nat 2 - 1) with (q + 1) by lia. apply prints_stop. unfold conversion.
      eapply after_peek; [rewrite (proj2 T); [exact Hb2|exact (Haw 1%nat ltac:(cbn; lia))]|].
      change (i8 120) with 120. cbn [Z.eqb Pos.eqb next_arg]. apply prints_bind. cbn [fst snd].
      eapply prints_end; [done|by apply padhex_prints].
Qed.

(** ** The whole format *)
Definition spell (ps : list piece) : list Z := mjoin (map spelled ps).
Definition args (ps : list piece) : list Z := mjoin (map arg ps).
Definition output (ps : list piece) : list Z := mjoin (map printed ps).

Lemma spelled_cases m x : fine m x -> (exists c, x = Plain c /\ 0 < c < 256 /\ c <> 37) \/ exists tl, spelled x = 37 :: tl.
Proof using Type. destruct x; intros H; try (right; eexists; reflexivity). left. by exists c. Qed.

Lemma printf_loop f ps : forall pre s n, ready s -> cstr (imem s) f (pre ++ spell ps) ->
  away f (Datatypes.S (length (pre ++ spell ps))) -> 0 <= f -> f + Z.of_nat (length (pre ++ spell ps)) < 4294967296 ->
  Forall (fine (imem s)) ps -> (length ps < n)%nat -> (1 < size (imem s))%nat ->
  prints (iter n (printf_body syscall s_buf conv_buf) (f + Z.of_nat (length pre), args ps)) s
    (f + Z.of_nat (length (pre ++ spell ps))) (output ps).
Proof using Hwrite Hframe.
  induction ps as [|x ps IH]; intros pre s n Hs Hc Ha Hf0 Hf Hfine Hn Hsz; (destruct n as [|n]; [cbn in Hn; lia|]).
  { apply prints_stop. unfold printf_body. unfold spell in *. cbn [map mjoin list_join app args output] in *. rewrite app_nil_r in *.
    eapply after_peek; [by apply cstr_end|]. apply prints_ret. }
  apply Forall_cons in Hfine as [Hx Hfine]. unfold spell, args, output in *. cbn [map mjoin list_join] in *.
  set (tlps := mjoin (map spelled ps)) in *.
  assert (length pre < length (pre ++ spelled x ++ tlps))%nat as Hlt by (rewrite !length_app; destruct x; cbn; lia).
  assert (forall s', ready s' -> tidy (imem s) (imem s') -> prints (iter n (printf_body syscall s_buf conv_buf)
    (f + Z.of_nat (length (pre ++ spelled x)), mjoin (map arg ps))) s'
    (f + Z.of_nat (length (pre ++ spelled x ++ tlps))) (mjoin (map printed ps))) as Hrest.
  { intros s' Hs' T. rewrite (app_assoc pre). apply IH; rewrite <-?app_assoc; try done.
    - by eapply cstr_tidy.
    - eapply Forall_impl; [exact Hfine|]. intros y. by apply fine_tidy.
    - cbn in Hn. lia.
    - by rewrite (size_dom_eq _ _ (proj1 T)). }
  destruct (spelled_cases _ x Hx) as [(c & -> & Hc1 & Hc2)|(tl & Etl)].
  - cbn [spelled arg printed app] in *. destruct (cstr_byte _ _ _ (length pre) c Hc) as [Hb _]; [by rewrite lookup_app_r, Nat.sub_diag by lia|].
    change (c :: mjoin (map printed ps)) with ([c] ++ mjoin (map printed ps)).
    eapply prints_next; [done| |exact Hrest]. unfold printf_body. eapply after_peek; [exact Hb|].
    rewrite i8_zero, (proj2 (Z.eqb_neq c 0)) by lia. rewrite (proj2 (Z.eqb_neq (i8 c) 37)) by (unfold i8; lia_mod).
    rewrite u32_id by lia. rewrite length_app. cbn [length].
    replace (f + Z.of_nat (length pre + 1)) with (f + Z.of_nat (length pre) + 1) by lia.
    eapply prints_end; [done|]. rewrite <-(u8_i8 c) at 2 by lia. by apply putc_prints.
  - destruct (cstr_byte _ _ _ (length pre) 37 Hc) as [Hb _]; [by rewrite lookup_app_r, Nat.sub_diag, Etl by lia|].
    eapply prints_next; [done| |exact Hrest]. unfold printf_body. eapply after_peek; [exact Hb|].
    change (i8 37) with 37. cbn [Z.eqb Pos.eqb]. apply (prints_bind s (mem_fuel (imem s))).
    rewrite Etl in *. rewrite !length_app in *. cbn [length] in *. rewrite u32_id by lia.
    rewrite <-(app_nil_r (printed x)). eapply prints_then; [done|eapply (conversion_prints _ s x tl); [done|done|done|lia|lia| | |unfold mem_fuel; lia]|].
    + destruct Hc as (Hc & _). rewrite <-!app_assoc in Hc. apply bytes_at_app in Hc as [_ Hc]. cbn [app] in Hc.
      apply bytes_at_cons in Hc as [_ Hc]. by apply bytes_at_app in Hc as [Hc _].
    + intros i Hi. replace (f + Z.of_nat (length pre) + 1 + Z.of_nat i) with (f + Z.of_nat (length pre + 1 + i)) by lia. apply Ha. lia.
    + intros s' _ _. cbn [fst snd]. rewrite u32_id by lia.
      replace (f + Z.of_nat (length pre) + 1 + Z.of_nat (length tl) - 1 + 1) with (f + Z.of_nat (length pre + Datatypes.S (length tl))) by lia.
      apply prints_ret.
Qed.

(** C23: [printf] writes, in order, the plain characters of its format and the
    text of each conversion: [%d] the signed and [%u] the unsigned decimal
    numeral, [%x] the hexadecimal one, [%#x] the same padded to 8 digits, [%c]
    the byte, [%s] the string, [%%] a percent sign.  It changes only its own
    buffers, and returns the length of the format, which is not the number of
    characters it has written. *)
Theorem printf_correct s f ps :
  ready s -> cstr (imem s) f (spell ps) -> away f (Datatypes.S (length (spell ps))) ->
  0 <= f -> f + Z.of_nat (length (spell ps)) < 4294967296 -> Forall (fine (imem s)) ps ->
  exists m', printf syscall s_buf conv_buf f (args ps) s =
    Ok (Z.of_nat (length (spell ps)), Io m' (written s ++ output ps)) /\ tidy (imem s) m'.
Proof using Hwrite Hframe.
  intros Hs Hc Ha H0 Hf Hps. pose proof (cstr_fuel _ _ _ Hc) as Hfu.
  assert (length ps <= length (spell ps))%nat as Hlen.
  { clear. unfold spell. induction ps as [|x ps IH]; [done|]. change (mjoin (map spelled (x :: ps))) with (spelled x ++ mjoin (map spelled ps)).
    rewrite length_app. destruct x; cbn [spelled length]; lia. }
  assert (64 <= size (imem s))%nat as Hsz by (apply (mapped_fuel _ conv_buf); [apply Hs|lia]).
  destruct (printf_loop f ps [] s (mem_fuel (imem s)) Hs Hc Ha H0 Hf Hps ltac:(unfold mem_fuel; lia) ltac:(lia)) as (m' & Hr & T).
  exists m'. split; [|done]. unfold printf. rewrite (bind_ok _ _ _ (mem_fuel (imem s)) s) by done.
  cbn [length app] in Hr. rewrite Z.add_0_r in Hr. rewrite (bind_ok _ _ _ _ _ Hr).
  replace (f + Z.of_nat (length (spell ps)) - f) with (Z.of_nat (length (spell ps))) by lia.
  destruct Hc as (_ & _ & Hc). rewrite i32_id by lia. done.
Qed.
End props.

(** ** A call *)
Definition sample_write (n : call) (fd buf count : Z) : M io Z := λ s,
  match imem s !! u32 buf with
  | Some c => Ok (1, Io (imem s) (written s ++ [c]))
  | None => Bad Undef
  end.
Definition sample_pieces : list piece :=
  [Str 900 (lit "init"); Plain 61; Signed (-12); Plain 32; PadHex 48879; Percent; Chr 10].
Definition sample_io : io :=
  Io (poke 800 (spell sample_pieces ++ [0]) (poke 900 (lit "init" ++ [0]) (poke 500 (replicate 64 0) (poke 700 [0; 0] ∅)))) [].
Definition awayb (s_buf conv_buf p : Z) (n : nat) : bool :=
  forallb (λ i, negb ((u32 (p + Z.of_nat i) =? s_buf) || (conv_buf <=? u32 (p + Z.of_nat i)) && (u32 (p + Z.of_nat i) <? conv_buf + 64))) (seq 0 n).
Lemma awayb_ok s_buf conv_buf p n : awayb s_buf conv_buf p n = true -> away s_buf conv_buf p n.
Proof.
  unfold awayb, away, local. rewrite forallb_forall. intros H i Hi. specialize (H i (proj2 (in_seq n 0 i) ltac:(lia))).
  apply negb_true_iff, orb_false_iff in H as [H1 H2]. apply Z.eqb_neq in H1. lia.
Qed.
Lemma printf_correct_witness : exists m', printf sample_write 700 500 800 [900; -12; 48879; 10] sample_io =
  Ok (13, Io m' (lit "init=-12 0000BEEF%" ++ [10])).
Proof.
  assert (writes_byte sample_write) as HW by (intros s p c Hc; unfold write, sample_write; by rewrite Hc).
  assert (frame_ok 700 500) as HF by (unfold frame_ok; lia).
  destruct (printf_correct sample_write 700 500 HW HF sample_io 800 sample_pieces) as (m' & H & _).
  - split; [by eexists|by apply mappedb_ok].
  - by apply cstrb_ok.
  - by apply awayb_ok.
  - lia.
  - by vm_compute.
  - repeat constructor; try done; try lia; [by apply bytes_atb_ok|by apply awayb_ok].
  - exists m'. exact H.
Defined.
