(* ===== verification/Shell.v ===== *)
(** * The shell: [src/bsh.c]

    Over the user library of [UString] and [Stdio]; the local arrays and the
    string literals are given by their addresses. *)
From S2P Require Import Prelude Bytes KString UString StringProps MemProps Args Words Unistd Stdio.

Definition MAXLINE : Z := 256.

(** ** [parse] *)
(** One argument; the state is [(buf, argc)].  The skipping of spaces is
    [skip_spaces], whose text is the same. *)
Definition split_body (argv : Z) (x : Z * Z) : M mem ((Z * Z) + Z) :=
  let '(buf, argc) := x in
  delim ← UString.strchr buf 32;
  if delim =? NULL then mret (inr argc) else
  KString.st32 (argv + 4 * argc) buf ;;
  st8 delim 0 ;;
  buf ← skip_spaces (u32 (delim + 1));
  mret (inl (buf, argc + 1)).
(** The end of [parse]: a blank line, or a last word that begins with [&]. *)
Definition background (argv argc : Z) : M mem Z :=
  KString.st32 (argv + 4 * argc) NULL ;;
  if argc =? 0 then mret 1 else
  a ← KString.ld32 (argv + 4 * (argc - 1));
  c ← ldc a;
  if c =? 38 then KString.st32 (argv + 4 * (argc - 1)) NULL ;; mret 1
  else mret 0.
Definition parse (buf argv : Z) : M mem Z :=
  n ← KString.strlen buf;
  st8 (buf + u32 (n - 1)) 32 ;;
  buf ← skip_spaces buf;
  fuel ← gets mem_fuel;
  argc ← iter fuel (split_body argv) (buf, 0);
  background argv argc.

(** The literals of the program. *)
Class Shell_env := {
  lit_exit : Z; lit_amp : Z; lit_echo : Z; lit_s : Z; lit_space : Z; lit_cd : Z; lit_prompt : Z; lit_failed : Z;
  lit_background : Z; lit_unix : Z; lit_fork : Z; lit_execve : Z; lit_root : Z; lit_home : Z
}.
Section shell.
Context `{Shell_env} (syscall : call -> Z -> Z -> Z -> M io Z) (s_buf conv_buf : Z).
Abbreviation sh_printf := (printf syscall s_buf conv_buf).

(** [echo]: the loop does not advance, and [printf] is given no argument. *)
Definition echo_body (argv : Z) : M io (Z + unit) :=
  a ← on_imem (KString.ld32 argv);
  if a =? NULL then mret (inr ()) else
  sh_printf lit_s [] ;;
  b ← on_imem (KString.ld32 (argv + 4));
  when (negb (b =? NULL)) (sh_printf lit_space [] ;; mret ()) ;;
  mret (inl argv).
Definition echo (argv : Z) : M io unit := fuel ← gets (λ s, mem_fuel (imem s)); iter fuel echo_body argv.

(** A system call [exit] that does not return ends the computation. *)
Definition buildin (argv : Z) : M io Z :=
  a ← on_imem (KString.ld32 argv);
  r ← on_imem (UString.strcmp a lit_exit);
  when (r =? 0) (exit syscall 0) ;;
  a ← on_imem (KString.ld32 argv);
  r ← on_imem (UString.strcmp a lit_amp);
  if r =? 0 then mret 1 else
  a ← on_imem (KString.ld32 argv);
  r ← on_imem (UString.strcmp a lit_echo);
  when (r =? 0) (echo (argv + 4)) ;;
  mret 0.

(** [argv] and [buf] are the local arrays of [eval]. *)
Definition eval (argv buf cmd : Z) : M io Z :=
  on_imem (UString.strcpy buf cmd) ;;
  background ← on_imem (parse buf argv);
  a ← on_imem (KString.ld32 argv);
  if a =? NULL then mret 0 else
  b ← buildin argv;
  if negb (b =? 0) then mret 0 else
  pid ← Fork syscall s_buf conv_buf lit_unix lit_fork;
  (if pid =? 0 then
     a ← on_imem (KString.ld32 argv);
     Execv syscall s_buf conv_buf lit_unix lit_execve a argv
   else when (negb (background =? 0)) (sh_printf lit_background [pid; cmd] ;; mret ())) ;;
  a ← on_imem (KString.ld32 argv);
  r ← on_imem (UString.strcmp a lit_cd);
  mret (if r =? 0 then 1 else 0).
(** [main]: the names of the user and the directory, and one turn of the
    loop; both ways on are [continue]. *)
Definition start (user dir : Z) : M io unit :=
  on_imem (UString.strcpy user lit_root ;; UString.strcpy dir lit_home) ;; mret ().
Definition turn (user dir cmdline argv buf : Z) : M io unit :=
  sh_printf lit_prompt [user; dir] ;;
  r ← fgets syscall cmdline MAXLINE 0;
  if r =? NULL then sh_printf lit_failed [] ;; mret () else
  eval argv buf cmdline ;; mret ().
End shell.

(** ** What [parse] makes of a line *)
Section parse.
Context (lo hi argv : Z).
(** The line's buffer and the array of ten pointers. *)
Record array_ok (m : mem) : Prop := {
  ar_mapped : mapped m argv 40;
  ar_range : 0 <= argv /\ argv + 40 <= 4294967296;
  ar_line : 0 < lo /\ lo <= hi < 4294967296;
  ar_apart : clear argv 40 lo (hi - lo)
}.
(** The first [n] of the words are strings in the buffer before [p], their
    addresses in the array. *)
Definition split_to (ws : list (list Z)) (n : nat) (p : Z) (m : mem) : Prop :=
  forall i w, (i < n)%nat -> ws !! i = Some w -> exists q, rd m (argv + 4 * Z.of_nat i) = Some q /\ cstr m q w /\
    lo <= q /\ q + Z.of_nat (length w) < p.
Record splitting (ws : list (list Z)) (m : mem) (p : Z) (r : list Z) (n : nat) : Prop := {
  sp_array : array_ok m;
  sp_done : split_to ws n p m;
  sp_text : cstr m p r;
  sp_in : lo <= p /\ p + Z.of_nat (length r) < hi;
  sp_hd : hd 0 r <> 32;
  sp_ends : ends r;
  sp_words : words r = drop n ws;
  sp_count : (n <= length ws)%nat
}.
Lemma array_dom m m' : dom m' = dom m -> array_ok m -> array_ok m'.
Proof using Type. intros Hd [H1 H2 H3 H4]. split; try done. by apply (dom_mapped m). Qed.
Lemma entry_mapped m i : array_ok m -> (i < 10)%nat -> mapped m (argv + 4 * Z.of_nat i) 4 /\ word_at (argv + 4 * Z.of_nat i).
Proof using Type.
  intros [H1 H2 _ _] Hi. split; [|unfold word_at; lia].
  replace (argv + 4 * Z.of_nat i) with (argv + Z.of_nat (4 * i)) by lia. apply (mapped_off m argv 40); [done|lia].
Qed.
(** Cutting the buffer behind the words leaves them alone, and so does the
    next entry of the array. *)
Lemma split_cut ws n p m d : array_ok m -> split_to ws n p m -> (n <= 10)%nat -> p <= d < hi -> split_to ws n p (poke d [0] m).
Proof using Type.
  intros HA HS Hn Hd i w Hi Hw. destruct (HS i w Hi Hw) as (q & H1 & H2 & H3 & H4). pose proof HA as [_ _ HL HC].
  destruct (entry_mapped m i HA ltac:(lia)) as [_ Hwi]. exists q. split; [|split; [|done]].
  - rewrite (rd_same m); [done|exact Hwi|]. intros x Hx. unfold clear, word_at in *. cbn [poke].
    rewrite u32_id by lia. apply lookup_insert_ne. lia.
  - apply cstr_poke_apart; [done|]. apply clear_apart; unfold clear; cbn [length]; lia.
Qed.
Lemma split_put ws n p m v : array_ok m -> split_to ws n p m -> (n < 10)%nat -> p <= hi -> split_to ws n p (put (argv + 4 * Z.of_nat n) v m).
Proof using Type.
  intros HA HS Hn Hp i w Hi Hw. destruct (HS i w Hi Hw) as (q & H1 & H2 & H3 & H4). pose proof HA as [_ HR HL HC].
  destruct (entry_mapped m i HA ltac:(lia)) as [_ Hwi]. destruct (entry_mapped m n HA ltac:(lia)) as [_ Hwn].
  exists q. split; [|split; [|done]].
  - rewrite rd_put_ne; [done|done|done|unfold clear_of; lia].
  - apply cstr_poke_apart; [done|]. apply clear_apart; unfold clear in *; change (length (word_bytes v)) with 4%nat; lia.
Qed.
Lemma split_next ws n p p' m w : split_to ws n p m -> p <= p' -> ws !! n = Some w ->
  rd m (argv + 4 * Z.of_nat n) = Some p -> cstr m p w -> lo <= p -> p + Z.of_nat (length w) < p' -> split_to ws (S n) p' m.
Proof using Type.
  intros HS Hp Hw H1 H2 H3 H4 i v Hi Hv. destruct (decide (i = n)) as [->|Hne].
  - rewrite Hw in Hv. injection Hv as <-. by exists p.
  - destruct (HS i v ltac:(lia) Hv) as (q & Q1 & Q2 & Q3 & Q4). exists q. split_and!; try done. lia.
Qed.

Lemma split_step ws m p r n : splitting ws m p r n -> r <> [] -> (length ws <= 9)%nat -> exists p' r' m',
  split_body argv (p, Z.of_nat n) m = Ok (inl (p', Z.of_nat (S n)), m') /\ splitting ws m' p' r' (S n) /\ (length r' < length r)%nat.
Proof using Type.
  intros [HA HS HC [Hb Hl] Hh He Hwd _] Hr Hn9. destruct (next_word ws r n Hwd Hr Hh He) as (w & tl & -> & Hw & Hwn & Hwi & Hdrop & Het).
  pose proof (lookup_lt_Some _ _ _ Hwi) as Hnl. pose proof HA as [HM HR HL HCl]. destruct (entry_mapped m n HA ltac:(lia)) as [Hmn Hwa].
  pose proof (strchr_run m p w tl HC Hw ltac:(lia) ltac:(lia)) as Hchr. set (d := p + Z.of_nat (length w)) in *.
  assert (d + 1 + Z.of_nat (length tl) < hi) as Hend by (rewrite length_app in Hl; cbn [length] in Hl; lia).
  assert (p < d) as Hpd by (unfold d; destruct w; [done|cbn [length]; lia]).
  set (m1 := put (argv + 4 * Z.of_nat n) p m).
  assert (array_ok m1) as HA1 by (apply (array_dom m); [by apply poke_dom|done]).
  assert (cstr m1 p (w ++ 32 :: tl)) as HC1.
  { apply cstr_poke_apart; [done|]. apply clear_apart; unfold clear in *; change (length (word_bytes p)) with 4%nat; lia. }
  destruct (cut_string m1 p w 32 tl HC1 ltac:(lia) ltac:(lia)) as [HC2 HC3]. fold d in HC2, HC3.
  assert (mapped m1 d 1) as Hm1.
  { destruct HC1 as [HB _]. intros [|i] Hi; [|lia]. rewrite Z.add_0_r. exists 32. unfold d. apply HB.
    rewrite <-app_assoc. cbn [app]. by rewrite list_lookup_middle. }
  assert (rd (poke d [0] m1) (argv + 4 * Z.of_nat n) = Some p) as Hrd.
  { rewrite (rd_same m1); [unfold m1; rewrite rd_put, u32_id by lia; done|exact Hwa|]. intros x Hx. cbn [poke].
    unfold clear, word_at in *. rewrite u32_id by lia. apply lookup_insert_ne. lia. }
  pose proof (split_put ws n p m p HA HS ltac:(lia) ltac:(lia)) as HS1. fold m1 in HS1.
  pose proof (split_cut ws n p m1 d HA1 HS1 ltac:(lia) ltac:(lia)) as HS2.
  assert (array_ok (poke d [0] m1)) as HA2 by (apply (array_dom m1); [by apply poke_dom|done]).
  set (m2 := poke d [0] m1) in *.
  destruct (skip_spaces_run m2 (d + 1) tl HC3 ltac:(lia) ltac:(lia)) as (k & Hskip & Htl & HC4).
  assert (length tl = (k + length (skipped tl))%nat) as Hlt by (rewrite Htl at 1; by rewrite length_app, length_replicate).
  destruct (skipped_spec tl) as (k' & _ & Hhd & Hwords).
  exists (d + 1 + Z.of_nat k), (skipped tl), m2. split; [|split; [split|]].
  - unfold split_body, UString.strchr. rewrite (bind_ok _ _ _ _ _ Hchr), (proj2 (Z.eqb_neq d NULL)) by (unfold NULL; lia).
    rewrite (st32_bind _ _ _ _ Hmn). fold m1. rewrite (bind_ok _ _ _ _ _ (st8_poke m1 d 0 Hm1)). change (u8 0) with 0. fold m2.
    rewrite u32_id by lia. rewrite (bind_ok _ _ _ _ _ Hskip). by replace (Z.of_nat n + 1) with (Z.of_nat (S n)) by lia.
  - done.
  - apply (split_next ws n p _ m2 w); try done; lia.
  - done.
  - lia.
  - done.
  - by apply ends_skipped.
  - by rewrite Hwords.
  - lia.
  - rewrite length_app. cbn [length]. lia.
Qed.
Lemma split_loop ws m p r n fuel : splitting ws m p r n -> (length ws <= 9)%nat -> (length r < fuel)%nat -> exists m' p',
  iter fuel (split_body argv) (p, Z.of_nat n) m = Ok (Z.of_nat (length ws), m') /\
  array_ok m' /\ split_to ws (length ws) p' m' /\ p' <= hi.
Proof using Type.
  revert m p r n. induction fuel as [|fuel IH]; intros m p r n Hr Hn Hf; [lia|].
  destruct (decide (r = [])) as [->|Hne].
  - destruct Hr as [HA HS HC [_ Hl] _ _ Hwd Hc]. assert (n = length ws) as ->.
    { assert (length (drop n ws) = O) as Hd by (rewrite <-Hwd; done). rewrite length_drop in Hd. lia. }
    exists m, p. split; [|split; [done|split; [done|cbn [length] in Hl; lia]]]. apply iter_stop. unfold split_body, UString.strchr.
    by rewrite (bind_ok _ _ _ _ _ (strchr_none m p ltac:(by destruct HC as [HC _]; apply bytes_at_cons in HC as [? _]))).
  - destruct (split_step _ _ _ _ _ Hr Hne Hn) as (p' & r' & m1 & Hb & Hr' & Hl).
    destruct (IH m1 p' r' (S n) Hr' Hn ltac:(lia)) as (m' & q & Hi & HP). exists m', q.
    split; [|done]. rewrite (iter_next _ _ _ _ _ _ Hb). exact Hi.
Qed.
(** What is left after the [&] of a command in the background: the arguments
    and whether there was one. *)
Definition in_background (ws : list (list Z)) : bool := match last ws with Some w => hd 0 w =? 38 | None => true end.
Definition arguments (ws : list (list Z)) : list (list Z) := if in_background ws then removelast ws else ws.
Definition arguments_at (ws : list (list Z)) (m : mem) : Prop :=
  rd m (argv + 4 * Z.of_nat (length ws)) = Some 0 /\
  forall i w, ws !! i = Some w -> exists q, rd m (argv + 4 * Z.of_nat i) = Some q /\ cstr m q w.

Lemma words_nonempty l : forall cur w, w ∈ words_from cur l -> w <> [].
Proof using Type.
  assert (forall cur w, w ∈ flush cur -> w <> []) as HF.
  { intros [|b cur] w; [by intros ?%elem_of_nil|]. by intros ->%list_elem_of_singleton. }
  induction l as [|b l IH]; intros cur w; cbn [words_from]; [apply HF|].
  destruct (b =? 32); [|apply IH]. intros [?|?]%elem_of_app; [by eapply HF|by eapply IH].
Qed.
Lemma split_arguments ws p m : array_ok m -> split_to ws (length ws) p m -> p <= hi -> (length ws <= 9)%nat ->
  forall n, (n <= length ws)%nat -> arguments_at (take n ws) (put (argv + 4 * Z.of_nat n) NULL m).
Proof using Type.
  intros HA HS Hp Hl n Hn. split.
  - rewrite length_take, Nat.min_l by done. by rewrite rd_put.
  - intros i w Hi. apply lookup_take_Some in Hi as [Hi Hin].
    assert (split_to ws n p m) as HSn by (intros j v Hj Hv; apply (HS j v); [by eapply lookup_lt_Some|done]).
    destruct (split_put ws n p m NULL HA HSn ltac:(lia) Hp i w Hin Hi) as (q & H1 & H2 & _). by exists q.
Qed.
Lemma background_run ws p m : array_ok m -> split_to ws (length ws) p m -> p <= hi -> (length ws <= 9)%nat ->
  (forall w, w ∈ ws -> w <> []) ->
  exists m', background argv (Z.of_nat (length ws)) m = Ok (Z.b2z (in_background ws), m') /\ arguments_at (arguments ws) m'.
Proof using Type.
  intros HA HS Hp Hl Hne. destruct (entry_mapped m (length ws) HA ltac:(lia)) as [Hm _].
  pose proof (split_arguments ws p m HA HS Hp Hl (length ws) ltac:(lia)) as HArg. rewrite firstn_all in HArg.
  set (m1 := put _ NULL m) in HArg. unfold background. rewrite (st32_bind _ _ _ _ Hm). fold m1.
  destruct ws as [|w0 ws0 _] using rev_ind; [by exists m1|]. set (ws := ws0 ++ [w0]) in *.
  assert (length ws = S (length ws0)) as Hll by (unfold ws; rewrite length_app; cbn [length]; lia).
  assert (ws !! length ws0 = Some w0) as Hi by (by apply list_lookup_middle).
  destruct HArg as [HZ HW]. destruct (HW _ _ Hi) as (q & Hq & Hcq).
  rewrite (proj2 (Z.eqb_neq _ 0)) by lia. replace (Z.of_nat (length ws) - 1) with (Z.of_nat (length ws0)) by lia.
  rewrite (ld32_bind _ _ _ _ Hq). destruct (cstr_head _ _ _ Hcq) as (b & Hhd & Hmb & Hr & _).
  assert (ldc q m1 = Ok (i8 b, m1)) as Hld by (apply wp_ok; by eapply wp_ldc). rewrite (bind_ok _ _ _ _ _ Hld).
  assert (hd 0 w0 = b) as Hb by (specialize (Hne w0 ltac:(apply elem_of_app; right; by left)); by destruct w0).
  assert (in_background ws = (b =? 38)) as Hbg by (unfold in_background, ws; by rewrite last_snoc, Hb).
  assert ((i8 b =? 38) = (b =? 38)) as ->.
  { destruct (Z.eqb_spec b 38) as [->|Hn]; [done|]. apply Z.eqb_neq. change 38 with (i8 38). intros E. apply i8_inj in E; lia. }
  unfold arguments. rewrite Hbg. destruct (b =? 38); [|exists m1; done].
  assert (array_ok m1) as HA1 by (apply (array_dom m); [by apply poke_dom|done]).
  assert (split_to ws (length ws) p m1) as HS1 by (by apply split_put; [| |lia|]).
  destruct (entry_mapped m1 (length ws0) HA1 ltac:(lia)) as [Hm1 _]. rewrite (st32_bind _ _ _ _ Hm1).
  eexists. split; [reflexivity|]. unfold ws. rewrite removelast_last.
  pose proof (split_arguments ws p m1 HA1 HS1 Hp Hl (length ws0) ltac:(lia)) as HArg. unfold ws in HArg. by rewrite take_app_length in HArg.
Qed.
End parse.

(** C24: [parse], on a line of at most nine words whose last character, the
    newline, it takes for a space: the words are cut out of the line in place,
    the array gets their addresses and a null pointer behind them; a last word
    that begins with [&] is dropped and the command runs in the background.  A
    blank line has no arguments and counts as one in the background. *)
Theorem parse_correct m buf text c argv :
  cstr m buf (text ++ [c]) -> 0 < buf -> buf + Z.of_nat (length text) + 3 <= 4294967296 ->
  mapped m argv 40 -> 0 <= argv /\ argv + 40 <= 4294967296 -> clear argv 40 buf (Z.of_nat (length text) + 2) ->
  (length (words text) <= 9)%nat ->
  exists m', parse buf argv m = Ok (Z.b2z (in_background (words text)), m') /\ arguments_at argv (arguments (words text)) m'.
Proof.
  intros HC Hb Hbl HM HR HCl Hw.
  assert (forall x, length (text ++ [x]) = S (length text)) as Hll by (intros x; rewrite length_app; cbn [length]; lia).
  pose proof (set_last m buf text c 32 HC ltac:(lia) ltac:(lia) ltac:(lia)) as HC1.
  assert (mapped m (buf + Z.of_nat (length text)) 1) as Hm1.
  { destruct HC as [HB _]. intros [|i] Hi; [|lia]. rewrite Z.add_0_r. exists c. apply HB.
    rewrite <-app_assoc. cbn [app]. by rewrite list_lookup_middle. }
  assert (array_ok buf (buf + Z.of_nat (length text) + 2) argv m) as HA.
  { split; try done; [lia|]. unfold clear in *. lia. }
  set (m1 := poke (buf + Z.of_nat (length text)) [32] m) in *.
  assert (array_ok buf (buf + Z.of_nat (length text) + 2) argv m1) as HA1 by (apply (array_dom _ _ _ m); [by apply poke_dom|done]).
  destruct (skip_spaces_run m1 buf (text ++ [32]) HC1 ltac:(lia) ltac:(rewrite Hll; lia)) as (k & Hskip & Htl & HC2).
  destruct (skipped_spec (text ++ [32])) as (k' & _ & Hhd & Hwds).
  assert (S (length text) = k + length (skipped (text ++ [32%Z])))%nat as Hk.
  { rewrite <-(Hll 32), Htl at 1. by rewrite length_app, length_replicate. }
  destruct (split_loop buf (buf + Z.of_nat (length text) + 2) argv (words text) m1 (buf + Z.of_nat k) (skipped (text ++ [32])) 0 (S (size m1)))
    as (m2 & p2 & Hloop & HA2 & HS2 & Hp2).
  { split; try done; [by intros i w Hi; lia|lia| |by rewrite Hwds; apply words_space|lia].
    apply ends_skipped. right. apply last_snoc. }
  { done. }
  { pose proof (cstr_fuel _ _ _ HC2). lia. }
  destruct (background_run _ _ _ _ p2 m2 HA2 HS2 Hp2 Hw (words_nonempty text [])) as (m' & Hbg & HArg).
  exists m'. split; [|exact HArg]. unfold parse. rewrite (bind_ok _ _ _ _ _ (strlen_spec _ _ _ HC)), Hll.
  replace (Z.of_nat (S (length text)) - 1) with (Z.of_nat (length text)) by lia. rewrite u32_id by lia.
  rewrite (bind_ok _ _ _ _ _ (st8_poke m _ 32 Hm1)). change (u8 32) with 32. fold m1.
  rewrite (bind_ok _ _ _ _ _ Hskip). unfold mem_fuel. erewrite bind_ok by reflexivity.
  rewrite (bind_ok _ _ _ _ _ Hloop). exact Hbg.
Qed.

(** ** [echo] *)
Section echo.
Context `{Shell_env} (syscall : call -> Z -> Z -> Z -> M io Z) (s_buf conv_buf : Z).
(** [echo] with an argument asks [printf] for a string that it does not
    pass. *)
Lemma echo_undefined argv s a : rd (imem s) argv = Some a -> a <> NULL -> cstr (imem s) lit_s [37; 115] ->
  0 <= lit_s < 4294967290 -> echo syscall s_buf conv_buf argv s = Bad Undef.
Proof.
  intros Ha Hn Hs Hr. destruct (cstr_head _ _ _ Hs) as (b & <- & H0 & _). pose proof (cstr_tail _ _ _ _ Hs) as Ht.
  destruct (cstr_head _ _ _ Ht) as (b & <- & H1 & _). cbn [app hd] in *.
  assert (forall p x v, imem s !! u32 p = Some v -> i8 v = x -> on_imem (ldc p) s = Ok (x, s)) as HL.
  { intros p x v Hv <-. unfold on_imem, zoom. assert (ldc p (imem s) = Ok (i8 v, imem s)) as -> by (apply wp_ok; by eapply wp_ldc).
    by destruct s. }
  assert (printf syscall s_buf conv_buf lit_s [] s = Bad Undef) as HP.
  { unfold printf, mem_fuel. erewrite bind_ok by reflexivity. apply bind_bad, (iter_bad _ (size (imem s))). unfold printf_body.
    rewrite (bind_ok _ _ _ _ _ (HL lit_s 37 37 H0 eq_refl)). cbn [Z.eqb Pos.eqb].
    erewrite bind_ok by reflexivity. apply bind_bad, (iter_bad _ (size (imem s))). unfold conversion.
    rewrite u32_id by lia. rewrite (bind_ok _ _ _ _ _ (HL (lit_s + 1) 115 115 H1 eq_refl)). reflexivity. }
  unfold echo, mem_fuel. erewrite bind_ok by reflexivity. apply (iter_bad _ (size (imem s))). unfold echo_body.
  rewrite (bind_ok _ _ _ a s).
  2:{ unfold on_imem, zoom. rewrite (ld32_rd _ _ _ Ha). by destruct s. }
  rewrite (proj2 (Z.eqb_neq _ _) Hn). by apply bind_bad.
Qed.
End echo.

(** *** A command in the background *)
Definition line_mem : mem := poke 1000 (lit " cat a.txt  &" ++ [10; 0]) (poke 2000 (replicate 40 255) ∅).
Lemma parse_correct_witness : exists m' q, parse 1000 2000 line_mem = Ok (1, m') /\
  rd m' 2004 = Some q /\ cstr m' q (lit "a.txt") /\ rd m' 2008 = Some 0.
Proof.
  destruct (parse_correct line_mem 1000 (lit " cat a.txt  &") 10 2000) as (m' & Hr & HZ & HW).
  - apply cstrb_ok. by vm_compute.
  - lia.
  - by vm_compute.
  - apply mappedb_ok. by vm_compute.
  - lia.
  - right. by vm_compute.
  - by apply (bool_decide_unpack _).
  - destruct (HW 1%nat (lit "a.txt") ltac:(by vm_compute)) as (q & Hq & Hc).
    exists m', q. split; [exact Hr|]. split; [exact Hq|]. split; [exact Hc|exact HZ].
Defined.
