(* ===== verification/VmSwitch.v ===== *)
(** * Switching address spaces: [access.c] on the page tables

    The areas of a process, as its structs hold them, and what
    [user_mem_map], [user_mem_unmap] and [__umap] make of the address space. *)
From S2P Require Import Prelude Kmalloc KmallocRing KmallocBuddy KmallocPages KmallocAlloc KmallocInit KmallocSource KmallocContract Vm VmProps VmWalk VmInit VmContract.

(** An area: its struct, its array [mmap], its first page and the entries of
    its pages. *)
Record area := Area { a_struct : Z; a_array : Z; a_page : Z; a_entries : list Z }.
Definition a_len (a : area) : Z := Z.of_nat (length (a_entries a)).
Definition next_of (L : list area) : Z := match L with [] => 0 | a :: _ => a_struct a end.

(** The address space of a list of areas. *)
Definition in_area (a : area) (q : Z) : option Z := if a_page a <=? q then a_entries a !! Z.to_nat (q - a_page a) else None.
Fixpoint space_of (L : list area) (q : Z) : option Z :=
  match L with [] => None | a :: L => match in_area a q with Some e => Some e | None => space_of L q end end.
(** No page belongs to two areas. *)
Definition areas_apart (a b : area) : Prop := a_page a + a_len a <= a_page b \/ a_page b + a_len b <= a_page a.

Lemma in_area_between a q : is_Some (in_area a q) <-> between (length (a_entries a)) (a_page a) q = true.
Proof.
  unfold in_area, between. destruct (Z.leb_spec (a_page a) q); cbn [andb].
  - rewrite lookup_lt_is_Some, Z.ltb_lt. lia.
  - split; [by intros [? ?]|done].
Qed.

Section switch.
Context {lay : Layout} {tab : Tables_at} {Htab : @TablesOk lay tab}.
Context (Inv : kstate -> list (Z * Z) -> Prop) {PS : PageSource plain Inv}.
Abbreviation paging := (paging Inv).
Abbreviation grow := (grow Inv).
Implicit Types (s : kstate) (AL T : list (Z * Z)) (a : area) (L : list area) (σ : Z -> option Z).

(** ** Words that the page tables leave alone *)
Definition stays s AL (x : Z) : Prop :=
  (plain x /\ forall d, udir d -> x <> pde_at d /\ x <> pdesc_count d) \/
  exists b, b ∈ AL /\ inside x b /\ forall d, udir d -> has_table (word s) d = true -> b <> (table (word s) d, 0).
Lemma stays_word s AL s' T x : grow s AL s' T -> stays s AL x -> word s' x = word s x.
Proof using Type.
  intros HG [[Hp Hn]|(b & Hb & Hx & Hn)]; [by apply (gr_static Inv _ _ _ _ HG)|]. by apply (gr_keep Inv _ _ _ _ HG b).
Qed.
Lemma stays_grow s AL s' T x : grow s AL s' T -> stays s AL x -> stays s' (T ++ AL) x.
Proof using PS.
  intros HG [H|(b & Hb & Hx & Hn)]; [by left|]. right. exists b. split; [apply elem_of_app; by right|]. split; [done|].
  intros d Hd Ht ->. destruct (gr_new Inv _ _ _ _ HG d Hd Ht) as [H0|Hin].
  - apply (Hn d Hd H0). by destruct (gr_old Inv _ _ _ _ HG d Hd H0) as [_ ->].
  - destruct (ps_tiles _ _ (pg_inv _ _ _ (gr_paging Inv _ _ _ _ HG))) as [_ (_ & _ & HD)%pairwise_app].
    specialize (HD _ _ Hin Hb). unfold disj in HD. cbn [fst snd] in HD. change (bsz 0) with 4096 in HD. lia.
Qed.

(** ** Runs that may stop for want of a page *)
Definition no_page s AL : Prop := exists s1 T, grow s AL s1 T /\ get_page kmalloc 0 s1 = Ok (NULL, s1).
Definition runs {A} s AL (o : res (A * kstate)) (Q : A -> kstate -> Prop) : Prop :=
  match o with
  | Ok (x, s') => Q x s' /\ exists T, grow s AL s' T
  | Bad f => f = Panic /\ no_page s AL
  end.
Lemma runs_after {A} s AL s1 T (o : res (A * kstate)) Q : grow s AL s1 T -> runs s1 (T ++ AL) o Q -> runs s AL o Q.
Proof using Htab PS.
  intros HG. unfold runs. destruct o as [[x s']|f].
  - intros [HQ (T2 & HG2)]. split; [done|]. exists (T2 ++ T). by eapply grow_trans.
  - intros (-> & s2 & T2 & HG2 & Hg). split; [done|]. exists s2, (T2 ++ T). split; [by eapply grow_trans|done].
Qed.
Lemma runs_bind {A B} s AL (m : M kstate A) (k : A -> M kstate B) P Q : runs s AL (m s) P ->
  (forall x s1 T, P x s1 -> grow s AL s1 T -> runs s1 (T ++ AL) (k x s1) Q) -> runs s AL ((m ≫= k) s) Q.
Proof using Htab PS.
  intros Hm Hk. unfold mbind, M_bind. unfold runs in Hm. destruct (m s) as [[x s1]|f]; [|done].
  destruct Hm as [HP (T & HG)]. eapply runs_after; [exact HG|]. by apply (Hk x s1 T).
Qed.
Lemma runs_ok {A} s AL (x : A) Q : paging s AL -> Q x s -> runs s AL (Ok (x, s)) Q.
Proof using Type. intros HP HQ. split; [done|]. exists []. by apply grow_refl. Qed.

Lemma runs_mono {A} s AL (o : res (A * kstate)) (P Q : A -> kstate -> Prop) :
  runs s AL o P -> (forall x s', P x s' -> Q x s') -> runs s AL o Q.
Proof using Type. unfold runs. destruct o as [[x s']|f]; [|done]. intros [HP HT] H. auto. Qed.

(** ** One page *)
Lemma entry_split e : 0 <= e < 4294967296 -> Z.odd e = true -> entry (GETBIT_12 e) (4096 * (ADDR_TO_PTE e / 4096)) = e.
Proof using Type.
  intros He Ho. unfold ADDR_TO_PTE. rewrite u32_id, mask_floor by done.
  replace (4096 * (e / 4096) / 4096) with (e / 4096) by lia_mod.
  unfold entry, or_bits, PTE_PRESENT, GETBIT_12. cbn [fold_left]. rewrite Z.lor_0_l.
  change 4095 with (Z.ones 12). rewrite Z.land_ones by lia. change (2 ^ 12) with 4096.
  rewrite u32_id by lia_mod. rewrite <-mask_floor by done.
  replace (e mod 4096) with (Z.land e (Z.ones 12)) by (by rewrite Z.land_ones by lia).
  apply Z.bits_inj'. intros k Hk. rewrite !Z.lor_spec, !Z.land_spec, mask_bit, Z.testbit_ones_nonneg by lia.
  destruct (decide (k = 0)) as [->|Hk0]; [by rewrite !(Z.bit0_odd e), Ho|].
  replace (Z.testbit 1 k) with false by (symmetry; apply (small_bits 1 1); [|lia]; change (2 ^ 1) with 2; lia).
  destruct (Z.ltb_spec k 12), (Z.leb_spec 12 k); try lia; cbn [andb orb]; rewrite ?andb_true_r, ?andb_false_r, ?orb_false_r; try done.
  destruct (Z.ltb_spec k 32); [by rewrite andb_true_r|]. rewrite andb_false_r. symmetry. apply (small_bits e 32); [|lia].
  change (2 ^ 32) with 4294967296. lia.
Qed.
Lemma map_page s AL q e : paging s AL -> upage q -> 0 <= e < 4294967296 -> Z.odd e = true -> space (word s) q = None ->
  runs s AL (mmap (4096 * q) (ADDR_TO_PTE e) PAGE_SIZE (GETBIT_12 e) s)
    (λ r s', same_space (space (word s')) (λ x, if x =? q then Some e else space (word s) x)).
Proof using Htab PS.
  intros HP Hq He Ho Hno. assert (0 <= q < 524288) as Hqr by (unfold upage, udir in Hq; lia_mod).
  assert (0 <= ADDR_TO_PTE e < 4294967296 /\ ADDR_TO_PTE e mod 4096 = 0) as [Ha Ham].
  { unfold ADDR_TO_PTE. rewrite u32_id, mask_floor by done. lia_mod. }
  assert (0 <= GETBIT_12 e < 4096) as Hf.
  { unfold GETBIT_12. change 4095 with (Z.ones 12). rewrite Z.land_ones by lia. change (2 ^ 12) with 4096. lia_mod. }
  assert (4096 * q / 4096 = q) as Eq by lia_mod.
  pose proof (mmap_run Inv s AL (4096 * q) (ADDR_TO_PTE e) PAGE_SIZE (GETBIT_12 e) HP Hf ltac:(lia) Ha ltac:(done)) as H.
  change (Z.to_nat (PAGE_SIZE / 4096)) with 1%nat in H. cbn zeta in H. rewrite Eq in H.
  specialize (H ltac:(intros i Hi; replace i with 0 by lia; by rewrite Z.add_0_r) ltac:(lia_mod)).
  unfold mmap_result in H. unfold runs. destruct (mmap _ _ _ _ s) as [[r s']|f].
  - destruct H as (_ & Hs & HT). split; [|done]. rewrite Hs. cbn [amap]. rewrite Hno. cbn [snd].
    rewrite (entry_split e) by done. done.
  - destruct H as (-> & s1 & T & i & _ & HG & _ & Hg). split; [done|]. by exists s1, T.
Qed.

(** ** The structs of a process *)
Record area_at s AL a (next : Z) : Prop := {
  aa_null : a_struct a <> 0;
  aa_array : word s (a_struct a) = a_array a;
  aa_start : word s (a_struct a + 4) = 4096 * a_page a;
  aa_end : word s (a_struct a + 8) = 4096 * (a_page a + a_len a);
  aa_next : word s (a_struct a + 16) = next;
  aa_entry i e : a_entries a !! i = Some e -> word s (a_array a + 4 * Z.of_nat i) = e;
  aa_words x : x ∈ [a_struct a; a_struct a + 4; a_struct a + 8; a_struct a + 16] -> waddr x /\ stays s AL x;
  aa_array_words i : (i < length (a_entries a))%nat -> waddr (a_array a + 4 * Z.of_nat i) /\ stays s AL (a_array a + 4 * Z.of_nat i);
  aa_odd : Forall (λ e, 0 <= e < 4294967296 /\ Z.odd e = true) (a_entries a);
  aa_range : range (length (a_entries a)) (a_page a);
  aa_pos : 0 <= a_page a /\ a_page a + a_len a < 524288
}.
Fixpoint chain s AL L : Prop :=
  match L with [] => True | a :: L => area_at s AL a (next_of L) /\ chain s AL L end.
(** The [vmem_t] at [v] has the areas [L]. *)
Definition vm_at s AL (v : Z) L : Prop :=
  waddr v /\ stays s AL v /\ word s v = next_of L /\ chain s AL L /\ Z.of_nat (length L) < 1048576.

Lemma area_grow s AL s' T a next : grow s AL s' T -> area_at s AL a next -> area_at s' (T ++ AL) a next.
Proof using PS.
  intros HG [H1 H2 H3 H4 H5 H6 H7 H8 H9 H10 H11].
  pose proof (λ x Hx, stays_word _ _ _ _ x HG (proj2 (H7 x Hx))) as HW.
  split; try done; try (rewrite HW; [done|rewrite !elem_of_cons; tauto]).
  - intros i e Hi. rewrite (stays_word _ _ _ _ _ HG); [by apply H6|]. apply H8. by eapply lookup_lt_Some.
  - intros x Hx. split; [by apply H7|]. eapply stays_grow; [exact HG|by apply H7].
  - intros i Hi. split; [by apply H8|]. eapply stays_grow; [exact HG|by apply H8].
Qed.
Lemma chain_grow s AL s' T L : grow s AL s' T -> chain s AL L -> chain s' (T ++ AL) L.
Proof using PS. intros HG. induction L as [|a L IH]; [done|]. intros [Ha HL]. split; [by eapply area_grow|by apply IH]. Qed.
Lemma vm_grow s AL s' T v L : grow s AL s' T -> vm_at s AL v L -> vm_at s' (T ++ AL) v L.
Proof using PS.
  intros HG (H1 & H2 & H3 & H4 & H5). split; [done|]. split; [by eapply stays_grow|].
  split; [by rewrite (stays_word _ _ _ _ _ HG)|]. split; [by eapply chain_grow|done].
Qed.
Ltac area_word Ha := rewrite ld_bind by (apply (aa_words _ _ _ _ Ha); rewrite !elem_of_cons; tauto).

(** ** Mapping an area *)
Definition over a (i : Z) σ (x : Z) : option Z :=
  if a_page a + i <=? x then match a_entries a !! Z.to_nat (x - a_page a) with Some e => Some e | None => σ x end else σ x.
Lemma umap_loop a next n : forall (k : nat) i s AL r, area_at s AL a next -> paging s AL -> (k < n)%nat ->
  0 <= i -> a_len a = i + Z.of_nat k -> (forall j, i <= j < a_len a -> space (word s) (a_page a + j) = None) ->
  runs s AL (iter n (umap_body (a_struct a)) (4096 * (a_page a + i), i, r) s)
    (λ _ s', same_space (space (word s')) (over a i (space (word s)))).
Proof using Htab PS.
  induction n as [|n IH]; intros k i s AL r Ha HP Hk Hi Hl Hno; [lia|].
  pose proof (aa_pos _ _ _ _ Ha) as Hb3.
  cbn [iter]. destruct k as [|k].
  { apply (runs_bind _ _ _ _ (λ x s1, x = inr r /\ s1 = s)).
    - unfold umap_body, ar_vmend. rewrite u32_id by lia. area_word Ha. rewrite (aa_end _ _ _ _ Ha).
      rewrite (proj2 (Z.ltb_ge _ _)) by lia. by apply runs_ok.
    - intros x s1 T [-> ->] HG. apply runs_ok; [apply HG|]. intros x Hx. unfold over. destruct (Z.leb_spec (a_page a + i) x); [|done].
      rewrite lookup_ge_None_2; [done|]. unfold a_len in *. lia. }
  assert (is_Some (a_entries a !! Z.to_nat i)) as [e He] by (apply lookup_lt_is_Some; unfold a_len in *; lia).
  pose proof (aa_entry _ _ _ _ Ha _ _ He) as Hw. rewrite Z2Nat.id in Hw by lia.
  pose proof (Forall_lookup_1 _ _ _ _ (aa_odd _ _ _ _ Ha) He) as [He1 He2]. cbn beta in He1, He2.
  assert (upage (a_page a + i)) as Hq by (apply (aa_range _ _ _ _ Ha); unfold a_len in *; lia).
  apply (runs_bind _ _ _ _ (λ x s1, (exists r', x = inl (4096 * (a_page a + (i + 1)), i + 1, r')) /\
    same_space (space (word s1)) (λ x, if x =? a_page a + i then Some e else space (word s) x))).
  - unfold umap_body, ar_vmend, ar_mmap. rewrite u32_id by lia. area_word Ha. rewrite (aa_end _ _ _ _ Ha).
    rewrite (proj2 (Z.ltb_lt _ _)) by lia. area_word Ha.
    rewrite (aa_array _ _ _ _ Ha). pose proof (aa_array_words _ _ _ _ Ha (Z.to_nat i)) as Hwa. rewrite Z2Nat.id in Hwa by lia.
    rewrite ld_bind by (apply Hwa; by eapply lookup_lt_Some). rewrite Hw.
    eapply runs_bind; [apply map_page; [done|done|done|done|apply Hno; lia]|].
    intros r' s1 T Hs HG. cbn beta in Hs. apply runs_ok; [apply HG|]. split; [|exact Hs].
    exists (r + r'). unfold PAGE_SIZE. rewrite i32_id by lia. do 3 f_equal. lia.
  - intros x s1 T [[r' ->] Hs] HG. pose proof (area_grow _ _ _ _ _ _ HG Ha) as Ha1.
    assert (forall j, i + 1 <= j < a_len a -> upage (a_page a + j)) as Hup by (intros j Hj; apply (aa_range _ _ _ _ Ha); unfold a_len in *; lia).
    pose proof (IH k (i + 1) s1 (T ++ AL) r' Ha1 (gr_paging _ _ _ _ _ HG) ltac:(lia) ltac:(lia) ltac:(lia)) as HI.
    assert (forall j, i + 1 <= j < a_len a -> space (word s1) (a_page a + j) = None) as Hno1.
    { intros j Hj. rewrite (Hs _ (Hup j Hj)). rewrite (proj2 (Z.eqb_neq _ _)) by lia. apply Hno. lia. }
    specialize (HI Hno1). unfold runs in *. destruct (iter n _ _ s1) as [[x s2]|]; [|exact HI].
    destruct HI as [H2 HT]. split; [|exact HT]. rewrite H2. intros x' Hx'. unfold over. rewrite (Hs x' Hx').
    destruct (Z.leb_spec (a_page a + (i + 1)) x'), (Z.leb_spec (a_page a + i) x'); try lia; try done.
    + rewrite (proj2 (Z.eqb_neq x' (a_page a + i))) by lia. done.
    + replace x' with (a_page a + i) by lia. rewrite Z.eqb_refl. replace (a_page a + i - a_page a) with i by lia. by rewrite He.
    + by rewrite (proj2 (Z.eqb_neq _ _)) by lia.
Qed.

Lemma over_zero a σ q : over a 0 σ q = match in_area a q with Some e => Some e | None => σ q end.
Proof using Type. unfold over, in_area. rewrite Z.add_0_r. by destruct (a_page a <=? q). Qed.
Lemma map_area s AL a next : area_at s AL a next -> paging s AL ->
  (forall q, is_Some (in_area a q) -> space (word s) q = None) ->
  runs s AL (_user_mem_mmap (a_struct a) s)
    (λ _ s', same_space (space (word s')) (λ q, match in_area a q with Some e => Some e | None => space (word s) q end)).
Proof using Htab PS.
  intros Ha HP Hno. pose proof (aa_pos _ _ _ _ Ha) as Hb. unfold _user_mem_mmap, ar_vmstart. area_word Ha. rewrite (aa_start _ _ _ _ Ha).
  assert (0 <= a_len a) as Hl by (unfold a_len; lia). rewrite i32_id by lia.
  pose proof (umap_loop a next area_fuel (length (a_entries a)) 0 s AL 0 Ha HP) as H.
  rewrite Z.add_0_r in H. assert (length (a_entries a) < area_fuel)%nat as Hfu by (unfold area_fuel, a_len in *; lia).
  eapply runs_mono; [apply H; [done|lia|unfold a_len; lia|]|].
  2:{ intros x s' Hs q Hq. rewrite (Hs q Hq). apply over_zero. }
  intros j Hj. apply Hno. apply in_area_between. unfold between, a_len in *. lia.
Qed.

(** ** All the areas *)
Lemma space_of_some L q e : space_of L q = Some e -> exists a, a ∈ L /\ in_area a q = Some e.
Proof using Type.
  induction L as [|a L IH]; [done|]. cbn [space_of]. destruct (in_area a q) eqn:E.
  - intros [= ->]. exists a. split; [by left|done].
  - intros H. destruct (IH H) as (b & Hb & Hq). exists b. split; [by right|done].
Qed.
Lemma space_of_in L q a : a ∈ L -> is_Some (in_area a q) -> is_Some (space_of L q).
Proof using Type.
  induction L as [|b L IH]; [by intros ?%elem_of_nil|]. intros [->|Hb]%elem_of_cons Hq; cbn [space_of].
  - by destruct (in_area b q), Hq.
  - destruct (in_area b q); [done|by apply IH].
Qed.
Lemma apart_areas a b q : areas_apart a b -> is_Some (in_area a q) -> in_area b q = None.
Proof using Type.
  intros Hab Ha%in_area_between. destruct (in_area b q) eqn:E; [|done].
  assert (is_Some (in_area b q)) as Hb%in_area_between by by rewrite E. unfold areas_apart, between, a_len in *. lia.
Qed.
Lemma upage_in s AL a next q : area_at s AL a next -> is_Some (in_area a q) -> upage q.
Proof using Type.
  intros Ha Hq%in_area_between. unfold between in Hq. replace q with (a_page a + (q - a_page a)) by lia.
  apply (aa_range _ _ _ _ Ha). lia.
Qed.

(** A loop over the areas that treats each in turn. *)
Lemma each_area_chain (f : Z -> M kstate unit) (P : list area -> kstate -> list (Z * Z) -> Prop) (n : nat) : forall L s AL,
  chain s AL L -> paging s AL -> P L s AL -> (length L < n)%nat ->
  (forall a L s AL, area_at s AL a (next_of L) -> chain s AL L -> paging s AL -> P (a :: L) s AL ->
     runs s AL (f (a_struct a) s) (λ _ s', forall T, grow s AL s' T -> P L s' (T ++ AL))) ->
  runs s AL (iter n (each_area_body f) (next_of L) s) (λ _ s', exists T, grow s AL s' T /\ P [] s' (T ++ AL)).
Proof using Htab PS.
  induction n as [|n IH]; intros L s AL HL HP HPL Hn Hf; [lia|]. destruct L as [|a L].
  - rewrite (iter_stop s s n _ _ ()) by done. apply runs_ok; [done|]. exists []. split; [by apply grow_refl|done].
  - destruct HL as [Ha HL]. cbn [iter next_of].
    apply (runs_bind _ _ _ _ (λ x s1, x = inl (next_of L) /\ forall T, grow s AL s1 T -> P L s1 (T ++ AL))).
    + unfold each_area_body. rewrite (proj2 (Z.eqb_neq _ _)) by apply (aa_null _ _ _ _ Ha).
      eapply runs_bind; [by eapply Hf|]. intros [] s1 T H1 HG. cbn beta in H1. pose proof (area_grow _ _ _ _ _ _ HG Ha) as Ha1.
      unfold ar_next. area_word Ha1. rewrite (aa_next _ _ _ _ Ha1). apply runs_ok; [apply HG|]. by split.
    + intros x s1 T [-> H1] HG. cbn in Hn.
      pose proof (IH L s1 (T ++ AL) (chain_grow _ _ _ _ _ HG HL) (gr_paging _ _ _ _ _ HG) (H1 T HG) ltac:(lia) Hf) as HI.
      eapply runs_mono; [exact HI|]. intros [] s2 (T2 & HG2 & H2). exists (T2 ++ T). split; [by eapply grow_trans|].
      by rewrite <-app_assoc.
Qed.

(** Mapping and unmapping all of them. *)
Definition onto L σ (q : Z) : option Z := match space_of L q with Some e => Some e | None => σ q end.
Definition without L σ (q : Z) : option Z := match space_of L q with Some _ => None | None => σ q end.

Lemma map_areas n L s AL : chain s AL L -> paging s AL -> pairwise areas_apart L -> (length L < n)%nat ->
  (forall q, upage q -> is_Some (space_of L q) -> space (word s) q = None) ->
  runs s AL (iter n (each_area_body (λ area, _user_mem_mmap area ;; mret ())) (next_of L) s)
    (λ _ s', same_space (space (word s')) (onto L (space (word s)))).
Proof using Htab PS.
  intros HL HP Hap Hn Hno. set (τ := onto L (space (word s))).
  set (P := λ L s (AL : list (Z * Z)), pairwise areas_apart L /\ forall q, upage q ->
    match space_of L q with Some e => space (word s) q = None /\ τ q = Some e | None => space (word s) q = τ q end).
  eapply runs_mono; [eapply (each_area_chain _ P n L s AL HL HP)|].
  - split; [done|]. intros q Hq. unfold τ, onto. destruct (space_of L q) eqn:E; [|done]. split; [|done]. apply Hno; [done|by rewrite E].
  - done.
  - clear HL HP Hap Hn. intros a K s0 AL0 Ha HL HP [[Hap1 Hap] HS]. rewrite Forall_forall in Hap1.
    eapply (runs_bind _ _ _ _ (λ _ s', same_space (space (word s')) (λ q, match in_area a q with Some e => Some e | None => space (word s0) q end))).
    { eapply map_area; [done|done|]. intros q Hq. pose proof (upage_in _ _ _ _ _ Ha Hq) as Hu. specialize (HS q Hu). cbn [space_of] in HS.
      destruct (in_area a q); [by apply HS|by destruct Hq]. }
    intros r s1 T Hs HG. apply runs_ok; [apply HG|]. intros T' _. split; [done|]. intros q Hq. specialize (HS q Hq). rewrite (Hs q Hq).
    cbn [space_of] in HS. destruct (space_of K q) as [e|] eqn:E.
    + destruct (space_of_some _ _ _ E) as (b & Hb & Hbq).
      rewrite (apart_areas b a q) in * by (done || (specialize (Hap1 b Hb); unfold areas_apart in *; lia) || by rewrite Hbq). done.
    + destruct (in_area a q); [by symmetry; apply HS|done].
  - intros _ s' (T & _ & _ & HS) q Hq. specialize (HS q Hq). done.
Qed.

Lemma unmap_area s AL a next : area_at s AL a next -> paging s AL ->
  (forall q, is_Some (in_area a q) -> is_Some (space (word s) q)) ->
  runs s AL ((e ← ld (ar_vmend (a_struct a)); b ← ld (ar_vmstart (a_struct a)); freemap b (i32 (e - b)) ;; mret ()) s)
    (λ _ s', same_space (space (word s')) (λ q, match in_area a q with Some _ => None | None => space (word s) q end)).
Proof using Htab PS.
  intros Ha HP Hin. pose proof (aa_pos _ _ _ _ Ha) as Hb. assert (0 <= a_len a) as Hl by (unfold a_len; lia).
  unfold ar_vmend, ar_vmstart. area_word Ha. area_word Ha. rewrite (aa_end _ _ _ _ Ha), (aa_start _ _ _ _ Ha).
  replace (4096 * (a_page a + a_len a) - 4096 * a_page a) with (4096 * a_len a) by lia.
  assert (range (length (a_entries a)) (a_page a)) as Hr by apply (aa_range _ _ _ _ Ha).
  assert (4096 * a_len a < 2147483648) as Hl2 by lia. rewrite i32_id by lia.
  pose proof (freemap_run Inv s AL (a_page a) (4096 * a_len a) HP ltac:(lia)) as HF. cbn zeta in HF.
  replace (Z.to_nat ((4096 * a_len a + 4095) / 4096)) with (length (a_entries a)) in HF by (unfold a_len; lia_mod).
  destruct (HF Hr ltac:(lia) ltac:(lia)) as (s' & Hrun & Hs & HG). rewrite (bind_ok _ _ _ _ _ Hrun).
  split; [|by exists []]. rewrite Hs. intros q Hq.
  destruct (aunmap_all (length (a_entries a)) (a_page a) (space (word s))) as [_ HA].
  { intros x Hx. apply in_area_between in Hx. destruct (Hin x Hx) as [e ->]. done. }
  rewrite HA. destruct (between (length (a_entries a)) (a_page a) q) eqn:E.
  - apply in_area_between in E as [e ->]. done.
  - destruct (in_area a q) eqn:E2; [|done]. assert (is_Some (in_area a q)) as H%in_area_between by by rewrite E2. congruence.
Qed.

Lemma unmap_areas n L s AL : chain s AL L -> paging s AL -> pairwise areas_apart L -> (length L < n)%nat ->
  (forall q, upage q -> is_Some (space_of L q) -> is_Some (space (word s) q)) ->
  runs s AL (iter n (each_area_body (λ area, e ← ld (ar_vmend area); b ← ld (ar_vmstart area); freemap b (i32 (e - b)) ;; mret ())) (next_of L) s)
    (λ _ s', same_space (space (word s')) (without L (space (word s)))).
Proof using Htab PS.
  intros HL HP Hap Hn Hin. set (τ := without L (space (word s))).
  set (P := λ L s (AL : list (Z * Z)), pairwise areas_apart L /\ forall q, upage q ->
    match space_of L q with Some e => is_Some (space (word s) q) /\ τ q = None | None => space (word s) q = τ q end).
  eapply runs_mono; [eapply (each_area_chain _ P n L s AL HL HP)|].
  - split; [done|]. intros q Hq. unfold τ, without. destruct (space_of L q) eqn:E; [|done]. split; [|done]. apply Hin; [done|by rewrite E].
  - done.
  - clear HL HP Hap Hn. intros a K s0 AL0 Ha HL HP [[Hap1 Hap] HS]. rewrite Forall_forall in Hap1.
    eapply runs_mono; [eapply unmap_area; [done|done|]|].
    { intros q Hq. pose proof (upage_in _ _ _ _ _ Ha Hq) as Hu. specialize (HS q Hu). cbn [space_of] in HS.
      destruct (in_area a q); [by apply HS|by destruct Hq]. }
    intros [] s1 Hs T' _. split; [done|]. intros q Hq. specialize (HS q Hq). rewrite (Hs q Hq).
    cbn [space_of] in HS. destruct (space_of K q) as [e|] eqn:E.
    + destruct (space_of_some _ _ _ E) as (b & Hb & Hbq).
      rewrite (apart_areas b a q) in * by (done || (specialize (Hap1 b Hb); unfold areas_apart in *; lia) || by rewrite Hbq). done.
    + destruct (in_area a q); [by symmetry; apply HS|done].
  - intros _ s' (T & _ & _ & HS) q Hq. specialize (HS q Hq). done.
Qed.
End switch.

Section theorems.
Context {lay : Layout} {tab : Tables_at} {Htab : @TablesOk lay tab}.
Context (Inv : kstate -> list (Z * Z) -> Prop) {PS : PageSource plain Inv}.

End theorems.

(** ** A switch on a booted kernel *)
Section witness.
#[local] Existing Instance sample_layout.
#[local] Existing Instance sample_layout_ok.
#[local] Existing Instance sample_tables.
#[local] Existing Instance sample_tables_ok.
Abbreviation inv := (λ s AL, exists FL, Buddy (word s) FL AL).

(** A process without areas at 6400000, and one with a page at 6400100. *)
Definition structs (x : Z) : option Z :=
  if (6400000 <=? x) && (x <? 6401000) then
    Some (if x =? 6400100 then 6400200 else if x =? 6400104 then 1 else if x =? 6400200 then 6400300 else
          if x =? 6400204 then 134512640 else if x =? 6400208 then 134516736 else if x =? 6400300 then 16777223 else 0)
  else None.
Definition dressed (s : kstate) : kstate :=
  set_word (λ x, match structs x with Some v => v | None => word (zeroed s) x end) s.
Definition sample_area : area := Area 6400200 6400300 32840 [16777223].
Definition sample_vm (t : Z) : Z := if t =? 2 then 6400000 else 6400100.

Lemma dressed_in s x v : structs x = Some v -> word (dressed s) x = v.
Proof. unfold dressed. cbn [word set_word]. by intros ->. Qed.
Lemma dressed_out s x : x < 6400000 \/ 6401000 <= x -> word (dressed s) x = word (zeroed s) x.
Proof. intros Hx. unfold dressed, structs. cbn [word set_word]. by replace ((6400000 <=? x) && (x <? 6401000)) with false by lia. Qed.
Lemma structs_stay s AL x : 6400000 <= x < 6401000 -> x mod 4 = 0 -> waddr x /\ stays s AL x.
Proof.
  intros Hx Hm. split; [unfold waddr; lia|]. left. split; [split|].
  - unfold foreign, HEAP. change FREE_AREA with 5242880. change FREE_LIST with 5243136. change BIT_MAP with 5243392. lia.
  - unfold other_static. cbn. lia.
  - intros d Hd. apply udir_range in Hd. unfold pde_at, pdesc_count. change PAGE_DIR with 6291456. change PDESC with 6303744. lia.
Qed.
Lemma dressed_paging s FL : Buddy (word (zeroed s)) FL [(HEAP, 10)] ->
  paging inv (dressed s) [(HEAP, 10)] /\ forall q, upage q -> space (word (dressed s)) q = None.
Proof.
  intros HB. assert (forall d, udir d -> word (dressed s) (pde_at d) = 0 /\ word (dressed s) (pdesc_count d) = 0) as Hd0.
  { intros d Hd%udir_range. rewrite !dressed_out; [by apply zeroed_dir|..]; unfold pde_at, pdesc_count;
      change PAGE_DIR with 6291456; change PDESC with 6303744; lia. }
  assert (forall d, udir d -> has_table (word (dressed s)) d = false) as Hno.
  { intros d Hd. unfold has_table. by rewrite (proj1 (Hd0 d Hd)). }
  split; [split|].
  - exists FL. eapply buddy_foreign; [|exact HB]. intros x.
    destruct (decide (6400000 <= x < 6401000)); [|left; by rewrite dressed_out by lia]. right. left.
    unfold foreign, HEAP. change FREE_AREA with 5242880. change FREE_LIST with 5243136. change BIT_MAP with 5243392. lia.
  - intros d Hd Ht. by rewrite (Hno d Hd) in Ht.
  - intros d d' Hd _ Ht. by rewrite (Hno d Hd) in Ht.
  - intros d Hd. rewrite (Hno d Hd). by apply Hd0.
  - intros q Hq. unfold space. by rewrite (Hno _ Hq).
Qed.
Lemma sample_chain s : vm_at (dressed s) [(HEAP, 10)] 6400100 [sample_area].
Proof.
  destruct (structs_stay (dressed s) [(HEAP, 10)] 6400100 ltac:(lia) ltac:(done)) as [W1 W2].
  split; [exact W1|]. split; [exact W2|]. split; [by apply dressed_in|]. split; [|cbn; lia]. split; [|done].
  split; cbn [a_struct a_array a_page a_entries sample_area length next_of]; try (by apply dressed_in); try done.
  - intros [|i] e Hi; [injection Hi as <-; by apply dressed_in|done].
  - intros x Hx. apply structs_stay; rewrite !elem_of_cons, elem_of_nil in Hx; [lia|]. by destruct Hx as [->|[->|[->|[->|[]]]]].
  - intros i Hi. replace i with O by lia. by apply structs_stay.
  - by repeat constructor.
  - intros i Hi. unfold upage, udir. lia_mod.
Qed.
End witness.
