(* ===== verification/MemCalls.v ===== *)
(** * The memory system calls: [kernel/syscall.c], with [vmcopy] and [show_mmap]
    of [kernel/vm.c] and the page fault of [kernel/exception.c]

    On the words of memory of [Kmalloc].  User addresses are translated by the
    page tables in that memory; [vm] is the address of the [vmem_t] of the
    process that calls. *)
From S2P Require Import Prelude Kmalloc Vm.

Definition USER_STACK_ADDR : Z := 201326588.
Definition USER_STACK_MAX : Z := 4194304.

(** A line that [printf] prints: its format and arguments. *)
Definition line : Type := string * list Z.

Section calls.
Context `{!Layout, !Tables_at}.

(** ** User addresses *)
(** The physical address of a user's word: its page table's entry. *)
Definition translate (va : Z) : M kstate Z :=
  d ← ld (pde_at (PDE_MB_ADDR va));
  if Z.land d PTE_PRESENT =? 0 then raise Undef
  else
    e ← ld (ADDR_TO_PTE d + 4 * GETBIT_10 (Z.shiftr va 12));
    if Z.land e PTE_PRESENT =? 0 then raise Undef else mret (ADDR_TO_PTE e + GETBIT_12 va).
Definition uld (va : Z) : M kstate Z := a ← translate va; gets (λ s, word s a).
Definition ust (va v : Z) : M kstate unit := a ← translate va; modify (λ s, set_word (upd a (u32 v) (word s)) s).
(** [memcpy] of a page, both ends by their user addresses. *)
Definition copy_page (dest src : Z) : M kstate unit :=
  for_loop 0 1024 (λ i, x ← uld (src + 4 * i); ust (dest + 4 * i) x).

(** ** [vmcopy] *)
Definition CACHE : Z := 133169152.
(** [while (destarea != 0) { nextarea = destarea->next; kfree(destarea); ... }] *)
Definition free_areas_body (destarea : Z) : M kstate (Z + unit) :=
  if destarea =? 0 then mret (inr ())
  else nextarea ← ld (ar_next destarea); kfree destarea ;; mret (inl nextarea).

(** A page of an area; the state is [(va, i)]. *)
Definition vmcopy_page (srcarea destarea : Z) (x : Z * Z) : M kstate ((Z * Z) + unit) :=
  let '(va, i) := x in
  e ← ld (ar_vmend srcarea);
  if va <? e then
    pte ← _walk va 0 0;
    if pte =? 0 then raise Panic else
    p ← ld pte;
    if Z.land p PTE_PRESENT =? 0 then raise Panic else
    pa ← get_user_page 0;
    if pa =? 0 then raise Panic else
    copy_page CACHE va ;;
    freemap va PAGE_SIZE ;;
    m ← ld (ar_mmap srcarea);
    old ← ld (m + 4 * i);
    r ← mmap va pa PAGE_SIZE (GETBIT_12 old);
    if r =? -1 then free_user_page pa 0 ;; raise Panic else
    copy_page va CACHE ;;
    m ← ld (ar_mmap srcarea);
    old ← ld (m + 4 * i);
    d ← ld (ar_mmap destarea);
    st (d + 4 * i) (or_bits [PTE_PRESENT; GETBIT_12 old; ADDR_TO_PTE pa]) ;;
    mret (inl (u32 (va + PAGE_SIZE), i + 1))
  else mret (inr ()).

(** An area; the state is [(srcarea, destarea)], the result the last copy. *)
Definition vmcopy_area (x : Z * Z) : M kstate ((Z * Z) + Z) :=
  let '(srcarea, destarea) := x in
  if srcarea =? 0 then mret (inr destarea)
  else
    e ← ld (ar_vmend srcarea);
    s ← ld (ar_vmstart srcarea);
    let length := u32 (e - s) / PAGE_SIZE in
    a ← kmalloc (i32 (u32 (4 * length)));
    st (ar_mmap destarea) a ;;
    s ← ld (ar_vmstart srcarea); st (ar_vmstart destarea) s ;;
    e ← ld (ar_vmend srcarea); st (ar_vmend destarea) e ;;
    f ← ld (ar_vmflag srcarea); st (ar_vmflag destarea) f ;;
    s ← ld (ar_vmstart srcarea);
    iter area_fuel (vmcopy_page srcarea destarea) (s, 0) ;;
    srcarea ← ld (ar_next srcarea);
    if srcarea =? 0 then mret (inl (0, destarea))
    else
      nextarea ← kmalloc sizeof_vm_area;
      st (ar_next destarea) nextarea ;;
      mret (inl (srcarea, nextarea)).
Definition vmcopy (dest src : Z) : M kstate Z :=
  cachepa ← get_user_page 0;
  mmap CACHE cachepa PAGE_SIZE (Z.lor PTE_US PTE_RW) ;;
  x ← ld (vm_size src); st (vm_size dest) x ;;
  x ← ld (vm_start_brk src); st (vm_start_brk dest) x ;;
  x ← ld (vm_file_length src); st (vm_file_length dest) x ;;
  x ← ld (vm_brk src); st (vm_brk dest) x ;;
  srcarea ← ld (vm_map_list src);
  destarea ← ld (vm_map_list dest);
  iter area_fuel free_areas_body destarea ;;
  destarea ← kmalloc sizeof_vm_area;
  st (vm_map_list dest) destarea ;;
  destarea ← iter area_fuel vmcopy_area (srcarea, destarea);
  st (ar_next destarea) 0 ;;
  freemap CACHE PAGE_SIZE ;;
  free_user_page cachepa 0 ;;
  mret 0.

(** ** [show_mmap]: what it prints; the state is [(area, lines)] *)
Definition rule : list line := [(("-----------------memory-map------------------" ++ nl)%string, [])].
Definition show_body (x : Z * list line) : M kstate ((Z * list line) + list line) :=
  let '(area, out) := x in
  n ← ld (ar_next area);
  if n =? 0 then mret (inr out)
  else
    e ← ld (ar_vmend area);
    s ← ld (ar_vmstart area);
    let length := i32 (e - s) in
    if length =? 0 then n ← ld (ar_next area); mret (inl (n, out))
    else
      let out := out ++ [("0x%x-----"%string, [s]); ("0x%x      "%string, [e]); ("0x%x      "%string, [length])] in
      f ← ld (ar_vmflag area);
      if negb (Z.land f VM_HEAP =? 0) then
        n ← ld (ar_next area); mret (inl (n, out ++ [(("[HEAP]" ++ nl)%string, [])]))
      else
        '(area, out) ← (if negb (Z.land f VM_STACK =? 0) then
                          n ← ld (ar_next area); mret (n, out ++ [(("[STACK]" ++ nl)%string, [])])
                        else mret (area, out));
        f ← ld (ar_vmflag area);
        let w := if Z.land f VM_WRITE =? 0 then 45 else 119 in
        let x := if Z.land f VM_EXEC =? 0 then 45 else 101 in
        n ← ld (ar_next area);
        mret (inl (n, out ++ [(("r%c%c" ++ nl)%string, [w; x])])).
Definition show_mmap (vm : Z) : M kstate (list line) :=
  area ← ld (vm_map_list vm);
  out ← iter area_fuel show_body (area, rule ++ [(("start           end           length     flag" ++ nl)%string, [])]);
  mret (out ++ rule).

(** ** The system calls; what they print comes with their result *)
(** The search for the heap in [sys_sbrk]. *)
Definition sbrk_body (vm size brk : Z) (heap : Z) : M kstate (Z + (Z * list line)) :=
  if heap =? 0 then mret (inr (NULL, []))
  else
    f ← ld (ar_vmflag heap);
    if Z.land f VM_HEAP =? 0 then n ← ld (ar_next heap); mret (inl n)
    else
      r ← vmalloc heap PAGE_SIZE (Z.lor PTE_RW PTE_US);
      if r =? -1 then mret (inr (0, []))
      else
        b ← ld (vm_brk vm);
        st (vm_brk vm) (u32 (b + size)) ;;
        out ← show_mmap vm;
        mret (inr (u32 brk, out)).
Definition sys_sbrk (vm size : Z) : M kstate (Z * list line) :=
  heap ← ld (vm_map_list vm);
  brk ← ld (vm_brk vm);
  let brk := i32 brk in
  if (Z.rem brk PAGE_SIZE =? 0) || (PAGE_SIZE <? u32 (size + Z.rem brk PAGE_SIZE)) then
    iter area_fuel (sbrk_body vm size brk) heap
  else
    b ← ld (vm_brk vm);
    st (vm_brk vm) (u32 (b + size)) ;;
    mret (u32 brk, []).

(** [while (t->next->vmstart < addr && t->next->next != 0) t = t->next;] *)
Definition mmap_find_body (addr t : Z) : M kstate (Z + Z) :=
  n ← ld (ar_next t);
  s ← ld (ar_vmstart n);
  if s <? addr then
    n ← ld (ar_next t);
    nn ← ld (ar_next n);
    if nn =? 0 then mret (inr t) else n ← ld (ar_next t); mret (inl n)
  else mret (inr t).
(** Linking the new area into the list: 0, or -1. *)
Definition mmap_insert (vm area addr : Z) : M kstate Z :=
  t ← ld (vm_map_list vm);
  s ← ld (ar_vmstart t);
  if addr <? s then
    st (vm_map_list vm) area ;;
    st (ar_next area) t ;;
    mret 0
  else
    t ← iter area_fuel (mmap_find_body addr) t;
    n ← ld (ar_next t);
    if n =? 0 then mret (-1)
    else
      n ← ld (ar_next t);
      nn ← ld (ar_next n);
      st (ar_next area) nn ;;
      st (ar_next t) area ;;
      mret 0.
Definition sys_mmap (vm addr size : Z) : M kstate (Z * list line) :=
  if (u32 addr <? KERNEL_PAGES * PAGE_SIZE_4MB) || (USER_STACK_ADDR <? u32 addr) then mret (-1, [])
  else
    let pagesz := i32 (u32 (Z.rem (i32 addr) PAGE_SIZE + size + PAGE_SIZE - 1) / PAGE_SIZE) in
    area ← kmalloc sizeof_vm_area;
    st (ar_vmflag area) (Z.lor VM_WRITE VM_READ) ;;
    st (ar_vmstart area) (u32 addr) ;;
    st (ar_vmend area) (u32 addr) ;;
    vmalloc area pagesz (Z.lor PTE_US PTE_RW) ;;
    r ← mmap_insert vm area (u32 addr);
    if r =? -1 then mret (-1, []) else out ← show_mmap vm; mret (0, out).

(** The search of [sys_munmap]; the state is [(area, prev)]. *)
Definition munmap_find_body (vm pageaddr : Z) (x : Z * Z) : M kstate ((Z * Z) + (Z * Z)) :=
  let '(area, prev) := x in
  n ← ld (ar_next area);
  if n =? 0 then mret (inr (area, prev))
  else
    s ← ld (ar_vmstart area);
    if s =? pageaddr then mret (inr (area, prev))
    else
      area ← ld (ar_next area);
      head ← ld (vm_map_list vm);
      prev ← (if negb (area =? head) then ld (ar_next prev) else mret prev);
      mret (inl (area, prev)).
Definition sys_munmap (vm addr : Z) : M kstate (Z * list line) :=
  let pageaddr := u32 addr mod PAGE_SIZE in
  head ← ld (vm_map_list vm);
  '(area, prev) ← iter area_fuel (munmap_find_body vm pageaddr) (head, head);
  if area =? 0 then mret (-1, [])
  else
    (if area =? prev then n ← ld (ar_next area); st (vm_map_list vm) n
     else n ← ld (ar_next area); st (ar_next prev) n) ;;
    e ← ld (ar_vmend area);
    s ← ld (ar_vmstart area);
    vmdealloc area (i32 (e - s)) 1 ;;
    kfree area ;;
    out ← show_mmap vm;
    mret (0, out).

(** ** [do_page_fault]: the stack grows by a page; elsewhere it stops *)
Definition grow_stack (area : Z) : M kstate unit :=
  e ← ld (ar_vmend area);
  s ← ld (ar_vmstart area);
  let length := u32 (e - s) / PAGE_SIZE + 1 in
  s ← ld (ar_vmstart area);
  st (ar_vmstart area) (u32 (s - PAGE_SIZE)) ;;
  pa ← get_user_page 0;
  temp ← kmalloc (i32 (u32 (4 * length)));
  when (1 <? length)
    (m ← ld (ar_mmap area);
     copy_words (temp + 16) m length ;;
     m ← ld (ar_mmap area);
     kfree m) ;;
  st (ar_mmap area) temp ;;
  va ← ld (ar_vmstart area);
  mmap va pa PAGE_SIZE (Z.lor PTE_RW PTE_US) ;;
  m ← ld (ar_mmap area);
  st m (or_bits [ADDR_TO_PTE pa; PTE_PRESENT; PTE_RW; PTE_US]).
Definition fault_body (area : Z) : M kstate (Z + unit) :=
  if area =? 0 then raise Halted
  else
    f ← ld (ar_vmflag area);
    if negb (Z.land f VM_STACK =? 0) then grow_stack area ;; mret (inr ())
    else n ← ld (ar_next area); mret (inl n).
Definition do_page_fault (vm errcode addr : Z) : M kstate unit :=
  if (addr <? USER_STACK_ADDR) && (USER_STACK_ADDR - USER_STACK_MAX <? addr) then
    area ← ld (vm_map_list vm);
    iter area_fuel fault_body area
  else raise Halted.
End calls.
