(* ===== verification/MemCallsProps.v ===== *)
(** * The lists of areas under [sys_mmap] and [sys_munmap] *)
From S2P Require Import Prelude Kmalloc KmallocRing KmallocBuddy KmallocPages KmallocAlloc KmallocInit KmallocSource KmallocContract KmallocSlab KmallocSlabOps KmallocSlabFree KmallocHeap KmallocHeapFree KmallocHeapContract KmallocHeapSafe KHeap Vm VmProps VmContract MemCalls.

(** The areas [L] in list order, from the pointer [p] on. *)
Fixpoint areas (w : Z -> Z) (p : Z) (L : list Z) : Prop :=
  match L with
  | [] => p = 0
  | x :: L => p = x /\ waddrs 20 x /\ areas w (w (x + 16)) L
  end.

Lemma areas_fields x : waddrs 20 x -> waddr x /\ waddr (x + 4) /\ waddr (x + 8) /\ waddr (x + 12) /\ waddr (x + 16) /\ 4194304 <= x < 67108864.
Proof.
  intros H. split_and!; [|by apply (waddrs_field 20)..|unfold waddrs in H; lia|unfold waddrs in H; lia].
  rewrite <-(Z.add_0_r x). by apply (waddrs_field 20).
Qed.
Lemma areas_frame w w' p L : areas w p L -> (forall x, x ∈ L -> w' (x + 16) = w (x + 16)) -> areas w' p L.
Proof.
  revert p. induction L as [|x L IH]; intros p; cbn [areas]; [done|]. intros (-> & Hx & HL) Hw.
  split; [done|]. split; [done|]. rewrite Hw by by left. apply IH; [done|]. intros y Hy. apply Hw. by right.
Qed.
(** The part of a list before the pointer [q]. *)
Fixpoint upto (w : Z -> Z) (p : Z) (L : list Z) (q : Z) : Prop :=
  match L with
  | [] => p = q
  | x :: L => p = x /\ waddrs 20 x /\ upto w (w (x + 16)) L q
  end.
Lemma areas_app w p L1 x L2 : areas w p (L1 ++ x :: L2) <-> upto w p L1 x /\ areas w x (x :: L2).
Proof.
  revert p. induction L1 as [|y L1 IH]; intros p; cbn [app areas upto]; [naive_solver|]. rewrite IH. cbn [areas]. naive_solver.
Qed.
Lemma upto_frame w w' p L q : upto w p L q -> (forall x, x ∈ L -> w' (x + 16) = w (x + 16)) -> upto w' p L q.
Proof.
  revert p. induction L as [|x L IH]; intros p; cbn [upto]; [done|]. intros (-> & Hx & HL) Hw.
  split; [done|]. split; [done|]. rewrite Hw by by left. apply IH; [done|]. intros y Hy. apply Hw. by right.
Qed.

Lemma areas_ptr w p L : areas w p L -> 0 <= p < 4294967296.
Proof. destruct L as [|x L]; cbn [areas]; [lia|]. intros (-> & Hx & _). unfold waddrs in Hx. lia. Qed.

Section calls.
Context {lay : Layout} {tab : Tables_at}.
Implicit Types (s : kstate) (L : list Z).

(** ** [sys_munmap]: the search ends at the last area, wherever [addr] is *)
Lemma munmap_search vm page s n : forall L p prev, waddr vm -> areas (word s) p L -> L <> [] -> (length L <= n)%nat ->
  (forall x, x ∈ L -> page < word s (x + 4)) -> (forall x, x ∈ tail L -> x <> word s vm) -> prev = p ->
  iter n (munmap_find_body vm page) (p, prev) s = Ok ((last_node p L, last_node p L), s).
Proof using Type.
  induction n as [|n IH]; intros L p prev Hv HL Hne Hn Hs Hh ->; [destruct L; [done|cbn in Hn; lia]|].
  destruct L as [|x [|y L]]; [done|..]; destruct HL as (-> & Hx & HL); destruct (areas_fields x Hx) as (F0 & F4 & F8 & F12 & F16 & Fr).
  - rewrite (iter_stop s s n _ _ (x, x)); [done|]. unfold munmap_find_body, ar_next. rewrite ld_bind by done. cbn [areas] in HL. by rewrite HL.
  - destruct HL as (E & Hy & HL). destruct (areas_fields y Hy) as (G0 & G4 & G8 & G12 & G16 & Gr).
    rewrite (iter_next s s n _ _ (y, y)).
    + cbn [last_node]. rewrite (IH (y :: L) y y); try done.
      * cbn in Hn |- *. lia.
      * intros z Hz. apply Hs. by right.
      * intros z Hz. apply Hh. cbn in *. by right.
    + unfold munmap_find_body, ar_next, ar_vmstart, vm_map_list. rewrite ld_bind, E by done.
      rewrite (proj2 (Z.eqb_neq y 0)) by lia. rewrite ld_bind by done.
      rewrite (proj2 (Z.eqb_neq _ page)) by (specialize (Hs x ltac:(by left)); lia).
      rewrite ld_bind, E by done. rewrite ld_bind by done.
      rewrite (proj2 (Z.eqb_neq y (word s vm))) by (apply Hh; by left). cbn [negb].
      by rewrite (bind_ok _ _ _ y s) by (by rewrite ld_ok, E by done).
Qed.

(** ** [sys_mmap]: the search for the place, and the link *)
Lemma mmap_search s addr n : forall pre p t k post, upto (word s) p pre t -> areas (word s) t (t :: k :: post) ->
  (length pre < n)%nat -> (forall x, x ∈ tail (pre ++ [t]) -> word s (x + 4) < addr) ->
  addr <= word s (k + 4) \/ post = [] ->
  iter n (mmap_find_body addr) p s = Ok (t, s).
Proof using Type.
  induction n as [|n IH]; intros pre p t k post Hp Ht Hn Hs Hstop; [lia|]. destruct pre as [|x pre]; cbn [upto] in Hp.
  - subst p. destruct Ht as (_ & Hx & E & Hk & Hpost). destruct (areas_fields t Hx) as (_ & _ & _ & _ & F16 & _).
    destruct (areas_fields k Hk) as (_ & G4 & _ & _ & G16 & _). apply (iter_stop s s).
    unfold mmap_find_body, ar_next, ar_vmstart. rewrite ld_bind, E, ld_bind by done. destruct (Z.ltb_spec (word s (k + 4)) addr); [|done].
    rewrite ld_bind, E, ld_bind by done. destruct Hstop as [| ->]; [lia|]. cbn [areas] in Hpost. by rewrite Hpost.
  - destruct Hp as (-> & Hx & Hp). destruct (areas_fields x Hx) as (_ & _ & _ & _ & F16 & _).
    assert (exists y, word s (x + 16) = y /\ waddrs 20 y /\ word s (y + 4) < addr /\ word s (y + 16) <> 0) as (y & E & Hy & Hlt & Hnx).
    { exists (word s (x + 16)). split; [done|]. destruct pre as [|y pre]; cbn [upto] in Hp.
      - rewrite Hp. destruct Ht as (_ & Hx2 & E & Hk & _). split; [done|]. split; [apply Hs; by left|].
        rewrite E. unfold waddrs in Hk. lia.
      - destruct Hp as (-> & Hy & Hp). split; [done|]. split; [apply Hs; by left|]. destruct pre as [|z pre]; cbn [upto] in Hp.
        + rewrite Hp. destruct Ht as (_ & Hx2 & _). unfold waddrs in Hx2. lia.
        + destruct Hp as (-> & Hz & _). unfold waddrs in Hz. lia. }
    destruct (areas_fields y Hy) as (_ & G4 & _ & _ & G16 & _).
    rewrite (iter_next s s n _ _ y).
    + rewrite E in Hp. apply (IH pre y t k post); [done|done|cbn in Hn; lia| |done].
      intros z Hz. apply Hs. cbn [app tail]. destruct pre; cbn in *; [by apply elem_of_nil in Hz|by right].
    + unfold mmap_find_body, ar_next, ar_vmstart. rewrite ld_bind, E, ld_bind by done. rewrite (proj2 (Z.ltb_lt _ _)) by done.
      rewrite ld_bind, E, ld_bind by done. rewrite (proj2 (Z.eqb_neq _ 0)) by done. by rewrite (bind_ok _ _ _ y s) by (by rewrite ld_ok, E by done).
Qed.

(** [sys_mmap] links the new area in place of the area that should follow
    it: the list loses that area, with its pages, and if it was the heap's the
    process can never grow its heap again. *)
Theorem sys_mmap_drops vm area addr s pre t k post :
  waddr vm -> areas (word s) (word s vm) (pre ++ t :: k :: post) -> waddrs 20 area ->
  pairwise (sep 20) (area :: pre ++ t :: k :: post) ->
  (forall x, x ∈ area :: pre ++ t :: k :: post -> vm < x \/ x + 20 <= vm) ->
  Z.of_nat (length pre) < 1048576 ->
  word s (word s vm + 4) <= addr -> (forall x, x ∈ tail (pre ++ [t]) -> word s (x + 4) < addr) ->
  addr <= word s (k + 4) \/ post = [] ->
  exists w', mmap_insert vm area addr s = Ok (0, set_word w' s) /\ areas w' (w' vm) (pre ++ t :: area :: post) /\
    forall x, x <> area + 16 -> x <> t + 16 -> w' x = word s x.
Proof using Type.
  intros Hv HL Ha Hsep Hvm Hlen Hhd Hs Hstop.
  pose proof (proj1 (areas_app _ _ pre t (k :: post)) HL) as [Hp Ht]. pose proof Ht as (_ & Ht20 & E & Hk20 & Hpost).
  assert (exists h tl, pre ++ t :: k :: post = h :: tl) as (h & tl & Eh) by (destruct pre; cbn; eauto).
  assert (waddrs 20 (word s vm)) as Hh20 by (rewrite Eh in HL; destruct HL as (-> & Hh & _); done).
  destruct (areas_fields _ Hh20) as (_ & F4 & _). destruct (areas_fields _ Ha) as (A0 & A4 & A8 & A12 & A16 & Ar).
  destruct (areas_fields _ Ht20) as (_ & _ & _ & _ & T16 & Tr). destruct (areas_fields _ Hk20) as (_ & _ & _ & _ & K16 & Kr).
  destruct Hsep as [Hsa Hsep]. rewrite Forall_forall in Hsa.
  assert (t ∈ pre ++ t :: k :: post /\ k ∈ pre ++ t :: k :: post) as [Ht_in Hk_in].
  { rewrite !elem_of_app, !elem_of_cons. tauto. }
  pose proof (Hsa _ Ht_in) as Hat. pose proof (Hsa _ Hk_in) as Hak.
  pose proof (areas_ptr _ _ _ Hpost) as Hpr'.
  exists (upd (t + 16) area (upd (area + 16) (word s (k + 16)) (word s))). split; [|split].
  - unfold mmap_insert, vm_map_list, ar_vmstart, ar_next. rewrite ld_bind, ld_bind by done.
    rewrite (proj2 (Z.ltb_ge _ _)) by done.
    rewrite (bind_ok _ _ _ _ _ (mmap_search s addr area_fuel pre _ t k post Hp Ht ltac:(unfold area_fuel; lia) Hs Hstop)).
    rewrite ld_bind, E by done. rewrite (proj2 (Z.eqb_neq k 0)) by lia. rewrite ld_bind, E, ld_bind by done.
    rewrite st_bind by (done || lia). rewrite st_bind by (done || lia). done.
  - rewrite !upd_ne by (pose proof (Hvm area ltac:(by left)); pose proof (Hvm t ltac:(right; exact Ht_in)); lia).
    apply pairwise_app in Hsep as (Hsp & Hst & Hcross). destruct Hst as [Hst _]. rewrite Forall_forall in Hst.
    apply areas_app. split.
    + eapply upto_frame; [exact Hp|]. intros x Hx. pose proof (Hcross x t Hx ltac:(by left)) as Hxt.
      pose proof (Hsa x ltac:(apply elem_of_app; by left)) as Hxa. unfold sep in *. by rewrite !upd_ne by lia.
    + unfold sep in Hat, Hak. cbn [areas]. split; [done|]. split; [done|]. rewrite upd_eq. split; [done|]. split; [done|].
      rewrite upd_ne by lia. rewrite upd_eq. eapply areas_frame; [exact Hpost|]. intros x Hx.
      pose proof (Hst x ltac:(by right)) as Hxt. pose proof (Hsa x ltac:(rewrite elem_of_app, !elem_of_cons; tauto)) as Hxa.
      unfold sep in *. by rewrite !upd_ne by lia.
  - intros x Hx1 Hx2. by rewrite !upd_ne.
Qed.
End calls.

Section theorems.
Context {lay : Layout} {tab : Tables_at} (H : kstate -> list (Z * Z) -> list (Z * Z) -> Prop) {KH : KernelHeap H}.
Implicit Types (s : kstate) (Q B : list (Z * Z)) (L : list Z).

Lemma vmdealloc_empty s area k : waddr (ar_vmend area) -> waddr (ar_vmstart area) ->
  word s (ar_vmend area) = word s (ar_vmstart area) -> 0 <= word s (ar_vmend area) < 4294967296 ->
  vmdealloc area (i32 (word s (ar_vmend area) - word s (ar_vmstart area))) k s = Ok (tt, s).
Proof using Type.
  intros W1 W2 E Hr. rewrite <-E, Z.sub_diag. change (i32 0) with 0. unfold vmdealloc.
  rewrite ld_bind, ld_bind, <-E, Z.sub_diag by done. change (i32 (u32 0 / PAGE_SIZE)) with 0. change (Z.quot 0 PAGE_SIZE) with 0.
  rewrite Z.sub_0_r, u32_id by done. change (Z.to_nat ENTRY_NUM * 1024)%nat with (Z.to_nat 1024 * 1024)%nat.
  rewrite (bind_ok _ _ _ 0 s).
  - by rewrite Z.eqb_refl.
  - apply iter_stop. unfold vmdealloc_body. by rewrite (proj2 (Z.ltb_ge _ _)) by lia.
Qed.

End theorems.

(** ** A booted kernel with a block *)
Section witnesses.
#[local] Existing Instance sample_layout.
#[local] Existing Instance sample_layout_ok.
#[local] Existing Instance sample_tables.
Lemma one_block : exists s, Running s [] [(HEAP + 16, 28)].
Proof.
  destruct booted_slabs as (s & _ & _ & _ & HR).
  pose proof (small_run pages (kmalloc_rec 1) 28 s _ _ _ _ _ (run_heap _ _ _ _ _ _ HR) ltac:(lia) ltac:(lia)) as Hs.
  change (first_fit (units 28) [(HEAP, 524288)]) with (Some (@nil slot, (HEAP, 524288), @nil slot)) in Hs.
  destruct (Hs ltac:(by vm_compute)) as (w' & Hr & _). exists (set_word w' s).
  destruct (run_alloc s _ _ _ _ _ 28 (HEAP + 16) (set_word w' s) HR ltac:(lia) ltac:(reflexivity) Hr ltac:(done)) as (F' & A' & hs' & w2 & _ & HR' & _).
  by exists F', A', hs'.
Qed.
(** The empty stack's area in that block, the [vmem_t] at 6400000. *)
Definition stack_words (x : Z) : option Z :=
  if x =? 6400000 then Some (HEAP + 16) else
  if (x =? HEAP + 20) || (x =? HEAP + 24) then Some 201326592 else
  if x =? HEAP + 32 then Some 0 else None.
Definition with_stack (s : kstate) : kstate :=
  set_word (λ x, match stack_words x with Some v => v | None => word s x end) s.
Lemma spare_word B : spared [] B 6400000.
Proof.
  left. split; [|unfold other_static; cbn; lia].
  unfold foreign, HEAP. change FREE_AREA with 5242880. change FREE_LIST with 5243136. change BIT_MAP with 5243392. lia.
Qed.
Lemma with_stack_heap s : Running s [] [(HEAP + 16, 28)] -> Running (with_stack s) [] [(HEAP + 16, 28)].
Proof.
  intros HR. apply (kh_write (KernelHeap := running_heap)); [exact HR|]. intros x. destruct (stack_words x) eqn:E; [right|by left].
  unfold stack_words in E. destruct (Z.eqb_spec x 6400000) as [->|]; [apply spare_word|]. right. right. exists (HEAP + 16, 28).
  split; [by left|]. unfold in_block. cbn [fst snd].
  destruct (Z.eqb_spec x (HEAP + 20)), (Z.eqb_spec x (HEAP + 24)), (Z.eqb_spec x (HEAP + 32)); cbn in E; (lia || done).
Qed.

(** A fresh process: the image at 6400100, the heap at 6400200, the stack at
    6400300; a page is mapped below the heap. *)
Definition fresh_words (x : Z) : Z :=
  if x =? 6400000 then 6400100 else
  if x =? 6400104 then 134512640 else if x =? 6400116 then 6400200 else
  if x =? 6400204 then 142606336 else if x =? 6400216 then 6400300 else
  if x =? 6400304 then 201326592 else 0.
Lemma sys_mmap_drops_witness : exists w', mmap_insert 6400000 6400400 135266304 (Kstate fresh_words 0 0 0) = Ok (0, Kstate w' 0 0 0) /\
  areas w' (w' 6400000) [6400100; 6400400; 6400300].
Proof.
  destruct (sys_mmap_drops 6400000 6400400 135266304 (Kstate fresh_words 0 0 0) [] 6400100 6400200 [6400300]) as (w' & Hr & Ha & _).
  - by split.
  - by repeat (split; [by vm_compute|]).
  - by split_and!; vm_compute.
  - cbn [app pairwise]. rewrite !Forall_cons, !Forall_nil. unfold sep. lia.
  - intros x Hx. cbn [app] in Hx. rewrite !elem_of_cons, elem_of_nil in Hx. lia.
  - done.
  - by vm_compute.
  - intros x Hx. by apply elem_of_nil in Hx.
  - left. by vm_compute.
  - exists w'. split; [exact Hr|exact Ha].
Defined.
End witnesses.
