(* ===== verification/Process.v ===== *)
(** * Processes: [kernel/process.c] and its system calls

    A [thread_t] lies at the start of its kernel stack, two pages of
    [get_page]; its fields are words of the memory of [Kmalloc], but for those
    that the scheduler owns ([state], [flag], [nice], [console_id] and
    [sched_info]), which are in the records of [Cfs] under the same address. *)
From S2P Require Import Prelude Bytes Args Kmalloc Vm Tasks RbTree Cfs MemCalls.

Definition MAXCHILDREN : Z := 100.
Definition NICE_NORMAL : Z := 0.
Definition SHELL : string := "shell".
Definition NICE_INIT : Z := 19.
Definition NTERMINAL : Z := 3.
Definition IDLE : string := "idle".
Definition INIT : string := "init".
Definition USEREIP : Z := 2042.
Definition USERESP : Z := 2045.
Definition KERNEL_DS : Z := 24.
Definition sizeof_process : Z := 8192.
Definition sizeof_thread : Z := 196.
Definition sizeof_context : Z := 36.
Definition sizeof_console : Z := 20.
Definition sizeof_cfs_rq : Z := 40.

(** [thread_t], by its layout; [context_t]. *)
Definition t_task_node (t : Z) : Z := t.
Definition t_argc (t : Z) : Z := t + 100.
Definition t_argv (t : Z) : Z := t + 104.
Definition t_pid (t : Z) : Z := t + 108.
Definition t_parent (t : Z) : Z := t + 112.
Definition t_children (t : Z) : Z := t + 116.
Definition t_n_children (t : Z) : Z := t + 120.
Definition t_max_children (t : Z) : Z := t + 128.
Definition t_context (t : Z) : Z := t + 136.
Definition t_usreip (t : Z) : Z := t + 140.
Definition t_usresp (t : Z) : Z := t + 144.
Definition t_vm (t : Z) : Z := t + 148.
Definition t_fds (t : Z) : Z := t + 172.
Definition t_kthread (t : Z) : Z := t + 176.
Definition t_terminal (t : Z) : Z := t + 180.
Definition c_eip (c : Z) : Z := c.
Definition c_esp (c : Z) : Z := c + 4.
Definition c_ebp (c : Z) : Z := c + 28.
Definition c_eax (c : Z) : Z := c + 32.
Definition con_task (c : Z) : Z := c + 8.
Definition con_vidmap (c : Z) : Z := c + 12.

(** [uint64_t] fields, and bytes. *)
Definition ld64 (p : Z) : M kstate Z := lo ← ld p; hi ← ld (p + 4); mret (lo + 4294967296 * hi).
Definition st64 (p v : Z) : M kstate unit := st p (v mod 4294967296) ;; st (p + 4) (u64 v / 4294967296).
Definition ldb (p : Z) : M kstate Z :=
  x ← ld (4 * (u32 p / 4)); mret (Z.shiftr x (8 * (u32 p mod 4)) mod 256).
Definition put_byte (p v x : Z) : Z :=
  let k := 8 * (p mod 4) in Z.lor (Z.ldiff x (Z.shiftl 255 k)) (Z.shiftl (u8 v) k).
Definition stb (p v : Z) : M kstate unit :=
  x ← ld (4 * (u32 p / 4)); st (4 * (u32 p / 4)) (put_byte (u32 p) v x).
(** [strcpy], also of a literal, and [!strcmp(s, "...")], on those bytes. *)
Definition string_copy (dest src : Z) : M kstate unit :=
  iter list_fuel (λ i,
    c ← ldb (src + i); stb (dest + i) c ;; mret (if c =? 0 then inr () else inl (i + 1))) 0.
Fixpoint store_string (dest : Z) (l : list Z) : M kstate unit :=
  match l with [] => stb dest 0 | b :: l => stb dest b ;; store_string (dest + 1) l end.
Fixpoint same_string (s : Z) (l : list Z) : M kstate bool :=
  c ← ldb s;
  match l with
  | [] => mret (c =? 0)
  | b :: l => if c =? b then same_string (s + 1) l else mret false
  end.

(** ** The state *)
Record pstate := Pstate {
  pmem : kstate;
  psched : cfs_rq;
  pid_size : Z;
  ntask : Z;
  tss : Z * Z
}.
Definition with_pmem k p := Pstate k (psched p) (pid_size p) (ntask p) (tss p).
Definition with_psched c p := Pstate (pmem p) c (pid_size p) (ntask p) (tss p).
Definition with_pid_size n p := Pstate (pmem p) (psched p) n (ntask p) (tss p).
Definition with_ntask n p := Pstate (pmem p) (psched p) (pid_size p) n (tss p).
Definition with_tss x p := Pstate (pmem p) (psched p) (pid_size p) (ntask p) x.
Abbreviation PM := (M pstate).
Definition on_pmem {A} (m : M kstate A) : PM A := zoom pmem with_pmem m.
Definition on_psched {A} (m : M cfs_rq A) : PM A := zoom psched with_psched m.
Definition on_pids {A} (m : M Z A) : PM A := zoom pid_size with_pid_size m.

(** Where the linker puts the variables [idle], [init], [consoles], [current],
    [rq] and [task_queue]; what a new stack's pages hold in the scheduler's
    fields. *)
Class Process_env := {
  IDLE_VAR : Z;
  INIT_VAR : Z;
  RQ_VAR : Z;
  CONSOLES_VAR : Z;
  CURRENT_VAR : Z;
  TASK_QUEUE : Z;
  uninit_thread : Z -> thread_t;
  uninit_sched : Z -> sched_t
}.

Section process.
Context `{!Layout, !Tables_at, !Process_env}.

Definition GETPRO : PM Z := on_psched (gets cpu_thread).
(** The two pages of a new stack are a [thread_t] the scheduler does not know. *)
Definition new_thread (t : Z) : K unit :=
  modify (λ c, with_threads (<[t := uninit_thread t]> (threads c))
                 (with_scheds (<[sched_info t := uninit_sched t]> (scheds c)) c)).

(** ** Kernel stacks *)
Definition get_esp0 (curr : Z) : Z := u32 (curr + sizeof_process - 4).
Definition update_tss (curr : Z) : PM unit := modify (with_tss (KERNEL_DS, get_esp0 curr)).
(** [__umap] with the argument's [vm]; [context_switch] up to [swtch], which
    gives the processor to [next] in the scheduler's state. *)
Definition umap_threads (from to : Z) : M kstate unit :=
  init ← ld INIT_VAR; __umap init from to t_vm.
Definition switch_spaces (prev next : Z) : PM unit :=
  on_pmem (umap_threads prev next) ;;
  init ← on_pmem (ld INIT_VAR);
  when (negb (next =? init)) (update_tss next).

(** ** The list of children *)
Definition children_create : M kstate Z :=
  children ← kmalloc (MAXCHILDREN * 4);
  for_loop 0 (Z.to_nat MAXCHILDREN) (λ i, c ← kmalloc sizeof_thread; st (children + 4 * i) c) ;;
  mret children.

(** Reallocating the list; [memcpy] and the sizes are 32-bit. *)
Definition overflow_children (task : Z) : M kstate unit :=
  n ← ld64 (t_n_children task);
  max ← ld64 (t_max_children task);
  when (n =? max)
    (max ← ld64 (t_max_children task);
     children ← kmalloc (i32 (max * 2 * 4));
     old ← ld (t_children task);
     max ← ld64 (t_max_children task);
     copy_words children old (u32 (max * 4) / 4) ;;
     st64 (t_max_children task) (u64 (max * 2)) ;;
     old ← ld (t_children task);
     kfree old ;;
     st (t_children task) children).

(** [task->children[task->n_children++] = t]. *)
Definition push_child (task t : Z) : M kstate unit :=
  children ← ld (t_children task);
  n ← ld64 (t_n_children task);
  st64 (t_n_children task) (u64 (n + 1)) ;;
  st (children + 4 * n) t.
Definition place_body (task parent_of_parent i : Z) : M kstate (Z + unit) :=
  n ← ld64 (t_n_children task);
  if i <? n then
    overflow_children parent_of_parent ;;
    children ← ld (t_children task);
    c ← ld (children + 4 * i);
    push_child parent_of_parent c ;;
    children ← ld (t_children task);
    c ← ld (children + 4 * i);
    st (t_parent c) parent_of_parent ;;
    mret (inl (i + 1))
  else mret (inr ()).
Definition place_children (task : Z) : M kstate unit :=
  parent_of_parent ← ld (t_parent task);
  iter list_fuel (place_body task parent_of_parent) 0.

(** ** Creating and freeing *)
(** [pid_t] is unsigned: the test of [alloc_pid]'s result never holds. *)
Definition process_create (current kthread : Z) : PM Z :=
  pid ← on_pids alloc_pid;
  if pid <? 0 then mret NULL else
  t ← on_pmem (alloc_kstack);
  on_pmem
    (st (t_pid t) pid ;;
     st (t_parent t) current ;;
     c ← kmalloc sizeof_context;
     st (t_context t) c ;;
     children ← ld (t_children current);
     when (children =? 0) (children ← children_create; st (t_children current) children) ;;
     overflow_children current ;;
     push_child current t ;;
     st (t_children t) NULL ;;
     st64 (t_n_children t) 0 ;;
     st64 (t_max_children t) MAXCHILDREN ;;
     stb (t_kthread t) kthread) ;;
  on_psched (new_thread t ;; upd_thread t (set_state UNUSED)) ;;
  on_pmem
    (process_vm_init (t_vm t) ;;
     list_add_tail (t_task_node t) TASK_QUEUE) ;;
  mret 0.

Definition is_exited (st : pro_state) : bool := match st with EXITED => true | _ => false end.
(** [parent->children[--parent->n_children] = NULL]. *)
Definition pop_child (parent : Z) : M kstate unit :=
  children ← ld (t_children parent);
  n ← ld64 (t_n_children parent);
  st64 (t_n_children parent) (u64 (n - 1)) ;;
  st (children + 4 * u64 (n - 1)) NULL.
Definition free_children_body (current i : Z) : M kstate (Z + unit) :=
  max ← ld64 (t_max_children current);
  if i <? max then
    children ← ld (t_children current);
    c ← ld (children + 4 * i);
    kfree c ;;
    mret (inl (i + 1))
  else mret (inr ()).
Definition process_free (current : Z) : PM unit :=
  if current =? NULL then mret () else
  parent ← on_pmem (ld (t_parent current));
  on_pids kill_pid ;;
  on_pmem
    (c ← ld (t_context current); kfree c ;;
     f ← ld (t_fds current); kfree f ;;
     for_loop 0 (Z.to_nat MAXARGS) (λ i, argv ← ld (t_argv current); a ← ld (argv + 4 * i); kfree a) ;;
     argv ← ld (t_argv current);
     kfree argv ;;
     children ← ld (t_children current);
     when (negb (children =? 0))
       (iter list_fuel (free_children_body current) 0 ;;
        children ← ld (t_children current);
        kfree children)) ;;
  th ← on_psched (get_thread current);
  when (negb (is_exited (state th)))
    (p ← on_pmem (ld (t_parent current));
     on_pmem (umap_threads current p) ;;
     update_tss parent) ;;
  on_pmem
    (list_del (t_task_node current) ;;
     free_kstack current ;;
     pop_child parent).

(** ** [fork] *)
Definition process_clone (parent child : Z) : PM Z :=
  errno ← on_pmem (vmcopy (t_vm child) (t_vm parent));
  if errno <? 0 then mret errno else
  on_pmem
    (argc ← ld (t_argc parent);
     st (t_argc child) argc ;;
     argv ← kmalloc (MAXARGS * 4);
     st (t_argv child) argv ;;
     for_loop 0 (Z.to_nat MAXARGS) (λ i, a ← kmalloc ARGSIZE; argv ← ld (t_argv child); st (argv + 4 * i) a) ;;
     argc ← ld (t_argc child);
     for_loop 0 (Z.to_nat (i32 argc)) (λ i,
       argv ← ld (t_argv child); a ← ld (argv + 4 * i);
       pargv ← ld (t_argv parent); pa ← ld (pargv + 4 * i);
       string_copy a pa)) ;;
  on_psched (upd_thread child (λ th, Thread (state th) (flag th) NICE_NORMAL (console_id th))) ;;
  on_pmem
    (st (t_fds child) NULL ;;
     eip ← ld (parent + 4 * USEREIP);
     st (t_usreip child) eip ;;
     esp ← ld (parent + 4 * USERESP);
     st (t_usresp child) esp ;;
     copy_words (child + 4 * 1024) (parent + 4 * 1024) 1024) ;;
  mret 0.
(** [parent->children[parent->n_children - 1]]. *)
Definition last_child (parent : Z) : M kstate Z :=
  children ← ld (t_children parent);
  n ← ld64 (t_n_children parent);
  ld (children + 4 * u64 (n - 1)).
Definition do_fork (parent kthread : Z) : PM Z :=
  errno ← process_create parent kthread;
  if errno <? 0 then mret errno else
  child ← on_pmem (last_child parent);
  r ← process_clone parent child;
  if r <? 0 then process_free child ;; mret (-1) else
  on_pmem (t ← ld (t_terminal parent); st (t_terminal child) t) ;;
  on_psched (sched_fork child) ;;
  on_psched (activate_task child) ;;
  modify (λ p, with_ntask (u32 (ntask p + 1)) p) ;;
  on_pmem
    (c ← ld (t_context child);
     st (c_eax c) 0 ;;
     umap_threads child parent ;;
     ld (t_pid child)).
(** [sys_fork]; [ebp] is that register in its frame. *)
Definition sys_fork (ebp : Z) : PM Z :=
  on_psched (modify (with_if false)) ;;
  curr ← GETPRO;
  pid ← do_fork curr 0;
  on_pmem
    (child ← last_child curr;
     c ← ld (t_context child);
     st (c_ebp c) ebp ;;
     b ← ld (c_ebp c);
     eip ← ld (b + 4);
     st (c_eip c) eip ;;
     b ← ld (c_ebp c);
     let stack := u32 (get_esp0 curr - b - 8) in
     st (c_esp c) (u32 (get_esp0 child - stack))) ;;
  on_psched (modify (with_if true)) ;;
  mret (i32 pid).

(** ** [exit]; the result says that the processor goes back to user mode *)
Definition set_console_task (console task : Z) : PM unit :=
  current ← on_pmem (ld CURRENT_VAR);
  if console =? current then on_psched (modify (with_console_task (Some task)))
  else on_pmem (st (con_task console) task).
Definition do_exit (status : Z) : PM bool :=
  child ← GETPRO;
  k ← on_pmem (ldb (t_kthread child));
  shell ← (if negb (k =? 0) then
             on_pmem (argv ← ld (t_argv child); a ← ld argv; same_string a (lit SHELL))
           else mret false);
  if (shell : bool) then update_tss child ;; mret true else
  parent ← on_pmem (ld (t_parent child));
  n ← on_pmem (ld64 (t_n_children child));
  when (negb (n =? 0)) (on_pmem (place_children child)) ;;
  modify (λ p, with_ntask (u32 (ntask p - 1)) p) ;;
  on_pmem (c ← ld (t_context parent); st (c_eax c) status) ;;
  th ← on_psched (get_thread parent);
  console ← on_pmem (consoles ← ld CONSOLES_VAR; ld (consoles + 4 * console_id th));
  set_console_task console parent ;;
  on_psched (sched_exit child parent) ;;
  next ← GETPRO;
  when (negb (child =? next)) (switch_spaces child next) ;;
  mret false.
Definition sys_exit (status : Z) : PM bool :=
  on_psched (modify (with_if false)) ;; do_exit (u8 status).

(** ** Reading *)
Definition do_getpid : PM Z := t ← GETPRO; on_pmem (ld (t_pid t)).
Definition sys_getpid : PM Z := t ← GETPRO; p ← on_pmem (ld (t_pid t)); mret (i32 p).
Definition sys_getppid : PM Z := t ← GETPRO; on_pmem (q ← ld (t_parent t); p ← ld (t_pid q); mret (i32 p)).
(** The byte of a user's address; [strncpy] to it. *)
Definition ustb (va v : Z) : M kstate unit :=
  a ← translate va; modify (λ s, set_word (upd (4 * (a / 4)) (put_byte a v (word s (4 * (a / 4)))) (word s)) s).
Definition args_copy (dest src n i : Z) : M kstate (Z + Z) :=
  c ← ldb (src + i);
  if negb (c =? 0) && (u32 i <? n) then ustb (dest + i) c ;; mret (inl (i32 (i + 1))) else mret (inr i).
Definition args_pad (dest n i : Z) : M kstate (Z + unit) :=
  if u32 i <? n then ustb (dest + i) 0 ;; mret (inl (i32 (i + 1))) else mret (inr ()).
Definition sys_getargs (buf nbytes : Z) : PM Z :=
  curr ← GETPRO;
  on_pmem
    (argc ← ld (t_argc curr);
     if i32 argc <=? 1 then mret (-1) else
     if buf =? NULL then mret (-1) else
     argv ← ld (t_argv curr);
     a ← ld (argv + 4);
     let n := u32 nbytes in
     i ← iter (Datatypes.S (Z.to_nat n)) (args_copy buf a n) 0;
     iter (Datatypes.S (Z.to_nat n)) (args_pad buf n) i ;;
     mret 0).

(** [do_vidmap] of [kernel/vm.c]; [_walk] gives the null pointer where there is
    no page table. *)
Definition do_vidmap (screen_start : Z) : M kstate Z :=
  pte ← _walk screen_start 0 0;
  e ← ld pte;
  if Z.land e PTE_US =? 0 then mret (-1) else
  current ← ld CURRENT_VAR;
  v ← ld (con_vidmap current);
  ust screen_start v ;;
  mret 0.
Definition sys_vidmap (screen_start : Z) : PM Z := on_pmem (do_vidmap screen_start).

(** ** The calls that are not implemented *)
Definition sys_restart : PM Z := mret (-1).
Definition sys_set_handler (signum handler_addr : Z) : PM Z := mret (-1).
Definition sys_sigreturn : PM Z := mret (-1).
Definition sys_wait (wstatus : Z) : PM Z := mret 0.
Definition sys_waitpid (pid wstatus : Z) : PM Z := mret 0.

(** ** [sched_init] of [kernel/cfs.c], up to its jump to [init_task] *)
(** What processes 0 and 1 have in common: their arguments and context. *)
Definition own_args (t : Z) (name : string) : M kstate unit :=
  st (t_argc t) 1 ;;
  argv ← kmalloc 4;
  st (t_argv t) argv ;;
  a ← kmalloc 5;
  argv ← ld (t_argv t);
  st argv a ;;
  argv ← ld (t_argv t);
  a ← ld argv;
  store_string a (lit name) ;;
  c ← kmalloc sizeof_context;
  st (t_context t) c.
(** The run queue is the record of [Cfs]; its load and its clock are not set. *)
Definition new_rq : PM unit :=
  on_pmem (r ← kmalloc sizeof_cfs_rq; st RQ_VAR r) ;;
  on_psched
    (modify (with_nr 0) ;;
     modify (with_current NULL) ;;
     modify (with_left_most NULL) ;;
     on_tree (set_root NULL)).
Definition sched_init : PM unit :=
  idle ← on_pmem alloc_kstack;
  init ← on_pmem alloc_kstack;
  on_psched (new_thread idle ;; new_thread init) ;;
  on_pmem (st IDLE_VAR idle ;; st (t_pid idle) 0) ;;
  on_psched (upd_thread idle (set_state RUNNABLE)) ;;
  on_pmem (st (t_parent idle) NULL ;; stb (t_kthread idle) 1 ;; own_args idle IDLE) ;;
  on_pmem (st INIT_VAR init ;; st (t_pid init) 1) ;;
  on_psched (upd_thread init (set_state RUNNABLE)) ;;
  on_pmem
    (st (t_parent init) idle ;;
     st64 (t_n_children init) 0 ;;
     st (t_children init) NULL ;;
     st64 (t_max_children init) MAXCHILDREN) ;;
  on_psched (upd_thread init (λ th, Thread (state th) (flag th) NICE_INIT (console_id th))) ;;
  on_pmem (stb (t_kthread init) 1 ;; own_args init INIT) ;;
  on_pmem (c ← kmalloc (NTERMINAL * sizeof_console); st CONSOLES_VAR c ;; st CURRENT_VAR NULL) ;;
  on_psched (modify (with_console_task None)) ;;
  on_pmem (st (l_next TASK_QUEUE) TASK_QUEUE ;; st (l_prev TASK_QUEUE) TASK_QUEUE) ;;
  new_rq ;;
  on_psched (e ← get_sched (sched_info init); modify (with_min (vruntime e))) ;;
  on_pmem
    (c ← ld (t_context init);
     st (c_esp c) (get_esp0 init) ;;
     c ← ld (t_context init);
     esp ← ld (c_esp c);
     c ← ld (t_context init);
     st (c_ebp c) esp) ;;
  on_psched
    (modify (with_cpu init) ;;
     modify (with_current (sched_info init)) ;;
     upd_thread init (set_state RUNNING)).
End process.
