(* ===== verification/ProcessProps.v ===== *)
(** * The children of a process

    Against the interface [KernelHeap]: a thread [t] in the kernel's memory,
    its list of children in a block of the heap. *)
From S2P Require Import Prelude Kmalloc KmallocRing KmallocBuddy KmallocPages KmallocAlloc KmallocFree KmallocInit KmallocSource KmallocContract KmallocSlab KmallocSlabOps KmallocSlabFree KmallocHeap KmallocHeapFree KmallocHeapContract KmallocHeapSafe KHeap Vm VmProps VmContract RbTree Cfs MemCalls Process.

(** The words at [p] are [L]. *)
Definition words_at (w : Z -> Z) (p : Z) (L : list Z) : Prop := forall i x, L !! i = Some x -> w (p + 4 * Z.of_nat i) = x.
Lemma words_frame w w' p L : words_at w p L -> (forall x, p <= x < p + 4 * Z.of_nat (length L) -> w' x = w x) -> words_at w' p L.
Proof. intros H Hw i x Hi. pose proof (lookup_lt_Some _ _ _ Hi). rewrite Hw by lia. by apply H. Qed.
Lemma words_app w p L L' : words_at w p L -> words_at w (p + 4 * Z.of_nat (length L)) L' -> words_at w p (L ++ L').
Proof.
  intros H1 H2 i x Hi. apply lookup_app_Some in Hi as [Hi|[Hl Hi]]; [by apply H1|].
  rewrite <-(H2 _ _ Hi). f_equal. lia.
Qed.
(** Copying [n] words that do not overlap. *)
Lemma copy_words_run n : forall dest src s i, 0 <= i ->
  waddrs (4 * (i + Z.of_nat n)) dest -> waddrs (4 * (i + Z.of_nat n)) src ->
  (dest + 4 * (i + Z.of_nat n) <= src \/ src + 4 * (i + Z.of_nat n) <= dest) ->
  (forall j, i <= j < i + Z.of_nat n -> 0 <= word s (src + 4 * j) < 4294967296) ->
  exists w', for_loop i n (λ i, x ← ld (src + 4 * i); st (dest + 4 * i) x) s = Ok (tt, set_word w' s) /\
    (forall j, i <= j < i + Z.of_nat n -> w' (dest + 4 * j) = word s (src + 4 * j)) /\
    forall x, x < dest + 4 * i \/ dest + 4 * (i + Z.of_nat n) <= x -> w' x = word s x.
Proof.
  induction n as [|n IH]; intros dest src s i Hi Hd Hs Ha Hr; cbn [for_loop].
  { exists (word s). split; [by destruct s|]. split; [lia|done]. }
  assert (forall a j, waddrs (4 * (i + Z.of_nat (Datatypes.S n))) a -> 0 <= j < i + Z.of_nat (Datatypes.S n) -> waddr (a + 4 * j)) as Hw.
  { intros a j H Hj. apply (waddrs_field (4 * (i + Z.of_nat (Datatypes.S n)))); [done|lia|lia|lia_mod]. }
  set (s1 := set_word (upd (dest + 4 * i) (word s (src + 4 * i)) (word s)) s).
  rewrite (bind_ok _ _ _ tt s1).
  2:{ rewrite ld_bind by (apply Hw; [done|lia]). apply st_ok; [apply Hw; [done|lia]|apply Hr; lia]. }
  assert (forall x, x < dest + 4 * i \/ dest + 4 * (i + 1) <= x -> word s1 x = word s x) as H1 by (intros x Hx; apply upd_ne; lia).
  destruct (IH dest src s1 (i + 1)) as (w' & Hrun & Hc & Hk); try lia.
  - by replace (i + 1 + Z.of_nat n) with (i + Z.of_nat (Datatypes.S n)) by lia.
  - by replace (i + 1 + Z.of_nat n) with (i + Z.of_nat (Datatypes.S n)) by lia.
  - intros j Hj. rewrite H1 by lia. apply Hr. lia.
  - exists w'. split; [exact Hrun|]. split.
    + intros j Hj. destruct (decide (j = i)) as [->|]; [rewrite Hk by lia; apply upd_eq|]. rewrite Hc by lia. apply H1. lia.
    + intros x Hx. rewrite Hk by lia. apply H1. lia.
Qed.

(** 64-bit fields below [2^32]. *)
Lemma ld64_small s p v : waddr p -> waddr (p + 4) -> word s p = v -> word s (p + 4) = 0 -> ld64 p s = Ok (v, s).
Proof. intros H1 H2 E1 E2. unfold ld64. rewrite ld_bind, ld_bind, E1, E2 by done. by rewrite Z.mul_0_r, Z.add_0_r. Qed.
Lemma st64_small s p v : waddr p -> waddr (p + 4) -> 0 <= v < 4294967296 ->
  st64 p v s = Ok (tt, set_word (upd (p + 4) 0 (upd p v (word s))) s).
Proof.
  intros H1 H2 Hv. unfold st64. rewrite Z.mod_small, u64_id by lia. rewrite st_bind by done.
  replace (v / 4294967296) with 0 by lia_mod. by rewrite st_ok by (done || lia).
Qed.

Section family.
Context {lay : Layout} {tab : Tables_at} (H : kstate -> list (Z * Z) -> list (Z * Z) -> Prop) {KH : KernelHeap H}.
Implicit Types (s : kstate) (Q B : list (Z * Z)) (L : list Z).

(** Thread [t] has the children [L] in a list at [c] with room for [cap]. *)
Record family s Q B (t c cap : Z) L : Prop := {
  fm_word f : f ∈ [112; 116; 120; 124; 128; 132] -> waddr (t + f) /\ spared Q B (t + f);
  fm_list : word s (t + 116) = c;
  fm_n : word s (t + 120) = Z.of_nat (length L) /\ word s (t + 124) = 0;
  fm_max : word s (t + 128) = cap /\ word s (t + 132) = 0;
  fm_entries : words_at (word s) c L;
  fm_ptrs : Forall (λ x, 0 <= x < 4294967296) L;
  fm_cap : Z.of_nat (length L) <= cap /\ 0 < cap <= 1048576
}.

Lemma spared_more Q B B' x : spared Q B x -> B ⊆ B' -> spared Q B' x.
Proof using Type. intros [|[|(b & Hb & Hx)]] HB; [by left|by right; left|right; right]. exists b. auto. Qed.
Lemma spared_block Q B p n x : (p, n) ∈ B -> p <= x < p + n -> spared Q B x.
Proof using Type. intros HB Hx. right. right. by exists (p, n). Qed.
Lemma block_words s Q B p n : H s Q B -> (p, n) ∈ B -> 0 <= n -> waddrs n p /\ HEAP <= p.
Proof using KH.
  intros HH Hin Hn. destruct (kh_apart _ _ _ HH) as (_ & Hrg & _). rewrite Forall_forall in Hrg.
  specialize (Hrg _ Hin). cbn [fst snd] in Hrg. unfold waddrs, HEAP, HEAP_END in *. lia.
Qed.

Ltac listed := rewrite !elem_of_cons; tauto.
Ltac field W := apply W; listed.
Ltac field2 W := rewrite <-Z.add_assoc; field W.
Lemma overflow_none s t n cap : (forall f, f ∈ [112; 116; 120; 124; 128; 132] -> waddr (t + f)) ->
  word s (t + 120) = n -> word s (t + 124) = 0 -> word s (t + 128) = cap -> word s (t + 132) = 0 -> n <> cap ->
  overflow_children t s = Ok (tt, s).
Proof using Type.
  intros W N1 N2 M1 M2 Hne. unfold overflow_children, t_n_children, t_max_children.
  rewrite (bind_ok _ _ _ _ _ (ld64_small s (t + 120) _ ltac:(field W) ltac:(field2 W) N1 ltac:(by rewrite <-Z.add_assoc))).
  rewrite (bind_ok _ _ _ _ _ (ld64_small s (t + 128) _ ltac:(field W) ltac:(field2 W) M1 ltac:(by rewrite <-Z.add_assoc))).
  by rewrite (proj2 (Z.eqb_neq _ _)).
Qed.

Lemma family_move s s' Q B B' t c c' cap cap' L L' : family s Q B t c cap L -> B ⊆ B' ->
  word s' (t + 116) = c' -> word s' (t + 120) = Z.of_nat (length L') -> word s' (t + 124) = 0 ->
  word s' (t + 128) = cap' -> word s' (t + 132) = 0 -> words_at (word s') c' L' -> Forall (λ x, 0 <= x < 4294967296) L' ->
  Z.of_nat (length L') <= cap' -> 0 < cap' <= 1048576 -> family s' Q B' t c' cap' L'.
Proof using Type.
  intros HF HB. intros. split; try done.
  intros f Hf. destruct (fm_word _ _ _ _ _ _ _ HF f Hf) as [W S]. split; [done|by eapply spared_more].
Qed.

Lemma overflow_regions s s1 Q B1 B2 c cap p : H s Q (B1 ++ (c, 4 * cap) :: B2) ->
  H s1 Q ((p, 8 * cap) :: B1 ++ (c, 4 * cap) :: B2) -> 0 <= cap ->
  (waddrs (8 * cap) p /\ HEAP <= p) /\ (waddrs (4 * cap) c /\ HEAP <= c) /\ (p + 8 * cap <= c \/ c + 4 * cap <= p) /\
  forall x, spared Q (B1 ++ B2) x -> (x < p \/ p + 8 * cap <= x) /\ (x < c \/ c + 4 * cap <= x).
Proof using KH.
  intros HH HH1 Hc. assert ((c, 4 * cap) ∈ B1 ++ (c, 4 * cap) :: B2) as Hin by (apply elem_of_app; right; by left).
  split; [by apply (block_words _ _ _ p (8 * cap) HH1); [left|lia]|].
  split; [by apply (block_words _ _ _ c (4 * cap) HH); [|lia]|]. split.
  - destruct (kh_apart _ _ _ HH1) as ([Hap _] & _). rewrite Forall_forall in Hap.
    specialize (Hap _ Hin). unfold bytes_apart in Hap. cbn [fst snd] in Hap. lia.
  - intros x Hx. split; [apply (spared_not_in H _ Q [] p (8 * cap) (B1 ++ (c, 4 * cap) :: B2) x HH1)|by eapply (spared_not_in H)].
    eapply spared_more; [exact Hx|]. intros b Hb. cbn [app]. rewrite elem_of_app in Hb |- *. rewrite elem_of_cons. tauto.
Qed.

(** The list is full: a new one of twice the size, and the old one freed. *)
Lemma overflow_full s Q B1 B2 t c cap L p s1 : H s Q (B1 ++ (c, 4 * cap) :: B2) -> family s Q (B1 ++ B2) t c cap L ->
  Z.of_nat (length L) = cap -> cap <= 524288 -> even_request (8 * cap) = true -> kmalloc (8 * cap) s = Ok (p, s1) -> p <> NULL ->
  exists w', overflow_children t s = Ok (tt, set_word w' s) /\ H (set_word w' s) Q ((p, 8 * cap) :: B1 ++ B2) /\
    family (set_word w' s) Q (B1 ++ B2) t p (2 * cap) L /\
    forall x, spared Q (B1 ++ B2) x -> x <> t + 116 -> x <> t + 128 -> x <> t + 132 -> w' x = word s x.
Proof using KH.
  intros HH HF Hlen Hcap He Hk Hp. pose proof (fm_cap _ _ _ _ _ _ _ HF) as Hc0.
  pose proof (λ f Hf, proj1 (fm_word _ _ _ _ _ _ _ HF f Hf)) as W. pose proof (λ f Hf, proj2 (fm_word _ _ _ _ _ _ _ HF f Hf)) as SP.
  destruct (fm_n _ _ _ _ _ _ _ HF) as [N1 N2], (fm_max _ _ _ _ _ _ _ HF) as [M1 M2]. pose proof (fm_list _ _ _ _ _ _ _ HF) as C1.
  destruct (kh_alloc s Q _ (8 * cap) p s1 HH ltac:(lia) He Hk Hp) as (w1 & -> & HH1 & HS1).
  destruct (overflow_regions _ _ _ _ _ _ _ _ HH HH1 ltac:(lia)) as (Wp & Wc & Hpc & Hout).
  assert (forall x, spared Q (B1 ++ B2) x -> w1 x = word s x) as K1.
  { intros x Hx. apply HS1. eapply spared_more; [exact Hx|]. intros b Hb. rewrite elem_of_app in Hb |- *. rewrite elem_of_cons. tauto. }
  assert (forall j, 0 <= j < cap -> exists v, L !! Z.to_nat j = Some v /\ w1 (c + 4 * j) = v /\ 0 <= v < 4294967296) as KL.
  { intros j Hj. destruct (lookup_lt_is_Some_2 L (Z.to_nat j)) as [v Hv]; [lia|]. exists v. split; [done|]. split.
    - rewrite HS1. { rewrite <-(Z2Nat.id j) by lia. by apply (fm_entries _ _ _ _ _ _ _ HF). }
      eapply spared_block; [apply elem_of_app; right; by left|lia].
    - exact (Forall_lookup_1 _ _ _ _ (fm_ptrs _ _ _ _ _ _ _ HF) Hv). }
  (* the copy *)
  destruct (copy_words_run (Z.to_nat cap) p c (set_word w1 s) 0) as (w2 & Hcp & C2 & K2).
  { lia. } { unfold waddrs in *. lia. } { unfold waddrs in *. lia. } { lia. }
  { intros j Hj. cbn [word set_word]. destruct (KL j ltac:(lia)) as (v & _ & -> & Hv). done. }
  cbn [word set_word] in C2, K2. rewrite Z.add_0_l, Z2Nat.id in * by lia.
  (* the capacity, then the free *)
  set (w3 := upd (t + 132) 0 (upd (t + 128) (2 * cap) w2)).
  assert (H (set_word w3 (set_word w1 s)) Q (((p, 8 * cap) :: B1) ++ (c, 4 * cap) :: B2)) as HH3.
  { apply kh_write; [exact HH1|]. intros x. cbn [word set_word]. unfold w3.
    destruct (decide (x = t + 132 \/ x = t + 128)) as [Hx|Hx].
    - right. eapply (spared_more Q (B1 ++ B2)).
      { destruct Hx as [->| ->]; field SP. }
      intros b Hb. cbn [app]. rewrite elem_of_app in Hb. rewrite elem_of_cons, elem_of_app, elem_of_cons. tauto.
    - rewrite !upd_ne by lia. destruct (decide (p <= x < p + 8 * cap)) as [Hi|Hi].
      + right. by eapply spared_block; [left|].
      + left. apply K2. lia. }
  destruct (kh_free _ Q ((p, 8 * cap) :: B1) c (4 * cap) B2 HH3) as (w4 & Hf & HH4 & HS4). cbn [app] in HH4, HS4.
  assert (forall x, spared Q (B1 ++ B2) x -> x <> t + 128 -> x <> t + 132 -> w4 x = word s x) as K4.
  { intros x Hx H1 H2. rewrite HS4 by (eapply spared_more; [exact Hx|by right]). cbn [word set_word]. unfold w3. rewrite !upd_ne by done.
    destruct (Hout x Hx). rewrite K2 by lia. by apply K1. }
  assert (w4 (t + 128) = 2 * cap /\ w4 (t + 132) = 0) as [X1 X2].
  { split; (rewrite HS4; [|eapply spared_more; [field SP|by right]]); cbn [word set_word]; unfold w3;
      [rewrite upd_ne by lia|]; apply upd_eq. }
  exists (upd (t + 116) p w4). split; [|split; [|split]].
  - unfold overflow_children, t_n_children, t_max_children, t_children.
    rewrite (bind_ok _ _ _ _ _ (ld64_small s (t + 120) _ ltac:(field W) ltac:(field2 W) N1 ltac:(by rewrite <-Z.add_assoc))).
    rewrite (bind_ok _ _ _ _ _ (ld64_small s (t + 128) _ ltac:(field W) ltac:(field2 W) M1 ltac:(by rewrite <-Z.add_assoc))).
    rewrite Hlen, Z.eqb_refl. cbn [when].
    rewrite (bind_ok _ _ _ _ _ (ld64_small s (t + 128) _ ltac:(field W) ltac:(field2 W) M1 ltac:(by rewrite <-Z.add_assoc))).
    replace (cap * 2 * 4) with (8 * cap) by lia. rewrite i32_id by lia. rewrite (bind_ok _ _ _ _ _ Hk).
    assert (forall f, f ∈ [112; 116; 120; 124; 128; 132] -> w1 (t + f) = word s (t + f)) as KF by (intros f Hf'; by apply K1, SP).
    rewrite ld_bind by field W. cbn [word set_word]. rewrite KF, C1 by listed.
    rewrite (bind_ok _ _ _ cap (set_word w1 s)) by (apply ld64_small; [field W|field2 W| |];
      cbn [word set_word]; rewrite <-?Z.add_assoc, KF by listed; done).
    unfold copy_words. rewrite u32_id by lia. replace (cap * 4 / 4) with cap by lia_mod. rewrite (bind_ok _ _ _ _ _ Hcp).
    rewrite u64_id by lia. replace (cap * 2) with (2 * cap) by lia.
    rewrite (bind_ok _ _ _ _ _ (st64_small _ (t + 128) (2 * cap) ltac:(field W) ltac:(field2 W) ltac:(lia))).
    rewrite <-Z.add_assoc. change (128 + 4) with 132. cbn [word set_word]. fold w3.
    rewrite ld_bind by field W. cbn [word set_word].
    replace (w3 (t + 116)) with c.
    2:{ unfold w3. rewrite !upd_ne by lia. destruct (Hout (t + 116)); [field SP|].
        rewrite K2 by lia. rewrite KF by listed. done. }
    rewrite (bind_ok _ _ _ _ _ Hf). rewrite st_ok by (field W || (unfold waddrs in Wp; lia)). done.
  - apply (kh_write (upd (t + 116) p w4) (set_word w4 s)) in HH4; [done|]. intros x. cbn [word set_word].
    destruct (decide (x = t + 116)) as [->|]; [right|left; by apply upd_ne].
    eapply spared_more; [field SP|by right].
  - assert (forall f, f ∈ [112; 120; 124] -> upd (t + 116) p w4 (t + f) = word s (t + f)) as KF.
    { intros f Hf'. rewrite !elem_of_cons, elem_of_nil in Hf'. rewrite upd_ne by lia.
      apply K4; [field SP|lia|lia]. }
    eapply (family_move s); [exact HF|done|..]; cbn [word set_word].
    + apply upd_eq.
    + rewrite KF by listed. done.
    + rewrite KF by listed. done.
    + by rewrite upd_ne by lia.
    + by rewrite upd_ne by lia.
    + intros i x Hi. pose proof (lookup_lt_Some _ _ _ Hi). destruct (Hout (t + 116)); [field SP|].
      rewrite upd_ne by lia. rewrite HS4 by (eapply spared_block; [by left|lia]). cbn [word set_word]. unfold w3.
      destruct (Hout (t + 128)); [field SP|]. destruct (Hout (t + 132)); [field SP|].
      rewrite !upd_ne by lia. rewrite C2 by lia. destruct (KL (Z.of_nat i) ltac:(lia)) as (v & Hv & -> & _). rewrite Nat2Z.id in Hv. congruence.
    + apply (fm_ptrs _ _ _ _ _ _ _ HF).
    + lia.
    + lia.
  - intros x Hx H1 H2 H3. rewrite upd_ne by done. by apply K4.
Qed.

(** ** Orphans *)
(** Where the words of a thread are that this code touches. *)
Definition fields : list Z := [112; 116; 120; 124; 128; 132].
Definition strangers (x y : Z) : Prop := x + 196 <= y \/ y + 196 <= x.

(** After [i] of the children [L] of [t] went to the list [cg] of [g], which had [k]. *)
Record placed (w0 w : Z -> Z) (g cg k : Z) (L : list Z) (i : nat) : Prop := {
  pl_n : w (g + 120) = k + Z.of_nat i /\ w (g + 124) = 0;
  pl_list : words_at w (cg + 4 * k) (take i L);
  pl_parent x : x ∈ take i L -> w (x + 112) = g;
  pl_rest a : a <> g + 120 -> a <> g + 124 -> a < cg + 4 * k \/ cg + 4 * (k + Z.of_nat (length L)) <= a ->
    (forall x, x ∈ L -> a <> x + 112) -> w a = w0 a
}.
Lemma placed_start w0 g cg k L : w0 (g + 120) = k -> w0 (g + 124) = 0 -> placed w0 w0 g cg k L 0.
Proof using Type.
  intros H1 H2. split; [lia|by intros i x; rewrite take_0, lookup_nil|intros x; rewrite take_0; by intros ?%elem_of_nil|done].
Qed.
Lemma placed_step w0 w g cg k L i x : placed w0 w g cg k L i -> L !! i = Some x -> 0 <= k -> strangers x g ->
  (forall y, y ∈ x :: L -> (y + 112 < cg \/ cg + 4 * (k + Z.of_nat (length L)) <= y + 112) /\ y + 112 <> g + 120 /\ y + 112 <> g + 124) ->
  (g + 124 < cg \/ cg + 4 * (k + Z.of_nat (length L)) <= g + 120) ->
  placed w0 (upd (x + 112) g (upd (cg + 4 * (k + Z.of_nat i)) x (upd (g + 124) 0 (upd (g + 120) (k + Z.of_nat i + 1) w))))
    g cg k L (Datatypes.S i).
Proof using Type.
  intros [[N1 N2] HL HP HR] Hi Hk Hg Hy Hgc. pose proof (lookup_lt_Some _ _ _ Hi) as Hlt.
  destruct (Hy x ltac:(by left)) as (Hx1 & Hx2 & Hx3). split.
  - rewrite !(upd_ne (x + 112)), !(upd_ne (cg + _)), upd_eq by lia. rewrite upd_ne, upd_eq by lia. lia.
  - intros j y Hj. apply lookup_take_Some in Hj as [Hj Hlj].
    rewrite (upd_ne (x + 112)) by lia. destruct (decide (j = i)) as [->|].
    { replace (cg + 4 * k + 4 * Z.of_nat i) with (cg + 4 * (k + Z.of_nat i)) by lia. rewrite upd_eq. congruence. }
    rewrite !upd_ne by lia. apply HL. apply lookup_take_Some. split; [done|lia].
  - intros y Hin. destruct (decide (y = x)) as [->|Hne]; [apply upd_eq|].
    rewrite (take_S_r _ _ _ Hi) in Hin. apply elem_of_app in Hin as [Hin|?%list_elem_of_singleton]; [|done].
    destruct (Hy y) as (? & ? & ?); [right; rewrite <-(take_drop i L); apply elem_of_app; by left|].
    rewrite !upd_ne by lia. by apply HP.
  - intros a A1 A2 A3 A4. assert (a <> x + 112) by (apply A4; by eapply list_elem_of_lookup_2).
    rewrite !upd_ne by lia. by apply HR.
Qed.

(** [x] joins [cg]. *)
Lemma push_child_run s g cg n x : (forall f, f ∈ [112; 116; 120; 124; 128; 132] -> waddr (g + f)) -> waddr (cg + 4 * n) ->
  word s (g + 116) = cg -> word s (g + 120) = n -> word s (g + 124) = 0 -> 0 <= n < 1048576 -> 0 <= x < 4294967296 ->
  push_child g x s = Ok (tt, set_word (upd (cg + 4 * n) x (upd (g + 124) 0 (upd (g + 120) (n + 1) (word s)))) s).
Proof using Type.
  intros W Wn C1 N1 N2 Hn Hx. unfold push_child, t_children, t_n_children. rewrite ld_bind, C1 by field W.
  rewrite (bind_ok _ _ _ _ _ (ld64_small s (g + 120) _ ltac:(field W) ltac:(field2 W) N1 ltac:(by rewrite <-Z.add_assoc))).
  rewrite u64_id by lia.
  rewrite (bind_ok _ _ _ _ _ (st64_small s (g + 120) (n + 1) ltac:(field W) ltac:(field2 W) ltac:(lia))).
  rewrite st_ok by (done || lia). by rewrite <-Z.add_assoc.
Qed.

(** The words of [L]'s threads, of [t] and of its list, against those that are written. *)
Definition written (g cg k : Z) L (a : Z) : Prop :=
  a = g + 120 \/ a = g + 124 \/ cg + 4 * k <= a < cg + 4 * (k + Z.of_nat (length L)) \/ exists x, x ∈ L /\ a = x + 112.
Lemma place_turn s Q B t c cap L g cg capg G i x w : family s Q B t c cap L -> family s Q B g cg capg G ->
  placed (word s) w g cg (Z.of_nat (length G)) L i -> L !! i = Some x -> Z.of_nat (length G + length L) <= capg ->
  waddrs (4 * capg) cg -> waddrs (4 * cap) c -> waddr (x + 112) -> 0 <= g < 4294967296 ->
  (forall a, a ∈ [t + 116; t + 120; t + 124; g + 116; g + 128; g + 132] \/ c <= a < c + 4 * cap ->
     ~ written g cg (Z.of_nat (length G)) L a) ->
  place_body t g (Z.of_nat i) (set_word w s) = Ok (inl (Z.of_nat (Datatypes.S i)),
    set_word (upd (x + 112) g (upd (cg + 4 * (Z.of_nat (length G) + Z.of_nat i)) x
      (upd (g + 124) 0 (upd (g + 120) (Z.of_nat (length G) + Z.of_nat i + 1) w)))) s).
Proof using Type.
  intros HT HG HP Hi Hroom Wg Wc Wx Hg Hsep. pose proof (lookup_lt_Some _ _ _ Hi) as Hlt.
  pose proof (λ f Hf, proj1 (fm_word _ _ _ _ _ _ _ HT f Hf)) as WT. pose proof (λ f Hf, proj1 (fm_word _ _ _ _ _ _ _ HG f Hf)) as WG.
  destruct (fm_n _ _ _ _ _ _ _ HT) as [N1 N2], (fm_max _ _ _ _ _ _ _ HG) as [M1 M2], (fm_cap _ _ _ _ _ _ _ HT) as [P1 P2], (fm_cap _ _ _ _ _ _ _ HG) as [P3 P4].
  pose proof (fm_list _ _ _ _ _ _ _ HT) as C1. pose proof (fm_list _ _ _ _ _ _ _ HG) as C2.
  set (k := Z.of_nat (length G)) in *. destruct HP as [[K1 K2] KL KP KR].
  assert (forall a, ~ written g cg k L a -> w a = word s a) as KW.
  { intros a Ha. unfold written in Ha. apply KR; [tauto|tauto|lia|]. intros y Hy ->. apply Ha. eauto 6. }
  assert (0 <= x < 4294967296) as Hx by exact (Forall_lookup_1 _ _ _ _ (fm_ptrs _ _ _ _ _ _ _ HT) Hi).
  assert (w (c + 4 * Z.of_nat i) = x) as Ex.
  { rewrite KW by (apply Hsep; lia). by apply (fm_entries _ _ _ _ _ _ _ HT). }
  assert (waddr (c + 4 * Z.of_nat i)) as Wci by (unfold waddrs, waddr in *; split; [lia|lia_mod]).
  assert (waddr (cg + 4 * (k + Z.of_nat i))) as Wgi by (unfold waddrs, waddr in *; split; [lia|lia_mod]).
  unfold place_body, t_n_children, t_children, t_parent.
  rewrite (bind_ok _ _ _ (Z.of_nat (length L)) (set_word w s)) by (apply ld64_small; [field WT|field2 WT| |]; cbn [word set_word];
    rewrite <-?Z.add_assoc, KW by (apply Hsep; left; listed); done).
  rewrite (proj2 (Z.ltb_lt _ _)) by lia.
  rewrite (bind_ok _ _ _ tt (set_word w s)).
  2:{ apply (overflow_none _ _ (k + Z.of_nat i) capg); [exact WG|done|done| | |lia]; cbn [word set_word]; rewrite KW by (apply Hsep; left; listed); done. }
  rewrite ld_bind by field WT. cbn [word set_word]. rewrite KW, C1 by (apply Hsep; left; listed).
  rewrite ld_bind by done. cbn [word set_word]. rewrite Ex.
  assert (word (set_word w s) (g + 116) = cg) as E1 by (cbn [word set_word]; rewrite KW by (apply Hsep; left; listed); done).
  rewrite (bind_ok _ _ _ _ _ (push_child_run _ g cg (k + Z.of_nat i) x WG Wgi E1 K1 K2 ltac:(lia) Hx)). cbn [word set_word].
  assert (forall a, a ∈ [t + 116; t + 120; t + 124; g + 116; g + 128; g + 132] \/ c <= a < c + 4 * cap ->
    upd (cg + 4 * (k + Z.of_nat i)) x (upd (g + 124) 0 (upd (g + 120) (k + Z.of_nat i + 1) w)) a = w a) as KU.
  { intros a Ha. specialize (Hsep a Ha). unfold written in Hsep. rewrite !upd_ne by lia. done. }
  rewrite ld_bind by field WT. cbn [word set_word]. rewrite KU, KW, C1 by (try apply Hsep; left; listed).
  rewrite ld_bind by done. cbn [word set_word]. rewrite KU, Ex by lia.
  rewrite st_bind by done. replace (Z.of_nat i + 1) with (Z.of_nat (Datatypes.S i)) by lia. done.
Qed.

(** What [place_children] relies on: two threads with their lists in blocks of
    the heap, room in the parent's, and the threads of [L] elsewhere. *)
Record reunion s Q B t c cap L g cg capg G : Prop := {
  ru_child : family s Q [] t c cap L;
  ru_parent : family s Q [] g cg capg G;
  ru_link : word s (t + 112) = g /\ 0 <= g < 4294967296;
  ru_room : Z.of_nat (length G + length L) <= capg;
  ru_lists : exists B1 B2 B3, B = B1 ++ (c, 4 * cap) :: B2 ++ (cg, 4 * capg) :: B3 \/ B = B1 ++ (cg, 4 * capg) :: B2 ++ (c, 4 * cap) :: B3;
  ru_orphans : Forall (λ x, spared Q [] (x + 112) /\ waddr (x + 112) /\ strangers x t /\ strangers x g) L;
  ru_strangers : strangers t g
}.
Lemma reunion_lists s Q B t c cap L g cg capg G : H s Q B -> reunion s Q B t c cap L g cg capg G ->
  waddrs (4 * cap) c /\ waddrs (4 * capg) cg /\ (c + 4 * cap <= cg \/ cg + 4 * capg <= c) /\
  (forall a, spared Q [] a -> (a < c \/ c + 4 * cap <= a) /\ (a < cg \/ cg + 4 * capg <= a)) /\
  (c, 4 * cap) ∈ B /\ (cg, 4 * capg) ∈ B.
Proof using KH.
  intros HH HR. destruct (ru_lists _ _ _ _ _ _ _ _ _ _ _ HR) as (B1 & B2 & B3 & HB).
  assert ((c, 4 * cap) ∈ B /\ (cg, 4 * capg) ∈ B) as [I1 I2] by (destruct HB as [-> | ->]; rewrite !elem_of_app, !elem_of_cons, !elem_of_app, !elem_of_cons; tauto).
  destruct (fm_cap _ _ _ _ _ _ _ (ru_child _ _ _ _ _ _ _ _ _ _ _ HR)), (fm_cap _ _ _ _ _ _ _ (ru_parent _ _ _ _ _ _ _ _ _ _ _ HR)).
  split; [by apply (block_words _ _ _ _ _ HH I1); lia|]. split; [by apply (block_words _ _ _ _ _ HH I2); lia|].
  assert (forall p n a, (p, n) ∈ B -> spared Q [] a -> a < p \/ p + n <= a) as HO.
  { intros p n a (l1 & l2 & ->)%list_elem_of_split Ha. eapply (spared_not_in H); [exact HH|]. eapply spared_more; [exact Ha|]. by intros b ?%elem_of_nil. }
  split; [|split; [intros a Ha; split; by apply HO|done]].
  assert (forall a b, bytes_apart a b -> bytes_apart b a) as Hsym by (unfold bytes_apart; lia).
  destruct (kh_apart _ _ _ HH) as (Hap & _).
  assert (bytes_apart (c, 4 * cap) (cg, 4 * capg)) as Hb; [|unfold bytes_apart in Hb; cbn [fst snd] in Hb; lia].
  destruct HB as [-> | ->]; apply pairwise_app in Hap as (_ & [Hap _] & _); rewrite Forall_forall in Hap; [|apply Hsym];
    apply Hap; rewrite elem_of_app, elem_of_cons; tauto.
Qed.
Lemma reunion_apart s Q B t c cap L g cg capg G : H s Q B -> reunion s Q B t c cap L g cg capg G ->
  forall a, a ∈ [t + 116; t + 120; t + 124; t + 128; t + 132; g + 116; g + 128; g + 132] \/ c <= a < c + 4 * cap \/ cg <= a < cg + 4 * Z.of_nat (length G) ->
  ~ written g cg (Z.of_nat (length G)) L a.
Proof using KH.
  intros HH HR a Ha. destruct (reunion_lists _ _ _ _ _ _ _ _ _ _ _ HH HR) as (_ & _ & Hap & HO & _).
  pose proof (λ f Hf, proj2 (fm_word _ _ _ _ _ _ _ (ru_child _ _ _ _ _ _ _ _ _ _ _ HR) f Hf)) as ST.
  pose proof (λ f Hf, proj2 (fm_word _ _ _ _ _ _ _ (ru_parent _ _ _ _ _ _ _ _ _ _ _ HR) f Hf)) as SG.
  pose proof (ru_room _ _ _ _ _ _ _ _ _ _ _ HR) as Hroom. pose proof (ru_strangers _ _ _ _ _ _ _ _ _ _ _ HR) as Htg.
  pose proof (ru_orphans _ _ _ _ _ _ _ _ _ _ _ HR) as HL. rewrite Forall_forall in HL. unfold strangers in *.
  destruct (fm_cap _ _ _ _ _ _ _ (ru_child _ _ _ _ _ _ _ _ _ _ _ HR)) as [_ Hcap].
  pose proof (HO (g + 120) ltac:(field SG)) as G1. pose proof (HO (g + 124) ltac:(field SG)) as G2.
  assert (forall x, x ∈ L -> (x + 112 < c \/ c + 4 * cap <= x + 112) /\ (x + 112 < cg \/ cg + 4 * capg <= x + 112) /\
    (x + 196 <= t \/ t + 196 <= x) /\ (x + 196 <= g \/ g + 196 <= x)) as HX.
  { intros x Hx. destruct (HL x Hx) as (Hs & _ & H1 & H2). destruct (HO _ Hs). done. }
  clear HL. rewrite Nat2Z.inj_add in Hroom.
  assert (forall f, f ∈ [116; 120; 124; 128; 132] -> ~ written g cg (Z.of_nat (length G)) L (t + f)) as FT.
  { intros f Hf. assert (spared Q [] (t + f)) as Hs by (apply ST; clear -Hf; rewrite !elem_of_cons in Hf; listed). destruct (HO _ Hs) as [_ Hs2].
    rewrite !elem_of_cons, elem_of_nil in Hf. clear -Hf Hs2 Hroom Htg HX. intros [E|[E|[E|(x & Hx & E)]]]; [lia|lia|lia|].
    destruct (HX x Hx) as (_ & _ & Ht & _). lia. }
  assert (forall f, f ∈ [116; 128; 132] -> ~ written g cg (Z.of_nat (length G)) L (g + f)) as FG.
  { intros f Hf. assert (spared Q [] (g + f)) as Hs by (apply SG; clear -Hf; rewrite !elem_of_cons in Hf; listed). destruct (HO _ Hs) as [_ Hs2].
    rewrite !elem_of_cons, elem_of_nil in Hf. clear -Hf Hs2 Hroom HX. intros [E|[E|[E|(x & Hx & E)]]]; [lia|lia|lia|].
    destruct (HX x Hx) as (_ & _ & _ & Ht). lia. }
  destruct Ha as [Ha|Ha].
  { rewrite !elem_of_cons, elem_of_nil in Ha.
    clear -Ha FT FG. repeat (destruct Ha as [->|Ha]; [(apply FT || apply FG); listed|]). done. }
  clear -Ha Hap G1 G2 Hroom HX. intros [E|[E|[E|(x & Hx & E)]]]; [lia..|]. destruct (HX x Hx) as (X1 & X2 & _). lia.
Qed.

Lemma place_loop s Q B t c cap L g cg capg G : H s Q B -> reunion s Q B t c cap L g cg capg G ->
  forall d fuel i w, (i + d = length L)%nat -> placed (word s) w g cg (Z.of_nat (length G)) L i -> (d < fuel)%nat ->
  exists w', iter fuel (place_body t g) (Z.of_nat i) (set_word w s) = Ok (tt, set_word w' s) /\
    placed (word s) w' g cg (Z.of_nat (length G)) L (length L).
Proof using KH.
  intros HH HR. pose proof (reunion_apart _ _ _ _ _ _ _ _ _ _ _ HH HR) as Hsep.
  destruct (reunion_lists _ _ _ _ _ _ _ _ _ _ _ HH HR) as (Wc & Wg & _ & HO & _).
  destruct HR as [HT HG [Hl Hg] Hroom _ HL Htg]. rewrite Forall_forall in HL.
  pose proof (λ f Hf, proj2 (fm_word _ _ _ _ _ _ _ HG f Hf)) as SG.
  induction d as [|d IH]; intros [|fuel] i w Hi HP Hfuel; try lia.
  - exists w. replace i with (length L) in * by lia. split; [|done]. apply iter_stop.
    destruct (fm_n _ _ _ _ _ _ _ HT) as [N1 N2]. pose proof (λ f Hf, proj1 (fm_word _ _ _ _ _ _ _ HT f Hf)) as WT.
    assert (forall a, ~ written g cg (Z.of_nat (length G)) L a -> w a = word s a) as KW.
    { intros a Ha. unfold written in Ha. apply (pl_rest _ _ _ _ _ _ _ HP); [tauto|tauto|lia|]. intros y Hy ->. apply Ha. eauto 6. }
    unfold place_body, t_n_children.
    rewrite (bind_ok _ _ _ (Z.of_nat (length L)) (set_word w s)) by (apply ld64_small; [field WT|field2 WT| |]; cbn [word set_word];
      rewrite <-?Z.add_assoc, KW by (apply Hsep; left; listed); done).
    by rewrite Z.ltb_irrefl.
  - destruct (lookup_lt_is_Some_2 L i) as [x Hx]; [lia|]. destruct (HL x ltac:(by eapply list_elem_of_lookup_2)) as (Hs & Hw & H1 & H2).
    rewrite (iter_next _ _ _ _ _ _ (place_turn _ _ _ _ _ _ _ _ _ _ _ _ _ _ HT HG HP Hx Hroom Wg Wc Hw Hg
      ltac:(intros a Ha; apply Hsep; rewrite !elem_of_cons, elem_of_nil in Ha; rewrite !elem_of_cons; tauto))).
    apply IH; [lia| |lia]. apply placed_step; [done|done|lia|done| |].
    + intros y Hy. assert (y ∈ L) as Hy' by (apply elem_of_cons in Hy as [->|]; [by eapply list_elem_of_lookup_2|done]).
      destruct (HL y Hy') as (Hys & _ & _ & Hyg). destruct (HO _ Hys). unfold strangers in Hyg. lia.
    + destruct (HO (g + 120) ltac:(field SG)), (HO (g + 124) ltac:(field SG)). destruct (fm_cap _ _ _ _ _ _ _ HG). lia.
Qed.

Lemma placed_safe s Q B t c cap L g cg capg G w x : H s Q B -> reunion s Q B t c cap L g cg capg G ->
  placed (word s) w g cg (Z.of_nat (length G)) L (length L) -> w x = word s x \/ spared Q B x.
Proof using KH.
  intros HH HR HP. destruct (reunion_lists _ _ _ _ _ _ _ _ _ _ _ HH HR) as (_ & _ & _ & _ & _ & Hin).
  pose proof (λ f Hf, proj2 (fm_word _ _ _ _ _ _ _ (ru_parent _ _ _ _ _ _ _ _ _ _ _ HR) f Hf)) as SG.
  pose proof (ru_room _ _ _ _ _ _ _ _ _ _ _ HR) as Hroom. pose proof (ru_orphans _ _ _ _ _ _ _ _ _ _ _ HR) as HL. rewrite Forall_forall in HL.
  destruct (decide (x = g + 120)) as [->|]; [right; eapply spared_more; [field SG|by intros ? ?%elem_of_nil]|].
  destruct (decide (x = g + 124)) as [->|]; [right; eapply spared_more; [field SG|by intros ? ?%elem_of_nil]|].
  destruct (decide (cg + 4 * Z.of_nat (length G) <= x < cg + 4 * (Z.of_nat (length G) + Z.of_nat (length L)))).
  { right. eapply spared_block; [exact Hin|lia]. }
  destruct (decide (x ∈ (λ y, y + 112) <$> L)) as [(y & -> & Hy)%list_elem_of_fmap|Hn].
  { right. eapply spared_more; [by apply HL|by intros ? ?%elem_of_nil]. }
  left. apply (pl_rest _ _ _ _ _ _ _ HP); [done|done|lia|]. intros y Hy ->. apply Hn. by apply (list_elem_of_fmap_2 (λ y, y + 112)).
Qed.


End family.

(** ** Threads in a booted kernel *)
Section witnesses.
#[local] Existing Instance sample_layout.
#[local] Existing Instance sample_layout_ok.
#[local] Existing Instance sample_tables.
Definition put_words (l : list (Z * Z)) (w : Z -> Z) : Z -> Z := foldr (λ p w, upd p.1 p.2 w) w l.
Lemma put_words_in l w x : put_words l w x = w x \/ x ∈ l.*1.
Proof.
  induction l as [|[a v] l IH]; [by left|]. cbn [put_words foldr fst snd fmap list_fmap]. destruct (decide (x = a)) as [->|]; [right; by left|].
  rewrite upd_ne by done. destruct IH; [by left|right; by right].
Qed.
Lemma spare_words Q B x : 6000000 <= x < 7000000 -> spared Q B x.
Proof.
  intros Hx. left. split; [|unfold other_static; cbn; lia].
  unfold foreign, HEAP. change FREE_AREA with 5242880. change FREE_LIST with 5243136. change BIT_MAP with 5243392. lia.
Qed.
Lemma field_words Q B t : 6000000 <= t < 6900000 -> t mod 4 = 0 ->
  forall f, f ∈ [112; 116; 120; 124; 128; 132] -> waddr (t + f) /\ spared Q B (t + f).
Proof.
  intros Ht Hm f Hf. rewrite !elem_of_cons, elem_of_nil in Hf. split; [|apply spare_words; lia]. unfold waddr. split; [lia|lia_mod].
Qed.
Lemma put_words_run l s Q F A hs B : Run s Q F A hs B ->
  Forall (λ x, 6000000 <= x < 7000000 \/ exists b, b ∈ B /\ in_block x b) l.*1 -> Run (set_word (put_words l (word s)) s) Q F A hs B.
Proof.
  intros HR Hl. apply run_writes; [exact HR|]. intros x. destruct (put_words_in l (word s) x) as [|Hx]; [by left|right].
  rewrite Forall_forall in Hl. destruct (Hl x Hx) as [H|H]; [by apply spare_words|right; by right].
Qed.
Lemma small_lists n F1 s A B a m : Run s [] [(a, m)] A [] B -> 0 < n < 4080 -> units n mod 2 = 0 ->
  first_fit (units n) [(a, m)] = Some ([], (a, m), []) -> rest_of (units n) (a, m) = [F1] ->
  exists w', kmalloc n s = Ok (a + 16, set_word w' s) /\ Run (set_word w' s) [] [F1] ((a, units n) :: A) [] ((a + 16, n) :: B).
Proof.
  intros HR Hn Hu Hf Hr. destruct (run_alloc_small _ _ _ _ _ _ _ _ _ _ HR Hn Hu Hf) as (w' & Hk & HR' & _).
  exists w'. split; [exact Hk|]. cbn [fst app] in HR'. by rewrite Hr in HR'.
Qed.

(** A thread at 6400000 with a full list of four in the block of 16 bytes. *)
Definition full_list : list (Z * Z) :=
  [(6400116, HEAP + 16); (6400120, 4); (6400124, 0); (6400128, 4); (6400132, 0);
   (HEAP + 16, 6408192); (HEAP + 20, 6416384); (HEAP + 24, 6424576); (HEAP + 28, 6432768)].

(** The thread 6416384 with the child 6424576, and its parent 6400000, with
    lists of four words. *)
Definition two_lists : list (Z * Z) :=
  [(6416496, 6400000); (6416500, HEAP + 48); (6416504, 1); (6416508, 0); (6416512, 4); (6416516, 0); (HEAP + 48, 6424576);
   (6400116, HEAP + 16); (6400120, 1); (6400124, 0); (6400128, 4); (6400132, 0); (HEAP + 16, 6416384); (6424688, 6416384)].
Lemma two_blocks : exists s, Running (set_word (put_words two_lists (word s)) s) [] [(HEAP + 48, 16); (HEAP + 16, 16)].
Proof.
  destruct booted_slabs as (s0 & _ & _ & _ & HR0).
  destruct (small_lists 16 (HEAP + 32, 524284) s0 [] [] HEAP 524288 HR0 ltac:(done) eq_refl eq_refl eq_refl) as (w1 & _ & HR1).
  destruct (small_lists 16 (HEAP + 64, 524280) _ _ _ _ _ HR1 ltac:(done) eq_refl eq_refl eq_refl) as (w2 & _ & HR2).
  exists (set_word w2 (set_word w1 s0)). eexists _, _, _. apply (put_words_run two_lists) in HR2; [exact HR2|].
  unfold two_lists. cbn [fmap list_fmap fst].
  repeat (apply Forall_cons_2; [first [by left|right; exists (HEAP + 16, 16); split; [by right; left|done]|
    right; exists (HEAP + 48, 16); split; [by left|done]]|]). by constructor.
Qed.
End witnesses.
