(* ===== verification/Idt.v ===== *)
(** * The interrupt descriptor table: [kernel/idt.c], [kernel/exception.c]

    The table is a list of gates, each the fields of an [idt_desc_t]; handlers
    are named by their labels, whose addresses the linker chooses. *)
From S2P Require Import Prelude.

Definition IDT_SIZE : Z := 256.
Definition KERNEL_CS : Z := 16.
Definition EXCEPTION_COUNT : Z := 20.

(** [exception_t], the vectors of the devices and of the system call. *)
Definition DIVIDE_ERROR : Z := 0.
Definition DEBUG : Z := 1.
Definition NMI : Z := 2.
Definition BREAKPOINT : Z := 3.
Definition OVERFLOW : Z := 4.
Definition BOUNDS_CHECK : Z := 5.
Definition INVALID_OPCODE : Z := 6.
Definition DEVICE_NOT_AVAILIAVLE : Z := 7.
Definition DOUBLE_FAULT : Z := 8.
Definition COPROCESSOR_OVERRUN : Z := 9.
Definition INVALID_TSS : Z := 10.
Definition SEGMENT_NOT_PRESENT : Z := 11.
Definition STACK_SEGMENT_FAULT : Z := 12.
Definition GENRAL_PROTECTION : Z := 13.
Definition PAGE_FAULT : Z := 14.
Definition FLOATING_POINT_ERROR : Z := 16.
Definition ALIGHMENT_CHECK : Z := 17.
Definition MACHINE_CHECK : Z := 18.
Definition SIMD_FLOATING_POINT : Z := 19.
Definition TIMER_INTR : Z := 32.
Definition KEYBOARD_INTR : Z := 33.
Definition RTC_INTR : Z := 40.
Definition SYSCALL : Z := 128.

(** [idt_desc_t], and the two words it occupies. *)
Record gate := Gate {
  offset_15_00 : Z;
  seg_selector : Z;
  reserved4 : Z;
  reserved3 : Z;
  reserved2 : Z;
  reserved1 : Z;
  gsize : Z;
  reserved0 : Z;
  dpl : Z;
  present : Z;
  offset_31_16 : Z
}.
Definition val0 (g : gate) : Z := Z.lor (offset_15_00 g) (Z.shiftl (seg_selector g) 16).
Definition val1 (g : gate) : Z :=
  foldr Z.lor 0 [reserved4 g; Z.shiftl (reserved3 g) 8; Z.shiftl (reserved2 g) 9; Z.shiftl (reserved1 g) 10;
    Z.shiftl (gsize g) 11; Z.shiftl (reserved0 g) 12; Z.shiftl (dpl g) 13; Z.shiftl (present g) 15; Z.shiftl (offset_31_16 g) 16].

(** [SET_IDT_ENTRY(str, handler)]. *)
Definition low16 (h : Z) : Z := Z.land (u32 h) 65535.
Definition high16 (h : Z) : Z := Z.shiftr (Z.land (u32 h) 4294901760) 16.
Definition set_offset (h : Z) (g : gate) : gate :=
  Gate (low16 h) (seg_selector g) (reserved4 g) (reserved3 g) (reserved2 g) (reserved1 g) (gsize g)
    (reserved0 g) (dpl g) (present g) (high16 h).
Definition set_cs_dpl (d : Z) (g : gate) : gate :=
  Gate (offset_15_00 g) KERNEL_CS (reserved4 g) (reserved3 g) (reserved2 g) (reserved1 g) (gsize g)
    (reserved0 g) d (present g) (offset_31_16 g).
Definition set_trap (g : gate) : gate :=
  Gate (offset_15_00 g) (seg_selector g) (reserved4 g) 1 (reserved2 g) (reserved1 g) (gsize g)
    (reserved0 g) (dpl g) (present g) (offset_31_16 g).
Definition set_plain (g : gate) : gate := Gate (offset_15_00 g) KERNEL_CS 0 0 1 1 1 0 0 1 (offset_31_16 g).

Abbreviation IM := (M (list gate)).
(** An assignment to fields of [idt\[n\]]. *)
Definition upd_gate (n : Z) (f : gate -> gate) : IM unit :=
  g ← gets_opt (λ t : list gate, t !! Z.to_nat n); modify (λ t, <[Z.to_nat n := f g]> t).

Section idt.
(** The addresses of the handlers. *)
Context (link : string -> Z).

Definition idt_init : IM unit :=
  for_loop 0 (Z.to_nat IDT_SIZE) (λ i, upd_gate i (λ g, set_offset (link "ignore_int_handler") (set_plain g))).

Definition set_trap_gate (n : Z) (handler : string) : IM unit :=
  upd_gate n (λ g, set_offset (link handler) (set_trap (set_cs_dpl 0 g))).
Definition set_intr_gate (n : Z) (handler : string) : IM unit :=
  upd_gate n (λ g, set_offset (link handler) (set_cs_dpl 0 g)).
Definition set_system_gate (n : Z) (handler : string) : IM unit :=
  upd_gate n (λ g, set_offset (link handler) (set_trap (set_cs_dpl 3 g))).
Definition set_system_intr_gate (n : Z) (handler : string) : IM unit :=
  upd_gate n (λ g, set_offset (link handler) (set_cs_dpl 3 g)).

Definition trap_init : IM unit :=
  set_trap_gate DIVIDE_ERROR "divide_error_handler" ;;
  set_trap_gate DEBUG "debug_handler" ;;
  set_intr_gate NMI "nmi_handler" ;;
  set_system_intr_gate BREAKPOINT "int3_handler" ;;
  set_system_gate OVERFLOW "overflow_handler" ;;
  set_system_gate BOUNDS_CHECK "bounds_handler" ;;
  set_trap_gate INVALID_OPCODE "invalid_op_handler" ;;
  set_trap_gate DEVICE_NOT_AVAILIAVLE "device_not_available_handler" ;;
  set_trap_gate DOUBLE_FAULT "double_fault_handler" ;;
  set_trap_gate COPROCESSOR_OVERRUN "coprocessor_segment_overrun_handler" ;;
  set_trap_gate INVALID_TSS "invalid_TSS_handler" ;;
  set_trap_gate SEGMENT_NOT_PRESENT "segment_not_present_handler" ;;
  set_trap_gate STACK_SEGMENT_FAULT "stack_segment_handler" ;;
  set_trap_gate GENRAL_PROTECTION "general_protection_handler" ;;
  set_trap_gate PAGE_FAULT "page_fault_handler" ;;
  set_trap_gate FLOATING_POINT_ERROR "coprocessor_error_handler" ;;
  set_trap_gate ALIGHMENT_CHECK "alignment_check_handler" ;;
  set_trap_gate MACHINE_CHECK "machine_check_handler" ;;
  set_trap_gate SIMD_FLOATING_POINT "simd_coprocessor_error_handler" ;;
  set_system_gate SYSCALL "syscall_handler".

Definition intr_init : IM unit :=
  set_intr_gate TIMER_INTR "timer_handler" ;;
  set_intr_gate KEYBOARD_INTR "keyboard_handler" ;;
  set_intr_gate RTC_INTR "rtc_handler".
End idt.

(** ** [exception.c] *)
Definition exception_arr : list string := [
  "DE: Divide Error Exception"; "DB: Debug Exception"; "NMI: Non-maskable Interrupt"; "BP: Breakpoint Exception";
  "OF: Overflow Exceptioin"; "BR: BOUND Range Exceeded Exception"; "UD: Invalid Opcode Exception";
  "NM: Device Not Avaliable Exception"; "DF: Double Fault Exception"; "CSO: Coprocessor Segment Overrun";
  "TS: Invalid TSS Exception"; "NP: Segment Not Present"; "SS: Stack Fault Exception"; "GP: General Protection Exception";
  "PF: Page-Fault Exception"; "RESERVED: RESERVED"; "MF: X87 FPU Floating-Point Error"; "AC: Alignment Check Exception";
  "MC: Machine-Check Exception"; "XF: SIMD Floating-Point Exception"]%string.

(** What is printed, as formats with their arguments; [None] reads outside the
    array. *)
Inductive parg := num (z : Z) | str (s : string).
Definition exp_to_usr (idx : Z) : option (list (string * list parg)) :=
  name ← (if idx <? 0 then None else exception_arr !! Z.to_nat idx);
  mret [("----------------| EXCEPTION OCCURED |---------------- " ++ nl, []); ("[Exception num: %d]", [num idx]); (" %s " ++ nl, [str name])]%string.
Definition do_divide_error := exp_to_usr DIVIDE_ERROR.
Definition do_debug := exp_to_usr DEBUG.
Definition do_nmi := exp_to_usr NMI.
Definition do_int3 := exp_to_usr BREAKPOINT.
Definition do_overflow := exp_to_usr OVERFLOW.
Definition do_bounds := exp_to_usr BOUNDS_CHECK.
Definition do_invalid_op := exp_to_usr INVALID_OPCODE.
Definition do_device_not_available := exp_to_usr DEVICE_NOT_AVAILIAVLE.
Definition do_double_fault := exp_to_usr DOUBLE_FAULT.
Definition do_coprocessor_segment_overrun := exp_to_usr COPROCESSOR_OVERRUN.
Definition do_invalid_TSS := exp_to_usr INVALID_TSS.
Definition do_segment_not_present := exp_to_usr SEGMENT_NOT_PRESENT.
Definition do_stack_segment := exp_to_usr STACK_SEGMENT_FAULT.
Definition do_general_protection := exp_to_usr GENRAL_PROTECTION.
Definition do_coprocessor_error := exp_to_usr FLOATING_POINT_ERROR.
Definition do_alignment_check := exp_to_usr ALIGHMENT_CHECK.
Definition do_machine_check := exp_to_usr MACHINE_CHECK.
Definition do_simd_coprocessor_error := exp_to_usr SIMD_FLOATING_POINT.
(** [ignore_int_handler] of [idt.c] prints, with the interrupt flag as before
    at the end.  It is a C function in a gate: it returns, not with [iret]. *)
Definition ignore_int_handler : list (string * list parg) := [("Unknown interrupt." ++ nl, [])]%string.
