(* ===== verification/IdtProps.v ===== *)
(** * The table the kernel boots with *)
From S2P Require Import Prelude Idt.

(** ** What the processor reads in a gate *)
Definition gate_address (g : gate) : Z := Z.lor (Z.land (val0 g) 65535) (Z.land (val1 g) 4294901760).
Definition gate_selector (g : gate) : Z := Z.shiftr (val0 g) 16.
Definition gate_dpl (g : gate) : Z := Z.land (Z.shiftr (val1 g) 13) 3.
Definition gate_present (g : gate) : bool := Z.testbit (val1 g) 15.
(** The type of the gate: 14 a 32-bit interrupt gate, which clears the
    interrupt flag, and 15 a trap gate, which does not. *)
Definition gate_type (g : gate) : Z := Z.land (Z.shiftr (val1 g) 8) 15.

Lemma offset_high k i : 0 <= k < 65536 -> 16 <= i -> Z.testbit k i = false.
Proof. intros Hk Hi. rewrite <-(Z.mod_small k (2 ^ 16)) by (change (2 ^ 16) with 65536; lia). apply Z.mod_pow2_bits_high. lia. Qed.
Lemma word_bits h i : 0 <= h < 4294967296 -> 32 <= i -> Z.testbit h i = false.
Proof. intros Hk Hi. rewrite <-(Z.mod_small h (2 ^ 32)) by (change (2 ^ 32) with 4294967296; lia). apply Z.mod_pow2_bits_high. lia. Qed.
Lemma address_whole h k sel : 0 <= h < 4294967296 -> 0 <= k < 65536 ->
  Z.lor (Z.land (Z.lor (Z.land h 65535) (Z.shiftl sel 16)) 65535)
    (Z.land (Z.lor k (Z.shiftl (Z.shiftr (Z.land h 4294901760) 16) 16)) 4294901760) = h.
Proof.
  intros Hh Hk. change 65535 with (Z.ones 16). change 4294901760 with (Z.shiftl (Z.ones 16) 16).
  apply Z.bits_inj'. intros i Hi. rewrite !Z.lor_spec, !Z.land_spec, !Z.lor_spec, !Z.shiftl_spec, !Z.land_spec by done.
  destruct (Z.lt_ge_cases i 16) as [Hl|Hl].
  - rewrite !Z.testbit_ones_nonneg by lia. rewrite !(Z.testbit_neg_r _ (i - 16)) by lia.
    rewrite (proj2 (Z.ltb_lt _ _)) by done. by rewrite !andb_true_r, !orb_false_r, !andb_false_r, !orb_false_r.
  - rewrite !Z.shiftr_spec, !Z.land_spec, !Z.shiftl_spec by lia. replace (i - 16 + 16) with i by lia.
    rewrite !Z.testbit_ones_nonneg by lia. rewrite (proj2 (Z.ltb_ge i 16)) by done. rewrite (offset_high k) by done.
    rewrite !andb_false_r. cbn [orb]. destruct (Z.lt_ge_cases i 32).
    + rewrite (proj2 (Z.ltb_lt (i - 16) 16)) by lia. by rewrite !andb_true_r.
    + rewrite (word_bits h) by done. by rewrite !andb_false_l.
Qed.

(** ** Which handler each vector has *)
Definition installed : list (Z * string) := [
  (0, "divide_error_handler"); (1, "debug_handler"); (2, "nmi_handler"); (3, "int3_handler"); (4, "overflow_handler");
  (5, "bounds_handler"); (6, "invalid_op_handler"); (7, "device_not_available_handler"); (8, "double_fault_handler");
  (9, "coprocessor_segment_overrun_handler"); (10, "invalid_TSS_handler"); (11, "segment_not_present_handler");
  (12, "stack_segment_handler"); (13, "general_protection_handler"); (14, "page_fault_handler");
  (16, "coprocessor_error_handler"); (17, "alignment_check_handler"); (18, "machine_check_handler");
  (19, "simd_coprocessor_error_handler"); (32, "timer_handler"); (33, "keyboard_handler"); (40, "rtc_handler");
  (128, "syscall_handler")]%string.
Fixpoint handler_in (l : list (Z * string)) (v : Z) : string :=
  match l with [] => "ignore_int_handler"%string | (w, h) :: l => if v =? w then h else handler_in l v end.
Definition handler_of (v : Z) : string := handler_in installed v.
(** The vectors a program may raise with [int]; those that leave the interrupt
    flag alone. *)
Definition user_vector (v : Z) : bool := bool_decide (v ∈ [3; 4; 5; 128]).
Definition trap_vector (v : Z) : bool := (v <=? 19) && negb (bool_decide (v ∈ [2; 3; 15])) || (v =? 128).

Section table.
Context (link : string -> Z).
Definition plain_gate : gate := set_offset (link "ignore_int_handler") (Gate 0 KERNEL_CS 0 0 1 1 1 0 0 1 0).
Lemma idt_init_loop n : forall lo (t : list gate), 0 <= lo -> (Z.to_nat lo + n <= length t)%nat ->
  for_loop lo n (λ i, upd_gate i (λ g, set_offset (link "ignore_int_handler") (set_plain g))) t =
  Ok (tt, take (Z.to_nat lo) t ++ replicate n plain_gate ++ drop (Z.to_nat lo + n) t).
Proof.
  induction n as [|n IH]; intros lo t Hlo Hn; cbn [for_loop replicate app].
  { by rewrite Nat.add_0_r, take_drop. }
  destruct (lookup_lt_is_Some_2 t (Z.to_nat lo)) as [g Hg]; [lia|].
  rewrite (bind_ok _ _ _ tt (<[Z.to_nat lo := plain_gate]> t)); last first.
  { unfold upd_gate, mbind, M_bind, gets_opt. rewrite Hg. done. }
  rewrite IH by (rewrite ?length_insert; lia). rewrite Z2Nat.inj_add by lia. change (Z.to_nat 1) with 1%nat. rewrite Nat.add_1_r.
  do 2 f_equal. rewrite (take_S_r _ _ plain_gate) by (apply list_lookup_insert_eq; lia).
  rewrite <-app_assoc. cbn [app]. f_equal; [by rewrite take_insert_ge by lia|]. do 2 f_equal.
  rewrite drop_insert_lt by lia. f_equal. lia.
Qed.
Lemma idt_init_run t : length t = 256%nat -> idt_init link t = Ok (tt, replicate 256 plain_gate).
Proof.
  intros Ht. unfold idt_init. rewrite idt_init_loop by (change (Z.to_nat IDT_SIZE) with 256%nat; lia).
  change (Z.to_nat IDT_SIZE) with 256%nat. cbn [Z.to_nat take app Nat.add]. rewrite drop_ge by lia. by rewrite app_nil_r.
Qed.

(** The gate that the three functions leave for a vector. *)
Definition final_gate (v : Z) : gate :=
  set_offset (link (handler_of v))
    (Gate 0 KERNEL_CS 0 (if trap_vector v then 1 else 0) 1 1 1 0 (if user_vector v then 3 else 0) 1 0).
Lemma table_run t : length t = 256%nat ->
  (idt_init link ;; trap_init link ;; intr_init link) t = Ok (tt, map final_gate (seqZ 0 256)).
Proof. intros Ht. rewrite (bind_ok _ _ _ _ _ (idt_init_run t Ht)). cbv -[low16 high16]. reflexivity. Qed.

Lemma final_gate_decoded v : let g := final_gate v in
  gate_address g = u32 (link (handler_of v)) /\ gate_selector g = KERNEL_CS /\ gate_present g = true /\
  gate_dpl g = (if user_vector v then 3 else 0) /\ gate_type g = (if trap_vector v then 15 else 14).
Proof using Type.
  cbv zeta. set (h := link (handler_of v)). pose proof (u32_range h) as Hh.
  assert (exists k, 0 <= k < 65536 /\ val1 (final_gate v) = Z.lor k (Z.shiftl (Z.shiftr (Z.land (u32 h) 4294901760) 16) 16) /\
    Z.land (Z.shiftr k 13) 3 = (if user_vector v then 3 else 0) /\ Z.testbit k 15 = true /\
    Z.land (Z.shiftr k 8) 15 = (if trap_vector v then 15 else 14)) as (k & Hk & Hv & K1 & K2 & K3).
  { exists (if user_vector v then if trap_vector v then 61184 else 60928 else if trap_vector v then 36608 else 36352)%Z.
    unfold final_gate, val1, set_offset, high16. fold h. cbn [reserved4 reserved3 reserved2 reserved1 gsize reserved0 dpl present offset_31_16 foldr].
    destruct (user_vector v), (trap_vector v); (split; [lia|]); (split; [|by vm_compute]);
      rewrite Z.lor_0_r, !Z.lor_assoc; reflexivity. }
  split; [|split; [|split; [|split]]].
  - unfold gate_address. rewrite Hv. unfold val0, final_gate, set_offset, low16. cbn [offset_15_00 seg_selector]. by apply address_whole.
  - unfold gate_selector, val0, final_gate, set_offset, low16. cbn [offset_15_00 seg_selector]. rewrite Z.shiftr_lor.
    fold h. change 65535 with (Z.ones 16). rewrite Z.land_ones by lia. rewrite (Z.shiftr_div_pow2 (_ mod _)) by lia.
    rewrite Z.div_small by (apply Z.mod_pos_bound; lia). done.
  - unfold gate_present. rewrite Hv, Z.lor_spec, K2. done.
  - unfold gate_dpl. rewrite Hv, Z.shiftr_lor, Z.land_lor_distr_l, K1. rewrite Z.shiftr_shiftl_l by lia. 
    assert (Z.land (Z.shiftl (Z.shiftr (Z.land (u32 h) 4294901760) 16) (16 - 13)) 3 = 0) as ->; [|apply Z.lor_0_r].
    change 3 with (Z.ones 2). rewrite Z.land_ones, Z.shiftl_mul_pow2 by lia. change (2 ^ (16 - 13)) with (2 * 2 ^ 2).
    rewrite Z.mul_assoc. apply Z_mod_mult.
  - unfold gate_type. rewrite Hv, Z.shiftr_lor, Z.land_lor_distr_l, K3. rewrite Z.shiftr_shiftl_l by lia.
    assert (Z.land (Z.shiftl (Z.shiftr (Z.land (u32 h) 4294901760) 16) (16 - 8)) 15 = 0) as ->; [|apply Z.lor_0_r].
    change 15 with (Z.ones 4). rewrite Z.land_ones, Z.shiftl_mul_pow2 by lia. change (2 ^ (16 - 8)) with (2 ^ 4 * 2 ^ 4).
    rewrite Z.mul_assoc. apply Z_mod_mult.
Qed.

End table.

Definition sample_link (s : string) : Z := 4194304 + 16 * Z.of_nat (String.length s).
