(* ===== verification/Entry.v ===== *)
(** * Entering and leaving the kernel: [kernel/switch.S], [kernel/handler.S],
    the stub of [lib/main.S]

    The assembly files as lists of instructions, run on the registers and the
    words of memory.  [INT] and [IRET] are the processor's, for a program in
    ring 3 and the kernel in ring 0. *)
From S2P Require Import Prelude Kmalloc Idt IdtProps.

Inductive reg := EAX | EBX | ECX | EDX | ESI | EDI | EBP | ESP | EIP | EFLAGS | CS | SS | DS | ES | CR2.
#[export] Instance reg_eq_dec : EqDecision reg.
Proof. solve_decision. Defined.
Definition reg_eqb (r r' : reg) : bool := bool_decide (r = r').

Record cpu := Cpu { regs : reg -> Z; ram : Z -> Z }.
Definition set_reg (r : reg) (v : Z) (c : cpu) : cpu := Cpu (λ x, if reg_eqb x r then v else regs c x) (ram c).
Definition set_ram (a v : Z) (c : cpu) : cpu := Cpu (regs c) (upd a v (ram c)).

(** Operands: a constant, a register, a word at a displacement from one. *)
Inductive opnd := Imm (z : Z) | Reg (r : reg) | At (d : Z) (r : reg).
Definition value (c : cpu) (o : opnd) : Z :=
  match o with Imm z => z | Reg r => regs c r | At d r => ram c (u32 (d + regs c r)) end.
Definition assign (o : opnd) (v : Z) (c : cpu) : cpu :=
  match o with Imm _ => c | Reg r => set_reg r v c | At d r => set_ram (u32 (d + regs c r)) v c end.
Definition push (v : Z) (c : cpu) : cpu :=
  let a := u32 (regs c ESP - 4) in set_ram a v (set_reg ESP a c).
Definition top (c : cpu) : Z := ram c (regs c ESP).
Definition drop_top (c : cpu) : cpu := set_reg ESP (u32 (regs c ESP + 4)) c.

Inductive instr :=
  | PUSHL (o : opnd) | POPL (o : opnd) | MOVL (s d : opnd) | ADDL (z : Z) (r : reg) | ANDL (z : Z) (r : reg) | ORL (z : Z) (r : reg)
  | PUSHAL | POPAL | PUSHFL | POPFL | RET | IRET
  | CALL (f : cpu -> cpu).

(** A [POPL] to memory computes its address after the pop. *)
Definition pop (o : opnd) (c : cpu) : cpu := let v := top c in assign o v (drop_top c).
Definition ring (sel : Z) : Z := Z.land sel 3.
Definition iret (c : cpu) : cpu :=
  let c1 := pop (Reg EIP) c in
  let sel := top c1 in
  let c2 := pop (Reg EFLAGS) (pop (Reg CS) c1) in
  if ring (regs c CS) <? ring sel then
    let sp := top c2 in
    let c3 := drop_top c2 in
    let ss := top c3 in
    set_reg SS ss (set_reg ESP sp c3)
  else c2.
Definition step (i : instr) (c : cpu) : cpu :=
  match i with
  | PUSHL o => push (value c o) c
  | POPL o => pop o c
  | MOVL s d => assign d (value c s) c
  | ADDL z r => set_reg r (u32 (regs c r + z)) c
  | ANDL z r => set_reg r (Z.land (regs c r) z) c
  | ORL z r => set_reg r (Z.lor (regs c r) z) c
  | PUSHAL => foldl (λ k v, push v k) c (map (regs c) [EAX; ECX; EDX; EBX; ESP; EBP; ESI; EDI])
  | POPAL =>
      let c := foldl (λ k r, pop (Reg r) k) c [EDI; ESI; EBP] in
      foldl (λ k r, pop (Reg r) k) (drop_top c) [EBX; EDX; ECX; EAX]
  | PUSHFL => push (regs c EFLAGS) c
  | POPFL => pop (Reg EFLAGS) c
  | RET => pop (Reg EIP) c
  | IRET => iret c
  | CALL f => f c
  end.
Definition run (l : list instr) (c : cpu) : cpu := foldl (λ k i, step i k) c l.

(** ** [INT n] of a program in ring 3: the gate's level must be 3, otherwise
    the processor raises the general protection exception; the kernel's stack
    is the one of the task state segment *)
Definition IF : Z := 512.
Definition enter (g : gate) (ss0 esp0 : Z) (err : list Z) (c : cpu) : cpu :=
  let k := set_reg SS ss0 (set_reg ESP esp0 c) in
  let k := foldl (λ k v, push v k) k ([regs c SS; regs c ESP; regs c EFLAGS; regs c CS; regs c EIP] ++ err) in
  let k := if gate_type g =? 14 then set_reg EFLAGS (Z.ldiff (regs c EFLAGS) IF) k else k in
  set_reg EIP (gate_address g) (set_reg CS (gate_selector g) k).
Definition INT (n : Z) (idt : list gate) (ss0 esp0 : Z) (c : cpu) : option cpu :=
  g ← idt !! Z.to_nat n;
  if gate_dpl g <? ring (regs c CS) then
    p ← idt !! Z.to_nat GENRAL_PROTECTION; mret (enter p ss0 esp0 [8 * n + 2] c)
  else mret (enter g ss0 esp0 [] c).

(** ** [switch.S] *)
Definition swtch : list instr := [
  MOVL (At 4 ESP) (Reg EAX);
  POPL (At 0 EAX); MOVL (Reg ESP) (At 4 EAX); MOVL (Reg EBX) (At 8 EAX); MOVL (Reg ECX) (At 12 EAX);
  MOVL (Reg EDX) (At 16 EAX); MOVL (Reg ESI) (At 20 EAX); MOVL (Reg EDI) (At 24 EAX); MOVL (Reg EBP) (At 28 EAX);
  MOVL (At 4 ESP) (Reg EAX);
  MOVL (At 28 EAX) (Reg EBP); MOVL (At 24 EAX) (Reg EDI); MOVL (At 20 EAX) (Reg ESI); MOVL (At 16 EAX) (Reg EDX);
  MOVL (At 12 EAX) (Reg ECX); MOVL (At 8 EAX) (Reg EBX); MOVL (At 4 EAX) (Reg ESP);
  PUSHL (At 0 EAX); MOVL (At 32 EAX) (Reg EAX); RET].

(** ** [switch_to_user] of [process.c], after its update of the task state
    segment: the operands of the inline assembly are loaded first.  [MOVW] to
    [DS] moves the 8 bits that are left in EAX. *)
Definition USER_CS : Z := 35.
Definition USER_DS : Z := 43.
Definition to_user : list instr := [
  ANDL 255 EAX; MOVL (Reg EAX) (Reg DS); PUSHL (Reg EAX); PUSHL (Reg EBX); PUSHFL; POPL (Reg EBX); ORL IF EBX;
  PUSHL (Reg EBX); PUSHL (Reg ECX); PUSHL (Reg EDX); IRET].
Definition switch_to_user (usresp usreip : Z) (c : cpu) : cpu :=
  run to_user (set_reg EDX usreip (set_reg ECX USER_CS (set_reg EBX usresp (set_reg EAX USER_DS c)))).

(** ** [handler.S] *)
(** The handlers of the three devices, around the function they call. *)
Definition irq_handler (f : cpu -> cpu) : list instr := [PUSHFL; PUSHAL; CALL f; POPAL; POPFL; IRET].
Definition page_fault_handler (f : cpu -> cpu) : list instr := [
  PUSHAL; MOVL (Reg CR2) (Reg EAX); PUSHL (Reg EAX); PUSHL (Imm 0); CALL f; ADDL 12 ESP; POPAL; IRET].
(** The stub of an exception, which goes on at [error_code]. *)
Definition exception_handler (do_handler : Z) : list instr := [PUSHL (Imm 0); PUSHL (Imm do_handler)].
(** [error_code] up to its call of the function that EDI points to - [XORL]
    and [DECL] of EAX are one [MOVL] - and [abort] up to its call of [do_exit]. *)
Definition error_code : list instr :=
  map (λ r, PUSHL (Reg r)) [DS; EAX; EBP; EDI; ESI; EDX; ECX; EBX] ++
  [MOVL (Imm 4294967295) (Reg EAX); MOVL (At 32 ESP) (Reg EDI); MOVL (At 36 ESP) (Reg EDX); MOVL (Reg EAX) (At 36 ESP);
   MOVL (Reg ES) (Reg ECX); MOVL (Reg ECX) (At 32 ESP)].
Definition abort : list instr := [PUSHL (Imm 256)].

Definition NCALL : Z := 21.
Definition syscall_table : list string := [
  "sys_restart"; "sys_exit"; "sys_execute"; "sys_read"; "sys_write"; "sys_open"; "sys_close"; "sys_getargs"; "sys_vidmap";
  "sys_set_handler"; "sys_sigreturn"; "sys_fork"; "sys_execv"; "sys_wait"; "sys_waitpid"; "sys_getpid"; "sys_getppid";
  "sys_sbrk"; "sys_mmap"; "sys_munmap"; "sys_stat"]%string.
Definition syscall_exit : list instr :=
  map POPL [Reg EBX; Reg ECX; Reg EDX; Reg ESI; Reg EDI; Reg EBP; Reg EAX; Reg DS; Reg ES] ++ [ADDL 4 ESP; IRET].
(** [body] gives the code of the functions in the table. *)
Definition syscall_handler (body : string -> cpu -> cpu) (c : cpu) : cpu :=
  let k := run (map PUSHL [Reg EAX; Reg ES; Reg DS; Reg EAX; Reg EBP; Reg EDI; Reg ESI; Reg EDX; Reg ECX; Reg EBX]) c in
  if regs k EAX <? NCALL then
    match syscall_table !! Z.to_nat (regs k EAX) with
    | Some f => run ([CALL (body f); MOVL (Reg EAX) (At 24 ESP)] ++ syscall_exit) k
    | None => k
    end
  else run (MOVL (Imm 4294967295) (At 24 ESP) :: syscall_exit) k.

(** ** [syscall] of [lib/main.S]: the instructions before and after the trap *)
Definition syscall_before : list instr := [
  PUSHL (Reg EBX); MOVL (At 8 ESP) (Reg EAX); MOVL (At 12 ESP) (Reg EBX); MOVL (At 16 ESP) (Reg ECX); MOVL (At 20 ESP) (Reg EDX)].
Definition syscall_after : list instr := [POPL (Reg EBX); RET].
