(* ===== verification/EntryProps.v ===== *)
(** * Stacks, and what the entry code keeps *)
From S2P Require Import Prelude Kmalloc KmallocRing Idt IdtProps Entry.

(** The words at the top of the stack. *)
Record frame (c : cpu) (p : Z) (l : list Z) : Prop := {
  fr_esp : regs c ESP = p;
  fr_words i x : l !! i = Some x -> ram c (p + 4 * Z.of_nat i) = x;
  fr_room : 0 <= p /\ p + 4 * Z.of_nat (length l) < 4294967296
}.
Lemma reg_set_eq r v c : regs (set_reg r v c) r = v.
Proof. cbn. unfold reg_eqb. by rewrite bool_decide_true. Qed.
Lemma reg_set_ne r v c x : x <> r -> regs (set_reg r v c) x = regs c x.
Proof. intros H. cbn. unfold reg_eqb. by rewrite bool_decide_false. Qed.

Lemma frame_top c p x l : frame c p (x :: l) -> top c = x.
Proof. intros [H1 H2 _]. unfold top. rewrite H1, <-(H2 0%nat x) by done. f_equal. lia. Qed.
Lemma frame_ext c c' p l : frame c p l -> regs c' ESP = p -> (forall a, p <= a < p + 4 * Z.of_nat (length l) -> ram c' a = ram c a) -> frame c' p l.
Proof.
  intros [H1 H2 H3] He Hr. split; [done| |done]. intros i x Hi. pose proof (lookup_lt_Some _ _ _ Hi).
  rewrite Hr by lia. by apply H2.
Qed.

(** ** Pushing *)
Lemma push_frame c p l v : frame c p l -> 4 <= p -> frame (push v c) (p - 4) (v :: l).
Proof.
  intros [H1 H2 H3] Hp. unfold push. rewrite H1, u32_id by lia. split.
  - cbn [set_ram regs]. apply reg_set_eq.
  - intros [|i] x Hi; cbn [set_ram ram set_reg].
    + injection Hi as <-. replace (p - 4 + 4 * Z.of_nat 0) with (p - 4) by lia. apply upd_eq.
    + rewrite upd_ne by lia. rewrite <-(H2 i x) by done. f_equal. lia.
  - cbn [length]. lia.
Qed.
Lemma push_regs c v r : r <> ESP -> regs (push v c) r = regs c r.
Proof. intros H. unfold push. cbn [set_ram regs]. by apply reg_set_ne. Qed.
Lemma push_ram c p l v a : frame c p l -> 4 <= p -> a <> p - 4 -> ram (push v c) a = ram c a.
Proof. intros [H1 _ H3] Hp Ha. unfold push. rewrite H1, u32_id by lia. cbn. by apply upd_ne. Qed.
Lemma pushes_frame vs : forall c p l, frame c p l -> 4 * Z.of_nat (length vs) <= p ->
  let k := foldl (λ k v, push v k) c vs in
  frame k (p - 4 * Z.of_nat (length vs)) (rev vs ++ l) /\ (forall r, r <> ESP -> regs k r = regs c r) /\
  (forall a, a < p - 4 * Z.of_nat (length vs) \/ p <= a -> ram k a = ram c a).
Proof.
  induction vs as [|v vs IH]; intros c p l HF Hp; cbn [foldl length rev app] in *.
  { rewrite Z.sub_0_r. done. }
  destruct (IH (push v c) (p - 4) (v :: l)) as (K1 & K2 & K3); [by apply push_frame; [|lia]|lia|]. cbv zeta in *.
  split; [|split].
  - rewrite <-app_assoc. cbn [app]. by replace (p - 4 * Z.of_nat (S (length vs))) with (p - 4 - 4 * Z.of_nat (length vs)) by lia.
  - intros r Hr. rewrite K2 by done. by apply push_regs.
  - intros a Ha. rewrite K3 by lia. eapply push_ram; [exact HF|lia|lia].
Qed.
Lemma run_pushes rs : forall c, ESP ∉ rs ->
  run (map (λ r, PUSHL (Reg r)) rs) c = foldl (λ k v, push v k) c (map (regs c) rs).
Proof.
  induction rs as [|r rs IH]; intros c Hn; [done|]. apply not_elem_of_cons in Hn as [Hr Hn].
  change (run (map (λ r, PUSHL (Reg r)) rs) (push (regs c r) c) = foldl (λ k v, push v k) (push (regs c r) c) (map (regs c) rs)).
  rewrite (IH (push (regs c r) c) Hn). f_equal.
  apply list_fmap_ext. intros i x Hx. apply push_regs. intros ->. apply Hn. by eapply list_elem_of_lookup_2.
Qed.

(** ** Popping *)
Lemma pop_regs c p x l r y : frame c p (x :: l) -> r <> ESP ->
  regs (pop (Reg r) c) y = if reg_eqb y r then x else if reg_eqb y ESP then p + 4 else regs c y.
Proof.
  intros HF Hr. pose proof (frame_top _ _ _ _ HF) as Ht. destruct HF as [H1 _ H3]. cbn [length] in H3.
  unfold pop, drop_top. cbn [assign]. rewrite Ht, H1, u32_id by lia. cbn. by destruct (reg_eqb y r), (reg_eqb y ESP).
Qed.
Lemma pop_frame c p x l r : frame c p (x :: l) -> r <> ESP -> frame (pop (Reg r) c) (p + 4) l.
Proof.
  intros HF Hr. pose proof (pop_regs _ _ _ _ r ESP HF Hr) as HE. destruct HF as [H1 H2 H3]. cbn [length] in H3. split.
  - rewrite HE. unfold reg_eqb. by rewrite bool_decide_false, bool_decide_true.
  - intros i y Hi. unfold pop. cbn. rewrite <-(H2 (S i) y) by done. f_equal. lia.
  - lia.
Qed.
Lemma pops_frame rs : forall c p vs l, frame c p (vs ++ l) -> length rs = length vs -> NoDup rs -> ESP ∉ rs ->
  let k := foldl (λ k r, pop (Reg r) k) c rs in
  frame k (p + 4 * Z.of_nat (length vs)) l /\ ram k = ram c /\ (forall r, r ∉ rs -> r <> ESP -> regs k r = regs c r) /\
  (forall i r v, rs !! i = Some r -> vs !! i = Some v -> regs k r = v).
Proof.
  induction rs as [|r rs IH]; intros c p [|v vs] l HF Hl Hd He; cbn [length foldl] in *; try done.
  { rewrite Z.add_0_r. done. }
  injection Hl as Hl. apply NoDup_cons in Hd as [Hr Hd]. apply not_elem_of_cons in He as [Hne He].
  destruct (IH (pop (Reg r) c) (p + 4) vs l) as (K1 & K2 & K3 & K4); [by eapply pop_frame|done..|]. cbv zeta in *.
  assert (forall y, regs (pop (Reg r) c) y = if reg_eqb y r then v else if reg_eqb y ESP then p + 4 else regs c y) as HP.
  { intros y. apply (pop_regs _ _ _ (vs ++ l)); done. }
  split; [|split; [done|split]].
  - by replace (p + 4 * Z.of_nat (S (length vs))) with (p + 4 + 4 * Z.of_nat (length vs)) by lia.
  - intros y [Hy1 Hy2]%not_elem_of_cons Hy3. rewrite K3, HP by done. unfold reg_eqb. by rewrite !bool_decide_false.
  - intros [|i] y w Hi Hw; cbn in Hi, Hw; [|by eapply K4]. injection Hi as <-. injection Hw as <-.
    rewrite K3, HP by done. unfold reg_eqb. by rewrite bool_decide_true.
Qed.

(** ** Leaving and entering *)
Lemma iret_user c p eip cs efl sp ss l : frame c p (eip :: cs :: efl :: sp :: ss :: l) -> ring (regs c CS) < ring cs ->
  (forall r, regs (iret c) r = match r with EIP => eip | CS => cs | EFLAGS => efl | ESP => sp | SS => ss | _ => regs c r end) /\
  ram (iret c) = ram c.
Proof.
  intros HF Hr. unfold iret. rewrite (frame_top _ _ _ _ (pop_frame _ _ _ _ EIP HF ltac:(done))).
  rewrite (proj2 (Z.ltb_lt _ _)) by done.
  pose proof (pop_frame _ _ _ _ EIP HF ltac:(done)) as F1. pose proof (pop_frame _ _ _ _ CS F1 ltac:(done)) as F2.
  pose proof (pop_frame _ _ _ _ EFLAGS F2 ltac:(done)) as F3. rewrite (frame_top _ _ _ _ F3).
  assert (top (drop_top (pop (Reg EFLAGS) (pop (Reg CS) (pop (Reg EIP) c)))) = ss) as ->.
  { destruct F3 as [E1 E2 E3]. cbn [length] in E3. unfold top, drop_top. rewrite reg_set_eq, E1, u32_id by lia. cbn [set_reg ram].
    by apply (E2 1%nat). }
  split; [|done]. intros r. destruct (decide (r = SS)) as [->|H1]; [apply reg_set_eq|]. rewrite reg_set_ne by done.
  destruct (decide (r = ESP)) as [->|H2]; [apply reg_set_eq|]. rewrite reg_set_ne by done.
  unfold drop_top. rewrite reg_set_ne by done. rewrite (pop_regs _ _ _ _ EFLAGS r F2), (pop_regs _ _ _ _ CS r F1), (pop_regs _ _ _ _ EIP r HF) by done.
  by destruct r.
Qed.

(** A call of a C function with [n] bytes of arguments on a stack that ends at
    [lim]: it keeps the registers the calling convention names, the segments
    and the stack from behind its arguments on. *)
Record cdecl (n lim : Z) (f : cpu -> cpu) (c : cpu) : Prop := {
  cd_regs r : r ∈ [ESP; EBX; ESI; EDI; EBP; CS; SS; DS; ES] -> regs (f c) r = regs c r;
  cd_stack a : regs c ESP + n <= a < lim -> ram (f c) a = ram c a
}.

(** The state in which the processor starts the handler. *)
Lemma enter_frame g ss0 esp0 err c : 4 * Z.of_nat (5 + length err) <= esp0 < 4294967296 -> let k := enter g ss0 esp0 err c in
  frame k (esp0 - 4 * Z.of_nat (5 + length err)) (rev err ++ [regs c EIP; regs c CS; regs c EFLAGS; regs c ESP; regs c SS]) /\
  (forall r, r ∈ [EAX; EBX; ECX; EDX; ESI; EDI; EBP; DS; ES; CR2] -> regs k r = regs c r) /\
  regs k CS = gate_selector g /\ regs k EIP = gate_address g /\
  forall a, a < esp0 - 4 * Z.of_nat (5 + length err) \/ esp0 <= a -> ram k a = ram c a.
Proof.
  intros He. cbv zeta. unfold enter.
  assert (frame (set_reg SS ss0 (set_reg ESP esp0 c)) esp0 []) as F0.
  { split; [by rewrite reg_set_ne, reg_set_eq by done|done|cbn; lia]. }
  set (vs := [regs c SS; regs c ESP; regs c EFLAGS; regs c CS; regs c EIP] ++ err).
  assert (length vs = (5 + length err)%nat) as Hl by (unfold vs; by rewrite length_app).
  destruct (pushes_frame vs _ _ _ F0) as (F1 & R1 & M1); [rewrite Hl; lia|]. cbv zeta in *. rewrite Hl in *.
  set (k := foldl _ _ _) in *. rewrite app_nil_r in F1.
  assert (rev vs = rev err ++ [regs c EIP; regs c CS; regs c EFLAGS; regs c ESP; regs c SS]) as Hv by (unfold vs; by rewrite rev_app_distr).
  rewrite Hv in F1. set (k2 := if gate_type g =? 14 then _ else k).
  assert (ram k2 = ram k /\ forall r, r <> EFLAGS -> regs k2 r = regs k r) as [M2 R2].
  { unfold k2. destruct (gate_type g =? 14); [|done]. split; [done|]. intros r Hr. by apply reg_set_ne. }
  split; [|split; [|split; [|split]]].
  - eapply frame_ext; [exact F1| |].
    + rewrite !reg_set_ne, R2 by done. apply F1.
    + intros a _. cbn [set_reg ram]. by rewrite M2.
  - intros r Hr. assert (r <> ESP /\ r <> EFLAGS /\ r <> SS /\ r <> CS /\ r <> EIP) as (N1 & N2 & N3 & N4 & N5).
    { rewrite !elem_of_cons, elem_of_nil in Hr. clear -Hr. repeat (destruct Hr as [->|Hr]; [done|]). done. }
    rewrite !reg_set_ne, R2, R1 by done. by rewrite !reg_set_ne.
  - by rewrite reg_set_ne, reg_set_eq.
  - apply reg_set_eq.
  - intros a Ha. cbn [set_reg ram]. rewrite M2, M1 by lia. done.
Qed.

Lemma frame_call c c' p l1 l2 : frame c p (l1 ++ l2) -> regs c' ESP = p ->
  (forall a, p + 4 * Z.of_nat (length l1) <= a < p + 4 * Z.of_nat (length (l1 ++ l2)) -> ram c' a = ram c a) ->
  exists l1', length l1' = length l1 /\ frame c' p (l1' ++ l2).
Proof.
  intros [H1 H2 H3] He Hr. exists (map (λ i, ram c' (p + 4 * Z.of_nat i)) (seq 0 (length l1))).
  assert (length (map (λ i, ram c' (p + 4 * Z.of_nat i)) (seq 0 (length l1))) = length l1) as Hl by (by rewrite length_map, length_seq).
  split; [done|]. rewrite length_app in *. split; [done| |rewrite length_app, Hl; lia].
  intros i x [Hi|[Hi Hx]]%lookup_app_Some.
  - apply list_lookup_fmap_Some in Hi as (j & -> & Hj). apply lookup_seq in Hj as [-> _]. done.
  - pose proof (lookup_lt_Some _ _ _ Hx). rewrite Hl in *. rewrite Hr by lia. apply H2. apply lookup_app_Some. right. done.
Qed.
Lemma value_top c p l i x : frame c p l -> l !! i = Some x -> value c (At (4 * Z.of_nat i) ESP) = x.
Proof.
  intros [H1 H2 H3] Hi. pose proof (lookup_lt_Some _ _ _ Hi). cbn [value]. rewrite H1, u32_id by lia. rewrite Z.add_comm. by apply H2.
Qed.
Lemma drop_frame c p x l : frame c p (x :: l) -> frame (drop_top c) (p + 4) l.
Proof.
  intros [H1 H2 H3]. cbn [length] in H3. unfold drop_top. rewrite H1, u32_id by lia. split.
  - apply reg_set_eq.
  - intros i y Hi. cbn [set_reg ram]. rewrite <-(H2 (S i) y) by done. f_equal. lia.
  - lia.
Qed.

(** [PUSHAL] and [POPAL]. *)
Lemma pushal_frame c p l : frame c p l -> 32 <= p ->
  frame (step PUSHAL c) (p - 32) ([regs c EDI; regs c ESI; regs c EBP; regs c ESP; regs c EBX; regs c EDX; regs c ECX; regs c EAX] ++ l) /\
  (forall r, r <> ESP -> regs (step PUSHAL c) r = regs c r) /\
  (forall a, a < p - 32 \/ p <= a -> ram (step PUSHAL c) a = ram c a).
Proof. intros HF Hp. apply (pushes_frame (map (regs c) [EAX; ECX; EDX; EBX; ESP; EBP; ESI; EDI]) c p l HF). cbn [map length]. lia. Qed.
Lemma popal_frame c p edi esi ebp x ebx edx ecx eax l : frame c p (edi :: esi :: ebp :: x :: ebx :: edx :: ecx :: eax :: l) ->
  let k := step POPAL c in frame k (p + 32) l /\ ram k = ram c /\
  (forall r, regs k r = match r with EDI => edi | ESI => esi | EBP => ebp | EBX => ebx | EDX => edx | ECX => ecx | EAX => eax
                                   | ESP => p + 32 | _ => regs c r end).
Proof.
  intros HF. destruct (pops_frame [EDI; ESI; EBP] c p [edi; esi; ebp] (x :: ebx :: edx :: ecx :: eax :: l)) as (F1 & M1 & R1 & V1).
  { done. } { done. } { by apply (bool_decide_unpack _). } { by apply (bool_decide_unpack _). }
  pose proof (drop_frame _ _ _ _ F1) as F2. cbv zeta in *. set (k1 := foldl _ c _) in *.
  destruct (pops_frame [EBX; EDX; ECX; EAX] (drop_top k1) _ [ebx; edx; ecx; eax] l F2) as (F3 & M3 & R3 & V3).
  { done. } { by apply (bool_decide_unpack _). } { by apply (bool_decide_unpack _). }
  cbv zeta in *. cbn [step]. fold k1. set (k2 := foldl _ (drop_top k1) _) in *.
  assert (frame k2 (p + 32) l) as F4 by (cbn [length] in F3; by replace (p + 32) with (p + 4 * Z.of_nat 3 + 4 + 4 * Z.of_nat 4) by lia).
  split; [done|]. split; [by rewrite M3, <-M1|].
  assert (forall r, r ∉ [EBX; EDX; ECX; EAX] -> r <> ESP -> regs k2 r = regs k1 r) as R5.
  { intros r H1 H2. rewrite R3 by done. unfold drop_top. by apply reg_set_ne. }
  assert (forall r, r ∉ [EBX; EDX; ECX; EAX; EDI; ESI; EBP; ESP] -> regs k2 r = regs c r) as R6.
  { intros r Hr. rewrite !not_elem_of_cons in Hr. rewrite R5, R1 by (rewrite ?not_elem_of_cons; tauto). done. }
  assert (regs k2 ESP = p + 32) as E0 by apply F4.
  pose proof (V3 0%nat EBX ebx eq_refl eq_refl) as E1. pose proof (V3 1%nat EDX edx eq_refl eq_refl) as E2.
  pose proof (V3 2%nat ECX ecx eq_refl eq_refl) as E3. pose proof (V3 3%nat EAX eax eq_refl eq_refl) as E4.
  pose proof (V1 0%nat EDI edi eq_refl eq_refl) as E5. pose proof (V1 1%nat ESI esi eq_refl eq_refl) as E6.
  pose proof (V1 2%nat EBP ebp eq_refl eq_refl) as E7.
  rewrite <-(R5 EDI ltac:(by apply (bool_decide_unpack _)) ltac:(done)) in E5.
  rewrite <-(R5 ESI ltac:(by apply (bool_decide_unpack _)) ltac:(done)) in E6.
  rewrite <-(R5 EBP ltac:(by apply (bool_decide_unpack _)) ltac:(done)) in E7.
  intros r. destruct r; first [assumption|apply R6; by apply (bool_decide_unpack _)].
Qed.
Lemma movl_frame c p l i r x : frame c p l -> l !! i = Some x -> r <> ESP ->
  step (MOVL (At (4 * Z.of_nat i) ESP) (Reg r)) c = set_reg r x c /\ frame (set_reg r x c) p l.
Proof.
  intros HF Hi Hr. split.
  - cbn [step assign]. by rewrite (value_top _ _ _ _ _ HF Hi).
  - eapply frame_ext; [exact HF| |done]. rewrite reg_set_ne by done. apply HF.
Qed.
