(* ===== verification/EntryContract.v ===== *)
(** * What a program sees of an interrupt, a page fault and a system call *)
From S2P Require Import Prelude Kmalloc KmallocRing Idt IdtProps Unistd Entry EntryProps.

(** ** Pushing and popping around a call *)
Lemma pushfl_frame c p l : frame c p l -> 4 <= p -> frame (step PUSHFL c) (p - 4) (regs c EFLAGS :: l).
Proof. apply push_frame. Qed.

(** The stub of an exception reaches [error_code], which calls the function of
    the stub; [abort] then passes 256 to [do_exit]. *)
Lemma error_code_parts c : run error_code c =
  run [MOVL (Reg EAX) (At 36 ESP); MOVL (Reg ES) (Reg ECX); MOVL (Reg ECX) (At 32 ESP)]
    (step (MOVL (At (4 * Z.of_nat 9) ESP) (Reg EDX)) (step (MOVL (At (4 * Z.of_nat 8) ESP) (Reg EDI))
      (set_reg EAX 4294967295 (run (map (λ r, PUSHL (Reg r)) [DS; EAX; EBP; EDI; ESI; EDX; ECX; EBX]) c)))).
Proof. reflexivity. Qed.
Lemma exception_calls h c p l : frame c p l -> 40 <= p -> regs (run error_code (run (exception_handler h) c)) EDI = h.
Proof.
  intros HF Hp. change (run (exception_handler h) c) with (push h (push 0 c)).
  pose proof (push_frame _ _ _ h (push_frame _ _ _ 0 HF ltac:(lia)) ltac:(lia)) as F1. set (k := push h _) in *. clearbody k.
  rewrite error_code_parts. rewrite run_pushes by (by apply (bool_decide_unpack _)).
  destruct (pushes_frame (map (regs k) [DS; EAX; EBP; EDI; ESI; EDX; ECX; EBX]) k _ _ F1) as (F2 & _); [cbn; lia|]. cbv zeta in *.
  set (k2 := foldl _ k _) in *. cbn [map length rev app] in F2. clearbody k2.
  assert (frame (set_reg EAX 4294967295 k2) (p - 4 - 4 - 32) (regs k EBX :: regs k ECX :: regs k EDX :: regs k ESI :: regs k EDI :: regs k EBP :: regs k EAX :: regs k DS :: h :: 0 :: l)) as F3.
  { eapply frame_ext; [exact F2| |done]. rewrite reg_set_ne by done. apply F2. }
  destruct (movl_frame _ _ _ 8 EDI h F3 ltac:(done) ltac:(done)) as [-> F4].
  destruct (movl_frame _ _ _ 9 EDX 0 F4 ltac:(done) ltac:(done)) as [-> _]. reflexivity.
Qed.
Lemma abort_status c p l : frame c p l -> 4 <= p -> frame (run abort c) (p - 4) (256 :: l).
Proof. intros HF Hp. by apply (push_frame c p l 256). Qed.

(** What the handler of a device's interrupt finds: the state in which it
    calls its function. *)
Definition irq_call (g : gate) (ss0 esp0 : Z) (c : cpu) : cpu := run [PUSHFL; PUSHAL] (enter g ss0 esp0 [] c).

Lemma irq_call_frame g ss0 esp0 c : 56 <= esp0 < 4294967296 -> exists fl,
  frame (irq_call g ss0 esp0 c) (esp0 - 56) ([regs c EDI; regs c ESI; regs c EBP; esp0 - 24; regs c EBX; regs c EDX; regs c ECX; regs c EAX] ++
    [fl; regs c EIP; regs c CS; regs c EFLAGS; regs c ESP; regs c SS]) /\
  (forall r, r ∈ [DS; ES; CR2] -> regs (irq_call g ss0 esp0 c) r = regs c r) /\ regs (irq_call g ss0 esp0 c) CS = gate_selector g.
Proof.
  intros He. destruct (enter_frame g ss0 esp0 [] c) as (F0 & R0 & C0 & _); [cbn; lia|]. cbv zeta in *.
  set (k := enter g ss0 esp0 [] c) in *. cbn [length Nat.add Z.of_nat rev app] in F0. change (4 * Z.of_nat 5) with 20 in F0.
  pose proof (pushfl_frame _ _ _ F0 ltac:(lia)) as F1. exists (regs k EFLAGS).
  assert (forall r, r <> ESP -> regs (step PUSHFL k) r = regs k r) as R1 by (intros; by apply push_regs).
  destruct (pushal_frame _ _ _ F1) as (F2 & R2 & _); [lia|].
  assert (regs (step PUSHFL k) ESP = esp0 - 24) as E1 by (rewrite (fr_esp _ _ _ F1); lia). rewrite E1 in F2.
  rewrite !R1, !R0 in F2 by (try done; by apply (bool_decide_unpack _)).
  replace (esp0 - 20 - 4 - 32) with (esp0 - 56) in F2 by lia.
  split; [exact F2|]. change (irq_call g ss0 esp0 c) with (step PUSHAL (step PUSHFL k)). split.
  - intros r Hr. assert (r <> ESP) as Hn by (intros ->; revert Hr; by apply (bool_decide_unpack _)). rewrite R2, R1 by done.
    apply R0. rewrite !elem_of_cons in *. tauto.
  - by rewrite R2, R1.
Qed.

(** [POPAL; POPFL; IRET] to ring 3. *)
Lemma irq_return k p edi esi ebp x ebx edx ecx eax fl eip cs efl sp ss l :
  frame k p (edi :: esi :: ebp :: x :: ebx :: edx :: ecx :: eax :: fl :: eip :: cs :: efl :: sp :: ss :: l) ->
  ring (regs k CS) < ring cs -> let c := step IRET (step POPFL (step POPAL k)) in
  (forall r, regs c r = match r with
     | EDI => edi | ESI => esi | EBP => ebp | EBX => ebx | EDX => edx | ECX => ecx | EAX => eax
     | EIP => eip | CS => cs | EFLAGS => efl | ESP => sp | SS => ss | _ => regs k r end) /\ ram c = ram k.
Proof.
  intros F1 Hr. destruct (popal_frame _ _ _ _ _ _ _ _ _ _ _ F1) as (F2 & M2 & R2). cbv zeta in *.
  generalize dependent (step POPAL k). intros k2 F2 M2 R2.
  pose proof (pop_frame _ _ _ _ EFLAGS F2 ltac:(done)) as F3. change (pop (Reg EFLAGS) k2) with (step POPFL k2) in F3.
  assert (forall r, r <> EFLAGS -> r <> ESP -> regs (step POPFL k2) r = regs k2 r) as R3.
  { intros r H1 H2. cbn [step]. rewrite (pop_regs _ _ _ _ EFLAGS r F2) by done. unfold reg_eqb. by rewrite !bool_decide_false. }
  assert (ram (step POPFL k2) = ram k2) as M3 by done.
  generalize dependent (step POPFL k2). intros k3 F3 R3 M3.
  destruct (iret_user _ _ _ _ _ _ _ _ F3) as [R4 M4]; [by rewrite R3, R2 by done|].
  change (iret k3) with (step IRET k3) in *. split; [|by rewrite M4, M3].
  intros r. rewrite R4. destruct r; try reflexivity; rewrite R3, R2 by done; reflexivity.
Qed.

Lemma irq_run f k : run (irq_handler f) k = step IRET (step POPFL (step POPAL (f (run [PUSHFL; PUSHAL] k)))).
Proof. assert (irq_handler f = [PUSHFL; PUSHAL] ++ [CALL f; POPAL; POPFL; IRET]) as -> by reflexivity. reflexivity. Qed.
(** C18: an interrupt of a device while a program runs in ring 3 is not seen by
    the program.  Whatever function [f] the handler calls, as long as it keeps
    to the calling convention - even if it switches to other processes and
    comes back - the program goes on where it was, with its stack, its flags
    and every register as before, and no word of memory other than those that
    [f] and the entry have written has changed. *)
Theorem irq_transparent g ss0 esp0 f c : 56 <= esp0 < 4294967296 -> ring (regs c CS) = 3 -> ring (gate_selector g) = 0 ->
  cdecl 0 esp0 f (irq_call g ss0 esp0 c) ->
  let c' := run (irq_handler f) (enter g ss0 esp0 [] c) in
  (forall r, r <> CR2 -> regs c' r = regs c r) /\ ram c' = ram (f (irq_call g ss0 esp0 c)).
Proof.
  intros He Hu Hk [CR CM]. destruct (irq_call_frame g ss0 esp0 c He) as (fl & F & RS & CC).
  rewrite irq_run. change (run [PUSHFL; PUSHAL] (enter g ss0 esp0 [] c)) with (irq_call g ss0 esp0 c).
  set (k := irq_call g ss0 esp0 c) in *.
  assert (frame (f k) (esp0 - 56) ([regs c EDI; regs c ESI; regs c EBP; esp0 - 24; regs c EBX; regs c EDX; regs c ECX; regs c EAX] ++
    [fl; regs c EIP; regs c CS; regs c EFLAGS; regs c ESP; regs c SS])) as F1.
  { eapply frame_ext; [exact F| |].
    - rewrite CR by (by apply (bool_decide_unpack _)). apply F.
    - intros a Ha. apply CM. rewrite (fr_esp _ _ _ F). cbn [app length] in Ha. lia. }
  destruct (irq_return _ _ _ _ _ _ _ _ _ _ _ _ _ _ _ _ _ F1) as [R2 M2].
  { rewrite CR, CC, Hk, Hu by (by apply (bool_decide_unpack _)). done. }
  split; [|exact M2]. intros r Hr. rewrite R2.
  destruct r; try reflexivity; try done; (rewrite CR by (by apply (bool_decide_unpack _))); apply RS; by apply (bool_decide_unpack _).
Qed.

(** ** The page fault *)
(** The state in which [page_fault_handler] calls [do_page_fault]. *)
Definition fault_call (g : gate) (ss0 esp0 err : Z) (c : cpu) : cpu :=
  run [PUSHAL; MOVL (Reg CR2) (Reg EAX); PUSHL (Reg EAX); PUSHL (Imm 0)] (enter g ss0 esp0 [err] c).
Lemma fault_call_frame g ss0 esp0 err c : 64 <= esp0 < 4294967296 ->
  frame (fault_call g ss0 esp0 err c) (esp0 - 64) ([0; regs c CR2; regs c EDI] ++
    regs c ESI :: regs c EBP :: esp0 - 24 :: regs c EBX :: regs c EDX :: regs c ECX :: regs c EAX :: err ::
    [regs c EIP; regs c CS; regs c EFLAGS; regs c ESP; regs c SS]) /\
  (forall r, r ∈ [DS; ES] -> regs (fault_call g ss0 esp0 err c) r = regs c r) /\ regs (fault_call g ss0 esp0 err c) CS = gate_selector g.
Proof.
  intros He. destruct (enter_frame g ss0 esp0 [err] c) as (F0 & R0 & C0 & _); [cbn; lia|]. cbv zeta in *.
  unfold fault_call. generalize dependent (enter g ss0 esp0 [err] c). intros k F0 R0 C0.
  cbn [length Nat.add Z.of_nat rev app] in F0. change (4 * Z.of_nat 6) with 24 in F0.
  destruct (pushal_frame _ _ _ F0) as (F1 & R1 & _); [lia|]. rewrite (fr_esp _ _ _ F0) in F1.
  rewrite !R0 in F1 by (by apply (bool_decide_unpack _)).
  assert (regs (step PUSHAL k) CR2 = regs c CR2) as E2 by (rewrite R1, R0 by first [done|by apply (bool_decide_unpack _)]; done).
  change (run [PUSHAL; MOVL (Reg CR2) (Reg EAX); PUSHL (Reg EAX); PUSHL (Imm 0)] k) with
    (push 0 (push (regs (set_reg EAX (regs (step PUSHAL k) CR2) (step PUSHAL k)) EAX) (set_reg EAX (regs (step PUSHAL k) CR2) (step PUSHAL k)))).
  generalize dependent (step PUSHAL k). intros k1 F1 R1 E2. rewrite reg_set_eq, E2. set (k2 := set_reg EAX (regs c CR2) k1).
  assert (frame k2 (esp0 - 56) (regs c EDI :: regs c ESI :: regs c EBP :: esp0 - 24 :: regs c EBX :: regs c EDX :: regs c ECX :: regs c EAX ::
    err :: [regs c EIP; regs c CS; regs c EFLAGS; regs c ESP; regs c SS])) as F2.
  { replace (esp0 - 56) with (esp0 - 24 - 32) by lia. eapply frame_ext; [exact F1| |done]. unfold k2. rewrite reg_set_ne by done. apply F1. }
  pose proof (push_frame _ _ _ (regs c CR2) F2 ltac:(lia)) as F3. pose proof (push_frame _ _ _ 0 F3 ltac:(lia)) as F4.
  replace (esp0 - 56 - 4 - 4) with (esp0 - 64) in F4 by lia. split; [exact F4|].
  assert (forall r, r <> ESP -> r <> EAX -> regs (push 0 (push (regs c CR2) k2)) r = regs k r) as R4.
  { intros r H1 H2. rewrite !push_regs by done. unfold k2. rewrite reg_set_ne by done. by apply R1. }
  split; [|by rewrite R4].
  intros r Hr. assert (r <> ESP /\ r <> EAX) as [N1 N2] by (split; intros ->; revert Hr; by apply (bool_decide_unpack _)).
  rewrite R4 by done. apply R0. rewrite !elem_of_cons in *. tauto.
Qed.
Lemma addl_frame c p l1 l2 : frame c p (l1 ++ l2) -> frame (step (ADDL (4 * Z.of_nat (length l1)) ESP) c) (p + 4 * Z.of_nat (length l1)) l2.
Proof.
  intros [H1 H2 H3]. rewrite length_app in H3. cbn [step]. rewrite H1, u32_id by lia. split.
  - apply reg_set_eq.
  - intros i x Hi. cbn [set_reg ram]. rewrite <-(H2 (length l1 + i)%nat x).
    + f_equal. lia.
    + rewrite lookup_app_r by lia. by replace (length l1 + i - length l1)%nat with i by lia.
  - lia.
Qed.

(** C39: [page_fault_handler] removes three words behind the call where it has
    pushed two, and [POPAL] then reads the saved registers one place further.
    A program that has touched a new page of its stack goes on at the same
    instruction with its stack and flags, but with its registers shifted: EDI
    holds its ESI, ESI its EBP, EBX its EDX, EDX its ECX, ECX its EAX, EBP an
    address of the kernel's stack and EAX the fault's error code. *)
Theorem page_fault_shifts g ss0 esp0 err f c : 64 <= esp0 < 4294967296 -> ring (regs c CS) = 3 -> ring (gate_selector g) = 0 ->
  cdecl 8 esp0 f (fault_call g ss0 esp0 err c) ->
  let c' := run (page_fault_handler f) (enter g ss0 esp0 [err] c) in
  forall r, r <> CR2 -> regs c' r = match r with
    | EDI => regs c ESI | ESI => regs c EBP | EBP => esp0 - 24 | EBX => regs c EDX | EDX => regs c ECX
    | ECX => regs c EAX | EAX => err | _ => regs c r end.
Proof.
  intros He Hu Hk [CR CM]. destruct (fault_call_frame g ss0 esp0 err c He) as (F & RS & CC).
  change (run (page_fault_handler f) (enter g ss0 esp0 [err] c)) with
    (step IRET (step POPAL (step (ADDL 12 ESP) (f (fault_call g ss0 esp0 err c))))).
  generalize dependent (fault_call g ss0 esp0 err c). intros k CR CM F RS CC.
  destruct (frame_call k (f k) (esp0 - 64) [0; regs c CR2] (regs c EDI :: regs c ESI :: regs c EBP :: esp0 - 24 :: regs c EBX ::
    regs c EDX :: regs c ECX :: regs c EAX :: err :: [regs c EIP; regs c CS; regs c EFLAGS; regs c ESP; regs c SS]) F) as (l & Hl & F1).
  { rewrite CR by (by apply (bool_decide_unpack _)). apply F. }
  { intros a Ha. apply CM. rewrite (fr_esp _ _ _ F). cbn [app length] in Ha. lia. }
  destruct l as [|x0 [|x1 [|? ?]]]; try done.
  pose proof (addl_frame (f k) _ [x0; x1; regs c EDI] _ F1) as F2. cbn [length] in F2. change (4 * Z.of_nat 3) with 12 in F2.
  assert (forall r, r <> ESP -> regs (step (ADDL 12 ESP) (f k)) r = regs (f k) r) as R2 by (intros; by apply reg_set_ne).
  generalize dependent (step (ADDL 12 ESP) (f k)). intros k2 F2 R2.
  destruct (popal_frame _ _ _ _ _ _ _ _ _ _ _ F2) as (F3 & _ & R3). cbv zeta in *.
  generalize dependent (step POPAL k2). intros k3 F3 R3.
  destruct (iret_user _ _ _ _ _ _ _ _ F3) as [R4 _].
  { rewrite R3, R2, CR, CC, Hk, Hu by first [done|by apply (bool_decide_unpack _)]. done. }
  change (iret k3) with (step IRET k3) in *. intros r Hr. rewrite R4.
  destruct r; try reflexivity; try done; rewrite R3; try reflexivity;
    (rewrite R2, CR by first [done|by apply (bool_decide_unpack _)]); apply RS; by apply (bool_decide_unpack _).
Qed.

(** ** The system call *)
Lemma run_app l1 l2 c : run (l1 ++ l2) c = run l2 (run l1 c).
Proof. apply foldl_app. Qed.
(** The program's side of the trap: its arguments are in the registers. *)
Lemma stub_before c sp ret n a0 a1 a2 l : frame c sp (ret :: n :: a0 :: a1 :: a2 :: l) -> 4 <= sp ->
  let k := run syscall_before c in
  frame k (sp - 4) (regs c EBX :: ret :: n :: a0 :: a1 :: a2 :: l) /\
  (forall r, regs k r = match r with EAX => n | EBX => a0 | ECX => a1 | EDX => a2 | ESP => sp - 4 | _ => regs c r end) /\
  (forall a, a <> sp - 4 -> ram k a = ram c a).
Proof.
  intros HF Hs. pose proof (push_frame _ _ _ (regs c EBX) HF Hs) as F0.
  destruct (movl_frame _ _ _ 2 EAX n F0 ltac:(done) ltac:(done)) as [E1 F1].
  destruct (movl_frame _ _ _ 3 EBX a0 F1 ltac:(done) ltac:(done)) as [E2 F2].
  destruct (movl_frame _ _ _ 4 ECX a1 F2 ltac:(done) ltac:(done)) as [E3 F3].
  destruct (movl_frame _ _ _ 5 EDX a2 F3 ltac:(done) ltac:(done)) as [E4 F4].
  assert (run syscall_before c = set_reg EDX a2 (set_reg ECX a1 (set_reg EBX a0 (set_reg EAX n (push (regs c EBX) c))))) as ->.
  { change (run syscall_before c) with (step (MOVL (At (4 * Z.of_nat 5) ESP) (Reg EDX)) (step (MOVL (At (4 * Z.of_nat 4) ESP) (Reg ECX))
      (step (MOVL (At (4 * Z.of_nat 3) ESP) (Reg EBX)) (step (MOVL (At (4 * Z.of_nat 2) ESP) (Reg EAX)) (push (regs c EBX) c))))).
    by rewrite E1, E2, E3, E4. }
  cbv zeta. split; [exact F4|]. split.
  - intros r. destruct (decide (r = ESP)) as [->|Hr]; [apply F4|].
    cbn [set_reg regs]. rewrite push_regs by done. by destruct r.
  - intros a Ha. by apply (push_ram c sp _ (regs c EBX) a HF).
Qed.
Lemma stub_after c sp ebx ret l : frame c sp (ebx :: ret :: l) -> let k := run syscall_after c in
  (forall r, regs k r = match r with EBX => ebx | EIP => ret | ESP => sp + 4 + 4 | _ => regs c r end) /\ ram k = ram c.
Proof.
  intros HF. cbv zeta. change (run syscall_after c) with (pop (Reg EIP) (pop (Reg EBX) c)).
  pose proof (pop_frame _ _ _ _ EBX HF ltac:(done)) as F1. split; [|done].
  intros r. rewrite (pop_regs _ _ _ _ EIP r F1) by done. destruct r; try reflexivity; rewrite (pop_regs _ _ _ _ EBX _ HF) by done; reflexivity.
Qed.

(** The state in which [syscall_handler] calls a function of the table. *)
Definition saved : list reg := [EAX; ES; DS; EAX; EBP; EDI; ESI; EDX; ECX; EBX].
Definition service_call (g : gate) (ss0 esp0 : Z) (c : cpu) : cpu := run (map (λ r, PUSHL (Reg r)) saved) (enter g ss0 esp0 [] c).
Lemma service_call_frame g ss0 esp0 c : 60 <= esp0 < 4294967296 -> let k := service_call g ss0 esp0 c in
  frame k (esp0 - 60) ([regs c EBX; regs c ECX; regs c EDX] ++ [regs c ESI; regs c EDI; regs c EBP; regs c EAX; regs c DS; regs c ES; regs c EAX] ++
    [regs c EIP; regs c CS; regs c EFLAGS; regs c ESP; regs c SS]) /\
  (forall r, r ∈ [EAX; EBX; ECX; EDX; ESI; EDI; EBP; DS; ES] -> regs k r = regs c r) /\ regs k CS = gate_selector g /\
  forall a, a < esp0 - 60 \/ esp0 <= a -> ram k a = ram c a.
Proof.
  intros He. destruct (enter_frame g ss0 esp0 [] c) as (F0 & R0 & C0 & _ & M0); [cbn; lia|]. cbv zeta in *.
  unfold service_call. generalize dependent (enter g ss0 esp0 [] c). intros k F0 R0 C0 M0.
  cbn [length Nat.add Z.of_nat rev app] in F0, M0. change (4 * Z.of_nat 5) with 20 in *.
  rewrite run_pushes by (by apply (bool_decide_unpack _)).
  destruct (pushes_frame (map (regs k) saved) k _ _ F0) as (F1 & R1 & M1); [cbn; lia|]. cbv zeta in *.
  generalize dependent (foldl (λ k v, push v k) k (map (regs k) saved)). intros k1 F1 R1 M1.
  cbn [saved map length rev app] in F1, M1. change (4 * Z.of_nat 10) with 40 in *. replace (esp0 - 20 - 40) with (esp0 - 60) in * by lia.
  split; [|split; [|split]].
  - cbn [app]. rewrite !R0 in F1 by (by apply (bool_decide_unpack _)). exact F1.
  - intros r Hr. assert (r <> ESP) as Hn by (intros ->; revert Hr; by apply (bool_decide_unpack _)). rewrite R1 by done.
    apply R0. rewrite !elem_of_cons in *. tauto.
  - by rewrite R1.
  - intros a Ha. rewrite M1 by lia. apply M0. lia.
Qed.

Lemma syscall_exit_list : syscall_exit = map (λ r, POPL (Reg r)) [EBX; ECX; EDX; ESI; EDI; EBP; EAX; DS; ES] ++ [ADDL 4 ESP; IRET].
Proof. reflexivity. Qed.
Lemma syscall_exit_run c :
  run syscall_exit c = step IRET (step (ADDL 4 ESP) (foldl (λ k r, pop (Reg r) k) c [EBX; ECX; EDX; ESI; EDI; EBP; EAX; DS; ES])).
Proof. rewrite syscall_exit_list. reflexivity. Qed.
(** The way out, with the result in the place of EAX. *)
Lemma service_return c p ebx ecx edx esi edi ebp eax ds es n eip cs efl sp ss v l :
  frame c p (ebx :: ecx :: edx :: esi :: edi :: ebp :: eax :: ds :: es :: n :: eip :: cs :: efl :: sp :: ss :: l) ->
  ring (regs c CS) < ring cs -> let k := run syscall_exit (set_ram (p + 24) v c) in
  (forall r, regs k r = match r with
     | EBX => ebx | ECX => ecx | EDX => edx | ESI => esi | EDI => edi | EBP => ebp | EAX => v | DS => ds | ES => es
     | EIP => eip | CS => cs | EFLAGS => efl | ESP => sp | SS => ss | CR2 => regs c CR2 end) /\
  forall a, a <> p + 24 -> ram k a = ram c a.
Proof.
  intros HF Hr. set (c1 := set_ram (p + 24) v c).
  assert (frame c1 p ([ebx; ecx; edx; esi; edi; ebp; v; ds; es] ++ n :: eip :: cs :: efl :: sp :: ss :: l)) as F0.
  { destruct HF as [H1 H2 H3]. split; [exact H1| |exact H3]. intros i x Hi. unfold c1. cbn [set_ram ram].
    destruct (decide (i = 6%nat)) as [->|Hn]; [replace (p + 4 * Z.of_nat 6) with (p + 24) by lia; rewrite upd_eq; by injection Hi|].
    rewrite upd_ne by lia. apply H2. rewrite <-Hi. by do 7 (destruct i as [|i]; [done|]). }
  destruct (pops_frame [EBX; ECX; EDX; ESI; EDI; EBP; EAX; DS; ES] c1 p _ _ F0) as (F1 & M1 & R1 & V1).
  { done. } { by apply (bool_decide_unpack _). } { by apply (bool_decide_unpack _). }
  cbv zeta in *. rewrite syscall_exit_run.
  generalize dependent (foldl (λ k r, pop (Reg r) k) c1 [EBX; ECX; EDX; ESI; EDI; EBP; EAX; DS; ES]). intros k1 F1 M1 R1 V1.
  pose proof (addl_frame k1 _ [n] _ F1) as F2. cbn [length] in F2. change (4 * Z.of_nat 1) with 4 in F2.
  assert (forall r, r <> ESP -> regs (step (ADDL 4 ESP) k1) r = regs k1 r) as R2 by (intros; by apply reg_set_ne).
  assert (ram (step (ADDL 4 ESP) k1) = ram k1) as M2 by done.
  generalize dependent (step (ADDL 4 ESP) k1). intros k2 F2 R2 M2.
  destruct (iret_user _ _ _ _ _ _ _ _ F2) as [R3 M3].
  { rewrite R2, R1 by first [done|by apply (bool_decide_unpack _)]. exact Hr. }
  change (iret k2) with (step IRET k2) in *. split.
  - intros r. rewrite R3. pose proof (λ i r v, V1 i r v) as V. destruct r; try reflexivity; rewrite R2 by done.
    + exact (V1 6%nat EAX _ eq_refl eq_refl).
    + exact (V1 0%nat EBX _ eq_refl eq_refl).
    + exact (V1 1%nat ECX _ eq_refl eq_refl).
    + exact (V1 2%nat EDX _ eq_refl eq_refl).
    + exact (V1 3%nat ESI _ eq_refl eq_refl).
    + exact (V1 4%nat EDI _ eq_refl eq_refl).
    + exact (V1 5%nat EBP _ eq_refl eq_refl).
    + exact (V1 7%nat DS _ eq_refl eq_refl).
    + exact (V1 8%nat ES _ eq_refl eq_refl).
    + apply R1; first [done|by apply (bool_decide_unpack _)].
  - intros a Ha. rewrite M3, M2, M1. unfold c1. cbn. by apply upd_ne.
Qed.

(** A system call as the program makes it, from the stub on. *)
Definition user_syscall (body : string -> cpu -> cpu) (idt : list gate) (ss0 esp0 : Z) (c : cpu) : option cpu :=
  k ← INT SYSCALL idt ss0 esp0 (run syscall_before c);
  mret (run syscall_after (syscall_handler body k)).
(** The names of [include/unistd.h] by their numbers, and the kernel's functions. *)
Definition sysnum (k : call) : Z :=
  match k with
  | SYS_RESTART => 0 | SYS_EXIT => 1 | SYS_EXECUTE => 2 | SYS_READ => 3 | SYS_WRITE => 4 | SYS_OPEN => 5 | SYS_CLOSE => 6
  | SYS_GETARGS => 7 | SYS_VIDMAP => 8 | SYS_SET_HANDLER => 9 | SYS_SIGRETURN => 10 | SYS_FORK => 11 | SYS_EXECV => 12
  | SYS_WAIT => 13 | SYS_WAITPID => 14 | SYS_GETPID => 15 | SYS_GETPPID => 16 | SYS_SBRK => 17 | SYS_MMAP => 18
  | SYS_MUNMAP => 19 | SYS_STAT => 20
  end.
Definition service (k : call) : string :=
  match k with
  | SYS_RESTART => "sys_restart" | SYS_EXIT => "sys_exit" | SYS_EXECUTE => "sys_execute" | SYS_READ => "sys_read"
  | SYS_WRITE => "sys_write" | SYS_OPEN => "sys_open" | SYS_CLOSE => "sys_close" | SYS_GETARGS => "sys_getargs"
  | SYS_VIDMAP => "sys_vidmap" | SYS_SET_HANDLER => "sys_set_handler" | SYS_SIGRETURN => "sys_sigreturn"
  | SYS_FORK => "sys_fork" | SYS_EXECV => "sys_execv" | SYS_WAIT => "sys_wait" | SYS_WAITPID => "sys_waitpid"
  | SYS_GETPID => "sys_getpid" | SYS_GETPPID => "sys_getppid" | SYS_SBRK => "sys_sbrk" | SYS_MMAP => "sys_mmap"
  | SYS_MUNMAP => "sys_munmap" | SYS_STAT => "sys_stat"
  end%string.
Lemma service_found k : sysnum k < NCALL /\ syscall_table !! Z.to_nat (sysnum k) = Some (service k).
Proof. by destruct k. Qed.

(** What the program gets back. *)
Definition returned (c c' : cpu) (sp ret v : Z) : Prop :=
  regs c' EAX = v /\ regs c' EIP = ret /\ regs c' ESP = sp + 4 /\
  forall r, r ∈ [EBX; ESI; EDI; EBP; EFLAGS; CS; SS; DS; ES] -> regs c' r = regs c r.

Lemma run_service f rest k : run ([CALL f; MOVL (Reg EAX) (At 24 ESP)] ++ rest) k =
  run rest (set_ram (u32 (24 + regs (f k) ESP)) (regs (f k) EAX) (f k)).
Proof. reflexivity. Qed.
Lemma run_refusal v rest k : run (MOVL (Imm v) (At 24 ESP) :: rest) k = run rest (set_ram (u32 (24 + regs k ESP)) v k).
Proof. reflexivity. Qed.

Section syscall.
Context (body : string -> cpu -> cpu) (ss0 esp0 : Z).

Lemma handler_return c k g sp ret n a0 a1 a2 l c1 v : 4 <= sp -> sp + 4 <= esp0 - 60 \/ esp0 <= sp - 4 ->
  frame c sp (ret :: n :: a0 :: a1 :: a2 :: l) -> k = run syscall_before c -> ring (regs c CS) = 3 -> 60 <= esp0 < 4294967296 ->
  ring (gate_selector g) = 0 ->
  (forall r, r ∈ [ESP; EBX; ESI; EDI; EBP; CS; SS; DS; ES] -> regs c1 r = regs (service_call g ss0 esp0 k) r) ->
  (forall a, esp0 - 60 + 12 <= a < esp0 \/ sp - 4 <= a < sp + 4 -> ram c1 a = ram (service_call g ss0 esp0 k) a) ->
  returned c (run syscall_after (run syscall_exit (set_ram (esp0 - 60 + 24) v c1))) sp ret v.
Proof using Type.
  intros Hs Hap HF -> Hu He Hg H1 H2. destruct (stub_before c sp ret n a0 a1 a2 l HF Hs) as (F0 & R0 & _). cbv zeta in *.
  generalize dependent (run syscall_before c). intros k H1 H2 F0 R0.
  destruct (service_call_frame g ss0 esp0 k He) as (F1 & R1 & C1 & M1). cbv zeta in *.
  generalize dependent (service_call g ss0 esp0 k). intros k1 H1 H2 F1 R1 C1 M1.
  destruct (frame_call k1 c1 _ _ _ F1) as (xs & Hxs & F2).
  { rewrite H1 by (by apply (bool_decide_unpack _)). apply F1. }
  { intros a Ha. apply H2. left. cbn [length app] in Ha. lia. }
  destruct xs as [|x0 [|x1 [|x2 [|? ?]]]]; try done.
  destruct (service_return _ _ _ _ _ _ _ _ _ _ _ _ _ _ _ _ _ v _ F2) as [R3 M3].
  { rewrite H1, C1, Hg, R0, Hu by (by apply (bool_decide_unpack _)). done. }
  cbv zeta in *. generalize dependent (run syscall_exit (set_ram (esp0 - 60 + 24) v c1)). intros c2 R3 M3.
  assert (frame c2 (sp - 4) (regs c EBX :: ret :: [])) as F4.
  { split.
    - rewrite R3. apply F0.
    - intros i x Hi. pose proof (lookup_lt_Some _ _ _ Hi) as Hlt. cbn [length] in Hlt.
      rewrite M3, H2, M1 by lia. apply F0. by destruct i as [|[|i]].
    - pose proof (fr_room _ _ _ HF) as Hroom. cbn [length] in *. lia. }
  destruct (stub_after _ _ _ _ _ F4) as [R5 _]. cbv zeta in *.
  split; [by rewrite R5, R3|]. split; [by rewrite R5|]. split; [rewrite R5; lia|].
  intros r Hr. rewrite R5. destruct r; try (exfalso; revert Hr; by apply (bool_decide_unpack _)); try reflexivity;
    rewrite R3; try apply R0; by rewrite R0.
Qed.

(** C7: a system call by a program in ring 3, from its call of the stub
    [syscall(n, a0, a1, a2)] of the user library through the trap, the gate
    that [trap_init] made, [syscall_handler] and its table, and back.  For the
    number of a system call the kernel's function of that name is called with
    the three arguments on its stack and interrupts as they were, and if it
    keeps to the calling convention the stub returns its result to its caller
    with the stack and all registers that a function keeps.  For any other
    number nothing is called and the result is -1. *)
Theorem syscall_correct idt g c sp ret n a0 a1 a2 l :
  idt !! Z.to_nat SYSCALL = Some g -> gate_dpl g = 3 -> gate_type g = 15 -> gate_selector g = KERNEL_CS ->
  ring (regs c CS) = 3 -> 60 <= esp0 < 4294967296 -> 4 <= sp -> sp + 4 <= esp0 - 60 \/ esp0 <= sp - 4 ->
  frame c sp (ret :: n :: a0 :: a1 :: a2 :: l) -> 0 <= n ->
  let k := service_call g ss0 esp0 (run syscall_before c) in
  (forall s, n = sysnum s -> cdecl 12 esp0 (body (service s)) k ->
     (forall a, sp - 4 <= a < sp + 4 -> ram (body (service s) k) a = ram k a) ->
     (exists l', frame k (esp0 - 60) (a0 :: a1 :: a2 :: l')) /\
     exists c', user_syscall body idt ss0 esp0 c = Some c' /\ returned c c' sp ret (regs (body (service s) k) EAX)) /\
  (NCALL <= n -> exists c', user_syscall body idt ss0 esp0 c = Some c' /\ returned c c' sp ret 4294967295).
Proof using Type.
  intros Hg Hd Ht Hsel Hu He Hs Hap HF Hn k. destruct (stub_before c sp ret n a0 a1 a2 l HF Hs) as (F0 & R0 & M0). cbv zeta in *.
  assert (user_syscall body idt ss0 esp0 c = Some (run syscall_after (syscall_handler body (enter g ss0 esp0 [] (run syscall_before c))))) as HU.
  { unfold user_syscall, INT. rewrite Hg. cbn [mbind option_bind]. rewrite Hd, R0, Hu. done. }
  destruct (service_call_frame g ss0 esp0 (run syscall_before c) He) as (F1 & R1 & C1 & M1). cbv zeta in *. fold k in F1, R1, C1, M1.
  assert (regs k EAX = n) as En by (rewrite R1, R0 by (by apply (bool_decide_unpack _)); done).
  assert (ring (gate_selector g) = 0) as Hk0 by (by rewrite Hsel).
  assert (syscall_handler body (enter g ss0 esp0 [] (run syscall_before c)) = if n <? NCALL then
    match syscall_table !! Z.to_nat n with
    | Some f => run ([CALL (body f); MOVL (Reg EAX) (At 24 ESP)] ++ syscall_exit) k | None => k end
    else run (MOVL (Imm 4294967295) (At 24 ESP) :: syscall_exit) k) as HH.
  { rewrite <-En. reflexivity. }
  rewrite HU, HH. split.
  - intros s -> [CR CM] HM. destruct (service_found s) as [Hlt Hf]. rewrite (proj2 (Z.ltb_lt _ _)) by done. rewrite Hf. split.
    { rewrite !R0 in F1. eexists. exact F1. }
    eexists. split; [reflexivity|].
    rewrite run_service.
    rewrite CR, (fr_esp _ _ _ F1), u32_id by first [lia|by apply (bool_decide_unpack _)].
    replace (24 + (esp0 - 60)) with (esp0 - 60 + 24) by lia.
    eapply (handler_return c _ g sp ret (sysnum s) a0 a1 a2 l); try done.
    intros a [Ha|Ha]; [apply CM; rewrite (fr_esp _ _ _ F1); lia|by apply HM].
  - intros Hge. rewrite (proj2 (Z.ltb_ge _ _)) by done. eexists. split; [reflexivity|].
    rewrite run_refusal.
    rewrite (fr_esp _ _ _ F1), u32_id by lia. replace (24 + (esp0 - 60)) with (esp0 - 60 + 24) by lia.
    by eapply (handler_return c _ g sp ret n a0 a1 a2 l).
Qed.
End syscall.

(** ** A program in ring 3 *)
Definition user_ram (a : Z) : Z :=
  if a =? 5000 then 77 else if a =? 5004 then 3 else if a =? 5008 then 1 else if a =? 5012 then 6000 else if a =? 5016 then 20 else 0.
Definition user_cpu : cpu :=
  Cpu (λ r, match r with CS => 35 | SS => 43 | ESP => 5000 | EAX => 1 | EBX => 2 | ECX => 3 | EDX => 4 | ESI => 5 | EDI => 6 | EBP => 7
                       | EFLAGS => 514 | _ => 0 end) user_ram.
Definition sample_gate (v : Z) : gate := final_gate sample_link v.
(** [do_timer] as a function that only clobbers EAX. *)
Definition clobber (c : cpu) : cpu := set_reg EAX 0 c.
Lemma clobber_cdecl n lim c : cdecl n lim clobber c.
Proof.
  split; [|done]. intros r Hr. apply reg_set_ne. intros ->. revert Hr. by apply (bool_decide_unpack _).
Qed.
Lemma irq_transparent_witness : regs (run (irq_handler clobber) (enter (sample_gate 32) 24 8000 [] user_cpu)) EAX = 1.
Proof.
  destruct (irq_transparent (sample_gate 32) 24 8000 clobber user_cpu) as [H _].
  - lia.
  - by vm_compute.
  - by vm_compute.
  - apply clobber_cdecl.
  - rewrite (H EAX ltac:(done)). reflexivity.
Defined.
Lemma page_fault_shifts_witness :
  regs (run (page_fault_handler clobber) (enter (sample_gate 14) 24 8000 [6] user_cpu)) ESI = 7 /\
  regs (run (page_fault_handler clobber) (enter (sample_gate 14) 24 8000 [6] user_cpu)) EAX = 6.
Proof.
  assert (ring (gate_selector (sample_gate 14)) = 0) as Hg by (by vm_compute).
  pose proof (page_fault_shifts (sample_gate 14) 24 8000 6 clobber user_cpu ltac:(lia) eq_refl Hg (clobber_cdecl _ _ _)) as H. cbv zeta in H.
  split; [rewrite (H ESI ltac:(done))|rewrite (H EAX ltac:(done))]; reflexivity.
Defined.
(** [read(1, 6000, 20)], with a kernel whose functions return 4. *)
Definition answer (s : string) (c : cpu) : cpu := set_reg EAX 4 c.
Lemma answer_cdecl s n lim c : cdecl n lim (answer s) c.
Proof.
  split; [|done]. intros r Hr. apply reg_set_ne. intros ->. revert Hr. by apply (bool_decide_unpack _).
Qed.
Lemma answer_ram s c a : ram (answer s c) a = ram c a.
Proof. done. Qed.
Lemma answer_result s c : regs (answer s c) EAX = 4.
Proof. done. Qed.
Lemma syscall_correct_witness : exists c', user_syscall answer (map sample_gate (seqZ 0 256)) 24 8000 user_cpu = Some c' /\
  regs c' EAX = 4 /\ regs c' EIP = 77 /\ regs c' EBX = 2.
Proof.
  assert (frame user_cpu 5000 [77; 3; 1; 6000; 20]) as F.
  { split; [done| |cbn; lia]. intros [|[|[|[|[|i]]]]] x [= <-]; by vm_compute. }
  destruct (syscall_correct answer 24 8000 (map sample_gate (seqZ 0 256)) (sample_gate 128) user_cpu 5000 77 3 1 6000 20 []) as [H _].
  - by vm_compute.
  - by vm_compute.
  - by vm_compute.
  - by vm_compute.
  - by vm_compute.
  - lia.
  - lia.
  - lia.
  - exact F.
  - lia.
  - destruct (H SYS_READ eq_refl) as (_ & c' & H1 & H2 & H3 & _ & H4).
    + apply answer_cdecl.
    + intros a _. apply answer_ram.
    + rewrite answer_result in H2. exists c'. split; [exact H1|]. split; [exact H2|]. split; [exact H3|]. apply H4. by apply (bool_decide_unpack _).
Defined.
