(* ===== verification/SwitchProps.v ===== *)
(** * [swtch] of [kernel/switch.S]: a thread goes on where it was *)
From S2P Require Import Prelude Kmalloc KmallocRing Idt IdtProps Entry EntryProps.

(** The registers of a [context_t] by their displacements. *)
Definition save (l : list (Z * reg)) : list instr := map (λ x, MOVL (Reg x.2) (At x.1 EAX)) l.
Definition load (l : list (Z * reg)) : list instr := map (λ x, MOVL (At x.1 EAX) (Reg x.2)) l.
Definition saves : list (Z * reg) := [(4, ESP); (8, EBX); (12, ECX); (16, EDX); (20, ESI); (24, EDI); (28, EBP)].
Definition loads : list (Z * reg) := [(28, EBP); (24, EDI); (20, ESI); (16, EDX); (12, ECX); (8, EBX); (4, ESP)].

Lemma save_run l : forall k p, regs k EAX = p -> 0 <= p < 4294967200 -> Forall (λ x, 0 <= x.1 <= 32) l -> NoDup l.*1 ->
  let k' := run (save l) k in (forall r, regs k' r = regs k r) /\ (forall d r, (d, r) ∈ l -> ram k' (p + d) = regs k r) /\
  (forall a, a ∉ map (λ x, p + x.1) l -> ram k' a = ram k a).
Proof.
  induction l as [|[d r] l IH]; intros k p Hp Hr Hd Hn; cbv zeta.
  { split; [done|]. split; [by intros d r ?%elem_of_nil|done]. }
  apply Forall_cons in Hd as [Hd1 Hd]. cbn [fst] in Hd1. cbn [fmap list_fmap fst] in Hn. apply NoDup_cons in Hn as [Hn1 Hn].
  set (k1 := set_ram (p + d) (regs k r) k).
  assert (run (save ((d, r) :: l)) k = run (save l) k1) as ->.
  { change (run (save ((d, r) :: l)) k) with (run (save l) (set_ram (u32 (d + regs k EAX)) (regs k r) k)).
    rewrite Hp, u32_id by lia. by rewrite Z.add_comm. }
  destruct (IH k1 p Hp Hr Hd Hn) as (R & M & K). cbv zeta in *. split; [done|]. split.
  - intros d' r' [[= -> ->]|Hin]%elem_of_cons; [|by apply M].
    rewrite K. { unfold k1. cbn. apply upd_eq. }
    intros (x & Hx & Hxl)%list_elem_of_fmap. apply Hn1. apply list_elem_of_fmap. exists x. split; [lia|done].
  - intros a Ha. cbn [map fst] in Ha. apply not_elem_of_cons in Ha as [Ha1 Ha]. rewrite K by done. unfold k1. cbn. by apply upd_ne.
Qed.
Lemma load_run l : forall k p, regs k EAX = p -> 0 <= p < 4294967200 -> Forall (λ x, 0 <= x.1 <= 32) l -> NoDup l.*2 -> EAX ∉ l.*2 ->
  let k' := run (load l) k in (forall r, r ∉ l.*2 -> regs k' r = regs k r) /\ (forall d r, (d, r) ∈ l -> regs k' r = ram k (p + d)) /\ ram k' = ram k.
Proof.
  induction l as [|[d r] l IH]; intros k p Hp Hr Hd Hn He; cbv zeta.
  { split; [done|]. split; [by intros d r ?%elem_of_nil|done]. }
  apply Forall_cons in Hd as [Hd1 Hd]. cbn [fst] in Hd1. cbn [fmap list_fmap snd] in Hn, He.
  apply NoDup_cons in Hn as [Hn1 Hn]. apply not_elem_of_cons in He as [He1 He].
  set (k1 := set_reg r (ram k (p + d)) k).
  assert (run (load ((d, r) :: l)) k = run (load l) k1) as ->.
  { change (run (load ((d, r) :: l)) k) with (run (load l) (set_reg r (ram k (u32 (d + regs k EAX))) k)).
    rewrite Hp, u32_id by lia. by rewrite Z.add_comm. }
  destruct (IH k1 p) as (R & M & K); [by unfold k1; rewrite reg_set_ne|done..|]. cbv zeta in *. split; [|split; [|done]].
  - intros x Hx. cbn [fmap list_fmap snd] in Hx. apply not_elem_of_cons in Hx as [Hx1 Hx]. rewrite R by done. by apply reg_set_ne.
  - intros d' r' [[= -> ->]|Hin]%elem_of_cons; [|by rewrite (M _ _ Hin)]. rewrite R by done. apply reg_set_eq.
Qed.

Lemma swtch_list : swtch = [MOVL (At 4 ESP) (Reg EAX); POPL (At 0 EAX)] ++ save saves ++ [MOVL (At 4 ESP) (Reg EAX)] ++ load loads ++
  [PUSHL (At 0 EAX); MOVL (At 32 EAX) (Reg EAX); RET].
Proof. reflexivity. Qed.
Lemma swtch_parts c : run swtch c =
  run [PUSHL (At 0 EAX); MOVL (At 32 EAX) (Reg EAX); RET] (run (load loads) (run [MOVL (At 4 ESP) (Reg EAX)]
    (run (save saves) (run [MOVL (At 4 ESP) (Reg EAX); POPL (At 0 EAX)] c)))).
Proof. rewrite swtch_list. reflexivity. Qed.

Lemma run_first i j c : run [i; j] c = step j (step i c).
Proof. reflexivity. Qed.
Lemma run_one i c : run [i] c = step i c.
Proof. reflexivity. Qed.
Lemma pop_field c : step (POPL (At 0 EAX)) c = set_ram (u32 (0 + regs (drop_top c) EAX)) (top c) (drop_top c).
Proof. reflexivity. Qed.
Lemma run_leave c : run [PUSHL (At 0 EAX); MOVL (At 32 EAX) (Reg EAX); RET] c =
  pop (Reg EIP) (set_reg EAX (ram (push (ram c (u32 (0 + regs c EAX))) c) (u32 (32 + regs (push (ram c (u32 (0 + regs c EAX))) c) EAX)))
    (push (ram c (u32 (0 + regs c EAX))) c)).
Proof. reflexivity. Qed.

(** [swtch(prev, next)]: the stack, the two contexts and the word below the
    next thread's stack do not overlap. *)
Record switching (c : cpu) (sp ret prev next : Z) : Prop := {
  sw_frame : frame c sp [ret; prev; next];
  sw_prev : 0 <= prev < 4294967200 /\ (prev + 36 <= sp \/ sp + 12 <= prev);
  sw_next : 0 <= next < 4294967200 /\ (next + 36 <= prev \/ prev + 36 <= next);
  sw_stack : 4 <= ram c (next + 4) < 4294967296 /\
    forall x, x = prev \/ x = next -> ram c (next + 4) <= x \/ x + 36 <= ram c (next + 4) - 4
}.

(** The first two instructions: the return address is in the old context. *)
Lemma swtch_enter c sp ret prev next : frame c sp [ret; prev; next] -> 0 <= prev < 4294967200 -> prev + 36 <= sp \/ sp + 12 <= prev ->
  let k := run [MOVL (At 4 ESP) (Reg EAX); POPL (At 0 EAX)] c in
  regs k EAX = prev /\ (forall r, r <> EAX -> r <> ESP -> regs k r = regs c r) /\ frame k (sp + 4) [prev; next] /\
  ram k prev = ret /\ forall a, a <> prev -> ram k a = ram c a.
Proof.
  intros HF Hp Hps. cbv zeta. rewrite run_first. change (At 4 ESP) with (At (4 * Z.of_nat 1) ESP).
  destruct (movl_frame _ _ _ 1 EAX prev HF ltac:(done) ltac:(done)) as [E0 F0]. rewrite E0, pop_field. clear E0.
  assert (regs (set_reg EAX prev c) EAX = prev /\ forall r, r <> EAX -> regs (set_reg EAX prev c) r = regs c r) as [A0 R0].
  { split; [apply reg_set_eq|]. intros r Hr. by apply reg_set_ne. }
  assert (forall a, ram (set_reg EAX prev c) a = ram c a) as M0 by done.
  generalize dependent (set_reg EAX prev c). intros k0 F0 A0 R0 M0. rewrite (frame_top _ _ _ _ F0).
  pose proof (drop_frame _ _ _ _ F0) as F1.
  assert (forall r, r <> ESP -> regs (drop_top k0) r = regs k0 r) as R1 by (intros; by apply reg_set_ne).
  assert (forall a, ram (drop_top k0) a = ram k0 a) as M1 by done.
  generalize dependent (drop_top k0). intros k1 F1 R1 M1. rewrite R1, A0, u32_id by (done || lia). rewrite Z.add_0_l.
  split; [by cbn; rewrite R1|]. split; [intros r H1 H2; cbn [set_ram regs]; by rewrite R1, R0|]. split; [|split].
  - eapply frame_ext; [exact F1|apply F1|]. intros a Ha. cbn [length] in Ha. cbn [set_ram ram]. apply upd_ne. lia.
  - cbn [set_ram ram]. apply upd_eq.
  - intros a Ha. cbn [set_ram ram]. rewrite upd_ne by done. by rewrite M1, M0.
Qed.
(** The last three, the new context at [next] with the stack [nsp]. *)
Lemma swtch_leave k next nsp : regs k EAX = next -> regs k ESP = nsp -> 0 <= next < 4294967200 -> 4 <= nsp < 4294967296 ->
  nsp <= next \/ next + 36 <= nsp - 4 ->
  let k' := run [PUSHL (At 0 EAX); MOVL (At 32 EAX) (Reg EAX); RET] k in
  regs k' EIP = ram k next /\ regs k' ESP = nsp /\ regs k' EAX = ram k (next + 32) /\
  (forall r, r <> EIP -> r <> ESP -> r <> EAX -> regs k' r = regs k r) /\ forall a, a <> nsp - 4 -> ram k' a = ram k a.
Proof.
  intros A4 S4 Hn Hsp N2. cbv zeta. rewrite run_leave, A4. rewrite (u32_id (0 + next)), Z.add_0_l by lia.
  assert (frame k nsp []) as F4 by (split; [done|done|cbn; lia]).
  pose proof (push_frame _ _ _ (ram k next) F4 ltac:(lia)) as F5.
  assert (forall r, r <> ESP -> regs (push (ram k next) k) r = regs k r) as R5 by (intros; by apply push_regs).
  pose proof (λ a, push_ram _ _ _ (ram k next) a F4 ltac:(lia)) as M5.
  generalize dependent (push (ram k next) k). intros k5 F5 R5 M5. rewrite R5, A4, (u32_id (32 + next)), M5, (Z.add_comm 32) by (done || lia).
  assert (frame (set_reg EAX (ram k (next + 32)) k5) (nsp - 4) [ram k next]) as F6.
  { eapply frame_ext; [exact F5| |done]. rewrite reg_set_ne by done. apply F5. }
  assert (regs (set_reg EAX (ram k (next + 32)) k5) EAX = ram k (next + 32)) as A6 by apply reg_set_eq.
  assert (forall r, r <> EAX -> regs (set_reg EAX (ram k (next + 32)) k5) r = regs k5 r) as R6 by (intros; by apply reg_set_ne).
  assert (forall a, ram (set_reg EAX (ram k (next + 32)) k5) a = ram k5 a) as M6 by done.
  generalize dependent (set_reg EAX (ram k (next + 32)) k5). intros k6 F6 A6 R6 M6.
  pose proof (λ r, pop_regs _ _ _ _ EIP r F6 ltac:(done)) as R7. pose proof (pop_frame _ _ _ _ EIP F6 ltac:(done)) as F7.
  assert (forall a, ram (pop (Reg EIP) k6) a = ram k6 a) as M7 by done.
  generalize dependent (pop (Reg EIP) k6). intros k7 R7 F7 M7.
  split; [by rewrite R7|]. split; [rewrite (fr_esp _ _ _ F7); lia|]. split; [by rewrite R7|]. split.
  - intros r H1 H2 H3. rewrite R7. unfold reg_eqb. rewrite !bool_decide_false by done. by rewrite R6, R5.
  - intros a Ha. by rewrite M7, M6, M5.
Qed.

Lemma swtch_run c sp ret prev next : switching c sp ret prev next -> let c' := run swtch c in
  (regs c' EIP = ram c next /\ regs c' ESP = ram c (next + 4) /\ regs c' EAX = ram c (next + 32) /\
   (forall d r, (d, r) ∈ loads -> r <> ESP -> regs c' r = ram c (next + d)) /\
   (forall r, r ∈ [EFLAGS; CS; SS; DS; ES; CR2] -> regs c' r = regs c r)) /\
  (ram c' prev = ret /\ ram c' (prev + 4) = sp + 4 /\ forall d r, (d, r) ∈ saves -> r <> ESP -> ram c' (prev + d) = regs c r) /\
  (forall a, a < prev \/ prev + 32 <= a -> a <> ram c (next + 4) - 4 -> ram c' a = ram c a).
Proof.
  intros [HF [Hp Hps] [Hn Hnp] [Hsp Hst]]. cbv zeta. rewrite swtch_parts.
  pose proof (fr_room _ _ _ HF) as Hroom. cbn [length] in Hroom. pose proof (fr_esp _ _ _ HF) as HE.
  destruct (swtch_enter _ _ _ _ _ HF Hp Hps) as (A1 & R1 & F2 & P1 & M1). cbv zeta in *.
  generalize dependent (run [MOVL (At 4 ESP) (Reg EAX); POPL (At 0 EAX)] c). intros k1 A1 R1 F2 P1 M1.
  assert (regs k1 ESP = sp + 4) as S1 by apply F2.
  (* the context is saved *)
  destruct (save_run saves k1 prev A1 Hp) as (R2 & V2 & M2).
  { repeat (apply Forall_cons_2; [cbn; lia|]). by constructor. } { by apply (bool_decide_unpack _). }
  cbv zeta in *. set (k2 := run (save saves) k1) in *.
  assert (forall a, a < prev + 4 \/ prev + 32 <= a -> ram k2 a = ram k1 a) as M3.
  { intros a Ha. apply M2. cbn. rewrite !not_elem_of_cons. split_and!; try lia. by apply not_elem_of_nil. }
  assert (frame k2 (sp + 4) [prev; next]) as F3.
  { eapply frame_ext; [exact F2|rewrite R2; apply F2|]. intros a Ha. cbn [length] in Ha. apply M3. lia. }
  clearbody k2.
  destruct (movl_frame _ _ _ 1 EAX next F3 ltac:(done) ltac:(done)) as [E3 _].
  rewrite run_one. change (At 4 ESP) with (At (4 * Z.of_nat 1) ESP). rewrite E3.
  (* the other one is loaded *)
  destruct (load_run loads (set_reg EAX next k2) next) as (R4 & V4 & M4).
  { apply reg_set_eq. } { done. } { repeat (apply Forall_cons_2; [cbn; lia|]). by constructor. }
  { by apply (bool_decide_unpack _). } { by apply (bool_decide_unpack _). }
  cbv zeta in *. set (k4 := run (load loads) _) in *.
  assert (forall a, (a < prev \/ prev + 32 <= a) -> ram k4 a = ram c a) as M5.
  { intros a Ha. rewrite M4. cbn [set_reg ram]. rewrite M3, M1 by lia. done. }
  assert (forall d r, (d, r) ∈ loads -> 0 <= d < 36 -> regs k4 r = ram c (next + d)) as V5.
  { intros d r Hin Hd. rewrite (V4 d r Hin). rewrite <-M4. apply M5. lia. }
  assert (regs k4 EAX = next) as A4 by (rewrite R4 by (by apply (bool_decide_unpack _)); apply reg_set_eq).
  assert (regs k4 ESP = ram c (next + 4)) as S4 by (apply (V5 4 ESP); [by apply (bool_decide_unpack _)|lia]).
  assert (forall a, ram k4 a = ram k2 a) as M6 by (intros a; by rewrite M4). clearbody k4.
  (* and the return *)
  pose proof (Hst prev ltac:(by left)) as N1. pose proof (Hst next ltac:(by right)) as N2.
  destruct (swtch_leave k4 next (ram c (next + 4)) A4 S4 Hn Hsp N2) as (I5 & S5 & A5 & R5 & M7). cbv zeta in *.
  generalize dependent (run [PUSHL (At 0 EAX); MOVL (At 32 EAX) (Reg EAX); RET] k4). intros k5 I5 S5 A5 R5 M7.
  split; [split; [|split; [|split; [|split]]]|split; [split; [|split]|]].
  - by rewrite I5, M5 by lia.
  - done.
  - by rewrite A5, M5 by lia.
  - intros d r Hin Hr. assert (r <> EIP /\ r <> EAX /\ 0 <= d < 36) as (H1 & H2 & H3).
    { unfold loads in Hin. rewrite !elem_of_cons, elem_of_nil in Hin. clear -Hin.
      repeat (destruct Hin as [[= -> ->]|Hin]; [split; [done|split; [done|lia]]|]). done. }
    rewrite R5 by done. by apply V5.
  - intros r Hr. assert (r <> EIP /\ r <> ESP /\ r <> EAX) as (H1 & H2 & H3).
    { split_and!; intros ->; revert Hr; by apply (bool_decide_unpack _). }
    rewrite R5, R4 by (done || (intros Hl; revert Hr; clear -Hl; unfold loads in Hl; cbn in Hl; rewrite !elem_of_cons, elem_of_nil in Hl;
      repeat (destruct Hl as [->|Hl]; [by apply (bool_decide_unpack _)|]); done)).
    rewrite reg_set_ne by done. rewrite R2. by apply R1.
  - rewrite M7, M6, M3 by lia. done.
  - rewrite M7, M6 by lia. rewrite (V2 4 ESP) by (by apply (bool_decide_unpack _)). done.
  - intros d r Hin Hr. assert (r <> EAX /\ 0 <= d < 32) as (H2 & H3).
    { unfold saves in Hin. rewrite !elem_of_cons, elem_of_nil in Hin. clear -Hin.
      repeat (destruct Hin as [[= -> ->]|Hin]; [split; [done|lia]|]). done. }
    rewrite M7, M6 by lia. rewrite (V2 d r Hin). by apply R1.
  - intros a Ha Hn1. rewrite M7 by done. rewrite M6, M3, M1 by lia. done.
Qed.

Ltac slot d := exists d; (split; [by apply (bool_decide_unpack _)|]); (split; [by apply (bool_decide_unpack _)|]); split; [lia|done].
(** C8: [swtch] stops a thread so that it can go on.  A thread that gives up
    the processor in [swtch(prev, next)] returns from that very call - to its
    caller, with the stack and the registers it had - as soon as any other
    thread, whatever has happened in the meantime, calls [swtch(x, prev)] with
    the first eight words of [prev]'s context unchanged; the call returns what
    is in the context's [eax], where [do_exit] leaves the status for the
    parent.  In between the processor runs [next] from where its context says. *)
Theorem swtch_roundtrip c1 sp ret prev next c2 sp2 ret2 x :
  switching c1 sp ret prev next -> switching c2 sp2 ret2 x prev ->
  (forall a, prev <= a < prev + 32 -> ram c2 a = ram (run swtch c1) a) ->
  (regs (run swtch c1) EIP = ram c1 next /\ regs (run swtch c1) ESP = ram c1 (next + 4)) /\
  regs (run swtch c2) EIP = ret /\ regs (run swtch c2) ESP = sp + 4 /\ regs (run swtch c2) EAX = ram c2 (prev + 32) /\
  forall r, r ∈ [EBX; ECX; EDX; ESI; EDI; EBP] -> regs (run swtch c2) r = regs c1 r.
Proof.
  intros H1 H2 Hk. destruct (swtch_run _ _ _ _ _ H1) as ((I1 & S1 & _) & (P0 & P4 & PS) & _).
  destruct (swtch_run _ _ _ _ _ H2) as ((I2 & S2 & A2 & L2 & _) & _). cbv zeta in *.
  split; [done|]. rewrite I2, S2, !Hk, P0, P4 by lia. split; [done|]. split; [done|]. split; [done|].
  intros r Hr.
  assert (exists d, (d, r) ∈ loads /\ (d, r) ∈ saves /\ 0 <= d < 32 /\ r <> ESP) as (d & Hl & Hs & Hd & Hn).
  { rewrite !elem_of_cons, elem_of_nil in Hr. clear -Hr.
    repeat (destruct Hr as [->|Hr]; [first [slot 8|slot 12|slot 16|slot 20|slot 24|slot 28]|]). done. }
  rewrite (L2 d r Hl Hn), Hk by lia. by apply PS.
Qed.

(** Threads with contexts at 1000 and 1100 and stacks at 2000 and 3000. *)
Definition first_ram (a : Z) : Z := if a =? 2000 then 77 else if a =? 2004 then 1000 else if a =? 2008 then 1100 else
  if a =? 1100 then 88 else if a =? 1104 then 3000 else if a =? 1132 then 5 else 0.
Definition first_cpu : cpu := Cpu (λ r, match r with ESP => 2000 | EBX => 11 | ESI => 12 | _ => 0 end) first_ram.
(** The second thread calls [swtch] in its turn. *)
Definition second_cpu : cpu := foldl (λ k v, push v k) (run swtch first_cpu) [1000; 1100; 99].
Lemma swtch_roundtrip_witness : regs (run swtch second_cpu) EIP = 77 /\ regs (run swtch second_cpu) ESP = 2004 /\ regs (run swtch second_cpu) EBX = 11.
Proof.
  destruct (swtch_roundtrip first_cpu 2000 77 1000 1100 second_cpu 2988 99 1100) as (_ & H1 & H2 & _ & H3).
  - split; [split; [done| |done]| | |].
    + intros [|[|[|i]]] y [= <-]; by vm_compute.
    + lia.
    + lia.
    + change (ram first_cpu (1100 + 4)) with 3000. split; [lia|intros y [-> | ->]; lia].
  - split; [split; [by vm_compute| |done]| | |].
    + intros [|[|[|i]]] y [= <-]; by vm_compute.
    + lia.
    + lia.
    + assert (ram second_cpu (1000 + 4) = 2004) as -> by (by vm_compute). split; [lia|intros y [-> | ->]; lia].
  - intros a Ha. unfold second_cpu. cbn [foldl].
    assert (frame (run swtch first_cpu) 3000 []) as F0 by (split; [by vm_compute|done|cbn; lia]).
    pose proof (push_frame _ _ _ 1000 F0 ltac:(lia)) as F1. pose proof (push_frame _ _ _ 1100 F1 ltac:(lia)) as F2.
    rewrite (push_ram _ _ _ 99 a F2 ltac:(lia) ltac:(lia)), (push_ram _ _ _ 1100 a F1 ltac:(lia) ltac:(lia)).
    exact (push_ram _ _ _ 1000 a F0 ltac:(lia) ltac:(lia)).
  - split; [exact H1|]. split; [exact H2|]. apply H3. by apply (bool_decide_unpack _).
Defined.

(** ** A thread starts in user mode *)
Lemma to_user_parts c : run to_user c =
  step IRET (run (map (λ r, PUSHL (Reg r)) [EBX; ECX; EDX]) (run [PUSHFL; POPL (Reg EBX); ORL IF EBX]
    (run (map (λ r, PUSHL (Reg r)) [EAX; EBX]) (run [ANDL 255 EAX; MOVL (Reg EAX) (Reg DS)] c)))).
Proof. reflexivity. Qed.
Lemma user_segment c : let k := run [ANDL 255 EAX; MOVL (Reg EAX) (Reg DS)] c in
  regs k EAX = Z.land (regs c EAX) 255 /\ regs k DS = Z.land (regs c EAX) 255 /\
  (forall r, r <> EAX -> r <> DS -> regs k r = regs c r) /\ ram k = ram c.
Proof.
  set (k0 := step (ANDL 255 EAX) c). assert (regs k0 EAX = Z.land (regs c EAX) 255) as E by apply reg_set_eq.
  assert (run [ANDL 255 EAX; MOVL (Reg EAX) (Reg DS)] c = set_reg DS (regs k0 EAX) k0) as -> by reflexivity. cbv zeta.
  split; [by rewrite reg_set_ne|]. split; [by rewrite reg_set_eq|]. split; [|done].
  intros r H1 H2. rewrite reg_set_ne by done. by apply reg_set_ne.
Qed.
(** The flags go to EBX with the interrupts on. *)
Lemma user_flags c p l : frame c p l -> 4 <= p -> let k := run [PUSHFL; POPL (Reg EBX); ORL IF EBX] c in
  frame k p l /\ regs k EBX = Z.lor (regs c EFLAGS) IF /\ (forall r, r <> EBX -> r <> ESP -> regs k r = regs c r) /\
  forall a, p <= a -> ram k a = ram c a.
Proof.
  intros HF Hp. pose proof (push_frame _ _ _ (regs c EFLAGS) HF Hp) as F1.
  pose proof (λ r, push_regs c (regs c EFLAGS) r) as R1.
  pose proof (λ a, push_ram _ _ _ (regs c EFLAGS) a HF Hp) as M1.
  set (k1 := push (regs c EFLAGS) c) in *. pose proof (pop_frame _ _ _ _ EBX F1 ltac:(done)) as F2.
  pose proof (λ r, pop_regs _ _ _ _ EBX r F1 ltac:(done)) as R2. set (k2 := pop (Reg EBX) k1) in *.
  replace (p - 4 + 4) with p in F2 by lia.
  change (run [PUSHFL; POPL (Reg EBX); ORL IF EBX] c) with (set_reg EBX (Z.lor (regs k2 EBX) IF) k2). cbv zeta.
  assert (ram k2 = ram k1) as M2 by done. split; [|split; [|split]].
  - eapply frame_ext; [exact F2| |done]. rewrite reg_set_ne by done. apply F2.
  - rewrite reg_set_eq, R2. unfold reg_eqb. by rewrite bool_decide_true.
  - intros r H1 H2. rewrite reg_set_ne, R2 by done. unfold reg_eqb. rewrite !bool_decide_false by done. by apply R1.
  - intros a Ha. cbn [set_reg ram]. rewrite M2. apply M1. lia.
Qed.

